(* ===== verification/_CoqProject ===== *)
-Q . S2P
Prelude.v
PyStr.v
PyText.v
PyFloat.v
PyDict.v
Json.v
JsonRead.v
PyRound.v
Sha256.v
DataModel.v
QualityGate.v
MemoryStore.v
Provenance.v
ActionExecutor.v
HashChain.v
AuditLog.v
Refusal.v
Reproducibility.v
Levenshtein.v
TextMatch.v
Grounding.v
Standalone.v
Orchestrator.v
Base64.v
Ed25519.v
Merkle.v
FlightRecorder.v
Breaker.v
Spend.v
CompletionRouter.v
RouterConfig.v
TrackedChanges.v
EditLog.v
EgressReport.v
Redline.v
ReferenceMonitor.v
LegalV3.v
Dsse.v
TrustPolicy.v
Sync.v
PolicyEngine.v
Regex.v
Masking.v
SecurityFilter.v
PromptShield.v
DocIngest.v
DocIntel.v
Compressor.v
InvoicePack.v
PackText.v
PaperPack.v
GenericPack.v
ContractPack.v
PackOracle.v
InvoiceRun.v
IngestorImpl.v
RateLimit.v
Origin.v
OverlayGates.v
IsolatedIngest.v
MemoPack.v
OverlayApi.v
OverlayDemo.v
InferenceGateway.v
