(* ===== verification/Prelude.v ===== *)
(** * Axiom-Grid: a verification library

    Axiom-Grid reads documents, extracts fields from them and refuses to show a
    value it cannot cite; around that pipeline it keeps signed logs, routes
    model calls under a budget, and redlines contracts through a
    propose/approve/execute protocol.  This library models the Python code of
    [src/kernel], [src/kairo], [src/packs], the server of [src/overlay] and two
    files of [src/kairo-sidecar] as functions of its state and inputs, and proves what makes it correct.
    Definitions keep the names of the source; each file's comment names the
    source file it models.

    ** The parts

    Foundations, shared by every component.  [Prelude]: exceptions as
    [result], tactics and list lemmas.  [PyStr], [PyText]: Python strings
    and bytes, stripping and replacing.
    [PyFloat], [PyRound]: binary64 and one fact about its rounding.  [PyDict]:
    ordered dicts.  [Json], [JsonRead]: JSON values, the compact, indented and
    canonical printers, and [json.loads]; printers are injective and the
    reader is their inverse.  [Sha256], [Base64], [HashChain]: digests, HMAC,
    base64, and what it means for a list of entries to be a hash chain.
    [Ed25519]: the signature scheme as a class of operations with laws.
    [Regex], [Masking]: Python patterns, parsed from the text the program
    writes, a backtracking matcher that is sound and complete for the language
    of the pattern, and when replacing matches leaves none.

    The document pipeline.  [DataModel] has the records of
    [kernel/core/data_model.py] and [contracts.py].  [Orchestrator.run] is
    [OrchestratorImpl.run]: it takes an ingestor, a [SecurityFilter], a
    [Compressor] and a [Pack] as class instances, grounds what the pack
    returns ([Grounding], with [Levenshtein] and [TextMatch]), grades it
    ([QualityGate]) and records it ([MemoryStore], [Provenance]).
    [IngestorImpl], [SecurityFilter], [Compressor] and the packs
    [InvoicePack], [PaperPack], [GenericPack], [ContractPack] and [MemoPack]
    model these parts in full; [PackText] has what the text packs share, [PackOracle] the
    scoring of a pack against a ground truth, and [InvoiceRun] puts the filter,
    the compressor and the invoice pack together.  [Standalone] is the
    second, model-free verifier; [ActionExecutor] and [Refusal] are what a
    user sees of a suggestion and of a refusal.

    Evidence that lasts.  [AuditLog] (HMAC chain), [FlightRecorder] (hash
    chain and replay), [Merkle] (RFC 6962 trees, proofs, signed checkpoints),
    [EditLog] and [EgressReport] (Ed25519 chain and report),
    [Reproducibility] (receipts).

    Model calls.  [Breaker], [Spend], [RouterConfig] and [CompletionRouter]
    are the parts of [kernel/sidecar/melious_router.py]; a call is one
    function whose outside world (clock, locks, other threads' effects,
    transport) is an argument.  [InferenceGateway] is the tiered gateway with
    its log file.

    Contracts.  [TrackedChanges] writes and reads back OOXML revisions,
    [Redline] is the pipeline around it with its oracles, [ReferenceMonitor]
    the capability monitor and its injection corpus, [LegalV3] the governed
    transaction, [Dsse] its signed envelope, [TrustPolicy] its policy file.

    Questions about a document.  [DocIngest] cuts the pages of a PDF into
    overlapping chunks with their boxes; [DocIntel] indexes them, ranks them
    for a question, extracts the sentence that answers it with its citation,
    or refuses, and logs either in an [AuditLog].  [PromptShield] is the
    pattern scan that a question must pass.

    Local services.  [PolicyEngine]: policies for risky actions.  [Sync]:
    manifests exchanged between devices.

    The overlay server.  A request passes, from the outside in, the body
    limit, the rate limit ([RateLimit]), the key gate, the length check, the
    header and identifier middleware and the origin gate ([Origin]):
    [OverlayGates.handle] is that stack, with its buckets and counters as
    state.  [IsolatedIngest] is the protocol with the child process that
    parses a document, [OverlayApi] the routes that extract fields and answer
    questions (with the classifier that chooses a pack), [OverlayDemo] the
    routes that suggest, apply and correct over a log that outlives requests.

    ** What the theorems show

    Refuse or cite: an extraction of a run that is not sent to review carries
    an anchor into an ingested chunk and the evidence of its stage
    ([Orchestrator], [Grounding]); for invoices, with the pack and the
    compressor as they are, every span is text of a line the pack read, the
    value comes from it, and without the compressor's optional engine it is a
    quotation of the document and grounds exactly ([InvoiceRun],
    [InvoicePack], [Compressor.merge_faithful]); for the text
    packs, which fields quote the document and which do not ([PaperPack],
    [GenericPack], [ContractPack], [MemoPack]), and the oracle counts agreements
    ([PackOracle]).  An ingested file has chunks with pages and boxes, within
    the budgets, and where each of its failures comes from is stated, those
    that escape its documentation included ([IngestorImpl]); a child process
    cannot pass anything that is not such a graph of the bytes it was given,
    and an honest one loses nothing ([IsolatedIngest]).  The routes return no
    field, answer or suggestion that is not an extraction of the run, with the
    page and box of the chunk that grounds it ([OverlayApi], [OverlayDemo]),
    and run only behind every gate; the limiter decides as one
    that remembers every request, in bounded space ([OverlayGates],
    [RateLimit], [Origin]).  A blocked text
    goes no further, a phrase of a decisive signal is found inside any chunk
    (but for two patterns that look at their surroundings), and redaction is
    complete ([SecurityFilter]).  An answer
    about a document quotes the page it cites, a question that contains an
    injection is refused whatever surrounds it, before the index is searched
    or the model asked, and every outcome is logged
    ([DocIntel], [DocIngest], [PromptShield]).  Tamper
    evidence: two logs, trees, receipts, envelopes or bundles with the same
    head have the same content, or a SHA-256 collision is exhibited; nothing
    assumes that there is none ([AuditLog], [EditLog], [FlightRecorder],
    [Merkle], [Dsse]).  Round trips: logs, flights, proofs, manifests, JSON
    texts and dates are read back as written.  Budgets: ledger ceilings hold
    in every state, a completion is within the budget its caller asked for, and
    every admitted one gives its slots and probes back.
    Authority: an executed transaction was proposed, approved and is
    verifiable; the monitor grants only what its capabilities allow; the most
    restrictive policy wins; with the cloud tier disabled nothing is sent to it
    ([InferenceGateway]).  Refinements: bit-parallel edit distance computes
    the mathematical one; tracked changes implement replacement and can be
    rejected; the SQL tables are last-writer-wins maps.

    Where the code does something other than its documentation says, the
    theorem states what it does, next to the others: an approval dated before
    its proposal, manifests whose merge depends on the side, a bundle that
    verifies under another transaction's authority, a command allowed by its
    first word, a model's text logged as a grounded answer, the text
    of other documents shown for a PDF, a refused value that is suggested, an
    injected phrase that the next chunk hides, a span that the compressor's
    engine made from two lines.

    ** Bounds and fuel

    Strings are sequences of code points below U+0100 ([PyStr]); larger
    characters in patterns and messages are left out or written as their UTF-8
    bytes, as each file says.  Integers are unbounded, as in Python, except in
    SQLite columns (64 bits) and in the bit-vector algorithm, whose words are
    Python integers.  Floats are binary64 with their NaN.  Fuel appears where
    recursion is not structural and is always computed from the input: the
    length of the text in [JsonRead] and [Regex] (where the theorems
    [JsonRead.loads_fuel] and [Regex.run_complete] show that it is enough), the
    number of leaves in [Merkle], the number of chunks in [Compressor], the
    length of the page in [DocIngest] ([DocIngest.chunking_terminates]).

    ** Not modelled

    Clock readings, UUIDs, random numbers, [float(text)], embeddings,
    signatures and the transport are arguments or classes.  Texts of
    exceptions and log lines are simplified where no code reads them.  The
    language model and the embedding of a text, with the similarity of two
    vectors, are arguments of [DocIntel].  Object
    locks are not modelled: a method that runs under one is one step.  The
    parsers of PDF and DOCX files are arguments of [IngestorImpl].  The remaining
    routes of the overlay (graph, figures, evaluation, readiness, metrics), its
    thread pool and logging, the thread mode of isolated parsing, the inherited
    sidecar outside [adeu_bridge.py] and
    [prompt_shield.py], desktop automation, benchmarks and scripts are outside the model: they are I/O,
    glue over libraries, or not yet reached. *)

From stdpp Require Export prelude strings gmap pretty sorting.
From Stdlib Require Export ZArith Lia Ascii.

#[global] Open Scope Z_scope.

(** ** Exceptions and the result monad

    A Python function that may raise returns [result A].  An exception is its
    class name together with its message. *)

Record exn := Exn { exn_class : string; exn_msg : string }.

Inductive result (A : Type) : Type :=
| Ok (a : A)
| Raise (e : exn).
Arguments Ok {A} a.
Arguments Raise {A} e.

#[global] Instance exn_eq_dec : EqDecision exn.
Proof. solve_decision. Defined.

#[global] Instance result_ret : MRet result := λ A a, Ok a.
#[global] Instance result_bind : MBind result := λ A B f r,
  match r with Ok a => f a | Raise e => Raise e end.
#[global] Instance result_fmap : FMap result := λ A B f r,
  match r with Ok a => Ok (f a) | Raise e => Raise e end.

Definition is_ok {A} (r : result A) : bool :=
  match r with Ok _ => true | Raise _ => false end.

(** [raise cls msg] and the guard [if c: raise ...]. *)
Definition raise {A} (cls msg : string) : result A := Raise (Exn cls msg).
Definition ensure (c : bool) (cls msg : string) : result () :=
  if c then Ok () else raise cls msg.

Fixpoint mapM_result {A B} (f : A → result B) (l : list A) : result (list B) :=
  match l with
  | [] => Ok []
  | x :: l' => y ← f x; ys ← mapM_result f l'; Ok (y :: ys)
  end.

(** ** Hint database and tactics of the development *)

Create HintDb axg.


(** Turn boolean equations into propositions. *)
Ltac bool_prop :=
  repeat match goal with
  | H : andb _ _ = true |- _ => apply andb_true_iff in H as [? ?]
  | H : orb _ _ = false |- _ => apply orb_false_iff in H as [? ?]
  | H : negb _ = true |- _ => apply negb_true_iff in H
  | H : negb _ = false |- _ => apply negb_false_iff in H
  | H : bool_decide _ = true |- _ => apply bool_decide_eq_true in H
  | H : bool_decide _ = false |- _ => apply bool_decide_eq_false in H
  | H : Z.eqb _ _ = true |- _ => apply Z.eqb_eq in H
  | H : Z.eqb _ _ = false |- _ => apply Z.eqb_neq in H
  | H : Z.ltb _ _ = true |- _ => apply Z.ltb_lt in H
  | H : Z.ltb _ _ = false |- _ => apply Z.ltb_ge in H
  | H : Z.leb _ _ = true |- _ => apply Z.leb_le in H
  | H : Z.leb _ _ = false |- _ => apply Z.leb_gt in H
  | H : Z.gtb _ _ = _ |- _ => rewrite Z.gtb_ltb in H
  | H : Z.geb _ _ = _ |- _ => rewrite Z.geb_leb in H
  end.

(** Case analysis on the innermost scrutinee of the goal or of [H]. *)
Ltac split_match :=
  match goal with
  | |- context [match ?x with _ => _ end] =>
      lazymatch x with context [match _ with _ => _ end] => fail | _ => destruct x eqn:? end
  end.
Ltac split_match_in H :=
  match type of H with
  | context [match ?x with _ => _ end] =>
      lazymatch x with context [match _ with _ => _ end] => fail | _ => destruct x eqn:? end
  end.

Ltac crush_match H := repeat (split_match_in H; simplify_eq/=; try done).

(** ** Generic lemmas on the result monad *)

Lemma bind_Ok {A B} (f : A → result B) (r : result A) b :
  (r ≫= f) = Ok b ↔ ∃ a, r = Ok a ∧ f a = Ok b.
Proof. destruct r; split; naive_solver. Qed.

Lemma ensure_Ok c cls msg u : ensure c cls msg = Ok u ↔ c = true.
Proof. destruct c, u; split; naive_solver. Qed.

Lemma mapM_result_Ok {A B} (f : A → result B) l k :
  mapM_result f l = Ok k ↔ Forall2 (λ x y, f x = Ok y) l k.
Proof.
  revert k; induction l as [|x l IH]; intros k; simpl; split.
  - intros [=<-]; constructor.
  - inversion 1; done.
  - rewrite bind_Ok; intros (y & Hy & H). apply bind_Ok in H as (ys & Hys & [=<-]).
    constructor; [done|]. by apply IH.
  - inversion 1 as [|? y ? ys Hy Hys]; subst.
    rewrite Hy; simpl. apply IH in Hys. by rewrite Hys.
Qed.

Lemma mapM_result_length {A B} (f : A → result B) l k :
  mapM_result f l = Ok k → length k = length l.
Proof. rewrite mapM_result_Ok. intros H. symmetry. by eapply Forall2_length. Qed.

Lemma mapM_result_elem {A B} (f : A → result B) l k : mapM_result f l = Ok k →
  (∀ y, y ∈ k → ∃ x, x ∈ l ∧ f x = Ok y) ∧ (∀ x, x ∈ l → ∃ y, y ∈ k ∧ f x = Ok y).
Proof.
  intros H%mapM_result_Ok. induction H as [|x y l k Hx _ [IH1 IH2]].
  - split; by intros ? ?%not_elem_of_nil.
  - split; intros z [->|Hz]%elem_of_cons; [by exists x; split; [left|]| |by exists y; split; [left|]|].
    + destruct (IH1 z Hz) as (w & Hw & E). exists w. split; [by right|done].
    + destruct (IH2 z Hz) as (w & Hw & E). exists w. split; [by right|done].
Qed.

#[export] Hint Resolve mapM_result_length : axg.

(** [a or b] on Python strings: the empty string is falsy. *)
Definition or_str (a b : string) : string := if bool_decide (a = "") then b else a.
Definition truthy (s : string) : bool := negb (bool_decide (s = "")).

Lemma truthy_spec s : truthy s = true ↔ s ≠ "".
Proof. unfold truthy. rewrite negb_true_iff, bool_decide_eq_false. done. Qed.

(** ** Lists *)

Lemma fold_left_app_snoc {A B} (f : A → B → A) l x a :
  fold_left f (l ++ [x]) a = f (fold_left f l a) x.
Proof. by rewrite fold_left_app. Qed.

(** The invariant of a loop [for i in range(a, a + n)]. *)
Lemma fold_seq_inv {A} (P : nat → A → Prop) (f : A → nat → A) a n x :
  P a x → (∀ i y, (a ≤ i < a + n)%nat → P i y → P (S i) (f y i)) →
  P (a + n)%nat (fold_left f (seq a n) x).
Proof.
  revert a x. induction n as [|n IH]; intros a x H0 Hs; simpl.
  - by rewrite Nat.add_0_r.
  - replace (a + S n)%nat with (S a + n)%nat by lia. apply IH; [apply Hs; [lia|done]|].
    intros i y Hi. apply Hs. lia.
Qed.

Lemma length_filter_Permutation {A} (p : A → bool) l k :
  l ≡ₚ k → length (List.filter p l) = length (List.filter p k).
Proof.
  induction 1 as [|x l k _ IH|x y l|]; simpl; try done; try congruence.
  - destruct (p x); simpl; congruence.
  - by destruct (p x), (p y).
Qed.

Lemma forallb_and {A} (p r : A → bool) l :
  forallb (λ x, p x && r x) l = true → forallb p l = true ∧ forallb r l = true.
Proof. rewrite !forallb_forall. intros H. split; intros x Hx; by destruct (andb_prop _ _ (H x Hx)). Qed.

(** The invariant of a loop over a list. *)
Lemma fold_left_inv {A B} (P : A → Prop) (f : A → B → A) l a :
  P a → (∀ a x, x ∈ l → P a → P (f a x)) → P (fold_left f l a).
Proof.
  revert a. induction l as [|x l IH]; intros a Ha Hf; simpl; [done|].
  apply IH; [apply Hf; [left|done]|]. intros a' y Hy. apply Hf. by right.
Qed.

Lemma map_eq_Forall2 {A B C} (f : A → C) (g : B → C) l k :
  map f l = map g k → Forall2 (λ x y, f x = g y) l k.
Proof.
  revert k. induction l as [|x l IH]; intros [|y k]; try done. simpl. intros [=]. auto.
Qed.

(** Position of the first occurrence in a Python list scan. *)
Fixpoint find_first {A} (p : A → bool) (l : list A) : option A :=
  match l with
  | [] => None
  | x :: l' => if p x then Some x else find_first p l'
  end.

Lemma find_first_Some {A} (p : A → bool) l x :
  find_first p l = Some x → x ∈ l ∧ p x = true.
Proof.
  induction l as [|y l IH]; simpl; [done|].
  destruct (p y) eqn:E; intros H; simplify_eq.
  - split; [left|done].
  - destruct (IH H); split; [by right|done].
Qed.

(** What is found is the first: nothing before it satisfies the test. *)
Lemma find_first_split {A} (p : A → bool) l x :
  find_first p l = Some x → ∃ before after, l = before ++ x :: after ∧ p x = true ∧ Forall (λ y, p y = false) before.
Proof.
  induction l as [|y l IH]; simpl; [done|]. destruct (p y) eqn:E; intros H.
  - injection H as ->. by exists [], l.
  - destruct (IH H) as (before & after & -> & Hx & Hb). exists (y :: before), after. by split_and!; [| |constructor].
Qed.

Lemma find_first_None {A} (p : A → bool) l :
  find_first p l = None ↔ Forall (λ x, p x = false) l.
Proof.
  induction l as [|y l IH]; simpl; [split; auto|].
  destruct (p y) eqn:E; split; try done.
  - inversion 1; congruence.
  - intros H; constructor; [done|]. by apply IH.
  - inversion 1; by apply IH.
Qed.

(** [sorted(l, key=key)] with [str] keys compared by code point: stable, as
    Python's sort is. *)
Section Sort.
Context {A : Type} (key : A → string).

Definition key_order (x y : A) : Prop := String.le (key x) (key y).
#[global] Instance key_order_dec : RelDecision key_order.
Proof. intros x y. unfold key_order. apply _. Defined.

Fixpoint insert_sorted (x : A) (l : list A) : list A :=
  match l with
  | [] => [x]
  | y :: l' => if decide (key_order x y) then x :: l else y :: insert_sorted x l'
  end.

Definition sort_by (l : list A) : list A := foldr insert_sorted [] l.

Lemma insert_sorted_perm x l : insert_sorted x l ≡ₚ x :: l.
Proof.
  induction l as [|y l IH]; simpl; [done|]. case_decide; [done|].
  rewrite IH. constructor.
Qed.

Lemma sort_by_perm l : sort_by l ≡ₚ l.
Proof. induction l; simpl; [done|]. rewrite insert_sorted_perm. by f_equiv. Qed.

Lemma insert_sorted_sorted x l :
  StronglySorted key_order l → StronglySorted key_order (insert_sorted x l).
Proof.
  induction 1 as [|y l Hl IH Hy]; simpl; [by repeat constructor|].
  case_decide as Hxy.
  - constructor; [by constructor|]. constructor; [done|].
    eapply Forall_impl; [exact Hy|]. unfold key_order. intros z Hz. by etrans.
  - constructor; [done|]. rewrite insert_sorted_perm. constructor; [|done].
    destruct (total String.le (key x) (key y)); [done|]. done.
Qed.

Lemma sort_by_sorted l : StronglySorted key_order (sort_by l).
Proof. induction l; simpl; [constructor|]. by apply insert_sorted_sorted. Qed.

(** With distinct keys the order of the input does not matter. *)
Lemma sort_by_unique l k :
  (∀ x y, x ∈ l → y ∈ l → key x = key y → x = y) → l ≡ₚ k → sort_by l = sort_by k.
Proof.
  intros Hinj Hp. apply (StronglySorted_unique_strong key_order).
  - intros x y Hx Hy H1 H2. rewrite sort_by_perm in Hx, Hy. rewrite <-Hp in Hy.
    apply Hinj; [done..|]. unfold key_order in *. by apply (anti_symm String.le).
  - apply sort_by_sorted.
  - apply sort_by_sorted.
  - by rewrite !sort_by_perm.
Qed.
End Sort.

Lemma sort_by_map {A B} (f : A → B) (kA : A → string) (kB : B → string) l :
  (∀ x, kB (f x) = kA x) → sort_by kB (map f l) = map f (sort_by kA l).
Proof.
  intros Hk.
  assert (∀ x l, insert_sorted kB (f x) (map f l) = map f (insert_sorted kA x l)) as Hi.
  { clear l. intros x l. induction l as [|y l IH]; simpl; [done|].
    destruct (decide (key_order kA x y)) as [H|H], (decide (key_order kB (f x) (f y))) as [H'|H'];
      unfold key_order in *; rewrite ?Hk in *; simpl; congruence. }
  induction l as [|x l IH]; simpl; [done|]. by rewrite IH, Hi.
Qed.

(** ** Strings *)

Lemma app_nil_l_str s : "" +:+ s = s. Proof. done. Qed.
Lemma app_nil_r_str s : s +:+ "" = s.
Proof. induction s; [done|]. unfold String.app in *; simpl. by f_equal. Qed.
Lemma app_cons_str c s t : String c s +:+ t = String c (s +:+ t). Proof. done. Qed.
Lemma app_assoc_str s t u : s +:+ (t +:+ u) = (s +:+ t) +:+ u.
Proof. induction s; [done|]. rewrite !app_cons_str. by f_equal. Qed.
Lemma length_app_str s t :
  String.length (s +:+ t) = (String.length s + String.length t)%nat.
Proof. induction s; [done|]. rewrite app_cons_str. simpl. by f_equal. Qed.

Create Rewrite HintDb axg_str.
#[export] Hint Rewrite app_nil_r_str app_cons_str : axg_str.
