(* ===== verification/PyStr.v ===== *)
(** * Python [str] and [bytes]

    A Python [str] is a [string] whose characters are code points; [ascii] is
    eight bits wide, so the model covers the strings whose code points lie
    below U+0100.  On that range case mapping, [isspace], the regular
    expression class [\w] and the UTF-8 encoding below are those of Python
    (they were tabulated from it), and every one of them maps a character to
    exactly one character.  [bytes] is also a [string], one character a byte. *)

From S2P Require Import Prelude.

Abbreviation bytes := string.

Definition code (c : ascii) : N := N_of_ascii c.
Definition between (lo hi n : N) : bool := (lo <=? n)%N && (n <=? hi)%N.

(** [chr(c).lower()] *)
Definition lower_char (c : ascii) : ascii :=
  let n := code c in
  if between 65 90 n || (between 192 222 n && negb (n =? 215)%N)
  then ascii_of_N (n + 32) else c.

(** [chr(c).isspace()], also the class [\s] of a [str] pattern. *)
Definition is_space (c : ascii) : bool :=
  let n := code c in
  between 9 13 n || between 28 32 n || (n =? 133)%N || (n =? 160)%N.

Definition is_digit (c : ascii) : bool := between 48 57 (code c).

(** The class [\w] of a [str] pattern: alphanumeric characters and [_]. *)
Definition is_word (c : ascii) : bool :=
  let n := code c in
  is_digit c || between 65 90 n || between 97 122 n || (n =? 95)%N
  || (n =? 170)%N || between 178 179 n || (n =? 181)%N || between 185 186 n
  || between 188 190 n || between 192 214 n || between 216 246 n || between 248 255 n.

Fixpoint map_str (f : ascii → ascii) (s : string) : string :=
  match s with "" => "" | String c s' => String (f c) (map_str f s') end.

Fixpoint filter_str (p : ascii → bool) (s : string) : string :=
  match s with
  | "" => ""
  | String c s' => if p c then String c (filter_str p s') else filter_str p s'
  end.

Fixpoint forall_str (p : ascii → bool) (s : string) : bool :=
  match s with "" => true | String c s' => p c && forall_str p s' end.

Definition exists_str (p : ascii → bool) (s : string) : bool :=
  negb (forall_str (λ c, negb (p c)) s).

(** The characters of a string, as iteration and indexing see them. *)
Fixpoint chars (s : string) : list ascii :=
  match s with "" => [] | String c s' => c :: chars s' end.

(** [s.lower()] *)
Definition lower (s : string) : string := map_str lower_char s.

(** [s.lstrip()], [s.rstrip()], [s.strip()] *)
Fixpoint lstrip (s : string) : string :=
  match s with "" => "" | String c s' => if is_space c then lstrip s' else s end.

Fixpoint rstrip (s : string) : string :=
  match s with
  | "" => ""
  | String c s' =>
      let r := rstrip s' in
      if is_space c && bool_decide (r = "") then "" else String c r
  end.

Definition strip (s : string) : string := rstrip (lstrip s).

(** [s.strip(chars)], for the characters that satisfy [p]. *)
Fixpoint lstrip_by (p : ascii → bool) (s : string) : string :=
  match s with "" => "" | String c s' => if p c then lstrip_by p s' else s end.
Fixpoint rstrip_by (p : ascii → bool) (s : string) : string :=
  match s with
  | "" => ""
  | String c s' =>
      let r := rstrip_by p s' in
      if p c && bool_decide (r = "") then "" else String c r
  end.
Definition strip_by (p : ascii → bool) (s : string) : string := rstrip_by p (lstrip_by p s).

(** [s.splitlines()]: the line ends are dropped, and CR LF is one. *)
Definition is_line_break (c : ascii) : bool :=
  let n := code c in between 10 13 n || between 28 30 n || (n =? 133)%N.
Fixpoint splitlines (s : string) : list string :=
  match s with
  | "" => []
  | String "013" (String "010" s') => "" :: splitlines s'
  | String c s' =>
      if is_line_break c then "" :: splitlines s'
      else match s' with
           | "" => [String c ""]
           | _ => match splitlines s' with l :: ls => String c l :: ls | [] => [String c ""] end
           end
  end.

(** [s.split()]: the maximal runs of non-space characters. *)
Definition cons_word (w : string) (ws : list string) : list string :=
  if bool_decide (w = "") then ws else w :: ws.

Fixpoint split_go (s : string) : string * list string :=
  match s with
  | "" => ("", [])
  | String c s' =>
      let '(w, ws) := split_go s' in
      if is_space c then ("", cons_word w ws) else (String c w, ws)
  end.

Definition split (s : string) : list string :=
  let '(w, ws) := split_go s in cons_word w ws.

(** [sep.join(l)] *)
Fixpoint join (sep : string) (l : list string) : string :=
  match l with
  | [] => ""
  | [x] => x
  | x :: l' => x +:+ sep +:+ join sep l'
  end.

(** [int(s)] of a string of ASCII digits *)
Definition int_of_digits (s : string) : Z :=
  fold_left (λ n c, 10 * n + (Z.of_N (code c) - 48)) (chars s) 0.

(** [str.isalpha], [str.upper] of a character *)
Definition is_alpha (c : ascii) : bool :=
  is_word c && negb (is_digit c || bool_decide (code c ∈ [95; 178; 179; 185; 188; 189; 190]%N)).
Definition upper_char (c : ascii) : ascii :=
  let n := code c in
  if between 97 122 n || (between 224 254 n && negb (n =? 247)%N) then ascii_of_N (n - 32) else c.

(** [s.startswith(p)], [p in s], [s.find(p)] *)
Fixpoint starts_with (p s : string) : bool :=
  match p, s with
  | "", _ => true
  | String a p', String b s' => bool_decide (a = b) && starts_with p' s'
  | String _ _, "" => false
  end.

Fixpoint find (p s : string) : option nat :=
  if starts_with p s then Some 0%nat
  else match s with "" => None | String _ s' => S <$> find p s' end.

Definition contains (p s : string) : bool :=
  match find p s with Some _ => true | None => false end.

(** [s[:n]], [s[n:]] and [s[i:j]] for [0 <= i <= j]. *)
Fixpoint take_str (n : nat) (s : string) : string :=
  match n, s with
  | O, _ => "" | _, "" => ""
  | S n', String c s' => String c (take_str n' s')
  end.

Fixpoint drop_str (n : nat) (s : string) : string :=
  match n, s with
  | O, _ => s | _, "" => ""
  | S n', String _ s' => drop_str n' s'
  end.

Definition slice (i j : nat) (s : string) : string := take_str (j - i) (drop_str i s).

Definition len (s : string) : Z := Z.of_nat (String.length s).

(** The spans [(m.start(), m.end())] of [re.finditer(r'\S+', text)].  The scan
    carries the current offset and the start of the run it is in. *)
Fixpoint word_spans_go (s : string) (pos : nat) (start : option nat) : list (nat * nat) :=
  match s with
  | "" => match start with Some b => [(b, pos)] | None => [] end
  | String c s' =>
      if is_space c then
        match start with
        | Some b => (b, pos) :: word_spans_go s' (S pos) None
        | None => word_spans_go s' (S pos) None
        end
      else word_spans_go s' (S pos) (Some (default pos start))
  end.
Definition word_spans (s : string) : list (nat * nat) := word_spans_go s 0 None.

(** [s.encode("utf-8")] *)
Definition utf8_char (c : ascii) : bytes :=
  let n := code c in
  if (n <? 128)%N then String c ""
  else String (ascii_of_N (192 + n / 64)) (String (ascii_of_N (128 + n mod 64)) "").

Fixpoint utf8 (s : string) : bytes :=
  match s with "" => "" | String c s' => utf8_char c +:+ utf8 s' end.

Definition is_ascii (s : string) : bool := forall_str (λ c, (code c <? 128)%N) s.

(** [s.encode("ascii")] raises [UnicodeEncodeError] outside ASCII. *)
Definition encode_ascii (s : string) : result bytes :=
  if is_ascii s then Ok s
  else raise "UnicodeEncodeError" "'ascii' codec can't encode character".

(** [s.split(sep)] on one character *)
Fixpoint split_char (sep : ascii) (s : string) : list string :=
  match s with
  | "" => [""]
  | String c s' =>
      if decide (c = sep) then "" :: split_char sep s'
      else match split_char sep s' with w :: ws => String c w :: ws | [] => [String c ""] end
  end.

(** [s.partition(sep)], without the separator; [None] when it does not occur. *)
Fixpoint partition_char (sep : ascii) (s : string) : option (string * string) :=
  match s with
  | "" => None
  | String c s' =>
      if decide (c = sep) then Some ("", s')
      else match partition_char sep s' with Some (a, b) => Some (String c a, b) | None => None end
  end.

(** [b.hex()] and [bytes.fromhex(s)]; [fromhex] skips ASCII white space
    between the pairs and raises [ValueError] on anything else. *)
Definition hex_digit (n : N) : ascii :=
  if (n <? 10)%N then ascii_of_N (48 + n) else ascii_of_N (87 + n).

Fixpoint hex (b : bytes) : string :=
  match b with
  | "" => ""
  | String c b' => String (hex_digit (code c / 16)) (String (hex_digit (code c mod 16)) (hex b'))
  end.

Definition hex_value (c : ascii) : option N :=
  let n := code c in
  if between 48 57 n then Some (n - 48)%N
  else if between 97 102 n then Some (n - 87)%N
  else if between 65 70 n then Some (n - 55)%N
  else None.

Definition is_ascii_space (c : ascii) : bool :=
  let n := code c in between 9 13 n || (n =? 32)%N.

Fixpoint fromhex (s : string) : result bytes :=
  match s with
  | "" => Ok ""
  | String a s1 =>
      if is_ascii_space a then fromhex s1
      else match s1 with
      | "" => raise "ValueError" "non-hexadecimal number found in fromhex() arg"
      | String b s2 =>
          match hex_value a, hex_value b with
          | Some x, Some y => String (ascii_of_N (16 * x + y)) <$> fromhex s2
          | _, _ => raise "ValueError" "non-hexadecimal number found in fromhex() arg"
          end
      end
  end.

(** ** Lemmas *)

(** Case analysis on the 256 characters. *)
Ltac all_chars c := destruct c as [[] [] [] [] [] [] [] []].

Lemma length_map_str f s : String.length (map_str f s) = String.length s.
Proof. induction s; simpl; congruence. Qed.

Lemma length_chars s : length (chars s) = String.length s.
Proof. induction s; simpl; congruence. Qed.

#[global] Instance chars_inj : Inj (=) (=) chars.
Proof.
  intros s. induction s as [|c s IH]; intros [|d t]; simpl; try done. intros [= -> H]. by rewrite (IH _ H).
Qed.

Lemma length_lower s : String.length (lower s) = String.length s.
Proof. apply length_map_str. Qed.

Lemma lower_char_idem c : lower_char (lower_char c) = lower_char c.
Proof. by all_chars c. Qed.

Lemma lower_idem s : lower (lower s) = lower s.
Proof. unfold lower. induction s as [|c s IH]; simpl; [done|]. by rewrite lower_char_idem, IH. Qed.

Lemma take_drop_str n s : take_str n s +:+ drop_str n s = s.
Proof.
  revert s; induction n as [|n IH]; intros [|c s]; simpl; try done.
  by rewrite app_cons_str, IH.
Qed.

Lemma length_take_str n s : String.length (take_str n s) = (n `min` String.length s)%nat.
Proof. revert s; induction n as [|n IH]; intros [|c s]; simpl; try done. by rewrite IH. Qed.

Lemma length_drop_str n s : String.length (drop_str n s) = (String.length s - n)%nat.
Proof. revert s; induction n as [|n IH]; intros [|c s]; simpl; try done. Qed.

Lemma take_str_app s t : take_str (String.length s) (s +:+ t) = s.
Proof. induction s as [|c s IH]; [by destruct t|]. rewrite app_cons_str. simpl. by rewrite IH. Qed.

Lemma drop_str_app s t : drop_str (String.length s) (s +:+ t) = t.
Proof. induction s as [|c s IH]; [by destruct t|]. by rewrite app_cons_str. Qed.

(** Two ways to cut a string overlap one way or the other. *)
Lemma app_split_str s t u v : s +:+ t = u +:+ v →
  (∃ d, s = u +:+ d ∧ v = d +:+ t) ∨ (∃ d, d ≠ "" ∧ u = s +:+ d ∧ t = d +:+ v).
Proof.
  revert u. induction s as [|c s IH]; intros u H.
  - destruct u as [|d u]; [left; by exists ""|]. right. by exists (String d u).
  - destruct u as [|d u].
    + left. exists (String c s). by split; [|symmetry].
    + rewrite !app_cons_str in H. injection H as -> H. destruct (IH u H) as [(e & -> & ->)|(e & He & -> & ->)];
        [left|right]; by exists e.
Qed.

Lemma app_inj_str s1 s2 t1 t2 :
  String.length s1 = String.length s2 → s1 +:+ t1 = s2 +:+ t2 → s1 = s2 ∧ t1 = t2.
Proof.
  revert s2; induction s1 as [|c s1 IH]; intros [|d s2]; simpl; try done.
  rewrite !app_cons_str. intros [= Hl] [= -> H]. by destruct (IH s2 Hl H) as [-> ->].
Qed.

Lemma take_str_all n s : (String.length s ≤ n)%nat → take_str n s = s.
Proof. revert n; induction s as [|c s IH]; intros [|n] H; simpl in *; try done; try lia. f_equal. apply IH. lia. Qed.

Lemma forall_str_app p s t : forall_str p (s +:+ t) = forall_str p s && forall_str p t.
Proof. induction s as [|c s IH]; [done|]. rewrite app_cons_str. simpl. by rewrite IH, andb_assoc. Qed.

Lemma forall_str_take p n s : forall_str p s = true → forall_str p (take_str n s) = true.
Proof. rewrite <-(take_drop_str n s) at 1. by rewrite forall_str_app, andb_true_iff; intros []. Qed.

Lemma forall_str_drop p n s : forall_str p s = true → forall_str p (drop_str n s) = true.
Proof. rewrite <-(take_drop_str n s) at 1. by rewrite forall_str_app, andb_true_iff; intros []. Qed.

Lemma split_char_absent sep s : forall_str (λ c, negb (bool_decide (c = sep))) s = true → split_char sep s = [s].
Proof.
  induction s as [|c s IH]; [done|]. cbn [forall_str split_char]. intros [Hc Hs]%andb_true_iff. bool_prop.
  by rewrite decide_False, IH.
Qed.

Lemma starts_with_spec p s : starts_with p s = true ↔ ∃ t, s = p +:+ t.
Proof.
  revert s; induction p as [|a p IH]; intros s; simpl.
  - split; [intros _; by exists s|by destruct s].
  - destruct s as [|b s].
    + split; [done|]. intros [t Ht]. by rewrite app_cons_str in Ht.
    + rewrite andb_true_iff, bool_decide_eq_true, IH. split.
      * intros [-> [t ->]]. exists t. by rewrite app_cons_str.
      * intros [t Ht]. rewrite app_cons_str in Ht. simplify_eq. eauto.
Qed.

(** [s.find(p)] gives an offset at which [p] occurs. *)
Lemma find_Some p s n :
  find p s = Some n →
  (n + String.length p ≤ String.length s)%nat ∧ slice n (n + String.length p) s = p.
Proof.
  unfold slice. revert n; induction s as [|c s IH]; intros n; simpl.
  - destruct p; simpl; intros; simplify_eq; done.
  - destruct (starts_with p (String c s)) eqn:E.
    + intros [=<-]. apply starts_with_spec in E as [t E]. rewrite E.
      change (String.length s) with (pred (String.length (String c s))).
      assert (String.length (String c s) = (String.length p + String.length t)%nat) as Hl
        by (by rewrite E, length_app_str). simpl in *.
      split; [lia|]. rewrite Nat.sub_0_r. apply take_str_app.
    + rewrite fmap_Some. intros (m & Hm & ->). destruct (IH _ Hm) as [H1 H2].
      split; [simpl; lia|]. simpl. done.
Qed.

Lemma drop_drop_str m n s : drop_str m (drop_str n s) = drop_str (n + m) s.
Proof. revert s. induction n as [|n IH]; intros [|c s]; simpl; try done. by destruct m. Qed.

Lemma find_split p s n : find p s = Some n →
  s = take_str n s +:+ p +:+ drop_str (n + String.length p) s.
Proof.
  intros [_ H]%find_Some. unfold slice in H. rewrite Nat.add_comm, Nat.add_sub in H.
  rewrite <-(take_drop_str n s) at 1. f_equal.
  rewrite <-(take_drop_str (String.length p) (drop_str n s)) at 1. by rewrite H, drop_drop_str.
Qed.

Lemma lower_take n s : lower (take_str n s) = take_str n (lower s).
Proof. revert s. induction n as [|n IH]; intros [|c s]; simpl; try done. by rewrite <-IH. Qed.

Lemma lower_slice i j s : lower (slice i j s) = slice i j (lower s).
Proof.
  unfold slice. generalize (j - i)%nat. intros n. revert n. revert s.
  induction i as [|i IH]; intros [|c s] n; simpl; rewrite ?lower_take; try done.
  by rewrite <-IH, lower_take.
Qed.

Lemma find_app_mid p u v : is_Some (find p (u +:+ p +:+ v)).
Proof.
  induction u as [|c u IH].
  - rewrite app_nil_l_str.
    assert (starts_with p (p +:+ v) = true) as H by (apply starts_with_spec; eauto).
    destruct (p +:+ v) eqn:E; simpl; rewrite H; eauto.
  - rewrite app_cons_str. simpl. case_match; [eauto|]. destruct IH as [n ->]. eauto.
Qed.

Lemma contains_spec p s : contains p s = true ↔ ∃ u v, s = u +:+ p +:+ v.
Proof.
  unfold contains. split.
  - destruct (find p s) as [n|] eqn:E; [intros _|done].
    apply find_Some in E as [Hl E]. unfold slice in E.
    exists (take_str n s), (drop_str (String.length p) (drop_str n s)).
    rewrite <-(take_drop_str n s) at 1. f_equal.
    rewrite <-(take_drop_str (String.length p) (drop_str n s)) at 1. f_equal.
    by replace (n + String.length p - n)%nat with (String.length p) in E by lia.
  - intros (u & v & ->). by destruct (find_app_mid p u v) as [n ->].
Qed.

Lemma contains_refl s : contains s s = true.
Proof. apply contains_spec. exists "", "". by rewrite app_nil_r_str. Qed.

(** ** Encodings *)

Lemma hex_value_digit c :
  hex_value (hex_digit (code c / 16)) = Some (code c / 16)%N ∧
  hex_value (hex_digit (code c mod 16)) = Some (code c mod 16)%N.
Proof. by all_chars c. Qed.

Lemma hex_digit_not_space c : is_ascii_space (hex_digit (code c / 16)) = false.
Proof. by all_chars c. Qed.

Lemma code_split c : ascii_of_N (16 * (code c / 16) + code c mod 16) = c.
Proof. by all_chars c. Qed.

Lemma fromhex_hex b : fromhex (hex b) = Ok b.
Proof.
  induction b as [|c b IH]; [done|].
  cbn -[N.mul N.div N.modulo hex_digit ascii_of_N].
  rewrite hex_digit_not_space. destruct (hex_value_digit c) as [-> ->].
  rewrite IH. cbn -[N.mul N.div N.modulo ascii_of_N]. by rewrite code_split.
Qed.

#[global] Instance hex_inj : Inj (=) (=) hex.
Proof. intros b1 b2 H. apply (f_equal fromhex) in H. rewrite !fromhex_hex in H. by simplify_eq. Qed.

Lemma length_hex b : String.length (hex b) = (2 * String.length b)%nat.
Proof. induction b as [|c b IH]; [done|]. simpl hex. simpl String.length. rewrite IH. lia. Qed.

Lemma hex_digit_ascii c :
  (code (hex_digit (code c / 16)) <? 128)%N = true ∧
  (code (hex_digit (code c mod 16)) <? 128)%N = true.
Proof. by all_chars c. Qed.

(** A hexadecimal digest is ASCII, so [.encode("ascii")] never raises on it. *)
Lemma encode_ascii_hex b : encode_ascii (hex b) = Ok (hex b).
Proof.
  unfold encode_ascii. assert (is_ascii (hex b) = true) as ->; [|done].
  unfold is_ascii. induction b as [|c b IH]; [done|]. cbn -[hex_digit N.div N.modulo code].
  destruct (hex_digit_ascii c) as [-> ->]. done.
Qed.

Lemma utf8_char_prefix c1 c2 s1 s2 :
  utf8_char c1 +:+ s1 = utf8_char c2 +:+ s2 → c1 = c2 ∧ s1 = s2.
Proof.
  intros H. pose (dec := λ s : string, match s with
    | "" => None
    | String a s' => if (code a <? 128)%N then Some (a, s') else
        match s' with "" => None | String b s'' =>
          Some (ascii_of_N (64 * (code a - 192) + (code b - 128)), s'') end end).
  assert (∀ c s, dec (utf8_char c +:+ s) = Some (c, s)) as D.
  { intros c s. all_chars c; reflexivity. }
  apply (f_equal dec) in H. rewrite !D in H. by simplify_eq.
Qed.

#[global] Instance utf8_inj : Inj (=) (=) utf8.
Proof.
  intros s1. induction s1 as [|c1 s1 IH]; intros [|c2 s2] H; simpl in H; try done.
  - by all_chars c2.
  - by all_chars c1.
  - apply utf8_char_prefix in H as [-> H]. f_equal. by apply IH.
Qed.

#[export] Hint Resolve length_lower contains_refl fromhex_hex encode_ascii_hex : axg.
#[export] Hint Rewrite length_lower lower_idem fromhex_hex : axg_str.

(** ** Substrings *)

Definition infix_of (w s : string) : Prop := ∃ a b, s = a +:+ w +:+ b.

Lemma infix_refl s : infix_of s s.
Proof. exists "", "". by rewrite app_nil_r_str. Qed.

Lemma infix_trans u v w : infix_of u v → infix_of v w → infix_of u w.
Proof. intros (a & b & ->) (c & d & ->). exists (c +:+ a), (b +:+ d). by rewrite !app_assoc_str. Qed.

Lemma infix_cons c w s : infix_of w s → infix_of w (String c s).
Proof. intros (a & b & ->). by exists (String c a), b. Qed.

Lemma infix_take n s : infix_of (take_str n s) s.
Proof. exists "", (drop_str n s). symmetry. apply take_drop_str. Qed.

Lemma infix_lstrip_by p s : infix_of (lstrip_by p s) s.
Proof.
  induction s as [|c s IH]; cbn [lstrip_by]; [apply infix_refl|]. destruct (p c); [by apply infix_cons|apply infix_refl].
Qed.

Lemma rstrip_by_prefix p s : ∃ t, s = rstrip_by p s +:+ t.
Proof.
  induction s as [|c s [t IH]]; cbn [rstrip_by]; [by exists ""|]. destruct (p c && _); [by exists (String c s)|].
  exists t. rewrite app_cons_str. by rewrite <-IH.
Qed.

Lemma infix_strip_by p s : infix_of (strip_by p s) s.
Proof.
  eapply infix_trans; [|apply (infix_lstrip_by p)]. destruct (rstrip_by_prefix p (lstrip_by p s)) as [t E].
  exists "", t. exact E.
Qed.

Lemma strip_by_space s : strip s = strip_by is_space s.
Proof.
  unfold strip, strip_by. assert (∀ s, rstrip s = rstrip_by is_space s) as ->.
  { clear s. induction s as [|c s IH]; [done|]. cbn [rstrip rstrip_by]. by rewrite IH. }
  f_equal. induction s as [|c s IH]; [done|]. cbn [lstrip lstrip_by]. by rewrite IH.
Qed.

Lemma infix_strip s : infix_of (strip s) s.
Proof. rewrite strip_by_space. apply infix_strip_by. Qed.

(** One step of [splitlines]. *)
Lemma splitlines_step c s :
  (∃ s', c = "013"%char ∧ s = String "010" s' ∧ splitlines (String c s) = "" :: splitlines s') ∨
  splitlines (String c s) = if is_line_break c then "" :: splitlines s else
    match s with "" => [String c ""] | _ => match splitlines s with l :: ls => String c l :: ls | [] => [String c ""] end end.
Proof.
  destruct (decide (c = "013"%char ∧ starts_with (String "010" "") s = true)) as [[-> [s' ->]%starts_with_spec]|Hc].
  - left. by exists s'.
  - right. destruct c as [[] [] [] [] [] [] [] []]; try done; destruct s as [|d s']; try done.
    destruct d as [[] [] [] [] [] [] [] []]; try done. by destruct Hc.
Qed.

(** Induction along [splitlines], which may take two characters. *)
Lemma string_ind2 (P : string → Prop) : P "" → (∀ c s, (∀ t, (String.length t ≤ String.length s)%nat → P t) → P (String c s)) → ∀ s, P s.
Proof.
  intros H0 HS s. enough (∀ n t, (String.length t ≤ n)%nat → P t) as H by (by apply (H (String.length s))).
  induction n as [|n IH]; intros [|c t] Hn; try done; try (cbn in Hn; lia). apply HS. intros u Hu. apply IH. cbn in Hn. lia.
Qed.

Lemma splitlines_prefix s l ls : splitlines s = l :: ls → ∃ t, s = l +:+ t.
Proof.
  revert l ls. induction s as [|c s IH] using string_ind2; intros l ls; [done|].
  destruct (splitlines_step c s) as [(s' & -> & -> & ->)| ->]; [intros [= <- _]; by eexists|].
  destruct (is_line_break c); [intros [= <- _]; by eexists|]. destruct s as [|d s]; [intros [= <- <-]; by exists ""|].
  destruct (splitlines (String d s)) as [|k ks] eqn:E; [intros [= <- <-]; by exists (String d s)|]. intros [= <- <-].
  destruct (IH (String d s) (le_n _) _ _ E) as [t ->]. by exists t.
Qed.

Lemma splitlines_Forall (P : string → string → Prop) :
  (∀ s, P "" s) → (∀ c l s, P l s → P l (String c s)) →
  (∀ c l t, is_line_break c = false → P l (l +:+ t) → P (String c l) (String c (l +:+ t))) →
  (∀ c s, is_line_break c = false → P (String c "") (String c s)) →
  ∀ s, Forall (λ l, P l s) (splitlines s).
Proof.
  intros H0 Hlater Hcons Hone s. induction s as [|c s IH] using string_ind2; [constructor|].
  assert (∀ u, (String.length u ≤ String.length s)%nat → (∀ l, P l u → P l (String c s)) →
    Forall (λ l, P l (String c s)) ("" :: splitlines u)) as Hb.
  { intros u Hu Hl. constructor; [apply H0|]. eapply Forall_impl; [exact (IH u Hu)|exact Hl]. }
  destruct (splitlines_step c s) as [(s' & -> & -> & ->)| ->].
  { apply Hb; [cbn; lia|]. intros l Hl. by do 2 apply Hlater. }
  destruct (is_line_break c) eqn:Ec; [apply Hb; [done|intros l; apply Hlater]|].
  destruct s as [|d s]; [by repeat constructor; apply Hone|]. pose proof (IH (String d s) (le_n _)) as Hs.
  destruct (splitlines (String d s)) as [|k ks] eqn:E; [by repeat constructor; apply Hone|].
  destruct (splitlines_prefix _ _ _ E) as [t Et]. rewrite Et in *. apply Forall_cons in Hs as [Hk Hks]. constructor.
  - by apply Hcons.
  - eapply Forall_impl; [exact Hks|]. intros l. apply Hlater.
Qed.

(** No line holds a line break. *)
Definition one_line (w : string) : bool := forall_str (λ c, negb (is_line_break c)) w.

Lemma one_line_infix w s : infix_of w s → one_line s = true → one_line w = true.
Proof. intros (a & b & ->). unfold one_line. rewrite !forall_str_app, !andb_true_iff. tauto. Qed.

Lemma splitlines_one_line l s : l ∈ splitlines s → one_line l = true.
Proof.
  assert (Forall (λ l, one_line l = true) (splitlines s)) as H; [|rewrite Forall_forall in H; apply H].
  apply (splitlines_Forall (λ l _, one_line l = true)); try done.
  - intros c k t Hc Hk. unfold one_line in *. cbn. by rewrite Hc, Hk.
  - intros c k Hc. unfold one_line. cbn. by rewrite Hc.
Qed.

Lemma splitlines_in l s : l ∈ splitlines s → infix_of l s.
Proof.
  assert (Forall (λ l, infix_of l s) (splitlines s)) as H; [|rewrite Forall_forall in H; apply H].
  apply (splitlines_Forall infix_of); [intros t; by exists "", t|intros; by apply infix_cons| |].
  - intros c k t _ _. exists "", t. done.
  - intros c t _. exists "", t. done.
Qed.

Lemma one_line_cons c w : one_line (String c w) = true → is_line_break c = false ∧ one_line w = true.
Proof. unfold one_line. cbn. rewrite andb_true_iff, negb_true_iff. done. Qed.

Lemma one_line_prefix w a c b t : is_line_break c = true → one_line w = true → a +:+ String c b = w +:+ t → infix_of w a.
Proof.
  intros Hc Hw E. enough (∃ u, a = w +:+ u) as [u ->] by (by exists "", u). revert w Hw E.
  induction a as [|d a IH]; intros [|d' w] Hw E; try (by eexists).
  - rewrite app_nil_l_str, app_cons_str in E. injection E as -> _. apply one_line_cons in Hw as [? _]. congruence.
  - rewrite !app_cons_str in E. injection E as -> E. apply one_line_cons in Hw as [_ Hw].
    destruct (IH w Hw E) as [u ->]. by exists u.
Qed.

(** Text without a line break in two texts joined by one is in one of them. *)
Lemma one_line_joined w a c b : is_line_break c = true → one_line w = true → infix_of w (a +:+ String c b) →
  infix_of w a ∨ infix_of w b.
Proof.
  intros Hc Hw (x & y & E). revert x E. induction a as [|d a IH]; intros [|d' x] E.
  - rewrite app_nil_l_str in E. left. by eapply (one_line_prefix w "" c b y).
  - right. rewrite app_nil_l_str, app_cons_str in E. injection E as _ ->. by exists x, y.
  - left. rewrite app_nil_l_str in E. by eapply one_line_prefix.
  - rewrite !app_cons_str in E. injection E as _ E. destruct (IH x E) as [H|H]; [left|by right]. by apply infix_cons.
Qed.

