(* ===== verification/PyText.v ===== *)
(** * More on Python strings: [strip] and [replace]

    [strip] keeps every quotation that does not begin or end with white space,
    and [str.replace] works piecewise where no occurrence can straddle the
    cut. *)

From S2P Require Import Prelude PyStr.

(** ** [strip] *)

Lemma length_lstrip s : (String.length (lstrip s) ≤ String.length s)%nat.
Proof. induction s as [|c s IH]; cbn [lstrip]; [done|]. destruct (is_space c); cbn; lia. Qed.

Lemma length_rstrip s : (String.length (rstrip s) ≤ String.length s)%nat.
Proof. induction s as [|c s IH]; cbn [rstrip]; [done|]. destruct (is_space c && _); cbn; lia. Qed.

Lemma lstrip_same_length s : String.length (lstrip s) = String.length s → lstrip s = s.
Proof. destruct s as [|c s]; cbn [lstrip]; [done|]. destruct (is_space c); [|done]. pose proof (length_lstrip s). cbn. lia. Qed.

(** A text without outer white space. *)
Definition stripped (s : string) : Prop := strip s = s.

Lemma stripped_sides s : stripped s → lstrip s = s ∧ rstrip s = s.
Proof.
  unfold stripped, strip. intros H. assert (lstrip s = s) as E.
  { apply lstrip_same_length. pose proof (length_lstrip s). pose proof (length_rstrip (lstrip s)). rewrite H in *. lia. }
  split; [done|]. by rewrite E in H.
Qed.

Lemma lstrip_app x q : q ≠ "" → lstrip q = q → ∃ x', lstrip (x +:+ q) = x' +:+ q.
Proof.
  intros Hq Hs. induction x as [|c x [x' IH]]; [exists ""; by rewrite !app_nil_l_str|]. rewrite app_cons_str. cbn [lstrip].
  destruct (is_space c); [by exists x'|]. by exists (String c x).
Qed.

Lemma lstrip_fixed q y : q ≠ "" → lstrip q = q → lstrip (q +:+ y) = q +:+ y.
Proof.
  destruct q as [|c q]; [done|]. intros _. rewrite app_cons_str. cbn [lstrip]. destruct (is_space c); [|done].
  intros E. pose proof (length_lstrip q). rewrite E in *. cbn in *. lia.
Qed.

Lemma rstrip_app_fixed q y : q ≠ "" → rstrip q = q → rstrip (q +:+ y) = q +:+ rstrip y.
Proof.
  induction q as [|c q IH]; [done|]. intros _. rewrite !app_cons_str. cbn [rstrip]. destruct q as [|d q].
  - rewrite !app_nil_l_str. cbn [rstrip]. destruct (is_space c); [done|]. done.
  - destruct (is_space c && bool_decide (rstrip (String d q) = "")) eqn:E; [done|]. intros [= Hr].
    rewrite IH by done. rewrite app_cons_str, bool_decide_false by done. by rewrite andb_false_r.
Qed.

Lemma rstrip_app x z : rstrip z ≠ "" → rstrip (x +:+ z) = x +:+ rstrip z.
Proof.
  intros Hz. induction x as [|c x IH]; [done|]. rewrite !app_cons_str. cbn [rstrip]. rewrite IH.
  rewrite bool_decide_false; [by rewrite andb_false_r|]. destruct x; [by rewrite app_nil_l_str|by rewrite app_cons_str].
Qed.

Lemma strip_keeps q s : infix_of q s → stripped q → q ≠ "" → infix_of q (strip s).
Proof.
  intros (x & y & ->) [Hl Hr]%stripped_sides Hq. unfold strip. destruct (lstrip_app x (q +:+ y)) as [x' ->].
  - destruct q; [done|by rewrite app_cons_str].
  - by apply lstrip_fixed.
  - rewrite rstrip_app; rewrite rstrip_app_fixed by done; [by exists x', (rstrip y)|]. destruct q; [done|by rewrite app_cons_str].
Qed.

(** What [strip] takes away is white space on both sides. *)
Lemma lstrip_split s : ∃ x, s = x +:+ lstrip s ∧ forall_str is_space x = true.
Proof.
  induction s as [|c s (x & E & Hx)]; [by exists ""|]. cbn [lstrip]. destruct (is_space c) eqn:Hc; [|by exists ""].
  exists (String c x). rewrite app_cons_str, <-E. cbn. by rewrite Hc.
Qed.
Lemma rstrip_split s : ∃ y, s = rstrip s +:+ y ∧ forall_str is_space y = true.
Proof.
  induction s as [|c s (y & E & Hy)]; [by exists ""|]. cbn [rstrip].
  destruct (is_space c && bool_decide (rstrip s = "")) eqn:Hc; [|exists y; by rewrite app_cons_str, <-E].
  bool_prop. exists (String c y). rewrite app_nil_l_str. cbn. split; [|by rewrite H, Hy].
  f_equal. rewrite E at 1. by rewrite H0, app_nil_l_str.
Qed.
Lemma strip_split s : ∃ x y, s = x +:+ strip s +:+ y ∧ forall_str is_space x = true ∧ forall_str is_space y = true.
Proof.
  destruct (lstrip_split s) as (x & E & Hx), (rstrip_split (lstrip s)) as (y & Ey & Hy). exists x, y.
  split; [|done]. unfold strip. by rewrite <-Ey.
Qed.

Lemma drop_str_app_le n s t : (n ≤ String.length s)%nat → drop_str n (s +:+ t) = drop_str n s +:+ t.
Proof.
  revert n. induction s as [|c s IH]; intros [|n] Hn; try done; [cbn in Hn; lia|]. rewrite app_cons_str. cbn in *. apply IH. lia.
Qed.
Lemma take_str_app_ge n s t : (String.length s ≤ n)%nat → take_str n (s +:+ t) = s +:+ take_str (n - String.length s) t.
Proof.
  revert n. induction s as [|c s IH]; intros n Hn; cbn in Hn.
  - rewrite !app_nil_l_str. cbn. by rewrite Nat.sub_0_r.
  - destruct n as [|n]; [lia|]. rewrite !app_cons_str. cbn. rewrite IH by lia. done.
Qed.

Lemma infix_slice a q b i j : (i ≤ String.length a)%nat → (String.length a + String.length q ≤ j)%nat →
  infix_of q (slice i j (a +:+ q +:+ b)).
Proof.
  intros Hi Hj. unfold slice. rewrite drop_str_app_le by done.
  rewrite take_str_app_ge, take_str_app_ge; rewrite ?length_drop_str; [|lia..]. eexists _, _. reflexivity.
Qed.

Lemma infix_drop n s : infix_of (drop_str n s) s.
Proof. exists (take_str n s), "". by rewrite app_nil_r_str, take_drop_str. Qed.
Lemma infix_of_slice i j s : infix_of (slice i j s) s.
Proof. eapply infix_trans; [apply infix_take|apply infix_drop]. Qed.

(** ** [replace] *)

(** [s.replace(old, new)] for a non-empty [old]: [skip] characters belong to an
    occurrence that has been replaced. *)
Fixpoint replace_from (skip : nat) (old new s : string) : string :=
  match s with
  | "" => ""
  | String c s' =>
      match skip with
      | S k => replace_from k old new s'
      | O => if starts_with old s then new +:+ replace_from (String.length old - 1) old new s'
             else String c (replace_from 0 old new s')
      end
  end.
Definition replace_all (old new s : string) : string := replace_from 0 old new s.

Section Replace.
Variables old new : string.
Hypothesis old_ok : old ≠ "".
Abbreviation repl := (replace_all old new).

(** A character that no occurrence can reach over from the left. *)
Definition opens (c : ascii) : bool := forall_str (λ d, negb (bool_decide (d = c))) (drop_str 1 old).

Lemma replace_from_app a : ∀ k b, (k ≤ String.length a)%nat →
  (∀ c t, b = String c t → opens c = true) →
  replace_from k old new (a +:+ b) = replace_from k old new a +:+ repl b.
Proof.
  induction a as [|c a IH]; intros k b Hk Hb.
  { cbn in Hk. assert (k = 0)%nat as -> by lia. by rewrite !app_nil_l_str. }
  rewrite app_cons_str. cbn [replace_from String.length] in *. destruct k as [|k]; [|apply IH; [lia|done]].
  destruct (starts_with old (String c a)) eqn:E.
  - apply starts_with_spec in E as [t Et]. assert (starts_with old (String c (a +:+ b)) = true) as ->.
    { apply starts_with_spec. exists (t +:+ b). by rewrite <-app_cons_str, Et, app_assoc_str. }
    apply (f_equal String.length) in Et. rewrite length_app_str in Et. cbn in Et.
    rewrite IH by (done || lia). by rewrite app_assoc_str.
  - destruct (starts_with old (String c (a +:+ b))) eqn:E'; [exfalso|by rewrite IH, app_cons_str by (done || lia)].
    apply starts_with_spec in E' as [t Et]. rewrite <-app_cons_str in Et.
    apply app_split_str in Et as [(e & Ee & _)|(e & He & Eo & Eb)].
    + apply not_true_iff_false in E. apply E, starts_with_spec. by exists e.
    + destruct e as [|d e]; [done|]. rewrite app_cons_str in Eb. specialize (Hb _ _ Eb). unfold opens in Hb.
      rewrite Eo, app_cons_str in Hb. cbn in Hb. rewrite forall_str_app in Hb. cbn in Hb.
      rewrite bool_decide_true in Hb by done. by rewrite andb_false_r in Hb.
Qed.

Lemma replace_skip u s : replace_from (String.length u) old new (u +:+ s) = repl s.
Proof. induction u as [|c u IH]; [by rewrite app_nil_l_str|]. rewrite app_cons_str. exact IH. Qed.

Lemma replace_occurrence s : repl (old +:+ s) = new +:+ repl s.
Proof.
  assert (∀ c u, old = String c u → repl (String c (u +:+ s)) = new +:+ repl s) as H.
  { intros c u E. unfold replace_all at 1. cbn [replace_from]. rewrite (proj2 (starts_with_spec _ _)).
    - f_equal. rewrite E. cbn [String.length]. rewrite Nat.sub_succ, Nat.sub_0_r, <-E. apply replace_skip.
    - exists s. by rewrite E, app_cons_str. }
  destruct old as [|c u] eqn:E; [done|]. rewrite app_cons_str. by apply H.
Qed.

Lemma replace_app a b : (∀ c t, b = String c t → opens c = true) → repl (a +:+ b) = repl a +:+ repl b.
Proof. intros H. apply replace_from_app; [lia|done]. Qed.

(** Text between two such characters is replaced on its own. *)
Definition outside (c : ascii) : bool := forall_str (λ d, negb (bool_decide (d = c))) old.

Lemma outside_opens c : outside c = true → opens c = true.
Proof. unfold outside, opens. destruct old as [|d o]; [done|]. cbn. by intros [_ H]%andb_true_iff. Qed.

Lemma replace_outside c t : outside c = true → repl (String c t) = String c (repl t).
Proof.
  intros H. unfold replace_all. cbn [replace_from]. destruct (starts_with old (String c t)) eqn:E; [|done].
  apply starts_with_spec in E as [u Eu]. unfold outside in H. destruct old as [|d o]; [done|]. rewrite app_cons_str in Eu.
  injection Eu as -> _. cbn in H. by rewrite bool_decide_true in H.
Qed.

Lemma replace_between a c p b : outside c = true → (∀ d t, b = String d t → outside d = true) →
  repl (a +:+ String c (p +:+ b)) = repl a +:+ String c (repl p +:+ repl b).
Proof.
  intros Hc Hb. rewrite replace_app; [|intros d t [= -> _]; by apply outside_opens]. rewrite replace_outside by done.
  rewrite (replace_app p b); [done|]. intros d t E. by eapply outside_opens, Hb.
Qed.

(** A piece cut out of a text at such characters is, replaced, a piece of the
    text replaced. *)
Definition cut (a : string) : Prop := a = "" ∨ ∃ a' c, a = a' +:+ String c "" ∧ outside c = true.

Lemma replace_piece a p b : cut a → (∀ d t, b = String d t → outside d = true) → infix_of (repl p) (repl (a +:+ p +:+ b)).
Proof.
  intros [->|(a' & c & -> & Hc)] Hb.
  - rewrite app_nil_l_str, replace_app; [by exists "", (repl b)|]. intros d t E. by eapply outside_opens, Hb.
  - rewrite <-app_assoc_str, app_cons_str, app_nil_l_str, replace_between by done.
    exists (repl a' +:+ String c ""), (repl b). by rewrite <-app_assoc_str, app_cons_str, app_nil_l_str.
Qed.
End Replace.
