(* ===== verification/PyFloat.v ===== *)
(** * Python [float]: IEEE 754 binary64

    The executable specification floats of the standard library
    ([SpecFloat]) at precision 53 and maximal exponent 1024: Python's [float]
    arithmetic with round-to-nearest-even, signed zeros, infinities and NaN.
    A decimal literal is the correctly rounded quotient of two exact integers. *)

From S2P Require Import Prelude.
From Stdlib Require Export SpecFloat.

Abbreviation f64 := spec_float.

Declare Scope f64_scope.
Delimit Scope f64_scope with f64.

Definition fadd : f64 → f64 → f64 := SFadd 53 1024.
Definition fsub : f64 → f64 → f64 := SFsub 53 1024.
Definition fmul : f64 → f64 → f64 := SFmul 53 1024.
Definition fdiv : f64 → f64 → f64 := SFdiv 53 1024.
Definition flt : f64 → f64 → bool := SFltb.
Definition fle : f64 → f64 → bool := SFleb.
Definition feq : f64 → f64 → bool := SFeqb.
Definition fopp : f64 → f64 := SFopp.

Infix "+" := fadd : f64_scope.
Infix "-" := fsub : f64_scope.
Infix "*" := fmul : f64_scope.
Infix "/" := fdiv : f64_scope.
Infix "<?" := flt : f64_scope.
Infix "<=?" := fle : f64_scope.
Infix "=?" := feq : f64_scope.
Notation "x >? y" := (flt y x) (only parsing) : f64_scope.
Notation "x >=? y" := (fle y x) (only parsing) : f64_scope.

(** [float(z)] for an integer in the exact range, and the literal [n/d]. *)
Definition of_Z (z : Z) : f64 := binary_normalize 53 1024 z 0 false.
Definition lit (n d : Z) : f64 := fdiv (of_Z n) (of_Z d).

Definition f0 : f64 := S754_zero false.
Definition f1 : f64 := of_Z 1.

Definition is_nan (x : f64) : bool := match x with S754_nan => true | _ => false end.
Definition is_finite (x : f64) : bool :=
  match x with S754_nan | S754_infinity _ => false | _ => true end.

(** [max(a, b)] and [min(a, b)] keep their first argument unless the second
    compares strictly better, which is what fixes their behaviour on NaN. *)
Definition fmax (a b : f64) : f64 := if flt a b then b else a.
Definition fmin (a b : f64) : f64 := if flt b a then b else a.

(** [int(x)]: towards zero; raises on an infinity and on NaN. *)
Definition py_int (x : f64) : result Z :=
  match x with
  | S754_zero _ => Ok 0
  | S754_finite s m e => let n := if 0 <=? e then Zpos m * 2 ^ e else Zpos m / 2 ^ (- e) in Ok (if s then - n else n)
  | S754_infinity _ => raise "OverflowError" "cannot convert float infinity to integer"
  | S754_nan => raise "ValueError" "cannot convert float NaN to integer"
  end.

(** [round(x, 4)]: the value scaled by 10^4, rounded half-even as an exact
    rational, and read back as the nearest double. *)
Definition round_half_even (n d : Z) : Z :=
  let q := n / d in
  let r := n mod d in
  if 2 * r <? d then q else if d <? 2 * r then q + 1 else if Z.even q then q else q + 1.

Definition round4 (x : f64) : f64 :=
  match x with
  | S754_finite s m e =>
      let n := if 0 <=? e then Zpos m * 2 ^ e * 10000 else Zpos m * 10000 in
      let d := if 0 <=? e then 1 else 2 ^ (- e) in
      let r := round_half_even n d in
      if r =? 0 then S754_zero s
      else let y := fdiv (of_Z r) (of_Z 10000) in if s then fopp y else y
  | _ => x
  end.

(** ** The order on floats

    [fkey] embeds the floats other than NaN into triples of integers ordered
    lexicographically, which settles every order fact by [lia]. *)

Definition fkey (x : f64) : Z * Z * Z :=
  match x with
  | S754_nan => (0, 0, 0)
  | S754_infinity true => (-2, 0, 0)
  | S754_infinity false => (2, 0, 0)
  | S754_zero _ => (0, 0, 0)
  | S754_finite false m e => (1, e, Zpos m)
  | S754_finite true m e => (-1, - e, Zneg m)
  end.

Definition lex_lt (a b : Z * Z * Z) : Prop :=
  let '(a1, a2, a3) := a in let '(b1, b2, b3) := b in
  a1 < b1 ∨ (a1 = b1 ∧ (a2 < b2 ∨ (a2 = b2 ∧ a3 < b3))).

Definition lex_le (a b : Z * Z * Z) : Prop := lex_lt a b ∨ a = b.

Lemma flt_key x y : flt x y = true ↔ is_nan x = false ∧ is_nan y = false ∧ lex_lt (fkey x) (fkey y).
Proof.
  unfold flt, SFltb.
  destruct x as [[]|[]| |[] m e], y as [[]|[]| |[] m' e']; simpl;
    try (split; intros; [repeat split; try done; lia | try done; lia]);
    destruct (Z.compare_spec e e'); simpl;
    rewrite <-?Pos.compare_cont_spec; fold (Pos.compare m m');
    try destruct (Pos.compare_spec m m'); simpl;
    (split; intros; [repeat split; try done; lia | try done; lia]).
Qed.

Lemma fle_cases x y :
  fle x y = true ↔ flt x y = true ∨ (is_nan x = false ∧ is_nan y = false ∧ fkey x = fkey y).
Proof.
  unfold fle, flt, SFleb, SFltb.
  destruct x as [[]|[]| |[] m e], y as [[]|[]| |[] m' e']; simpl;
    try (split; intros HH; [try done; (by left) || (by right) |
         destruct HH as [HH|(?&?&HH)]; done]);
    destruct (Z.compare_spec e e'); simpl; fold (Pos.compare m m');
    try destruct (Pos.compare_spec m m'); simpl; subst;
    (split; intros HH; [try done; (by left) || (by right)
     | destruct HH as [HH|(?&?&HH)]; try done; simplify_eq; lia]).
Qed.

Lemma fle_key x y : fle x y = true ↔ is_nan x = false ∧ is_nan y = false ∧ lex_le (fkey x) (fkey y).
Proof. rewrite fle_cases, flt_key. unfold lex_le. tauto. Qed.

Ltac fkey_solve :=
  rewrite ?flt_key, ?fle_key; unfold lex_le, lex_lt; intros;
  repeat match goal with |- context [fkey ?x] => destruct (fkey x) as [[? ?] ?] end;
  repeat match goal with H : context [fkey ?x] |- _ => destruct (fkey x) as [[? ?] ?] end;
  destruct_and?; repeat split; try done;
  repeat match goal with H : _ ∨ _ |- _ => destruct H end; simplify_eq; try lia.

Lemma flt_trans x y z : flt x y = true → flt y z = true → flt x z = true.
Proof. fkey_solve. Qed.
Lemma fle_lt_trans x y z : fle x y = true → flt y z = true → flt x z = true.
Proof. fkey_solve. Qed.
Lemma flt_le_trans x y z : flt x y = true → fle y z = true → flt x z = true.
Proof. fkey_solve. Qed.
Lemma flt_le x y : flt x y = true → fle x y = true.
Proof. fkey_solve. Qed.
Lemma flt_irrefl x : flt x x = false.
Proof. apply not_true_is_false. fkey_solve. Qed.

Lemma fle_refl x : is_nan x = false → fle x x = true.
Proof. rewrite fle_key. intros. split_and!; [done..|by right]. Qed.

Lemma fle_trans x y z : fle x y = true → fle y z = true → fle x z = true.
Proof.
  rewrite !fle_key. unfold lex_le. intros (?&?&[H1|H1]) (?&?&[H2|H2]); split_and!; try done.
  - left. revert H1 H2. unfold lex_lt. destruct (fkey x) as [[]], (fkey y) as [[]], (fkey z) as [[]]. lia.
  - left. by rewrite <-H2.
  - left. by rewrite H1.
  - right. congruence.
Qed.

Lemma flt_nge x y : is_nan x = false → is_nan y = false → flt x y = false ↔ fle y x = true.
Proof.
  intros Hx Hy. split.
  - intros H. apply fle_key. split_and!; [done..|]. unfold lex_le.
    assert (¬ lex_lt (fkey x) (fkey y)) as Hn
      by (intros Hl; assert (flt x y = true) by (by apply flt_key); congruence).
    revert Hn. unfold lex_lt. destruct (fkey x) as [[a b] c], (fkey y) as [[a' b'] c'].
    intros Hn. destruct (decide ((a', b', c') = (a, b, c))) as [->|Hd]; [by right|left].
    destruct (decide (a' = a)) as [->|], (decide (b' = b)) as [->|], (decide (c' = c)) as [->|]; try lia. done.
  - intros H. apply not_true_is_false. intros H2. pose proof (fle_lt_trans _ _ _ H H2) as H3.
    by rewrite flt_irrefl in H3.
Qed.

Lemma fle_nan_r x : fle x S754_nan = false.
Proof. by destruct x. Qed.
Lemma flt_nan_r x : flt x S754_nan = false.
Proof. by destruct x. Qed.
Lemma flt_nan_l x : flt S754_nan x = false.
Proof. done. Qed.

(** ** Clamping to [0, 1] *)

Definition clamp01 (x : f64) : f64 := fmax f0 (fmin f1 x).

(** Whatever the argument, NaN included, the clamped value lies in [0, 1]. *)
Lemma clamp01_range x : fle f0 (clamp01 x) = true ∧ fle (clamp01 x) f1 = true.
Proof.
  unfold clamp01, fmin, fmax.
  destruct (flt x f1) eqn:E1; destruct (flt f0 _) eqn:E2; auto using flt_le.
Qed.

Lemma clamp01_nan : clamp01 S754_nan = f1.
Proof. by vm_compute. Qed.

(** A running maximum is below nothing that has entered it. *)
Lemma flt_fmax a b x : flt a x = false → flt (fmax a b) x = false.
Proof.
  intros H. unfold fmax. destruct (flt a b) eqn:E; [|done].
  destruct (flt b x) eqn:E'; [|done]. rewrite (flt_trans _ _ _ E E') in H. discriminate.
Qed.
Lemma flt_fmax_r a b : flt (fmax a b) b = false.
Proof. unfold fmax. destruct (flt a b) eqn:E; [apply flt_irrefl|done]. Qed.

Lemma finite_not_nan x : is_finite x = true → is_nan x = false.
Proof. by destruct x. Qed.

Lemma clamp01_mono x y :
  is_nan x = false → fle x y = true → fle (clamp01 x) (clamp01 y) = true.
Proof.
  intros Nx Hxy. assert (is_nan y = false) as Ny by (apply fle_key in Hxy; naive_solver).
  assert (∀ a b, is_nan a = false → is_nan b = false → flt a b = false → fle b a = true) as Hn
    by (intros; by apply flt_nge).
  unfold clamp01, fmin.
  assert (∀ x y, fle x y = true → fle (fmax f0 x) (fmax f0 y) = true) as Hmax.
  { clear x y Nx Hxy Ny. intros x y H. unfold fmax.
    destruct (flt f0 x) eqn:E1, (flt f0 y) eqn:E2; try done.
    - rewrite (flt_le_trans _ _ _ E1 H) in E2. done.
    - by apply flt_le. }
  apply Hmax. destruct (flt x f1) eqn:E1, (flt y f1) eqn:E2; try done; try (by apply flt_le).
  exfalso. rewrite (fle_lt_trans _ _ _ Hxy E2) in E1. done.
Qed.

#[export] Hint Resolve finite_not_nan flt_le fle_trans : axg.
