(* ===== verification/PyDict.v ===== *)
(** * Python [dict] with string keys

    A dict is its list of items in insertion order, at most one per key.
    Assigning to a present key keeps its position; a new key goes last.
    Order matters to the program wherever it iterates over [d.values()]. *)

From S2P Require Import Prelude.

Section Dict.
Context {A : Type}.
Implicit Types (d : list (string * A)) (k : string) (v : A).

(** [d.get(k)] *)
Fixpoint assoc k d : option A :=
  match d with
  | [] => None
  | (k', v) :: d' => if bool_decide (k = k') then Some v else assoc k d'
  end.

(** [d[k] = v] *)
Fixpoint dict_set k v d : list (string * A) :=
  match d with
  | [] => [(k, v)]
  | (k', v') :: d' => if bool_decide (k = k') then (k, v) :: d' else (k', v') :: dict_set k v d'
  end.

(** [k in d] *)
Definition has_key k d : bool := match assoc k d with Some _ => true | None => false end.

(** A dict comprehension, or a loop of assignments. *)
Definition dict_of (l : list (string * A)) : list (string * A) :=
  fold_left (λ d p, dict_set p.1 p.2 d) l [].

Definition wf_dict d : Prop := NoDup d.*1.

Lemma assoc_set_eq k v d : assoc k (dict_set k v d) = Some v.
Proof.
  induction d as [|[k' v'] d IH]; simpl; [by rewrite bool_decide_true|].
  destruct (decide (k = k')) as [->|Hk].
  - rewrite bool_decide_true by done. simpl. by rewrite bool_decide_true.
  - rewrite bool_decide_false by done. simpl. by rewrite bool_decide_false.
Qed.

Lemma assoc_set_ne k k' v d : k ≠ k' → assoc k' (dict_set k v d) = assoc k' d.
Proof.
  intros Hne. induction d as [|[k2 v2] d IH]; simpl; [by rewrite bool_decide_false|].
  destruct (decide (k = k2)) as [->|Hk].
  - rewrite bool_decide_true by done. simpl. by rewrite !(bool_decide_false (k' = k2)).
  - rewrite bool_decide_false by done. simpl. by rewrite IH.
Qed.

Lemma assoc_Some_elem k v d : assoc k d = Some v → (k, v) ∈ d.
Proof.
  induction d as [|[k' v'] d IH]; simpl; [done|].
  case_bool_decide as E; intros; simplify_eq; [left|right; auto].
Qed.

Lemma assoc_None k d : assoc k d = None ↔ k ∉ d.*1.
Proof.
  induction d as [|[k' v'] d IH]; simpl; [split; [|done]; intros _; apply not_elem_of_nil|].
  rewrite not_elem_of_cons. case_bool_decide as E; [naive_solver|]. naive_solver.
Qed.

Lemma assoc_app_l k v d d' : assoc k d = Some v → assoc k (d ++ d') = Some v.
Proof. induction d as [|[k' w] d IH]; simpl; [done|]. by case_bool_decide. Qed.

Lemma elem_assoc k v d : wf_dict d → (k, v) ∈ d → assoc k d = Some v.
Proof.
  unfold wf_dict. induction d as [|[k' v'] d IH]; simpl; [by intros _ ?%not_elem_of_nil|].
  intros [Hn Hd]%NoDup_cons [E|H]%elem_of_cons.
  - simplify_eq. by rewrite bool_decide_true.
  - rewrite bool_decide_false; [by apply IH|]. intros ->.
    apply Hn, list_elem_of_fmap. by exists (k', v).
Qed.

Lemma keys_set k v d :
  (dict_set k v d).*1 = if has_key k d then d.*1 else d.*1 ++ [k].
Proof.
  unfold has_key. induction d as [|[k' v'] d IH]; [done|]. cbn [dict_set assoc].
  case_bool_decide as E; [by subst|]. rewrite !fmap_cons, IH. by destruct (assoc k d).
Qed.

Lemma wf_dict_set k v d : wf_dict d → wf_dict (dict_set k v d).
Proof.
  unfold wf_dict. intros Hd. rewrite keys_set. unfold has_key.
  destruct (assoc k d) eqn:E; [done|]. apply assoc_None in E.
  apply NoDup_app. split_and!; [done| |apply NoDup_singleton].
  intros x Hx. rewrite list_elem_of_singleton. by intros ->.
Qed.

Lemma wf_dict_nil : wf_dict []. Proof. apply NoDup_nil_2. Qed.

Lemma wf_dict_of l : wf_dict (dict_of l).
Proof.
  unfold dict_of. assert (∀ d, wf_dict d → wf_dict (fold_left (λ d p, dict_set p.1 p.2 d) l d)) as H.
  { induction l as [|p l IH]; intros d Hd; simpl; [done|]. by apply IH, wf_dict_set. }
  apply H, wf_dict_nil.
Qed.

Lemma Forall_dict_set (P : string * A → Prop) k v d :
  Forall P d → P (k, v) → Forall P (dict_set k v d).
Proof.
  intros Hd Hv. induction Hd as [|[k' v'] d Hp Hd IH]; simpl; [by constructor|].
  case_bool_decide as E; [subst|]; by constructor.
Qed.

Lemma elem_dict_set k v d p : p ∈ dict_set k v d → p = (k, v) ∨ p ∈ d.
Proof.
  induction d as [|[k' v'] d IH]; simpl; [rewrite list_elem_of_singleton; by left|].
  case_bool_decide as E; rewrite !elem_of_cons; naive_solver.
Qed.

(** Lookup does not depend on the order of the items. *)
Lemma assoc_Permutation k d d' : wf_dict d → d ≡ₚ d' → assoc k d = assoc k d'.
Proof.
  intros Hd Hp. assert (wf_dict d') as Hd' by (unfold wf_dict in *; by rewrite <-Hp).
  destruct (assoc k d) as [v|] eqn:E; symmetry.
  - apply elem_assoc; [done|]. rewrite <-Hp. by apply assoc_Some_elem.
  - apply assoc_None. rewrite <-Hp. by apply assoc_None.
Qed.

Lemma length_set k v d :
  length (dict_set k v d) = if has_key k d then length d else S (length d).
Proof.
  rewrite <-!(length_fmap fst), keys_set. destruct (has_key k d); [done|].
  rewrite length_app, length_fmap. simpl. lia.
Qed.
End Dict.

Lemma assoc_fmap {A B} (f : A → B) k (d : list (string * A)) :
  assoc k (map (λ p, (p.1, f p.2)) d) = f <$> assoc k d.
Proof. induction d as [|[k' v] d IH]; simpl; [done|]. by case_bool_decide. Qed.

Lemma keys_map {A B} (f : A → B) (d : list (string * A)) :
  (map (λ p, (p.1, f p.2)) d).*1 = d.*1.
Proof. induction d as [|[k v] d IH]; [done|]. simpl. f_equal. exact IH. Qed.


(** A dict display with distinct keys is its items. *)
Lemma dict_of_NoDup {A} (l : list (string * A)) : NoDup l.*1 → dict_of l = l.
Proof.
  assert (∀ l d : list (string * A), NoDup (d ++ l).*1 → fold_left (λ d p, dict_set p.1 p.2 d) l d = d ++ l) as H.
  { clear l. induction l as [|[k v] l IH]; intros d Hn; cbn [fold_left]; [by rewrite app_nil_r|].
    assert (dict_set k v d = d ++ [(k, v)]) as E.
    { rewrite fmap_app in Hn. apply NoDup_app in Hn as (_ & Hd & _). clear -Hd.
      assert (k ∉ d.*1) as Hk by (intros Hk; apply (Hd k Hk); by left). clear Hd.
      induction d as [|[j w] d IH]; [done|]. cbn in *. rewrite not_elem_of_cons in Hk. destruct Hk as [Hj Hk].
      rewrite bool_decide_false by done. by rewrite IH. }
    cbn [fst snd]. rewrite E, IH; rewrite <-app_assoc; done. }
  intros Hn. by apply (H l []).
Qed.

#[export] Hint Resolve wf_dict_set wf_dict_nil wf_dict_of assoc_set_eq : axg.
#[export] Hint Rewrite @assoc_set_eq : axg_str.
