(* ===== verification/Json.v ===== *)
(** * JSON values and the compact printer of [json.dumps]

    The signed and hashed objects of the program are Python dicts printed with
    [separators=(",", ":")].  [print] is that printer, [canon] is
    [sort_keys=True], and the printer is shown to be injective, so that equal
    bytes mean equal content. *)

From S2P Require Import Prelude PyStr PyFloat PyDict.

(** [float.__repr__], as [json.dumps] uses it.  Its documented behaviour is
    that it determines the float; the second law says what its tokens look
    like ("0.5", "1e-07", "NaN", "-Infinity"). *)
Definition atom_char (c : ascii) : bool :=
  let n := code c in
  is_digit c || between 65 90 n || between 97 122 n || (n =? 43)%N || (n =? 45)%N || (n =? 46)%N.

Definition int_char (c : ascii) : bool := is_digit c || (code c =? 45)%N.

Definition float_token (s : string) : bool :=
  match s with
  | "" => false
  | String c _ =>
      (int_char c || (code c =? 73)%N || (code c =? 78)%N)
      && forall_str atom_char s && exists_str (λ c, negb (int_char c)) s
  end.

Definition wf_f64 (f : f64) : bool := valid_binary 53 1024 f.

Class FloatRepr := {
  float_repr : f64 → string;
  float_repr_inj : ∀ f g, wf_f64 f = true → wf_f64 g = true → float_repr f = float_repr g → f = g;
  float_repr_token : ∀ f, float_token (float_repr f) = true
}.

#[warnings="-register-all"]
Inductive json :=
| JNull
| JBool (b : bool)
| JInt (z : Z)
| JFloat (f : f64)
| JStr (s : string)
| JArr (l : list json)
| JObj (l : list (string * json)).

(** Induction with hypotheses under the lists. *)
Section json_ind.
Variable P : json → Prop.
Hypothesis HNull : P JNull.
Hypothesis HBool : ∀ b, P (JBool b).
Hypothesis HInt : ∀ z, P (JInt z).
Hypothesis HFloat : ∀ f, P (JFloat f).
Hypothesis HStr : ∀ s, P (JStr s).
Hypothesis HArr : ∀ l, Forall P l → P (JArr l).
Hypothesis HObj : ∀ l, Forall (λ p, P p.2) l → P (JObj l).

Fixpoint json_ind' (v : json) : P v :=
  match v with
  | JNull => HNull | JBool b => HBool b | JInt z => HInt z
  | JFloat f => HFloat f | JStr s => HStr s
  | JArr l => HArr l ((fix go l : Forall P l :=
      match l with [] => Forall_nil_2 _ | x :: l' => Forall_cons_2 _ _ _ (json_ind' x) (go l') end) l)
  | JObj l => HObj l ((fix go l : Forall (λ p, P p.2) l :=
      match l with [] => Forall_nil_2 _ | x :: l' => Forall_cons_2 _ x _ (json_ind' x.2) (go l') end) l)
  end.
End json_ind.

Lemma Some_JStr_inj a b : Some (JStr a) = Some (JStr b) → a = b.
Proof. congruence. Qed.

Definition dict := list (string * json).

(** [d[k]] *)
Definition item (k : string) (d : dict) : result json :=
  match assoc k d with Some v => Ok v | None => raise "KeyError" k end.

(** [bool(v)] *)
Definition truthy_json (v : json) : bool :=
  match v with
  | JNull => false
  | JBool b => b
  | JInt z => negb (z =? 0)
  | JFloat f => negb (feq f f0)
  | JStr s => truthy s
  | JArr l => negb (bool_decide (length l = 0%nat))
  | JObj l => negb (bool_decide (length l = 0%nat))
  end.

(** [s == d.get(k)] for a [str] [s] *)
Definition is_str (s : string) (v : option json) : bool :=
  match v with Some (JStr s') => bool_decide (s = s') | _ => false end.

(** [v == w]: numbers by value whatever their type, dicts as maps. *)
Definition int_eq_float (z : Z) (f : f64) : bool :=
  match f with
  | S754_zero _ => z =? 0
  | S754_finite s m e =>
      let n := if s then Z.neg m else Z.pos m in
      if 0 <=? e then z =? n * 2 ^ e else z * 2 ^ (- e) =? n
  | _ => false
  end.

Definition int_le_float (z : Z) (f : f64) : bool :=
  match f with
  | S754_nan => false
  | S754_infinity s => negb s
  | S754_zero _ => z <=? 0
  | S754_finite s m e =>
      let n := if s then Z.neg m else Z.pos m in
      if 0 <=? e then z <=? n * 2 ^ e else z * 2 ^ (- e) <=? n
  end.

Definition int_of_json (v : json) : option Z :=
  match v with JInt z => Some z | JBool b => Some (if b then 1 else 0) | _ => None end.

Fixpoint py_eq (v w : json) : bool :=
  match v, w with
  | JNull, JNull => true
  | JFloat f, JFloat g => feq f g
  | JFloat f, _ => match int_of_json w with Some z => int_eq_float z f | None => false end
  | _, JFloat g => match int_of_json v with Some z => int_eq_float z g | None => false end
  | JStr s, JStr t => bool_decide (s = t)
  | JArr l, JArr k =>
      (fix go l k := match l, k with
        | [], [] => true
        | x :: l', y :: k' => py_eq x y && go l' k'
        | _, _ => false
        end) l k
  | JObj l, JObj k =>
      (length l =? length k)%nat &&
      (fix go (l : list (string * json)) := match l with
        | [] => true
        | (i, x) :: l' => match assoc i k with Some y => py_eq x y && go l' | None => false end
        end) l
  | _, _ => match int_of_json v, int_of_json w with Some z, Some z' => z =? z' | _, _ => false end
  end.

(** [v > w] of numbers and of strings *)
Definition json_gt (v w : json) : result bool :=
  match v, w with
  | JFloat f, JFloat g => Ok (flt g f)
  | JStr s, JStr t => Ok (negb (bool_decide (String.le s t)))
  | JFloat f, _ =>
      match int_of_json w with
      | Some z => Ok (int_le_float z f && negb (int_eq_float z f))
      | None => raise "TypeError" "'>' not supported between instances"
      end
  | _, JFloat g =>
      match int_of_json v with
      | Some z => Ok (negb (is_nan g) && negb (int_le_float z g))
      | None => raise "TypeError" "'>' not supported between instances"
      end
  | _, _ =>
      match int_of_json v, int_of_json w with
      | Some z, Some z' => Ok (z' <? z)
      | _, _ => raise "TypeError" "'>' not supported between instances"
      end
  end.

(** [v[k]] / [v.get(k)] *)
Definition get (v : json) (k : string) : option json :=
  match v with JObj l => assoc k l | _ => None end.

(** ** The printer *)

Definition quote_char : ascii := "034".
Definition backslash : ascii := "092".

Definition hex4 (c : ascii) : string :=
  "00" +:+ String (hex_digit (code c / 16)) (String (hex_digit (code c mod 16)) "").

(** [py_encode_basestring] and [py_encode_basestring_ascii]. *)
Definition escape_char (ensure_ascii : bool) (c : ascii) : string :=
  let n := code c in
  if (n =? 34)%N then String backslash (String quote_char "")
  else if (n =? 92)%N then String backslash (String backslash "")
  else if (n =? 10)%N then String backslash "n"
  else if (n =? 13)%N then String backslash "r"
  else if (n =? 9)%N then String backslash "t"
  else if (n =? 12)%N then String backslash "f"
  else if (n =? 8)%N then String backslash "b"
  else if (n <? 32)%N || (ensure_ascii && (126 <? n)%N)
    then String backslash (String "u" (hex4 c))
  else String c "".

Fixpoint escape (ea : bool) (s : string) : string :=
  match s with "" => "" | String c s' => escape_char ea c +:+ escape ea s' end.

Definition quote (ea : bool) (s : string) : string :=
  String quote_char (escape ea s +:+ String quote_char "").

Section Print.
Context `{FR : FloatRepr} (ea : bool).

Definition atom (v : json) : option string :=
  match v with
  | JNull => Some "null"
  | JBool true => Some "true"
  | JBool false => Some "false"
  | JInt z => Some (pretty z)
  | JFloat f => Some (float_repr f)
  | _ => None
  end.

Fixpoint print (v : json) : string :=
  match v with
  | JNull => "null"
  | JBool b => if b then "true" else "false"
  | JInt z => pretty z
  | JFloat f => float_repr f
  | JStr s => quote ea s
  | JArr l =>
      "[" +:+ (fix go l := match l with
        | [] => "]"
        | x :: l' => print x +:+ (match l' with [] => "]" | _ => "," +:+ go l' end)
        end) l
  | JObj l =>
      "{" +:+ (fix go l := match l with
        | [] => "}"
        | (k, x) :: l' => quote ea k +:+ ":" +:+ print x +:+
            (match l' with [] => "}" | _ => "," +:+ go l' end)
        end) l
  end.

(** [json.dumps(v)]: the default separators. *)
Fixpoint dumps (v : json) : string :=
  match v with
  | JArr l => "[" +:+ join ", " (map dumps l) +:+ "]"
  | JObj l => "{" +:+ join ", " (map (λ p, quote ea p.1 +:+ ": " +:+ dumps p.2) l) +:+ "}"
  | _ => print v
  end.

(** [json.dumps(v, indent=2)], inside [depth] brackets. *)
Fixpoint spaces (n : nat) : string := match n with O => "" | S n' => String " " (spaces n') end.
Definition line_break (depth : nat) : string := String "010" (spaces (2 * depth)).

Fixpoint print_indent (depth : nat) (v : json) : string :=
  let items l := line_break (S depth) +:+ join ("," +:+ line_break (S depth)) l +:+ line_break depth in
  match v with
  | JArr [] => "[]"
  | JArr l => "[" +:+ items (map (print_indent (S depth)) l) +:+ "]"
  | JObj [] => "{}"
  | JObj l => "{" +:+ items (map (λ p, quote ea p.1 +:+ ": " +:+ print_indent (S depth) p.2) l) +:+ "}"
  | _ => print v
  end.
End Print.

(** [sort_keys=True]: every object's items in the order of their keys. *)
Definition key_le (p q : string * json) : Prop := String.le p.1 q.1.
#[global] Instance key_le_dec : RelDecision key_le.
Proof. intros p q. unfold key_le. apply _. Defined.

Fixpoint canon (v : json) : json :=
  match v with
  | JArr l => JArr (map canon l)
  | JObj l => JObj (merge_sort key_le (map (λ p, (p.1, canon p.2)) l))
  | _ => v
  end.

(** [json.dumps(v, sort_keys=True, separators=(",", ":")).encode("utf-8")] *)
Definition canonical `{FloatRepr} (ea : bool) (v : json) : bytes := utf8 (print ea (canon v)).

(** Every float of the value is a well-formed binary64. *)
Fixpoint wf_json (v : json) : bool :=
  match v with
  | JFloat f => wf_f64 f
  | JArr l => forallb wf_json l
  | JObj l => forallb (λ p, wf_json p.2) l
  | _ => true
  end.

(** ** Injectivity of the printer *)

(** What can follow a value: nothing, or a character no token contains. *)
Definition delim (r : string) : bool :=
  match r with "" => true | String c _ => negb (atom_char c) end.

Lemma token_split t1 t2 r1 r2 :
  forall_str atom_char t1 = true → forall_str atom_char t2 = true →
  delim r1 = true → delim r2 = true →
  t1 +:+ r1 = t2 +:+ r2 → t1 = t2 ∧ r1 = r2.
Proof.
  revert t2; induction t1 as [|c t1 IH]; intros [|c2 t2]; simpl; intros A1 A2 D1 D2 H.
  - done.
  - rewrite app_cons_str, app_nil_l_str in H. subst. simpl in D1. bool_prop. congruence.
  - rewrite app_cons_str, app_nil_l_str in H. subst. simpl in D2. bool_prop. congruence.
  - rewrite !app_cons_str in H. injection H as -> H. bool_prop.
    destruct (IH t2) as [-> ->]; auto.
Qed.

Definition unescape (s : string) : option (ascii * string) :=
  match s with
  | "" => None
  | String a s' =>
      if bool_decide (a = backslash) then
        match s' with
        | "" => None
        | String b s'' =>
            if bool_decide (b = "n"%char) then Some ("010"%char, s'')
            else if bool_decide (b = "r"%char) then Some ("013"%char, s'')
            else if bool_decide (b = "t"%char) then Some ("009"%char, s'')
            else if bool_decide (b = "f"%char) then Some ("012"%char, s'')
            else if bool_decide (b = "b"%char) then Some ("008"%char, s'')
            else if bool_decide (b = "u"%char) then
              match s'' with
              | String _ (String _ (String x (String y t))) =>
                  match hex_value x, hex_value y with
                  | Some m, Some n => Some (ascii_of_N (16 * m + n), t)
                  | _, _ => None
                  end
              | _ => None
              end
            else Some (b, s'')
        end
      else Some (a, s')
  end.

Lemma unescape_escape ea c s : unescape (escape_char ea c +:+ s) = Some (c, s).
Proof. destruct ea; all_chars c; reflexivity. Qed.

Lemma escape_char_not_quote ea c s r : escape_char ea c +:+ s ≠ String quote_char r.
Proof. destruct ea; all_chars c; done. Qed.

Lemma escape_inj ea s1 s2 r1 r2 :
  escape ea s1 +:+ String quote_char r1 = escape ea s2 +:+ String quote_char r2 →
  s1 = s2 ∧ r1 = r2.
Proof.
  revert s2; induction s1 as [|c1 s1 IH]; intros [|c2 s2]; cbn [escape].
  - rewrite !app_nil_l_str. naive_solver.
  - rewrite app_nil_l_str, <-app_assoc_str. intros H. symmetry in H. by apply escape_char_not_quote in H.
  - rewrite app_nil_l_str, <-app_assoc_str. intros H. by apply escape_char_not_quote in H.
  - rewrite <-!app_assoc_str. intros H. apply (f_equal unescape) in H.
    rewrite !unescape_escape in H. injection H as -> H. apply IH in H as [-> ->]. done.
Qed.

Lemma quote_inj ea s1 s2 r1 r2 :
  quote ea s1 +:+ r1 = quote ea s2 +:+ r2 → s1 = s2 ∧ r1 = r2.
Proof.
  unfold quote. rewrite !app_cons_str, <-!app_assoc_str. intros [= H].
  apply (escape_inj ea). exact H.
Qed.

Lemma forall_str_impl (p q : ascii → bool) s :
  (∀ c, p c = true → q c = true) → forall_str p s = true → forall_str q s = true.
Proof. intros Hpq. induction s; simpl; [done|]. rewrite !andb_true_iff. naive_solver. Qed.

(** Decimal tokens: digits and the minus sign. *)
Lemma pretty_N_go_digits x acc :
  forall_str is_digit acc = true → forall_str is_digit (pretty_N_go x acc) = true.
Proof.
  revert acc. induction (N.lt_wf_0 x) as [x _ IH]; intros acc H.
  destruct (decide (x = 0)%N) as [->|Hx]; [by rewrite pretty_N_go_0|].
  rewrite pretty_N_go_step by lia. apply IH; [apply N.div_lt; lia|].
  simpl. rewrite H, andb_true_r. unfold pretty_N_char. by repeat case_match.
Qed.

Lemma pretty_Z_chars (z : Z) : forall_str int_char (pretty z) = true.
Proof.
  assert (∀ n : N, forall_str int_char (pretty n) = true) as HN.
  { intros n. apply (forall_str_impl is_digit).
    { intros c Hc. unfold int_char. by rewrite Hc. }
    unfold pretty, pretty_N. case_decide; [done|]. by apply pretty_N_go_digits. }
  unfold pretty, pretty_Z. destruct z as [|p|p]; try done; apply HN.
Qed.

Lemma int_char_atom c : int_char c = true → atom_char c = true.
Proof. unfold int_char, atom_char. destruct (is_digit c); [done|]. simpl. intros ->. by rewrite !orb_true_r. Qed.

Lemma pretty_Z_nonempty (z : Z) : pretty z ≠ "".
Proof.
  assert (∀ x acc, acc ≠ "" → pretty_N_go x acc ≠ "") as HG.
  { intros x. induction (N.lt_wf_0 x) as [x _ IH]; intros acc H.
    destruct (decide (x = 0)%N) as [->|Hx]; [by rewrite pretty_N_go_0|].
    rewrite pretty_N_go_step by lia. apply IH; [apply N.div_lt; lia|done]. }
  assert (∀ n : N, pretty n ≠ "") as HN.
  { intros n. unfold pretty, pretty_N. case_decide; [done|].
    rewrite pretty_N_go_step by lia. by apply HG. }
  unfold pretty, pretty_Z. destruct z as [|p|p]; try done; apply HN.
Qed.

Section PrintInj.
Context `{FR : FloatRepr} (ea : bool).

Fixpoint print_list (l : list json) : string :=
  match l with
  | [] => "]"
  | x :: l' => print ea x +:+ (match l' with [] => "]" | _ => "," +:+ print_list l' end)
  end.
Fixpoint print_items (l : list (string * json)) : string :=
  match l with
  | [] => "}"
  | (k, x) :: l' => quote ea k +:+ ":" +:+ print ea x +:+
      (match l' with [] => "}" | _ => "," +:+ print_items l' end)
  end.

Lemma print_arr l : print ea (JArr l) = "[" +:+ print_list l. Proof. done. Qed.
Lemma print_obj l : print ea (JObj l) = "{" +:+ print_items l. Proof. done. Qed.

Lemma float_token_atom f : forall_str atom_char (float_repr f) = true ∧ float_repr f ≠ "".
Proof.
  pose proof (float_repr_token f) as H. unfold float_token in H.
  destruct (float_repr f) eqn:E; [done|]. bool_prop. done.
Qed.

Lemma atom_chars v t : atom v = Some t → print ea v = t ∧ forall_str atom_char t = true ∧ t ≠ "".
Proof.
  destruct v as [|[]| | | | |]; simpl; intros; simplify_eq; try done.
  - split_and!; [done| |apply pretty_Z_nonempty].
    eapply forall_str_impl; [apply int_char_atom|apply pretty_Z_chars].
  - split; [done|apply float_token_atom].
Qed.

(** A float token is neither an integer token nor a keyword. *)
Lemma float_token_not f (t : string) :
  forall_str int_char t = true ∨ t = "null" ∨ t = "true" ∨ t = "false" → float_repr f ≠ t.
Proof.
  intros Ht E. pose proof (float_repr_token f) as H. rewrite E in H. unfold float_token in H.
  destruct Ht as [Ht|[->|[->| ->]]]; [|done..].
  destruct t as [|c t]; [done|]. bool_prop.
  unfold exists_str in *. bool_prop.
  match goal with HH : forall_str (λ _, negb (negb _)) _ = false |- _ =>
    assert (forall_str (λ c, negb (negb (int_char c))) (String c t) = true) by
      (eapply forall_str_impl; [|exact Ht]; intros d ->; done); congruence end.
Qed.

Lemma atom_inj v1 v2 t :
  wf_json v1 = true → wf_json v2 = true → atom v1 = Some t → atom v2 = Some t → v1 = v2.
Proof.
  assert (∀ (z : Z) (t : string), pretty z = t → forall_str int_char t = true) as HP
    by (intros z ? <-; apply pretty_Z_chars).
  destruct v1 as [|[]| | | | |], v2 as [|[]| | | | |]; simpl; intros W1 W2 H1 H2; simplify_eq; try done.
  all: try match goal with
    | H : pretty _ = pretty _ |- _ => by apply (inj pretty) in H as ->
    | H : pretty _ = float_repr _ |- _ => symmetry in H; apply float_token_not in H; [done|left; apply pretty_Z_chars]
    | H : float_repr _ = pretty _ |- _ => apply float_token_not in H; [done|left; apply pretty_Z_chars]
    | H : float_repr _ = float_repr _ |- _ => apply float_repr_inj in H; congruence
    | H : float_repr _ = _ |- _ => apply float_token_not in H; [done|naive_solver]
    | H : _ = float_repr _ |- _ => symmetry in H; apply float_token_not in H; [done|naive_solver]
    | H : pretty _ = _ |- _ => by apply HP in H
    | H : _ = pretty _ |- _ => symmetry in H; by apply HP in H
    end.
Qed.

(** The first character of a printed value. *)
Lemma print_first v :
  match v with
  | JStr _ => ∃ t, print ea v = String quote_char t
  | JArr _ => ∃ t, print ea v = String "[" t
  | JObj _ => ∃ t, print ea v = String "{" t
  | _ => ∃ c t, print ea v = String c t ∧ atom_char c = true
  end.
Proof.
  assert (∀ t, atom v = Some t → ∃ c u, print ea v = String c u ∧ atom_char c = true) as HA.
  { intros t Ht. apply atom_chars in Ht as (-> & Ht & Hn). destruct t as [|c u]; [done|].
    simpl in Ht. bool_prop. eauto. }
  destruct v as [|[]| | | | |]; try (by eapply HA); by eexists.
Qed.

Lemma print_not_close v r s : print ea v +:+ r ≠ String "]" s.
Proof.
  pose proof (print_first v) as H. destruct v;
    first [destruct H as (c & t & -> & H) | destruct H as [t ->]];
    rewrite app_cons_str; intros [= -> _]; done.
Qed.

Definition print_unique (v1 : json) : Prop := ∀ v2 r1 r2,
  wf_json v1 = true → wf_json v2 = true → delim r1 = true → delim r2 = true →
  print ea v1 +:+ r1 = print ea v2 +:+ r2 → v1 = v2 ∧ r1 = r2.

Lemma print_list_unique l1 : Forall print_unique l1 → ∀ l2 r1 r2,
  forallb wf_json l1 = true → forallb wf_json l2 = true →
  print_list l1 +:+ r1 = print_list l2 +:+ r2 → l1 = l2 ∧ r1 = r2.
Proof.
  induction 1 as [|x l1 Hx _ IH]; intros [|y l2] r1 r2; cbn [print_list forallb]; intros W1 W2 H.
  - rewrite !app_cons_str in H. by simplify_eq.
  - rewrite <-app_assoc_str in H. symmetry in H. by apply print_not_close in H.
  - rewrite <-app_assoc_str in H. by apply print_not_close in H.
  - rewrite <-!app_assoc_str in H. bool_prop.
    apply Hx in H as [-> H]; [|done|done|by destruct l1|by destruct l2].
    destruct l1 as [|x' l1], l2 as [|y' l2]; rewrite ?app_cons_str in H; try (by simplify_eq).
    injection H as H. change (print_list (x' :: l1) +:+ r1 = print_list (y' :: l2) +:+ r2) in H.
    apply IH in H as [H ->]; [by rewrite H|done|done].
Qed.

Lemma print_items_unique l1 : Forall (λ p, print_unique p.2) l1 → ∀ l2 r1 r2,
  forallb (λ p, wf_json p.2) l1 = true → forallb (λ p, wf_json p.2) l2 = true →
  print_items l1 +:+ r1 = print_items l2 +:+ r2 → l1 = l2 ∧ r1 = r2.
Proof.
  induction 1 as [|[k x] l1 Hx _ IH]; intros [|[k2 y] l2] r1 r2; cbn [print_items forallb snd] in *; intros W1 W2 H.
  - rewrite !app_cons_str in H. by simplify_eq.
  - unfold quote in H. by rewrite !app_cons_str in H.
  - unfold quote in H. by rewrite !app_cons_str in H.
  - rewrite <-!app_assoc_str in H. bool_prop. apply quote_inj in H as [-> H].
    rewrite !app_cons_str in H. simplify_eq. rewrite !app_nil_l_str in H.
    apply Hx in H as [-> H]; [|done|done|by destruct l1|by destruct l2].
    destruct l1 as [|x' l1], l2 as [|y' l2]; rewrite ?app_cons_str in H; try (by simplify_eq).
    injection H as H. change (print_items (x' :: l1) +:+ r1 = print_items (y' :: l2) +:+ r2) in H.
    apply IH in H as [H ->]; [by rewrite H|done|done].
Qed.

Lemma print_unique_all v : print_unique v.
Proof.
  assert (∀ v t, atom v = Some t → print_unique v) as HA.
  { intros v1 t Ht v2 r1 r2 W1 W2 D1 D2 H.
    destruct (atom_chars _ _ Ht) as (E1 & C1 & N1). rewrite E1 in H.
    destruct (atom v2) as [t2|] eqn:Ht2.
    - destruct (atom_chars _ _ Ht2) as (E2 & C2 & _). rewrite E2 in H.
      destruct (token_split t t2 r1 r2) as [-> ->]; try done.
      split; [|done]. by eapply atom_inj.
    - exfalso. pose proof (print_first v2) as F. destruct t as [|c t]; [done|]. simpl in C1. bool_prop.
      destruct v2 as [|[]| | | | |]; try done; destruct F as [u F]; rewrite F, !app_cons_str in H; by simplify_eq. }
  induction v as [| | | |s|l IH|l IH] using json_ind'; try (by eapply HA).
  - destruct b; by eapply HA.
  - intros v2 r1 r2 W1 W2 D1 D2 H. pose proof (print_first v2) as F.
    destruct v2; try (destruct F as (c & t & F & Fa); rewrite F in H; simpl in H; unfold quote in H;
      rewrite !app_cons_str in H; by simplify_eq).
    + apply quote_inj in H as [-> ->]. done.
    + simpl in H. unfold quote in H. by rewrite !app_cons_str in H.
    + simpl in H. unfold quote in H. by rewrite !app_cons_str in H.
  - intros v2 r1 r2 W1 W2 D1 D2 H. pose proof (print_first v2) as F. rewrite print_arr in H.
    destruct v2; try (destruct F as (c & t & F & Fa); rewrite F in H; rewrite !app_cons_str in H; by simplify_eq);
      try (destruct F as (t & F); rewrite F in H; by rewrite !app_cons_str in H).
    rewrite print_arr, !app_cons_str in H. simplify_eq.
    apply print_list_unique in H as [-> ->]; auto.
  - intros v2 r1 r2 W1 W2 D1 D2 H. pose proof (print_first v2) as F. rewrite print_obj in H.
    destruct v2; try (destruct F as (c & t & F & Fa); rewrite F in H; rewrite !app_cons_str in H; by simplify_eq);
      try (destruct F as (t & F); rewrite F in H; by rewrite !app_cons_str in H).
    rewrite print_obj, !app_cons_str in H. simplify_eq.
    apply print_items_unique in H as [-> ->]; auto.
Qed.

Lemma print_inj v1 v2 :
  wf_json v1 = true → wf_json v2 = true → print ea v1 = print ea v2 → v1 = v2.
Proof.
  intros W1 W2 H. destruct (print_unique_all v1 v2 "" ""); try done. by rewrite !app_nil_r_str.
Qed.
End PrintInj.

(** ** Canonical bytes determine the content up to the order of keys *)

Lemma forallb_Permutation {A} (p : A → bool) l k : l ≡ₚ k → forallb p l = forallb p k.
Proof. induction 1; simpl; try congruence. by rewrite !andb_assoc, (andb_comm (p x)). Qed.

Lemma wf_canon v : wf_json (canon v) = wf_json v.
Proof.
  induction v as [| | | | |l IH|l IH] using json_ind'; simpl; try done.
  - induction IH as [|x l Hx _ IH]; simpl; [done|]. by rewrite Hx, IH.
  - rewrite (forallb_Permutation _ _ _ (merge_sort_Permutation key_le _)).
    induction IH as [|x l Hx _ IH]; simpl; [done|]. by rewrite Hx, IH.
Qed.

Lemma canonical_inj `{FloatRepr} ea v1 v2 :
  wf_json v1 = true → wf_json v2 = true →
  canonical ea v1 = canonical ea v2 → canon v1 = canon v2.
Proof.
  intros W1 W2 Hc. apply utf8_inj in Hc. by apply print_inj in Hc; rewrite ?wf_canon.
Qed.

(** Objects with the same canonical form have the same members. *)
Lemma canon_assoc k l1 l2 :
  wf_dict l1 → wf_dict l2 → canon (JObj l1) = canon (JObj l2) →
  canon <$> assoc k l1 = canon <$> assoc k l2.
Proof.
  intros D1 D2 [= H]. rewrite <-!assoc_fmap.
  assert (wf_dict (map (λ p, (p.1, canon p.2)) l1)) as D1' by (unfold wf_dict; by rewrite keys_map).
  apply assoc_Permutation; [done|].
  etrans; [symmetry; apply (merge_sort_Permutation key_le)|].
  rewrite H. apply merge_sort_Permutation.
Qed.

(** Read off the members of two objects with concrete, distinct keys. *)
Ltac concrete_keys :=
  unfold wf_dict; cbn [fmap list_fmap fst]; apply (bool_decide_unpack _); vm_compute; exact I.
Ltac member_of k l :=
  lazymatch l with
  | (k, ?v) :: _ => v
  | _ :: ?l' => member_of k l'
  end.
Ltac canon_member H k F :=
  lazymatch type of H with
  | canon (JObj ?a) = canon (JObj ?b) =>
      let va := member_of k a in
      let vb := member_of k b in
      assert (canon <$> Some va = canon <$> Some vb) as F
        by (exact (canon_assoc k a b ltac:(concrete_keys) ltac:(concrete_keys) H))
  end;
  cbn [fmap option_fmap option_map] in F.
Ltac canon_field H k :=
  let F := fresh "F" in canon_member H k F; cbn [canon] in F; injection F as F.

#[export] Hint Resolve canonical_inj : axg.

(** A printer of floats that satisfies the two laws, used to run the model on
    concrete inputs: mantissa, binary exponent and class, separated by [e]. *)
Definition float_code (f : f64) : Z * Z * Z :=
  match f with
  | S754_nan => (0, 0, 0)
  | S754_infinity s => (0, Z.b2z s, 1)
  | S754_zero s => (0, Z.b2z s, 2)
  | S754_finite s m e => (Zpos m, e, 3 + Z.b2z s)
  end.

Definition exact_repr (f : f64) : string :=
  let '(a, b, c) := float_code f in
  pretty a +:+ "e" +:+ pretty b +:+ "e" +:+ pretty c.

Lemma split_at_e (s1 s2 t1 t2 : string) :
  forall_str int_char s1 = true → forall_str int_char s2 = true →
  s1 +:+ "e" +:+ t1 = s2 +:+ "e" +:+ t2 → s1 = s2 ∧ t1 = t2.
Proof.
  revert s2; induction s1 as [|c s1 IH]; intros [|c2 s2]; simpl; intros A1 A2 Heq.
  - rewrite !app_nil_l_str, !app_cons_str in Heq. by injection Heq.
  - rewrite app_nil_l_str, !app_cons_str in Heq. injection Heq as <- _. done.
  - rewrite app_nil_l_str, !app_cons_str in Heq. injection Heq as -> _. done.
  - rewrite !app_cons_str in Heq. injection Heq as -> Heq. bool_prop.
    destruct (IH s2) as [-> ->]; auto.
Qed.

Lemma exact_repr_inj f g : exact_repr f = exact_repr g → f = g.
Proof.
  assert (∀ f g, float_code f = float_code g → f = g) as HC.
  { intros [[]|[]| |[] ? ?] [[]|[]| |[] ? ?]; simpl; intros; simplify_eq; done. }
  unfold exact_repr. intros Hr. apply HC.
  destruct (float_code f) as [[a b] c], (float_code g) as [[a' b'] c'].
  apply split_at_e in Hr as [Ha Hr]; [|apply pretty_Z_chars..].
  apply split_at_e in Hr as [Hb Hr]; [|apply pretty_Z_chars..].
  apply (inj pretty) in Ha, Hb, Hr. congruence.
Qed.

Lemma exact_repr_token f : float_token (exact_repr f) = true.
Proof.
  unfold exact_repr. destruct (float_code f) as [[a b] c].
  assert (∀ z : Z, forall_str atom_char (pretty z) = true) as HA
    by (intros z; eapply forall_str_impl; [apply int_char_atom|apply pretty_Z_chars]).
  assert (∀ t, float_token (pretty a +:+ t) =
    forall_str atom_char (pretty a +:+ t) && exists_str (λ c, negb (int_char c)) (pretty a +:+ t)) as HF.
  { intros t. pose proof (pretty_Z_chars a) as P. pose proof (pretty_Z_nonempty a).
    destruct (pretty a) as [|d u]; [done|]. rewrite app_cons_str. unfold float_token.
    simpl in P. bool_prop. by match goal with H : int_char d = true |- _ => rewrite H end. }
  rewrite HF. unfold exists_str. rewrite !forall_str_app, !HA. simpl. by rewrite andb_false_r.
Qed.

Definition exact_float_repr : FloatRepr :=
  {| float_repr := exact_repr;
     float_repr_inj := λ f g _ _ H, exact_repr_inj f g H;
     float_repr_token := exact_repr_token |}.
