(* ===== verification/JsonRead.v ===== *)
(** * Reading JSON: [json.loads]

    The reader of the standard library, with the hooks the program passes to
    it: what to make of the members of an object, of [NaN] and [Infinity], and
    of a number with a fraction or an exponent.  It reads back what the
    printers of [Json] write.  Every failure is a [JSONDecodeError]; an escape
    of a character above U+00FF, which no text of the development has, is one
    here too.  The reader recurses on fuel, of which the length of the text is
    always enough. *)

From S2P Require Import Prelude PyStr PyFloat PyDict Json.

(** [bytes.decode("utf-8")], of texts below U+0100. *)
Fixpoint utf8_decode (b : bytes) : result string :=
  match b with
  | "" => Ok ""
  | String c b1 =>
      if (code c <? 128)%N then s ← utf8_decode b1; Ok (String c s)
      else match b1 with
           | String d b2 =>
               if between 194 195 (code c) && between 128 191 (code d)
               then s ← utf8_decode b2; Ok (String (ascii_of_N (64 * (code c - 192) + (code d - 128))) s)
               else raise "UnicodeDecodeError" "'utf-8' codec can't decode byte"
           | "" => raise "UnicodeDecodeError" "'utf-8' codec can't decode byte"
           end
  end.

(** ** Tokens *)

Definition digits1 (s : string) : bool := truthy s && forall_str is_digit s.

(** [0|[1-9][0-9]*] *)
Definition natural (s : string) : bool :=
  match s with
  | "" => false
  | String c "" => is_digit c
  | String c s' => is_digit c && negb (bool_decide (c = "0"%char)) && forall_str is_digit s'
  end.

Definition unsigned (s : string) : bool * string :=
  match s with String c s' => if bool_decide (c = "-"%char) then (true, s') else (false, s) | "" => (false, s) end.

Definition int_token (s : string) : bool := natural (unsigned s).2.
Definition int_of_token (s : string) : Z :=
  let '(minus, t) := unsigned s in if minus then - int_of_digits t else int_of_digits t.

Fixpoint span (p : ascii → bool) (s : string) : string * string :=
  match s with
  | "" => ("", "")
  | String c s' => if p c then (String c (span p s').1, (span p s').2) else ("", s)
  end.

(** [[eE][-+]?[0-9]+] *)
Definition exponent (s : string) : bool :=
  match s with
  | String c s' =>
      bool_decide (c ∈ ["e"%char; "E"%char]) &&
      match s' with
      | String d s2 => if bool_decide (d ∈ ["-"%char; "+"%char]) then digits1 s2 else digits1 s'
      | "" => false
      end
  | "" => false
  end.
(** A number with a fraction or an exponent. *)
Definition float_number (s : string) : bool :=
  let '(n, r) := span is_digit (unsigned s).2 in
  natural n &&
  match r with
  | String c r' =>
      if bool_decide (c = "."%char)
      then let '(f, e) := span is_digit r' in truthy f && (bool_decide (e = "") || exponent e)
      else exponent r
  | "" => false
  end.

Definition hex_digits (a b c d : ascii) : option N :=
  w ← hex_value a; x ← hex_value b; y ← hex_value c; z ← hex_value d;
  Some (((w * 16 + x) * 16 + y) * 16 + z)%N.

Definition simple_escape (c : ascii) : option ascii :=
  if bool_decide (c ∈ [quote_char; backslash; "/"%char]) then Some c
  else if bool_decide (c = "b"%char) then Some "008"%char
  else if bool_decide (c = "f"%char) then Some "012"%char
  else if bool_decide (c = "n"%char) then Some "010"%char
  else if bool_decide (c = "r"%char) then Some "013"%char
  else if bool_decide (c = "t"%char) then Some "009"%char
  else None.

Definition decode_error {A} (msg : string) : result A := raise "JSONDecodeError" msg.

(** The characters of a string up to its closing quote, and the rest. *)
Fixpoint scan_string (s : string) : result (string * string) :=
  let put c r := '(t, r) ← r; Ok (String c t, r) in
  match s with
  | "" => decode_error "Unterminated string"
  | String c s1 =>
      if bool_decide (c = quote_char) then Ok ("", s1)
      else if bool_decide (c = backslash) then
        match s1 with
        | "" => decode_error "Unterminated string"
        | String e s2 =>
            if bool_decide (e = "u"%char) then
              match s2 with
              | String h1 (String h2 (String h3 (String h4 s3))) =>
                  match hex_digits h1 h2 h3 h4 with
                  | Some n => if (n <? 256)%N then put (ascii_of_N n) (scan_string s3)
                              else decode_error "character above U+00FF"
                  | None => decode_error "Invalid \uXXXX escape"
                  end
              | _ => decode_error "Invalid \uXXXX escape"
              end
            else match simple_escape e with
                 | Some x => put x (scan_string s2)
                 | None => decode_error "Invalid \escape"
                 end
        end
      else if (code c <? 32)%N then decode_error "Invalid control character"
      else put c (scan_string s1)
  end.

Definition is_ws (c : ascii) : bool := bool_decide (c ∈ [" "%char; "009"%char; "010"%char; "013"%char]).
Definition ws (s : string) : string := lstrip_by is_ws s.

(** ** The reader *)

(** [object_pairs_hook], [parse_constant] and [parse_float]. *)
Record hooks := {
  on_pairs : dict → result json;
  on_constant : string → result json;
  on_float : string → result json
}.

Section Reader.
Variable h : hooks.

(** A keyword or a number. *)
Definition token_value (t : string) : result json :=
  if bool_decide (t = "null") then Ok JNull
  else if bool_decide (t = "true") then Ok (JBool true)
  else if bool_decide (t = "false") then Ok (JBool false)
  else if bool_decide (t ∈ ["NaN"; "Infinity"; "-Infinity"]) then on_constant h t
  else if int_token t then Ok (JInt (int_of_token t))
  else if float_number t then on_float h t
  else decode_error "Expecting value".
Definition scalar (s : string) : result (json * string) :=
  v ← token_value (span atom_char s).1; Ok (v, (span atom_char s).2).

Definition expect (c : ascii) (s : string) : result string :=
  match s with
  | String d s' => if bool_decide (d = c) then Ok s' else decode_error "Expecting delimiter"
  | "" => decode_error "Expecting delimiter"
  end.

(** A string after its opening quote is expected. *)
Definition key (s : string) : result (string * string) :=
  s' ← expect quote_char s; scan_string s'.

Definition out_of_fuel {A} : result A := raise "RecursionError" "fuel".

Fixpoint value (fuel : nat) (s : string) : result (json * string) :=
  match fuel with
  | O => out_of_fuel
  | S n =>
      match s with
      | "" => decode_error "Expecting value"
      | String c s1 =>
          if bool_decide (c = quote_char) then '(t, r) ← scan_string s1; Ok (JStr t, r)
          else if bool_decide (c = "["%char) then
            match expect "]" (ws s1) with
            | Ok r => Ok (JArr [], r)
            | Raise _ => '(l, r) ← elements n (ws s1); Ok (JArr l, r)
            end
          else if bool_decide (c = "{"%char) then
            match expect "}" (ws s1) with
            | Ok r => v ← on_pairs h []; Ok (v, r)
            | Raise _ => '(l, r) ← members n (ws s1); v ← on_pairs h l; Ok (v, r)
            end
          else scalar s
      end
  end
with elements (fuel : nat) (s : string) : result (list json * string) :=
  match fuel with
  | O => out_of_fuel
  | S n =>
      '(v, r) ← value n s;
      match expect "," (ws r) with
      | Ok r' => '(l, r2) ← elements n (ws r'); Ok (v :: l, r2)
      | Raise _ => r' ← expect "]" (ws r); Ok ([v], r')
      end
  end
with members (fuel : nat) (s : string) : result (dict * string) :=
  match fuel with
  | O => out_of_fuel
  | S n =>
      '(k, r) ← key s;
      r ← expect ":" (ws r);
      '(v, r) ← value n (ws r);
      match expect "," (ws r) with
      | Ok r' => '(l, r2) ← members n (ws r'); Ok ((k, v) :: l, r2)
      | Raise _ => r' ← expect "}" (ws r); Ok ([(k, v)], r')
      end
  end.

Definition fuel_for (s : string) : nat := S (2 * String.length s).

(** [json.loads(s)] *)
Definition loads_with (s : string) : result json :=
  '(v, r) ← value (fuel_for s) (ws s);
  if truthy (ws r) then decode_error "Extra data" else Ok v.
End Reader.

(** [float(text)] reads back what [float.__repr__] wrote, which for a finite
    float is a JSON number with a fraction or an exponent. *)
Class FloatRead `{FR : FloatRepr} := {
  read_float : string → f64;
  repr_number f : wf_f64 f = true → is_finite f = true → float_number (float_repr f) = true;
  read_repr f : wf_f64 f = true → is_finite f = true → read_float (float_repr f) = f;
  repr_nan : float_repr S754_nan = "NaN";
  repr_infinity s : float_repr (S754_infinity s) = if s then "-Infinity" else "Infinity"
}.

(** ** Bytes and strings *)

Lemma utf8_decode_utf8 s : utf8_decode (utf8 s) = Ok s.
Proof.
  induction s as [|c s IH]; [done|]. cbn [utf8].
  assert (utf8_decode (utf8_char c +:+ utf8 s) = (s' ← utf8_decode (utf8 s); Ok (String c s'))) as ->; [|by rewrite IH].
  generalize (utf8 s). intros t. all_chars c; reflexivity.
Qed.

Lemma scan_escaped ea c t : scan_string (escape_char ea c +:+ t) = ('(u, r) ← scan_string t; Ok (String c u, r)).
Proof. destruct ea; all_chars c; reflexivity. Qed.

Lemma scan_escape ea s r : scan_string (escape ea s +:+ String quote_char r) = Ok (s, r).
Proof.
  induction s as [|c s IH]; [done|]. cbn [escape]. by rewrite <-app_assoc_str, scan_escaped, IH.
Qed.

Lemma key_quote ea s r : key (quote ea s +:+ r) = Ok (s, r).
Proof. unfold key, quote. rewrite app_cons_str, <-app_assoc_str. cbn. apply scan_escape. Qed.

(** ** Numbers *)

Lemma span_token p t r : forall_str p t = true → match r with String c _ => p c = false | "" => True end →
  span p (t +:+ r) = (t, r).
Proof.
  intros Ht Hr. induction t as [|c t IH].
  - rewrite app_nil_l_str. destruct r as [|c r]; [done|]. cbn. by rewrite Hr.
  - cbn in Ht. apply andb_true_iff in Ht as [Hc Ht]. rewrite app_cons_str. cbn. by rewrite Hc, IH.
Qed.

Lemma digit_value x : (x < 10)%N →
  Z.of_N (code (pretty_N_char x)) - 48 = Z.of_N x ∧ (x ≠ 0%N → pretty_N_char x ≠ "0"%char) ∧ is_digit (pretty_N_char x) = true.
Proof.
  intros Hx. assert (Forall (λ x, Z.of_N (code (pretty_N_char x)) - 48 = Z.of_N x ∧ (x ≠ 0%N → pretty_N_char x ≠ "0"%char) ∧
    is_digit (pretty_N_char x) = true) (map N.of_nat (seq 0 10))) as H.
  { repeat (constructor; [split; [reflexivity|]; split; [done|reflexivity]|]). constructor. }
  rewrite Forall_forall in H. apply H, list_elem_of_fmap. exists (N.to_nat x). split; [by rewrite N2Nat.id|].
  apply elem_of_seq. lia.
Qed.

Lemma chars_app s t : chars (s +:+ t) = chars s ++ chars t.
Proof. induction s as [|c s IH]; [done|]. rewrite app_cons_str. cbn. by rewrite IH. Qed.

(** The digits of a positive number, before those of [acc]. *)
Lemma pretty_go x : ∀ acc, (x ≠ 0)%N → ∃ c t, pretty_N_go x acc = String c t +:+ acc ∧
  c ≠ "0"%char ∧ forall_str is_digit (String c t) = true ∧ int_of_digits (String c t) = Z.of_N x.
Proof.
  induction (N.lt_wf_0 x) as [x _ IH]; intros acc Hx. rewrite pretty_N_go_step by lia.
  destruct (digit_value (x mod 10)) as (Hv & Hz & Hd); [by apply N.mod_lt|].
  pose proof (N.div_mod x 10) as Hdm.
  destruct (decide (x / 10 = 0)%N) as [E|E].
  - rewrite E, pretty_N_go_0. exists (pretty_N_char (x mod 10)), "". split; [done|]. split; [apply Hz; lia|].
    split; [cbn; by rewrite Hd|]. unfold int_of_digits. cbn. lia.
  - destruct (IH (x / 10)%N ltac:(apply N.div_lt; lia) (String (pretty_N_char (x mod 10)) acc) E)
      as (c & t & Hg & Hc & Hf & Hi).
    exists c, (t +:+ String (pretty_N_char (x mod 10)) ""). split; [rewrite Hg; by rewrite <-!app_cons_str, <-app_assoc_str|].
    split; [done|]. rewrite <-app_cons_str. split; [rewrite forall_str_app, Hf; cbn; by rewrite Hd|].
    unfold int_of_digits in *. rewrite chars_app, fold_left_app, Hi. cbn. lia.
Qed.

Lemma pretty_natural (n : N) : natural (pretty n) = true ∧ int_of_digits (pretty n) = Z.of_N n ∧
  ∃ c t, pretty n = String c t ∧ is_digit c = true.
Proof.
  unfold pretty, pretty_N. case_decide as E; [subst; split; [done|]; split; [done|]; by exists "0"%char, ""|].
  destruct (pretty_go n "" E) as (c & t & -> & Hc & Hf & Hi). rewrite app_nil_r_str.
  cbn [forall_str] in Hf. apply andb_true_iff in Hf as [Hd Hf].
  split; [|split; [done|by exists c, t]]. unfold natural. rewrite Hd, Hf, bool_decide_false by done. by destruct t.
Qed.

Lemma unsigned_digit c t : is_digit c = true → unsigned (String c t) = (false, String c t).
Proof. intros Hc. unfold unsigned. rewrite bool_decide_false; [done|]. by intros ->. Qed.

Lemma int_token_pretty (z : Z) : int_token (pretty z) = true ∧ int_of_token (pretty z) = z.
Proof.
  assert (∀ n : N, int_token (pretty n) = true ∧ int_of_token (pretty n) = Z.of_N n) as HN.
  { intros n. destruct (pretty_natural n) as (Hn & Hi & c & t & E & Hc).
    unfold int_token, int_of_token. rewrite E in *. by rewrite unsigned_digit. }
  unfold pretty, pretty_Z. destruct z as [|p|p]; [done|apply HN|].
  destruct (pretty_natural (N.pos p)) as (Hn & Hi & _).
  change (natural (pretty (N.pos p)) = true ∧ - int_of_digits (pretty (N.pos p)) = Z.neg p).
  split; [done|]. rewrite Hi. done.
Qed.

(** ** JSON texts

    What a text of a value is: between its tokens any white space may stand. *)

Definition blank (w : string) : Prop := forall_str is_ws w = true.

Inductive writes `{FR : FloatRepr} : json → string → Prop :=
| writes_atom v t : atom v = Some t → writes v t
| writes_str ea s : writes (JStr s) (quote ea s)
| writes_nil w : blank w → writes (JArr []) ("[" +:+ w +:+ "]")
| writes_arr l s : writes_list l s → writes (JArr l) ("[" +:+ s +:+ "]")
| writes_empty w : blank w → writes (JObj []) ("{" +:+ w +:+ "}")
| writes_obj l s : writes_items l s → writes (JObj l) ("{" +:+ s +:+ "}")
with writes_list `{FR : FloatRepr} : list json → string → Prop :=
| writes_one w1 v t w2 : blank w1 → writes v t → blank w2 → writes_list [v] (w1 +:+ t +:+ w2)
| writes_more w1 v t w2 l s : blank w1 → writes v t → blank w2 → writes_list l s →
    writes_list (v :: l) (w1 +:+ t +:+ w2 +:+ "," +:+ s)
with writes_items `{FR : FloatRepr} : dict → string → Prop :=
| writes_item w1 ea k w2 w3 v t w4 : blank w1 → blank w2 → blank w3 → writes v t → blank w4 →
    writes_items [(k, v)] (w1 +:+ quote ea k +:+ w2 +:+ ":" +:+ w3 +:+ t +:+ w4)
| writes_items_more w1 ea k w2 w3 v t w4 l s : blank w1 → blank w2 → blank w3 → writes v t → blank w4 → writes_items l s →
    writes_items ((k, v) :: l) (w1 +:+ quote ea k +:+ w2 +:+ ":" +:+ w3 +:+ t +:+ w4 +:+ "," +:+ s).

Scheme writes_mut := Induction for writes Sort Prop
with writes_list_mut := Induction for writes_list Sort Prop
with writes_items_mut := Induction for writes_items Sort Prop.
Combined Scheme writes_ind3 from writes_mut, writes_list_mut, writes_items_mut.

(** ** Reading back a text *)

Section Roundtrip.
Context `{FR : FloatRepr}.
Variable h : hooks.

(** The hooks give back the floats and the objects of a value. *)
Fixpoint reads_back (v : json) : Prop :=
  match v with
  | JFloat f => token_value h (float_repr f) = Ok (JFloat f)
  | JArr l => fold_right (λ x P, reads_back x ∧ P) True l
  | JObj l => on_pairs h l = Ok (JObj l) ∧ fold_right (λ p P, reads_back p.2 ∧ P) True l
  | _ => True
  end.

Lemma token_value_int z : token_value h (pretty z) = Ok (JInt z).
Proof.
  pose proof (pretty_Z_chars z) as P. destruct (int_token_pretty z) as [Ht Hv].
  unfold token_value. rewrite !(bool_decide_false _), Ht, Hv; [done|..].
  - intros H. rewrite !elem_of_cons, elem_of_nil in H. destruct H as [E|[E|[E|[]]]]; rewrite E in P; discriminate P.
  - intros E. rewrite E in P. discriminate P.
  - intros E. rewrite E in P. discriminate P.
  - intros E. rewrite E in P. discriminate P.
Qed.

Lemma atom_char_not c : atom_char c = true →
  c ≠ quote_char ∧ c ≠ "["%char ∧ c ≠ "{"%char ∧ is_ws c = false.
Proof. by all_chars c. Qed.

Lemma delim_head r : delim r = true → match r with String c _ => atom_char c = false | "" => True end.
Proof. destruct r; [done|]. cbn. by intros ?%negb_true_iff. Qed.

Lemma value_scalar v t n r : forall_str atom_char t = true → t ≠ "" → delim r = true →
  token_value h t = Ok v → value h (S n) (t +:+ r) = Ok (v, r).
Proof.
  intros Ht Hne Hr Hv. destruct t as [|c t]; [done|].
  pose proof Ht as Hc. cbn in Hc. apply andb_true_iff in Hc as [(H1 & H2 & H3 & _)%atom_char_not _].
  rewrite app_cons_str. cbn [value]. rewrite !bool_decide_false by done. rewrite <-app_cons_str. unfold scalar.
  rewrite (span_token _ _ _ Ht (delim_head _ Hr)). cbn [fst snd]. by rewrite Hv.
Qed.

Lemma value_str ea s n r : value h (S n) (quote ea s +:+ r) = Ok (JStr s, r).
Proof.
  unfold quote. rewrite app_cons_str, <-app_assoc_str. change (String quote_char "" +:+ r) with (String quote_char r).
  cbn [value]. rewrite bool_decide_true by done. by rewrite scan_escape.
Qed.

Lemma ws_delim c r : is_ws c = false → ws (String c r) = String c r.
Proof. intros H. unfold ws. cbn. by rewrite H. Qed.
Lemma ws_blank w r : blank w → ws (w +:+ r) = ws r.
Proof.
  unfold blank, ws. induction w as [|c w IH]; [done|]. cbn. intros [Hc Hw]%andb_true_iff. rewrite app_cons_str. cbn.
  rewrite Hc. by apply IH.
Qed.
Lemma delim_blank w c r : blank w → atom_char c = false → delim (w +:+ String c r) = true.
Proof.
  destruct w as [|d w]; [intros _ H; rewrite app_nil_l_str; cbn; by rewrite H|]. unfold blank. cbn. intros [Hd _]%andb_true_iff _.
  rewrite app_cons_str. cbn. destruct (atom_char d) eqn:E; [|done]. apply atom_char_not in E as (_ & _ & _ & E). congruence.
Qed.
Lemma expect_same c r : expect c (String c r) = Ok r.
Proof. cbn. by rewrite bool_decide_true. Qed.
Lemma expect_other c d r : d ≠ c → expect c (String d r) = decode_error "Expecting delimiter".
Proof. intros H. cbn. by rewrite bool_decide_false. Qed.

(** The first character of a text after white space. *)
Lemma writes_head v t : writes v t → ∀ r, ∃ c u, t +:+ r = String c u ∧ is_ws c = false ∧ c ≠ "]"%char.
Proof.
  intros H r. destruct H as [v t H| | | | |]; [|by eexists _, _..].
  apply (atom_chars true) in H as (_ & H & Hne). destruct t as [|c t]; [done|]. cbn in H. apply andb_true_iff in H as [H _].
  exists c, (t +:+ r). split; [done|]. split; [by apply atom_char_not|]. by intros ->.
Qed.

Lemma ws_writes w v t r : blank w → writes v t → ws (w +:+ t +:+ r) = t +:+ r.
Proof. intros Hw Ht. rewrite ws_blank by done. destruct (writes_head v t Ht r) as (c & u & -> & Hc & _). by apply ws_delim. Qed.

Definition reads_list (l : list json) : Prop := fold_right (λ x P, reads_back x ∧ P) True l.
Definition reads_items (l : dict) : Prop := fold_right (λ p P, reads_back p.2 ∧ P) True l.

Definition value_reads (v : json) (t : string) : Prop := ∀ n r, reads_back v → delim r = true →
  (2 * String.length t ≤ n)%nat → value h n (t +:+ r) = Ok (v, r).
Definition list_reads (l : list json) (s : string) : Prop :=
  (∀ q, ∃ c u, ws (s +:+ q) = String c u ∧ c ≠ "]"%char) ∧
  ∀ n r, reads_list l → (2 * String.length s < n)%nat → elements h n (ws (s +:+ String "]" r)) = Ok (l, r).
Definition items_read (l : dict) (s : string) : Prop :=
  (∀ q, ∃ c u, ws (s +:+ q) = String c u ∧ c ≠ "}"%char) ∧
  ∀ n r, reads_items l → (2 * String.length s < n)%nat → members h n (ws (s +:+ String "}" r)) = Ok (l, r).

Lemma read_atom v t : atom v = Some t → value_reads v t.
Proof.
  intros Ht n r Hb Hr Hn. destruct (atom_chars true _ _ Ht) as (_ & Hc & Hne).
  assert (token_value h t = Ok v) as Hv.
  { destruct v as [|[]| | | | |]; try done; injection Ht as <-; [done..|apply token_value_int|exact Hb]. }
  destruct n as [|n]; [destruct t; [done|cbn in Hn; lia]|]. by apply value_scalar.
Qed.

Lemma read_arr l s : list_reads l s → value_reads (JArr l) ("[" +:+ s +:+ "]").
Proof.
  intros [Hh Hl] n r Hb Hr Hn. rewrite !length_app_str in Hn. cbn in Hn. destruct n as [|n]; [lia|].
  rewrite <-!app_assoc_str. change ("[" +:+ s +:+ "]" +:+ r) with (String "[" (s +:+ String "]" r)). cbn [value].
  rewrite bool_decide_false, bool_decide_true by done. destruct (Hh (String "]" r)) as (c & u & E & Hc).
  rewrite E, expect_other by done. cbn [decode_error raise]. rewrite <-E, Hl; [done|exact Hb|lia].
Qed.

Lemma read_obj l s : items_read l s → value_reads (JObj l) ("{" +:+ s +:+ "}").
Proof.
  intros [Hh Hl] n r [Hp Hb] Hr Hn. rewrite !length_app_str in Hn. cbn in Hn. destruct n as [|n]; [lia|].
  rewrite <-!app_assoc_str. change ("{" +:+ s +:+ "}" +:+ r) with (String "{" (s +:+ String "}" r)). cbn [value].
  rewrite !(bool_decide_false _), bool_decide_true by done. destruct (Hh (String "}" r)) as (c & u & E & Hc).
  rewrite E, expect_other by done. cbn [decode_error raise]. rewrite <-E, Hl; [|exact Hb|lia]. cbn [mbind result_bind]. by rewrite Hp.
Qed.

Lemma read_one w1 v t w2 : blank w1 → writes v t → value_reads v t → blank w2 → list_reads [v] (w1 +:+ t +:+ w2).
Proof.
  intros B1 Ht Hv B2. split.
  - intros q. rewrite <-!app_assoc_str, (ws_writes w1 v t) by done. destruct (writes_head v t Ht (w2 +:+ q)) as (c & u & -> & _ & Hc).
    by exists c, u.
  - intros n r [Hb _] Hn. rewrite !length_app_str in Hn. rewrite <-!app_assoc_str, (ws_writes w1 v t) by done.
    destruct n as [|n]; [lia|]. cbn [elements]. rewrite Hv; [|done|by apply delim_blank|lia]. cbn [mbind result_bind].
    rewrite ws_blank, ws_delim, expect_other by done. cbn [decode_error raise]. by rewrite expect_same.
Qed.

Lemma read_more w1 v t w2 l s : blank w1 → writes v t → value_reads v t → blank w2 → list_reads l s →
  list_reads (v :: l) (w1 +:+ t +:+ w2 +:+ "," +:+ s).
Proof.
  intros B1 Ht Hv B2 [_ Hl]. split.
  - intros q. rewrite <-!app_assoc_str, (ws_writes w1 v t) by done.
    destruct (writes_head v t Ht (w2 +:+ "," +:+ s +:+ q)) as (c & u & -> & _ & Hc). by exists c, u.
  - intros n r [Hb Hbl] Hn. rewrite !length_app_str in Hn. change (String.length ",") with 1%nat in Hn.
    rewrite <-!app_assoc_str, (ws_writes w1 v t) by done. change ("," +:+ ?q) with (String "," q).
    destruct n as [|n]; [lia|]. cbn [elements]. rewrite Hv; [|done|by apply delim_blank|lia]. cbn [mbind result_bind].
    rewrite ws_blank, ws_delim, expect_same by done. rewrite Hl; [done|exact Hbl|lia].
Qed.

(** A member up to its value. *)
Lemma member_start ea w1 k w2 w3 v t q n : blank w1 → blank w2 → blank w3 → writes v t →
  members h (S n) (ws (w1 +:+ quote ea k +:+ w2 +:+ ":" +:+ w3 +:+ t +:+ q)) =
  ('(v, r) ← value h n (t +:+ q);
   match expect "," (ws r) with
   | Ok r' => '(l, r2) ← members h n (ws r'); Ok ((k, v) :: l, r2)
   | Raise _ => r' ← expect "}" (ws r); Ok ([(k, v)], r')
   end).
Proof.
  intros B1 B2 B3 Ht. rewrite ws_blank by done.
  assert (∀ u, ws (quote ea k +:+ u) = quote ea k +:+ u) as -> by (intros u; unfold quote; rewrite app_cons_str; by apply ws_delim).
  cbn [members]. rewrite key_quote. cbn [mbind result_bind]. change (":" +:+ ?q) with (String ":" q).
  rewrite ws_blank, ws_delim, expect_same by done. cbn [mbind result_bind]. by rewrite (ws_writes w3 v t).
Qed.

Lemma items_head ea w1 k u : blank w1 → ∃ c v, ws (w1 +:+ quote ea k +:+ u) = String c v ∧ c ≠ "}"%char.
Proof. intros B. rewrite ws_blank by done. unfold quote. rewrite app_cons_str, ws_delim by done. by eexists _, _. Qed.

Lemma read_item w1 ea k w2 w3 v t w4 : blank w1 → blank w2 → blank w3 → writes v t → value_reads v t → blank w4 →
  items_read [(k, v)] (w1 +:+ quote ea k +:+ w2 +:+ ":" +:+ w3 +:+ t +:+ w4).
Proof.
  intros B1 B2 B3 Ht Hv B4. split; [intros q; rewrite <-!app_assoc_str; by apply items_head|].
  intros n r [Hb _] Hn. rewrite !length_app_str in Hn. rewrite <-!app_assoc_str. destruct n as [|n]; [lia|].
  rewrite (member_start ea w1 k w2 w3 v t) by done. rewrite Hv; [|done|by apply delim_blank|lia]. cbn [mbind result_bind].
  rewrite ws_blank, ws_delim, expect_other by done. cbn [decode_error raise]. by rewrite expect_same.
Qed.

Lemma read_items_more w1 ea k w2 w3 v t w4 l s : blank w1 → blank w2 → blank w3 → writes v t → value_reads v t → blank w4 →
  items_read l s → items_read ((k, v) :: l) (w1 +:+ quote ea k +:+ w2 +:+ ":" +:+ w3 +:+ t +:+ w4 +:+ "," +:+ s).
Proof.
  intros B1 B2 B3 Ht Hv B4 [_ Hl]. split; [intros q; rewrite <-!app_assoc_str; by apply items_head|].
  intros n r [Hb Hbl] Hn. rewrite !length_app_str in Hn. change (String.length ",") with 1%nat in Hn.
  rewrite <-!app_assoc_str. destruct n as [|n]; [lia|].
  rewrite (member_start ea w1 k w2 w3 v t) by done. change ("," +:+ ?q) with (String "," q).
  rewrite Hv; [|done|by apply delim_blank|lia]. cbn [mbind result_bind].
  rewrite ws_blank, ws_delim, expect_same by done. rewrite Hl; [done|exact Hbl|lia].
Qed.

(** The reader reads every text of a value. *)
Lemma reader_complete :
  (∀ v t, writes v t → value_reads v t) ∧ (∀ l s, writes_list l s → list_reads l s) ∧ (∀ l s, writes_items l s → items_read l s).
Proof.
  apply writes_ind3; intros.
  - by apply read_atom.
  - intros n r _ _ Hn. destruct n as [|n]; [cbn in Hn; unfold quote in Hn; cbn in Hn; lia|]. apply value_str.
  - intros n r _ _ Hn. rewrite !length_app_str in Hn. destruct n as [|n]; [cbn in Hn; lia|]. rewrite <-!app_assoc_str.
    change ("[" +:+ w +:+ "]" +:+ r) with (String "[" (w +:+ String "]" r)). cbn [value].
    rewrite bool_decide_false, bool_decide_true by done. by rewrite ws_blank, ws_delim, expect_same.
  - by apply read_arr.
  - intros n r [Hp _] _ Hn. rewrite !length_app_str in Hn. destruct n as [|n]; [cbn in Hn; lia|]. rewrite <-!app_assoc_str.
    change ("{" +:+ w +:+ "}" +:+ r) with (String "{" (w +:+ String "}" r)). cbn [value].
    rewrite !(bool_decide_false _), bool_decide_true by done. rewrite ws_blank, ws_delim, expect_same by done.
    cbn [mbind result_bind]. by rewrite Hp.
  - by apply read_obj.
  - by apply read_one.
  - by apply read_more.
  - by apply read_item.
  - by apply read_items_more.
Qed.

(** A text with white space around it. *)
Lemma loads_writes v t w1 w2 : writes v t → blank w1 → blank w2 → reads_back v →
  loads_with h (w1 +:+ t +:+ w2) = Ok v.
Proof.
  intros Ht B1 B2 Hb. unfold loads_with. rewrite (ws_writes w1 v t) by done.
  rewrite (proj1 reader_complete v t Ht).
  - cbn [mbind result_bind]. rewrite <-(app_nil_r_str w2), ws_blank by done. done.
  - done.
  - destruct w2 as [|c w2]; [done|]. unfold blank in B2. cbn in *. apply andb_true_iff in B2 as [B2 _].
    destruct (atom_char c) eqn:E; [|done]. apply atom_char_not in E as (_ & _ & _ & E). congruence.
  - unfold fuel_for. rewrite !length_app_str. lia.
Qed.
End Roundtrip.

(** ** The printers write texts *)

Section Printers.
Context `{FR : FloatRepr}.

Lemma print_writes ea v : writes v (print ea v).
Proof.
  induction v as [|b|z|f|s|l IH|l IH] using json_ind'.
  - by apply writes_atom.
  - apply writes_atom. by destruct b.
  - by apply writes_atom.
  - by apply writes_atom.
  - apply writes_str.
  - destruct l as [|x l]; [by apply (writes_nil "")|].
    assert (∃ s, print_list ea (x :: l) = s +:+ "]" ∧ writes_list (x :: l) s) as (s & E & H).
    { revert x IH. induction l as [|y l IHl]; intros x [Hx IH]%Forall_cons.
      - exists (print ea x). split; [done|]. rewrite <-(app_nil_r_str (print ea x)). by apply (writes_one "" x (print ea x) "").
      - destruct (IHl y IH) as (s & E & H). exists (print ea x +:+ "," +:+ s).
        split; [cbn [print_list] in *; by rewrite E, <-!app_assoc_str|]. by apply (writes_more "" x (print ea x) "" (y :: l) s). }
    rewrite print_arr, E. by apply writes_arr.
  - destruct l as [|[k x] l]; [by apply (writes_empty "")|].
    assert (∃ s, print_items ea ((k, x) :: l) = s +:+ "}" ∧ writes_items ((k, x) :: l) s) as (s & E & H).
    { revert k x IH. induction l as [|[j y] l IHl]; intros k x [Hx IH]%Forall_cons.
      - exists (quote ea k +:+ ":" +:+ print ea x). split; [cbn [print_items]; by rewrite <-!app_assoc_str|].
        rewrite <-(app_nil_r_str (print ea x)). by apply (writes_item "" ea k "" "" x (print ea x) "").
      - destruct (IHl j y IH) as (s & E & H). exists (quote ea k +:+ ":" +:+ print ea x +:+ "," +:+ s).
        split; [cbn [print_items] in *; by rewrite E, <-!app_assoc_str|].
        by apply (writes_items_more "" ea k "" "" x (print ea x) "" ((j, y) :: l) s). }
    rewrite print_obj, E. by apply writes_obj.
Qed.

Lemma blank_line d : blank (line_break d).
Proof. unfold blank, line_break. generalize (2 * d)%nat. intros n. induction n as [|n IH]; [done|exact IH]. Qed.

(** Items between separators that start with a comma and go on with blanks. *)
Lemma joined_list (f : json → string) w sep v l : blank w → blank sep → Forall (λ x, writes x (f x)) (v :: l) →
  ∀ w0, blank w0 → writes_list (v :: l) (w0 +:+ join ("," +:+ sep) (map f (v :: l)) +:+ w).
Proof.
  intros Bw Bs. revert v. induction l as [|x l IH]; intros v [Hv Hl]%Forall_cons w0 B0.
  - by apply writes_one.
  - change (join ("," +:+ sep) (map f (v :: x :: l))) with (f v +:+ ("," +:+ sep) +:+ join ("," +:+ sep) (map f (x :: l))).
    rewrite <-!app_assoc_str. apply (writes_more w0 v (f v) ""); [done|done|done|]. by apply IH.
Qed.

Lemma joined_items (f : json → string) ea w sep k v l : blank w → blank sep → Forall (λ p, writes p.2 (f p.2)) ((k, v) :: l) →
  ∀ w0, blank w0 →
  writes_items ((k, v) :: l) (w0 +:+ join ("," +:+ sep) (map (λ p, quote ea p.1 +:+ ": " +:+ f p.2) ((k, v) :: l)) +:+ w).
Proof.
  intros Bw Bs. revert k v. induction l as [|[j x] l IH]; intros k v [Hv Hl]%Forall_cons w0 B0.
  - change (join _ _) with (quote ea k +:+ ": " +:+ f v). rewrite <-!app_assoc_str.
    by apply (writes_item w0 ea k "" " " v (f v) w).
  - change (join ("," +:+ sep) (map (λ p, quote ea p.1 +:+ ": " +:+ f p.2) ((k, v) :: (j, x) :: l))) with
      ((quote ea k +:+ ": " +:+ f v) +:+ ("," +:+ sep) +:+ join ("," +:+ sep) (map (λ p, quote ea p.1 +:+ ": " +:+ f p.2) ((j, x) :: l))).
    rewrite <-!app_assoc_str. apply (writes_items_more w0 ea k "" " " v (f v) ""); try done. by apply IH.
Qed.

Lemma print_indent_writes ea v : ∀ d, writes v (print_indent ea d v).
Proof.
  induction v as [|b|z|f|s|l IH|l IH] using json_ind'; intros d; try apply (print_writes ea).
  - destruct l as [|x l]; [by apply (writes_nil "")|]. apply writes_arr.
    apply (joined_list (print_indent ea (S d)) (line_break d) (line_break (S d)) x l); [apply blank_line..| |apply blank_line].
    eapply Forall_impl; [exact IH|]. intros y Hy. apply Hy.
  - destruct l as [|[k x] l]; [by apply (writes_empty "")|]. apply writes_obj.
    apply (joined_items (print_indent ea (S d)) ea (line_break d) (line_break (S d)) k x l); [apply blank_line..| |apply blank_line].
    eapply Forall_impl; [exact IH|]. intros y Hy. apply Hy.
Qed.

Lemma dumps_writes ea v : writes v (dumps ea v).
Proof.
  induction v as [|b|z|f|s|l IH|l IH] using json_ind'; try apply (print_writes ea).
  - destruct l as [|x l]; [by apply (writes_nil "")|]. cbn [dumps]. apply writes_arr.
    rewrite <-(app_nil_r_str (join _ _)). by apply (joined_list (dumps ea) "" " " x l eq_refl eq_refl IH "").
  - destruct l as [|[k x] l]; [by apply (writes_empty "")|]. cbn [dumps]. apply writes_obj.
    rewrite <-(app_nil_r_str (join _ _)). by apply (joined_items (dumps ea) ea "" " " k x l eq_refl eq_refl IH "").
Qed.

Lemma loads_print h ea v : reads_back h v → loads_with h (print ea v) = Ok v.
Proof.
  intros Hb. rewrite <-(app_nil_r_str (print ea v)). by apply (loads_writes h v (print ea v) "" "" (print_writes ea v)).
Qed.
Lemma loads_print_indent h ea d v w : blank w → reads_back h v → loads_with h (print_indent ea d v +:+ w) = Ok v.
Proof. intros Bw Hb. by apply (loads_writes h v (print_indent ea d v) "" w (print_indent_writes ea v d)). Qed.
End Printers.

(** ** Enough fuel *)

Section Fuel.
Variable h : hooks.

Lemma ws_length s : (String.length (ws s) ≤ String.length s)%nat.
Proof. induction s as [|c s IH]; [done|]. unfold ws in *. cbn. destruct (is_ws c); cbn; lia. Qed.

Lemma expect_length c s r : expect c s = Ok r → String.length s = S (String.length r).
Proof. destruct s as [|d s]; cbn; [done|]. destruct (bool_decide _); [|done]. by intros [= ->]. Qed.

Lemma span_length p s : String.length s = (String.length (span p s).1 + String.length (span p s).2)%nat.
Proof. induction s as [|c s IH]; [done|]. cbn. destruct (p c); cbn; lia. Qed.

Lemma scan_string_length s : ∀ t r, scan_string s = Ok (t, r) → (String.length r < String.length s)%nat.
Proof.
  assert (∀ n s, (String.length s ≤ n)%nat → ∀ t r, scan_string s = Ok (t, r) → (String.length r < String.length s)%nat) as H;
    [|by eapply H].
  clear s. induction n as [|n IH]; intros [|c s] Hn t r; cbn [String.length] in *; try lia; try done.
  assert (∀ d s', (String.length s' ≤ String.length s)%nat → ('(t, r) ← scan_string s'; Ok (String d t, r)) = Ok (t, r) →
    (String.length r < S (String.length s))%nat) as Hput.
  { intros d s' Hs ([u q] & Hu & [= _ <-])%bind_Ok. apply IH in Hu; lia. }
  cbn [scan_string]. destruct (bool_decide (c = quote_char)); [intros [= _ <-]; lia|].
  destruct (bool_decide (c = backslash)).
  - destruct s as [|e s]; [done|]. destruct (bool_decide (e = "u"%char)).
    + destruct s as [|? [|? [|? [|? s]]]]; try done. destruct (hex_digits _ _ _ _); [|done].
      destruct (_ <? _)%N; [|done]. apply Hput. cbn. lia.
    + destruct (simple_escape e); [|done]. apply Hput. cbn. lia.
  - destruct (_ <? _)%N; [done|]. by apply Hput.
Qed.

Lemma key_length s k r : key s = Ok (k, r) → (String.length r < String.length s)%nat.
Proof. intros (t & Ht%expect_length & Hk%scan_string_length)%bind_Ok. lia. Qed.

Lemma scalar_length s v r : scalar h s = Ok (v, r) → (String.length r < String.length s)%nat.
Proof.
  intros (w & Hw & [= _ <-])%bind_Ok. pose proof (span_length atom_char s) as Hs.
  destruct (span atom_char s).1; [done|]. cbn in Hs. lia.
Qed.

(** The part of a text that a reader has left is shorter than the text. *)
Definition shortens {A} (f : string → result (A * string)) : Prop :=
  ∀ s x r, f s = Ok (x, r) → (String.length r < String.length s)%nat.

Lemma close_length {A} c s (x y : A) r r' : (t ← expect c s; Ok (x, t)) = Ok (y, r) →
  (String.length s ≤ r')%nat → (String.length r < r')%nat.
Proof. intros (t & Ht%expect_length & [= _ <-])%bind_Ok. lia. Qed.

Lemma reader_shortens n : shortens (value h n) ∧ shortens (elements h n) ∧ shortens (members h n).
Proof.
  induction n as [|n (IHv & IHe & IHm)]; [done|]. split; [|split]; intros s x r.
  - destruct s as [|c s]; [done|]. cbn [value]. pose proof (ws_length s) as Hw.
    destruct (bool_decide (c = quote_char)); [intros ([t q] & Ht%scan_string_length & [= _ <-])%bind_Ok; cbn; lia|].
    destruct (bool_decide (c = "["%char)).
    { destruct (expect _ _) as [q|] eqn:E; [intros [= _ <-]; apply expect_length in E; cbn; lia|].
      intros ([l q] & Hl%IHe & [= _ <-])%bind_Ok. cbn. lia. }
    destruct (bool_decide (c = "{"%char)); [|by intros ?%scalar_length].
    destruct (expect _ _) as [q|] eqn:E; [intros (v & _ & [= _ <-])%bind_Ok; apply expect_length in E; cbn; lia|].
    intros ([l q] & Hl%IHm & H)%bind_Ok. apply bind_Ok in H as (v & _ & [= _ <-]). cbn. lia.
  - cbn [elements]. intros ([v q] & Hv%IHv & H)%bind_Ok. pose proof (ws_length q).
    destruct (expect "," (ws q)) as [q'|] eqn:E; [|by eapply close_length in H; [exact H|lia]].
    apply expect_length in E. apply bind_Ok in H as ([l q2] & Hl%IHe & [= _ <-]). pose proof (ws_length q'). lia.
  - cbn [members]. intros ([k q] & Hk%key_length & H)%bind_Ok. pose proof (ws_length q).
    apply bind_Ok in H as (q1 & E1%expect_length & H). apply bind_Ok in H as ([v q2] & Hv%IHv & H).
    pose proof (ws_length q1). pose proof (ws_length q2).
    destruct (expect "," (ws q2)) as [q'|] eqn:E; [|by eapply close_length in H; [exact H|lia]].
    apply expect_length in E. apply bind_Ok in H as ([l q3] & Hl%IHm & [= _ <-]). pose proof (ws_length q'). lia.
Qed.

Lemma bind_ext {A B} (m : result A) (f g : A → result B) : (∀ x, m = Ok x → f x = g x) → (m ≫= f) = (m ≫= g).
Proof. destruct m; [|done]. intros H. by apply H. Qed.

(** More fuel than the text needs changes nothing. *)
Lemma reader_fuel n : ∀ m s,
  ((2 * String.length s < n)%nat → (2 * String.length s < m)%nat → value h n s = value h m s) ∧
  ((2 * String.length s + 1 < n)%nat → (2 * String.length s + 1 < m)%nat → elements h n s = elements h m s) ∧
  ((2 * String.length s + 1 < n)%nat → (2 * String.length s + 1 < m)%nat → members h n s = members h m s).
Proof.
  induction n as [|n IH]; intros [|m] s; (split; [|split]); intros Hn Hm; try lia.
  - destruct s as [|c s]; [done|]. cbn [String.length] in *. cbn [value]. pose proof (ws_length s).
    destruct (IH m (ws s)) as (_ & He & Hmem). by rewrite He, Hmem by lia.
  - cbn [elements]. destruct (IH m s) as (Hv & _ & _). rewrite Hv by lia. apply bind_ext. intros [v r] Hr.
    apply (proj1 (reader_shortens m)) in Hr. pose proof (ws_length r).
    destruct (expect "," (ws r)) as [r'|] eqn:E; [|done]. apply expect_length in E. pose proof (ws_length r').
    destruct (IH m (ws r')) as (_ & He & _). by rewrite He by lia.
  - cbn [members]. apply bind_ext. intros [k r] Hk%key_length. apply bind_ext. intros r1 E1%expect_length.
    pose proof (ws_length r). pose proof (ws_length r1).
    destruct (IH m (ws r1)) as (Hv & _ & _). rewrite Hv by lia. apply bind_ext. intros [v r2] Hr.
    apply (proj1 (reader_shortens m)) in Hr. pose proof (ws_length r2).
    destruct (expect "," (ws r2)) as [r'|] eqn:E; [|done]. apply expect_length in E. pose proof (ws_length r').
    destruct (IH m (ws r')) as (_ & _ & He). by rewrite He by lia.
Qed.

Lemma loads_fuel n s : (2 * String.length s < n)%nat →
  loads_with h s = ('(v, r) ← value h n (ws s); if truthy (ws r) then decode_error "Extra data" else Ok v).
Proof.
  intros Hn. unfold loads_with. pose proof (ws_length s).
  destruct (reader_fuel (fuel_for s) n (ws s)) as (-> & _ & _); [done|unfold fuel_for; lia|lia].
Qed.
End Fuel.

(** ** What is read *)

Section Inside.
Variable h : hooks.
Variable P : json → Prop.
Hypothesis P_null : P JNull.
Hypothesis P_bool : ∀ b, P (JBool b).
Hypothesis P_int : ∀ z, P (JInt z).
Hypothesis P_str : ∀ s, P (JStr s).
Hypothesis P_arr : ∀ l, Forall P l → P (JArr l).
Hypothesis P_constant : ∀ t v, on_constant h t = Ok v → P v.
Hypothesis P_float : ∀ t v, on_float h t = Ok v → P v.
Hypothesis P_pairs : ∀ l v, Forall (λ p, P p.2) l → on_pairs h l = Ok v → P v.

Lemma token_value_inv t v : token_value h t = Ok v → P v.
Proof. unfold token_value. repeat case_match; intros H'; simplify_eq; eauto. Qed.

(** A property of values that the hooks establish holds of what is read. *)
Lemma reader_inv n :
  (∀ s v r, value h n s = Ok (v, r) → P v) ∧ (∀ s l r, elements h n s = Ok (l, r) → Forall P l) ∧
  (∀ s l r, members h n s = Ok (l, r) → Forall (λ p, P p.2) l).
Proof.
  induction n as [|n (IHv & IHe & IHm)]; [done|]. split; [|split]; intros s x r.
  - destruct s as [|c s]; [done|]. cbn [value].
    destruct (bool_decide _); [intros ([t q] & _ & [= <- _])%bind_Ok; auto|].
    destruct (bool_decide _).
    { destruct (expect _ _); [intros [= <- _]; auto|]. intros ([l q] & Hl%IHe & [= <- _])%bind_Ok. auto. }
    destruct (bool_decide _); [|intros (v & Hv%token_value_inv & [= <- _])%bind_Ok; done].
    destruct (expect _ _); [intros (v & Hv & [= <- _])%bind_Ok; by eapply P_pairs in Hv|].
    intros ([l q] & Hl%IHm & H)%bind_Ok. apply bind_Ok in H as (v & Hv & [= <- _]). by eapply P_pairs in Hv.
  - cbn [elements]. intros ([v q] & Hv%IHv & H)%bind_Ok. destruct (expect "," _).
    + apply bind_Ok in H as ([l q2] & Hl%IHe & [= <- _]). by constructor.
    + apply bind_Ok in H as (q2 & _ & [= <- _]). by repeat constructor.
  - cbn [members]. intros ([k q] & _ & H)%bind_Ok. apply bind_Ok in H as (q1 & _ & H).
    apply bind_Ok in H as ([v q2] & Hv%IHv & H). destruct (expect "," _).
    + apply bind_Ok in H as ([l q3] & Hl%IHm & [= <- _]). by constructor.
    + apply bind_Ok in H as (q3 & _ & [= <- _]). by repeat constructor.
Qed.

Lemma loads_inv s v : loads_with h s = Ok v → P v.
Proof. intros ([w r] & Hw%(proj1 (reader_inv _)) & H)%bind_Ok. destruct (truthy _); [done|]. by injection H as <-. Qed.
End Inside.

(** ** The standard hooks *)

(** [json.loads] without hooks: the last of the members with one key counts. *)
Definition default_hooks `{FloatRead} : hooks :=
  {| on_pairs l := Ok (JObj (dict_of l));
     on_constant t := Ok (JFloat (if bool_decide (t = "NaN") then S754_nan else S754_infinity (bool_decide (t = "-Infinity"))));
     on_float t := Ok (JFloat (read_float t)) |}.
Definition loads `{FloatRead} : string → result json := loads_with default_hooks.

(** A value as the program holds it: every dict has one item per key. *)
Fixpoint distinct_keys (v : json) : bool :=
  match v with
  | JArr l => forallb distinct_keys l
  | JObj l => bool_decide (NoDup l.*1) && forallb (λ p, distinct_keys p.2) l
  | _ => true
  end.

Lemma distinct_canon v : distinct_keys (canon v) = distinct_keys v.
Proof.
  induction v as [| | | | |l IH|l IH] using json_ind'; simpl; try done.
  - induction IH as [|x l Hx _ IH]; simpl; [done|]. by rewrite Hx, IH.
  - rewrite (forallb_Permutation _ _ _ (merge_sort_Permutation key_le _)).
    assert (bool_decide (NoDup (merge_sort key_le (map (λ p, (p.1, canon p.2)) l)).*1) = bool_decide (NoDup l.*1)) as ->.
    { apply bool_decide_ext. rewrite (merge_sort_Permutation key_le _), keys_map. done. }
    f_equal. induction IH as [|x l Hx _ IH]; simpl; [done|]. by rewrite Hx, IH.
Qed.

Section Standard.
Context `{FRd : FloatRead}.

Lemma natural_int_char s : int_token s = true → forall_str int_char s = true.
Proof.
  assert (∀ s, natural s = true → forall_str int_char s = true) as Hn.
  { intros t Ht. apply (forall_str_impl is_digit). { intros c Hc. unfold int_char. by rewrite Hc. }
    destruct t as [|c t]; [done|]. cbn in *. destruct t; [by rewrite andb_true_r|]. by bool_prop; rewrite !andb_true_iff. }
  unfold int_token, unsigned. destruct s as [|c s]; [done|]. destruct (bool_decide (c = "-"%char)) eqn:E; [|apply Hn].
  bool_prop. subst. cbn [snd]. intros Hs. cbn. by apply Hn.
Qed.

Lemma read_float_repr h f : wf_f64 f = true → is_finite f = true →
  on_float h (float_repr f) = Ok (JFloat f) → token_value h (float_repr f) = Ok (JFloat f).
Proof.
  intros Hw Hf Ho. pose proof (repr_number f Hw Hf) as Hn.
  assert (∀ t, float_number t = false → float_repr f ≠ t) as Hne by (intros t Ht E; rewrite E in Hn; congruence).
  assert (float_repr f ∉ ["NaN"; "Infinity"; "-Infinity"]) as Hc.
  { rewrite !elem_of_cons, elem_of_nil. intros [H|[H|[H|[]]]]; by apply Hne in H. }
  unfold token_value. rewrite (bool_decide_false _ (Hne "null" eq_refl)), (bool_decide_false _ (Hne "true" eq_refl)),
    (bool_decide_false _ (Hne "false" eq_refl)), (bool_decide_false _ Hc).
  destruct (int_token (float_repr f)) eqn:Hi; [|by rewrite Hn].
  apply natural_int_char in Hi. by destruct (float_token_not f (float_repr f) (or_introl Hi)).
Qed.

Lemma default_reads v : wf_json v = true → distinct_keys v = true → reads_back default_hooks v.
Proof.
  induction v as [| | |f| |l IH|l IH] using json_ind'; cbn [wf_json distinct_keys reads_back]; try done.
  - intros Hw _. destruct (is_finite f) eqn:Hf; [apply read_float_repr; [done|done|]; cbn; by rewrite read_repr|].
    destruct f as [| [] | |]; try done; by rewrite ?repr_nan, ?repr_infinity.
  - induction IH as [|x l Hx _ IH]; cbn; [done|]. intros ? ?. bool_prop. auto.
  - intros Hw Hd. apply andb_true_iff in Hd as [Hn Hd]. apply bool_decide_eq_true in Hn.
    split; [cbn; by rewrite dict_of_NoDup|]. clear Hn.
    induction IH as [|x l Hx _ IH]; cbn in *; [done|]. bool_prop. auto.
Qed.

(** What [json.dumps] printed, [json.loads] reads back: for every value with
    well-formed floats and distinct keys, with or without [ensure_ascii]. *)
Lemma loads_dumps ea v : wf_json v = true → distinct_keys v = true → loads (print ea v) = Ok v.
Proof. intros Hw Hd. by apply loads_print, default_reads. Qed.

Lemma loads_indent ea d v w : wf_json v = true → distinct_keys v = true → blank w →
  loads (print_indent ea d v +:+ w) = Ok v.
Proof. intros Hw Hd Hb. by apply loads_print_indent, default_reads. Qed.

(** The bytes that are signed and hashed determine the value. *)
Lemma loads_canonical ea v : wf_json v = true → distinct_keys v = true →
  (s ← utf8_decode (canonical ea v); loads s) = Ok (canon v).
Proof.
  intros Hw Hd. unfold canonical. rewrite utf8_decode_utf8. apply loads_print, default_reads; [by rewrite wf_canon|by rewrite distinct_canon].
Qed.
End Standard.

(** ** A printer and a reader of floats with the laws

    Decimal tokens of the mantissa and the exponent, to run the model. *)

Definition sign (s : bool) : string := if s then "-" else "".
Definition decimal_token (s : bool) (m k : Z) : string := sign s +:+ pretty m +:+ "." +:+ pretty k.
Definition decimal_repr (f : f64) : string :=
  match f with
  | S754_nan => "NaN"
  | S754_infinity s => if s then "-Infinity" else "Infinity"
  | S754_zero s => decimal_token s 0 0
  | S754_finite s m e => decimal_token s (Z.pos m) (e + 1074)
  end.

Definition decimal_read (t : string) : f64 :=
  let '(s, u) := unsigned t in
  let '(a, r) := span is_digit u in
  let m := int_of_digits a in
  if m =? 0 then S754_zero s else S754_finite s (Z.to_pos m) (int_of_digits (drop_str 1 r) - 1074).

Lemma pretty_digits (z : Z) : 0 ≤ z →
  natural (pretty z) = true ∧ int_of_digits (pretty z) = z ∧ forall_str is_digit (pretty z) = true ∧
  ∃ c t, pretty z = String c t ∧ is_digit c = true.
Proof.
  intros Hz. destruct (pretty_natural (Z.to_N z)) as (Hn & Hi & c & t & E & Hc). rewrite Z2N.id in Hi by done.
  assert (pretty z = pretty (Z.to_N z)) as -> by (destruct z; [done|done|lia]).
  split_and!; [done|done| |by exists c, t].
  rewrite E in *. cbn in *. destruct t; [by rewrite Hc|]. by bool_prop; rewrite !andb_true_iff.
Qed.

Lemma unsigned_sign s z u : 0 ≤ z → unsigned (sign s +:+ pretty z +:+ u) = (s, pretty z +:+ u).
Proof.
  intros Hz. destruct (pretty_digits z Hz) as (_ & _ & _ & c & t & -> & Hc).
  destruct s; [done|]. unfold sign. rewrite app_nil_l_str, app_cons_str. by apply unsigned_digit.
Qed.

Lemma decimal_read_token s m k : 0 ≤ m → 0 ≤ k →
  decimal_read (decimal_token s m k) = if m =? 0 then S754_zero s else S754_finite s (Z.to_pos m) (k - 1074).
Proof.
  intros Hm Hk. unfold decimal_read, decimal_token. rewrite unsigned_sign by done.
  destruct (pretty_digits m Hm) as (_ & Hi & Hd & _). rewrite span_token by done. rewrite Hi.
  change (drop_str 1 ("." +:+ pretty k)) with (pretty k). by destruct (pretty_digits k Hk) as (_ & -> & _).
Qed.

Lemma decimal_number s m k : 0 ≤ m → 0 ≤ k → float_number (decimal_token s m k) = true.
Proof.
  intros Hm Hk. unfold float_number, decimal_token. rewrite unsigned_sign by done. cbn [snd].
  destruct (pretty_digits m Hm) as (Hn & _ & Hd & _). rewrite span_token by done. rewrite Hn.
  change ("." +:+ pretty k) with (String "." (pretty k)). cbn [andb]. rewrite bool_decide_true by done.
  destruct (pretty_digits k Hk) as (_ & _ & Hf & c & t & E & _).
  rewrite <-(app_nil_r_str (pretty k)), span_token by done. by rewrite E.
Qed.

Lemma finite_exponent s m e : wf_f64 (S754_finite s m e) = true → 0 ≤ e + 1074.
Proof.
  unfold wf_f64, valid_binary, bounded, canonical_mantissa, fexp, emin. intros [He _]%andb_true_iff.
  apply Z.eqb_eq in He. lia.
Qed.

Lemma decimal_read_repr f : wf_f64 f = true → is_finite f = true → decimal_read (decimal_repr f) = f.
Proof.
  destruct f as [s| | |s m e]; intros Hw Hf; try done; unfold decimal_repr.
  - by rewrite decimal_read_token.
  - pose proof (finite_exponent s m e Hw). rewrite decimal_read_token by lia. cbn. f_equal. lia.
Qed.

Lemma decimal_repr_number f : wf_f64 f = true → is_finite f = true → float_number (decimal_repr f) = true.
Proof.
  destruct f as [s| | |s m e]; intros Hw Hf; try done; unfold decimal_repr.
  - by apply decimal_number.
  - pose proof (finite_exponent s m e Hw). apply decimal_number; lia.
Qed.

Lemma decimal_repr_inj f g : wf_f64 f = true → wf_f64 g = true → decimal_repr f = decimal_repr g → f = g.
Proof.
  intros Wf Wg E. destruct (is_finite f) eqn:Ff, (is_finite g) eqn:Fg.
  - rewrite <-(decimal_read_repr f), <-(decimal_read_repr g) by done. by rewrite E.
  - apply decimal_repr_number in Ff; [|done]. rewrite E in Ff. by destruct g as [| [] | |].
  - apply decimal_repr_number in Fg; [|done]. rewrite <-E in Fg. by destruct f as [| [] | |].
  - destruct f as [| [] | |], g as [| [] | |]; done.
Qed.

Lemma decimal_repr_token f : float_token (decimal_repr f) = true.
Proof.
  assert (∀ s m k, 0 ≤ m → float_token (decimal_token s m k) = true) as H.
  { intros s m k Hm. pose proof (pretty_Z_chars m) as P1. pose proof (pretty_Z_chars k) as P2.
    assert (∀ z : Z, forall_str atom_char (pretty z) = true) as HA
      by (intros z; eapply forall_str_impl; [apply int_char_atom|apply pretty_Z_chars]).
    destruct (pretty_digits m Hm) as (_ & _ & _ & c & t & E & Hc).
    assert (∃ d u, decimal_token s m k = String d u ∧ int_char d = true) as (d & u & Ed & Hd).
    { unfold decimal_token. rewrite E. destruct s; [by eexists _, _|]. eexists _, _. unfold sign.
      rewrite app_nil_l_str, app_cons_str. split; [done|]. unfold int_char. by rewrite Hc. }
    unfold float_token. rewrite Ed, Hd. rewrite <-Ed. cbn [orb andb]. unfold decimal_token, exists_str.
    rewrite !forall_str_app, !HA. replace (forall_str atom_char (sign s)) with true by (by destruct s).
    cbn. by rewrite !andb_false_r. }
  destruct f as [s| [] | |s m e]; [by apply H|done|done|done|by apply H].
Qed.

Definition decimal_float_repr : FloatRepr :=
  {| float_repr := decimal_repr; float_repr_inj := decimal_repr_inj; float_repr_token := decimal_repr_token |}.
Definition decimal_float_read : @FloatRead decimal_float_repr :=
  @Build_FloatRead decimal_float_repr decimal_read decimal_repr_number decimal_read_repr eq_refl (λ s, eq_refl).

(** ** Texts *)

(** What [json.loads] accepts and refuses, on small texts. *)
Definition read_text (s : string) : result json := @loads decimal_float_repr decimal_float_read s.
Definition dq (s : string) : string := String quote_char (s +:+ String quote_char "").

Lemma read_examples :
  read_text ("{" +:+ dq "a" +:+ " : [1, -2 ,true], " +:+ dq "b\n\u00e9" +:+ ":null}") =
    Ok (JObj [("a", JArr [JInt 1; JInt (-2); JBool true]); ("b" +:+ String "010" (String (ascii_of_N 233) ""), JNull)]) ∧
  read_text ("{" +:+ dq "a" +:+ ":1," +:+ dq "a" +:+ ":2}") = Ok (JObj [("a", JInt 2)]) ∧
  Forall (λ s, is_ok (read_text s) = false)
    [""; "01"; "[1,]"; "1 2"; "nul"; "{1:2}"; "[1"; "1."; "-"; "{" +:+ dq "a" +:+ "}"; dq (String "010" ""); dq "\q"].
Proof. split_and!; [vm_compute; reflexivity..|]. repeat constructor. Qed.
