(* ===== verification/PyRound.v ===== *)
(** * Rounding facts about binary64

    [SpecFloat] defines the operations by computation only.  This file proves
    the one fact the program's guards rely on: rounding a number to the nearest
    double never crosses a double, so that subtracting a non-negative float
    never raises a value. *)

From S2P Require Import Prelude PyStr PyFloat PyDict Json.

(** ** Digits and the mantissa range *)

Lemma digits2_pos_spec p :
  2 ^ (Zpos (digits2_pos p) - 1) ≤ Zpos p < 2 ^ Zpos (digits2_pos p).
Proof.
  induction p as [p IH|p IH|]; cbn [digits2_pos]; [| |done];
    rewrite Pos2Z.inj_succ; replace (Z.succ (Zpos (digits2_pos p)) - 1)
      with (Z.succ (Zpos (digits2_pos p) - 1)) by lia;
    rewrite !Z.pow_succ_r by lia; lia.
Qed.

Abbreviation prec := 53.
Abbreviation emin := (-1074).

Lemma fexp_eq x : fexp 53 1024 x = Z.max (x - prec) emin.
Proof. done. Qed.

(** A mantissa and exponent in canonical form. *)
Definition canonical_pair (m e : Z) : Prop :=
  0 < m < 2 ^ prec ∧ emin ≤ e ∧ (emin < e → 2 ^ (prec - 1) ≤ m).

Lemma bounded_canonical m e : bounded 53 1024 m e = true → canonical_pair (Zpos m) e ∧ e ≤ 971.
Proof.
  unfold bounded, canonical_mantissa. rewrite fexp_eq. intros H. bool_prop.
  pose proof (digits2_pos_spec m) as [H1 H2]. set (d := Zpos (digits2_pos m)) in *.
  assert (0 < d) by (unfold d; lia). split; [|lia]. split_and!; [lia| |lia|].
  - eapply Z.lt_le_trans; [exact H2|]. apply Z.pow_le_mono_r; lia.
  - intros. assert (d = prec) as Hd by lia. rewrite Hd in H1. exact H1.
Qed.

(** The order of canonical pairs is that of their values, scaled to exponent [b]. *)
Lemma canonical_le m1 e1 m2 e2 b :
  canonical_pair m1 e1 → canonical_pair m2 e2 → b ≤ e1 → b ≤ e2 →
  m1 * 2 ^ (e1 - b) ≤ m2 * 2 ^ (e2 - b) → e1 < e2 ∨ (e1 = e2 ∧ m1 ≤ m2).
Proof.
  intros ([M1 M1'] & E1 & C1) ([M2 M2'] & E2 & C2) B1 B2 H.
  destruct (Z.lt_trichotomy e1 e2) as [?|[->|Hgt]]; [by left| |].
  - right. split; [done|]. apply (Z.mul_le_mono_pos_r m1 m2 (2 ^ (e2 - b))); [|done].
    apply Z.pow_pos_nonneg; lia.
  - exfalso. specialize (C1 ltac:(lia)).
    assert (2 ^ (prec - 1) * 2 ^ (e1 - b) ≤ m1 * 2 ^ (e1 - b)) by (apply Z.mul_le_mono_nonneg_r; lia).
    assert (m2 * 2 ^ (e2 - b) < 2 ^ prec * 2 ^ (e2 - b)).
    { apply Z.mul_lt_mono_pos_r; [apply Z.pow_pos_nonneg; lia|done]. }
    rewrite <-!Z.pow_add_r in * by lia.
    assert (2 ^ (prec + (e2 - b)) ≤ 2 ^ (prec - 1 + (e1 - b))) by (apply Z.pow_le_mono_r; lia).
    lia.
Qed.

(** ** The shift with sticky bits *)

Definition inexact (r : shr_record) : bool := shr_r r || shr_s r.

Lemma shr_1_spec r :
  0 ≤ shr_m r → shr_m (shr_1 r) = shr_m r / 2 ∧ inexact (shr_1 r) = Z.odd (shr_m r) || inexact r.
Proof.
  destruct r as [m a s]. unfold inexact. simpl. intros Hm.
  destruct m as [|[p|p|]|]; [..|lia]; simpl; split; try done; try (by destruct a, s);
    try (rewrite <-Z.div2_div; done).
Qed.

Lemma iter_pos_nat {A} (f : A → A) n x : SpecFloat.iter_pos f n x = Nat.iter (Pos.to_nat n) f x.
Proof.
  revert x. induction n as [n IH|n IH|]; intros x; cbn [SpecFloat.iter_pos]; [..|done].
  - rewrite !IH, <-Nat.iter_add. replace (Pos.to_nat n~1) with (S (Pos.to_nat n + Pos.to_nat n)) by lia.
    by rewrite Nat.iter_succ_r.
  - rewrite !IH, <-Nat.iter_add. by replace (Pos.to_nat n~0) with (Pos.to_nat n + Pos.to_nat n)%nat by lia.
Qed.

Lemma shr_iter_spec m k :
  0 ≤ m →
  let r := Nat.iter k shr_1 (Build_shr_record m false false) in
  shr_m r = m / 2 ^ Z.of_nat k ∧ (inexact r = true ↔ m mod 2 ^ Z.of_nat k ≠ 0).
Proof.
  intros Hm. induction k as [|k [IH1 IH2]]; simpl Nat.iter.
  - simpl. rewrite Z.div_1_r, Z.mod_1_r. done.
  - set (r := Nat.iter k shr_1 _) in *. simpl. change (Nat.iter k shr_1 _) with r.
    assert (0 < 2 ^ Z.of_nat k) by (apply Z.pow_pos_nonneg; lia).
    destruct (shr_1_spec r) as [S1 S2]; [rewrite IH1; apply Z.div_pos; lia|].
    rewrite S1, S2, IH1, Nat2Z.inj_succ, Z.pow_succ_r by lia. rewrite (Z.mul_comm 2).
    split; [by rewrite Z.div_div by lia|].
    rewrite orb_true_iff, IH2, Z.rem_mul_r by lia.
    pose proof (Z.mod_pos_bound m (2 ^ Z.of_nat k) ltac:(lia)) as B.
    rewrite Zmod_odd. clear S1 S2. destruct (Z.odd _).
    + split; [lia|by left].
    + rewrite Z.mul_0_r, Z.add_0_r. split; [intros [?|?]; done|by right].
Qed.

(** ** Rounding never crosses a double *)

(** [shr_fexp] on an exact mantissa, when the exponent has to grow by [k]. *)
Lemma shr_fexp_exact m e k :
  0 ≤ m → fexp 53 1024 (Zdigits2 m + e) - e = Z.of_nat k →
  ∃ r, shr_fexp 53 1024 m e loc_Exact = (r, e + Z.of_nat k) ∧
    shr_m r = m / 2 ^ Z.of_nat k ∧ (inexact r = true ↔ m mod 2 ^ Z.of_nat k ≠ 0).
Proof.
  intros Hm Hk. unfold shr_fexp. rewrite Hk. exists (Nat.iter k shr_1 (Build_shr_record m false false)).
  split; [|by apply shr_iter_spec]. destruct k as [|k]; simpl.
  - f_equal. lia.
  - rewrite iter_pos_nat, SuccNat2Pos.id_succ. done.
Qed.

Lemma shr_fexp_none m e :
  fexp 53 1024 (Zdigits2 m + e) ≤ e →
  shr_fexp 53 1024 m e loc_Exact = (Build_shr_record m false false, e).
Proof.
  intros H. unfold shr_fexp, shr. destruct (_ - e) eqn:E; [done|lia|done].
Qed.

Lemma round_up_by_one q r :
  round_nearest_even q (loc_of_shr_record r) = q ∨
  (round_nearest_even q (loc_of_shr_record r) = q + 1 ∧ inexact r = true).
Proof.
  destruct r as [m [] []]; simpl; auto. destruct (Z.even q); auto.
Qed.

Lemma digits2_range m : 0 < m → 2 ^ (Zdigits2 m - 1) ≤ m < 2 ^ Zdigits2 m ∧ 0 < Zdigits2 m.
Proof. destruct m; try lia. intros _. split; [apply digits2_pos_spec|simpl; lia]. Qed.

Lemma digits2_le m k : 0 ≤ m < 2 ^ k → 0 ≤ k → Zdigits2 m ≤ k.
Proof.
  intros [H0 Hm] Hk. destruct (decide (m = 0)) as [->|]; [simpl; lia|].
  destruct (digits2_range m) as [[H1 _] H2]; [lia|].
  destruct (Z.lt_ge_cases k (Zdigits2 m)); [|lia].
  assert (2 ^ k ≤ 2 ^ (Zdigits2 m - 1)) by (apply Z.pow_le_mono_r; lia). lia.
Qed.

(** What [binary_round_aux] returns for a mantissa that needs [k >= 0] shifts:
    the quotient or its successor, renormalised. *)
Definition rounded (m e : Z) (k : nat) (r : Z) : Prop :=
  let q := m / 2 ^ Z.of_nat k in r = q ∨ (r = q + 1 ∧ m mod 2 ^ Z.of_nat k ≠ 0).

Lemma round_aux_cases sx m e k :
  fexp 53 1024 (Zdigits2 (Zpos m) + e) - e = Z.of_nat k →
  ∃ r, rounded (Zpos m) e k r ∧
   ((r = 0 ∧ binary_round_aux 53 1024 sx (Zpos m) e loc_Exact = S754_zero sx) ∨
    ∃ m' e', canonical_pair (Zpos m') e' ∧ e + Z.of_nat k ≤ e' ∧
      r = Zpos m' * 2 ^ (e' - (e + Z.of_nat k)) ∧
      binary_round_aux 53 1024 sx (Zpos m) e loc_Exact =
        if e' <=? 971 then S754_finite sx m' e' else S754_infinity sx).
Proof.
  intros Hk. destruct (shr_fexp_exact (Zpos m) e k) as (s & Hs & Hq & Hi); [lia|done|].
  set (q := Zpos m / 2 ^ Z.of_nat k) in *. set (E := e + Z.of_nat k) in *.
  pose proof (digits2_range (Zpos m) ltac:(lia)) as [[D1 D2] D0]. set (D := Zdigits2 (Zpos m)) in *.
  rewrite fexp_eq in Hk.
  assert (0 < 2 ^ Z.of_nat k) as Pk by (apply Z.pow_pos_nonneg; lia).
  assert (0 ≤ q < 2 ^ prec) as Hqr.
  { split; [apply Z.div_pos; lia|]. apply Z.div_lt_upper_bound; [done|]. rewrite <-Z.pow_add_r by lia.
    eapply Z.lt_le_trans; [exact D2|]. apply Z.pow_le_mono_r; lia. }
  assert (emin < E → 2 ^ (prec - 1) ≤ q) as Hql.
  { intros HE. apply Z.div_le_lower_bound; [done|]. rewrite <-Z.pow_add_r by lia.
    eapply Z.le_trans; [|exact D1]. apply Z.pow_le_mono_r; lia. }
  set (r := round_nearest_even q (loc_of_shr_record s)).
  assert (r = q ∨ (r = q + 1 ∧ inexact s = true)) as Hr by apply round_up_by_one.
  exists r. split; [unfold rounded; fold q; naive_solver|].
  assert (emin ≤ E) as HE by (unfold E; lia).
  unfold binary_round_aux. rewrite Hs. rewrite Hq. fold r.
  destruct (decide (r = 2 ^ prec)) as [H53|H53].
  - destruct (shr_fexp_exact r E 1) as (s' & Hs' & Hq' & _); [lia|rewrite H53; change (Zdigits2 (2 ^ prec)) with 54; rewrite fexp_eq; lia|].
    rewrite Hs'. right. exists (Z.to_pos (2 ^ (prec - 1))), (E + 1). rewrite Hq', H53.
    change (2 ^ prec / 2 ^ Z.of_nat 1) with (Zpos (Z.to_pos (2 ^ (prec - 1)))).
    split; [by repeat split; try lia|]. split; [lia|]. split; [|done].
    by replace (E + 1 - E) with 1 by lia.
  - assert (0 ≤ r < 2 ^ prec) as Hrr by lia.
    pose proof (digits2_le r prec Hrr ltac:(lia)) as Hd.
    rewrite shr_fexp_none by (rewrite fexp_eq; lia). cbn [shr_m].
    destruct r as [|m'|m']; [by left| |lia]. right. exists m', E.
    split; [by repeat split; try lia|]. split; [lia|]. split; [|done].
    by rewrite Z.sub_diag, Z.mul_1_r.
Qed.

Lemma pow2_split a b c : b ≤ c → c ≤ a → 2 ^ (a - b) = 2 ^ (a - c) * 2 ^ (c - b).
Proof. intros. rewrite <-Z.pow_add_r by lia. f_equal. lia. Qed.

(** The rounded value stays on the same side of every double. *)
Lemma rounded_side m e k r mf ef b :
  fexp 53 1024 (Zdigits2 (Zpos m) + e) - e = Z.of_nat k → rounded (Zpos m) e k r →
  canonical_pair mf ef → b ≤ e → b ≤ ef →
  (Zpos m * 2 ^ (e - b) ≤ mf * 2 ^ (ef - b) → r * 2 ^ (e + Z.of_nat k - b) ≤ mf * 2 ^ (ef - b)) ∧
  (mf * 2 ^ (ef - b) ≤ Zpos m * 2 ^ (e - b) → mf * 2 ^ (ef - b) ≤ r * 2 ^ (e + Z.of_nat k - b)).
Proof.
  intros Hk Hr ([F0 F1] & F2 & F3) Be Bf. set (E := e + Z.of_nat k) in *.
  pose proof (digits2_range (Zpos m) ltac:(lia)) as [[D1 D2] D0]. set (D := Zdigits2 (Zpos m)) in *.
  rewrite fexp_eq in Hk. unfold rounded in Hr. set (K := 2 ^ Z.of_nat k) in *.
  assert (0 < K) as PK by (apply Z.pow_pos_nonneg; lia).
  pose proof (Z.div_mod (Zpos m) K ltac:(lia)) as HD. pose proof (Z.mod_pos_bound (Zpos m) K PK) as HM.
  set (q := Zpos m / K) in *.
  assert (0 < 2 ^ (e - b)) as Pb by (apply Z.pow_pos_nonneg; lia).
  assert (2 ^ (E - b) = K * 2 ^ (e - b)) as HE.
  { unfold E, K. rewrite <-Z.pow_add_r by lia. f_equal. lia. }
  destruct (Z.lt_ge_cases ef E) as [Hlt|Hge].
  - (* the double has a smaller exponent: it is below every candidate *)
    assert (mf * 2 ^ (ef - b) < 2 ^ (prec - 1) * 2 ^ (E - b)) as H1.
    { eapply Z.lt_le_trans; [apply Z.mul_lt_mono_pos_r; [apply Z.pow_pos_nonneg; lia|exact F1]|].
      rewrite <-!Z.pow_add_r by lia. apply Z.pow_le_mono_r; lia. }
    assert (2 ^ (prec - 1) ≤ q) as H2.
    { apply Z.div_le_lower_bound; [done|]. unfold K. rewrite <-Z.pow_add_r by lia.
      eapply Z.le_trans; [|exact D1]. apply Z.pow_le_mono_r; lia. }
    assert (2 ^ (prec - 1) * 2 ^ (E - b) ≤ q * 2 ^ (E - b)) as H3 by (apply Z.mul_le_mono_nonneg_r; lia).
    assert (q * 2 ^ (E - b) ≤ Zpos m * 2 ^ (e - b)) as H4.
    { rewrite HE, Z.mul_assoc. apply Z.mul_le_mono_nonneg_r; lia. }
    assert (q * 2 ^ (E - b) ≤ r * 2 ^ (E - b)) as H5 by (apply Z.mul_le_mono_nonneg_r; lia).
    split; intros; lia.
  - (* the double is a multiple of the unit in the last place *)
    rewrite (pow2_split ef b E) by lia. set (F := mf * 2 ^ (ef - E)).
    rewrite !Z.mul_assoc. fold F. rewrite HE, !Z.mul_assoc. split; intros H.
    + apply Z.mul_le_mono_pos_r in H; [|done]. apply Z.mul_le_mono_nonneg_r; [lia|].
      apply Z.mul_le_mono_nonneg_r; [lia|]. assert (q ≤ F) by (apply Z.div_le_upper_bound; lia).
      destruct Hr as [->|[-> Hr]]; [done|]. assert (q ≠ F); [|lia]. intros ->. lia.
    + apply Z.mul_le_mono_pos_r in H; [|done]. apply Z.mul_le_mono_nonneg_r; [lia|].
      apply Z.mul_le_mono_nonneg_r; [lia|]. assert (F ≤ q) by (apply Z.div_le_lower_bound; lia). lia.
Qed.

Lemma digits2_pos_shift m n : digits2_pos (Pos.iter xO m n) = (digits2_pos m + n)%positive.
Proof.
  induction n as [|n IH] using Pos.peano_ind; [simpl; lia|].
  rewrite Pos.iter_succ. cbn [digits2_pos]. rewrite IH. lia.
Qed.

Lemma iter_xO_value m n : Zpos (Pos.iter xO m n) = Zpos m * 2 ^ Zpos n.
Proof.
  induction n as [|n IH] using Pos.peano_ind; [simpl; lia|].
  rewrite Pos.iter_succ, Pos2Z.inj_succ, Z.pow_succ_r by lia. lia.
Qed.

(** [shl_align] keeps the value and the position of the leading digit. *)
Lemma shl_align_spec m e e' :
  let '(mz, ez) := shl_align m e e' in
  ez = Z.min e e' ∧ Zpos mz = Zpos m * 2 ^ (e - ez) ∧
  Zpos (digits2_pos mz) + ez = Zpos (digits2_pos m) + e.
Proof.
  unfold shl_align. destruct (e' - e) as [|d|d] eqn:E.
  - split; [lia|]. split; [rewrite Z.sub_diag; lia|done].
  - split; [lia|]. split; [rewrite Z.sub_diag; lia|done].
  - split; [lia|]. split; [|rewrite digits2_pos_shift; lia].
    rewrite iter_xO_value. f_equal. f_equal. lia.
Qed.

Lemma binary_round_side sx m e mf ef b :
  bounded 53 1024 mf ef = true → b ≤ e → b ≤ ef → b ≤ emin →
  let y := binary_round 53 1024 sx m e in
  (Zpos m * 2 ^ (e - b) ≤ Zpos mf * 2 ^ (ef - b) →
   y = S754_zero sx ∨ ∃ m' e', y = S754_finite sx m' e' ∧ (e' < ef ∨ (e' = ef ∧ Zpos m' ≤ Zpos mf))) ∧
  (Zpos mf * 2 ^ (ef - b) ≤ Zpos m * 2 ^ (e - b) →
   y = S754_infinity sx ∨ ∃ m' e', y = S754_finite sx m' e' ∧ (ef < e' ∨ (ef = e' ∧ Zpos mf ≤ Zpos m'))).
Proof.
  intros Hf Be Bf Bm. apply bounded_canonical in Hf as [Cf Ef]. unfold binary_round.
  pose proof (shl_align_spec m e (fexp 53 1024 (Zpos (digits2_pos m) + e))) as HA.
  destruct (shl_align _ _ _) as [mz ez]. destruct HA as (Hez & Hmz & Hd). cbv zeta.
  set (X := fexp 53 1024 (Zpos (digits2_pos m) + e)) in *.
  assert (emin ≤ X) by (unfold X; rewrite fexp_eq; lia).
  assert (Zpos m * 2 ^ (e - b) = Zpos mz * 2 ^ (ez - b)) as ->.
  { rewrite Hmz, (pow2_split e b ez) by lia. lia. }
  assert (fexp 53 1024 (Zdigits2 (Zpos mz) + ez) - ez = Z.of_nat (Z.to_nat (X - ez))) as Hk.
  { simpl Zdigits2. rewrite Hd. fold X. lia. }
  destruct (round_aux_cases sx mz ez _ Hk) as (r & Hr & Hcase).
  destruct (rounded_side mz ez _ r (Zpos mf) ef b Hk Hr Cf) as [HU HL]; [lia|lia|].
  rewrite Z2Nat.id in * by lia. replace (ez + (X - ez)) with X in * by lia.
  destruct Hcase as [[-> ->]|(m' & e' & Cm & Hge & Hv & ->)].
  - split; intros Hv; [by left|]. exfalso. specialize (HL Hv).
    assert (0 < Zpos mf * 2 ^ (ef - b)) by (apply Z.mul_pos_pos; [lia|apply Z.pow_pos_nonneg; lia]). lia.
  - assert (r * 2 ^ (X - b) = Zpos m' * 2 ^ (e' - b)) as Hrv.
    { rewrite Hv, (pow2_split e' b X) by lia. lia. }
    rewrite Hrv in *. split; intros Hs.
    + specialize (HU Hs). apply (canonical_le _ _ _ _ _ Cm Cf) in HU; [|lia..].
      right. exists m', e'. rewrite (proj2 (Z.leb_le _ _)) by lia. done.
    + specialize (HL Hs). apply (canonical_le _ _ _ _ _ Cf Cm) in HL; [|lia..].
      destruct (e' <=? 971); [right; eauto|by left].
Qed.

(** A negative number rounds to a number that is not positive. *)
Lemma binary_round_sign m e :
  let y := binary_round 53 1024 true m e in is_nan y = false ∧ (fkey y).1.1 ≤ 0.
Proof.
  unfold binary_round. pose proof (shl_align_spec m e (fexp 53 1024 (Zpos (digits2_pos m) + e))) as HA.
  destruct (shl_align _ _ _) as [mz ez]. destruct HA as (Hez & _ & Hd). cbv zeta.
  set (X := fexp 53 1024 (Zpos (digits2_pos m) + e)) in *.
  assert (fexp 53 1024 (Zdigits2 (Zpos mz) + ez) - ez = Z.of_nat (Z.to_nat (X - ez))) as Hk.
  { simpl Zdigits2. rewrite Hd. fold X. lia. }
  destruct (round_aux_cases true mz ez _ Hk) as (r & _ & [[_ ->]|(m' & e' & _ & _ & _ & ->)]); [done|].
  by destruct (e' <=? 971).
Qed.

(** Subtracting a non-negative float never raises a value. *)
Lemma fsub_le x p :
  wf_f64 x = true → is_nan x = false → is_finite p = true → fle f0 p = true → fle (x - p)%f64 x = true.
Proof.
  intros Wx Nx Fp Hp. unfold fsub.
  destruct p as [[]|[]| |[] mp ep]; try done; destruct x as [sx|sx| |sx mx ex]; try done;
    try (by destruct sx); try (by apply fle_refl).
  unfold SFsub. set (ez := Z.min ex ep).
  pose proof (shl_align_spec mx ex ez) as Hx. pose proof (shl_align_spec mp ep ez) as Hq.
  destruct (shl_align mx ex ez) as [mx' ex'], (shl_align mp ep ez) as [mp' ep']. simpl fst.
  destruct Hx as (-> & Hmx & _), Hq as (-> & Hmp & _).
  replace (Z.min ex ez) with ez in * by lia. clear Hmp.
  set (b := Z.min ez emin).
  assert (Zpos mx * 2 ^ (ex - b) = Zpos mx' * 2 ^ (ez - b)) as HX.
  { rewrite Hmx, (pow2_split ex b ez) by lia. lia. }
  assert (0 < 2 ^ (ez - b)) as Pb by (apply Z.pow_pos_nonneg; lia).
  apply fle_key. change (cond_Zopp false (Zpos mp')) with (Zpos mp').
  assert (cond_Zopp sx (Zpos mx') = if sx then - Zpos mx' else Zpos mx') as -> by done.
  destruct (_ - Zpos mp') as [|z|z] eqn:Ez; destruct sx; try lia; cbn [binary_normalize].
  - (* equal magnitudes *) split_and!; try done. left. simpl. lia.
  - destruct (binary_round_side false z ez mx ex b Wx) as [H _]; [lia..|].
    rewrite HX in H. specialize (H ltac:(apply Z.mul_le_mono_nonneg_r; lia)).
    destruct H as [->|(m' & e' & -> & H)]; (split_and!; [done..|]); simpl; unfold lex_le, lex_lt; [left; lia|].
    destruct H as [?|[-> ?]]; [left; lia|].
    destruct (decide (m' = mx)) as [->|]; [by right|left; right; split; [done|right; lia]].
  - (* both negative *)
    destruct (binary_round_side true z ez mx ex b Wx) as [_ H]; [lia..|].
    rewrite HX in H. specialize (H ltac:(apply Z.mul_le_mono_nonneg_r; lia)).
    destruct H as [->|(m' & e' & -> & H)]; (split_and!; [done..|]); simpl; unfold lex_le, lex_lt; [left; lia|].
    destruct H as [?|[-> ?]]; [left; lia|].
    destruct (decide (m' = mx)) as [->|]; [by right|left; right; split; [done|right; lia]].
  - (* a positive number minus a larger one *)
    destruct (binary_round_sign z ez) as [Hn Hs]. split_and!; try done. left.
    destruct (fkey _) as [[s1 s2] s3]. simpl in *. lia.
Qed.

(** ** Sums of non-negative floats *)

Lemma canonical_bounded m e : canonical_pair (Zpos m) e → e ≤ 971 → bounded 53 1024 m e = true.
Proof.
  intros ([H1 H2] & H3 & H4) He. unfold bounded, canonical_mantissa. rewrite fexp_eq.
  pose proof (digits2_pos_spec m) as [D1 D2]. set (d := Zpos (digits2_pos m)) in *. assert (0 < d) by (unfold d; lia).
  apply andb_true_iff. split; [|lia]. apply Z.eqb_eq.
  assert (d ≤ prec) as Hd.
  { destruct (Z.le_gt_cases d prec); [done|]. assert (2 ^ prec ≤ 2 ^ (d - 1)) by (apply Z.pow_le_mono_r; lia). lia. }
  destruct (decide (e = emin)) as [->|]; [lia|]. specialize (H4 ltac:(lia)).
  assert (¬ d < prec); [|lia]. intros Hlt. assert (2 ^ d ≤ 2 ^ (prec - 1)) by (apply Z.pow_le_mono_r; lia). lia.
Qed.

Lemma binary_round_wf sx m e : wf_f64 (binary_round 53 1024 sx m e) = true.
Proof.
  unfold binary_round. pose proof (shl_align_spec m e (fexp 53 1024 (Zpos (digits2_pos m) + e))) as HA.
  destruct (shl_align _ _ _) as [mz ez]. destruct HA as (Hez & _ & Hd). cbv zeta.
  set (X := fexp 53 1024 (Zpos (digits2_pos m) + e)) in *.
  assert (fexp 53 1024 (Zdigits2 (Zpos mz) + ez) - ez = Z.of_nat (Z.to_nat (X - ez))) as Hk.
  { simpl Zdigits2. rewrite Hd. fold X. lia. }
  destruct (round_aux_cases sx mz ez _ Hk) as (r & _ & [[_ ->]|(m' & e' & Cm & _ & _ & ->)]); [done|].
  destruct (e' <=? 971) eqn:E; [|done]. apply canonical_bounded; [done|lia].
Qed.

(** Rounding a positive number stays above every double below it. *)
Lemma binary_round_above m e mf ef b :
  bounded 53 1024 mf ef = true → b ≤ e → b ≤ ef → b ≤ emin →
  Zpos mf * 2 ^ (ef - b) ≤ Zpos m * 2 ^ (e - b) →
  fle (S754_finite false mf ef) (binary_round 53 1024 false m e) = true.
Proof.
  intros Hf B1 B2 B3 H. destruct (binary_round_side false m e mf ef b Hf B1 B2 B3) as [_ Hs].
  apply fle_key. destruct (Hs H) as [->|(m' & e' & -> & Hlt)]; (split_and!; [done..|]); simpl; unfold lex_le, lex_lt;
    [left; lia|]. destruct Hlt as [?|[-> ?]]; [left; lia|].
  destruct (decide (m' = mf)) as [->|]; [by right|left; right; split; [done|right; lia]].
Qed.

(** A double that is not negative, and not NaN. *)
Definition nonneg (x : f64) : Prop := wf_f64 x = true ∧ fle f0 x = true.

Lemma nonneg_refl x : nonneg x → fle x x = true.
Proof. intros [_ (_ & H & _)%fle_key]. by apply fle_refl. Qed.

Lemma fadd_nonneg x p : nonneg x → nonneg p →
  nonneg (x + p)%f64 ∧ fle x (x + p)%f64 = true ∧ fle p (x + p)%f64 = true.
Proof.
  intros [Wx Hx] [Wp Hp]. unfold fadd, nonneg.
  destruct x as [sx|[]| |[] mx ex]; try done; destruct p as [sp|[]| |[] mp ep]; try done;
    try (by destruct sx; destruct sp); try (destruct sx; split_and!; first [done|by apply fle_refl]);
    try (destruct sp; split_and!; first [done|by apply fle_refl]).
  unfold SFadd. set (ez := Z.min ex ep).
  pose proof (shl_align_spec mx ex ez) as Ax. pose proof (shl_align_spec mp ep ez) as Ap.
  destruct (shl_align mx ex ez) as [mx' ex'], (shl_align mp ep ez) as [mp' ep']. simpl fst.
  destruct Ax as (-> & Hmx & _), Ap as (-> & Hmp & _).
  replace (Z.min ex ez) with ez in * by lia. replace (Z.min ep ez) with ez in * by lia.
  cbn [cond_Zopp]. change (Zpos mx' + Zpos mp') with (Zpos (mx' + mp')). cbn [binary_normalize].
  set (b := Z.min ez emin). assert (0 < 2 ^ (ez - b)) as Pb by (apply Z.pow_pos_nonneg; lia).
  assert (Zpos mx * 2 ^ (ex - b) = Zpos mx' * 2 ^ (ez - b)) as EX by (rewrite Hmx, (pow2_split ex b ez) by lia; lia).
  assert (Zpos mp * 2 ^ (ep - b) = Zpos mp' * 2 ^ (ez - b)) as EP by (rewrite Hmp, (pow2_split ep b ez) by lia; lia).
  assert (fle (S754_finite false mx ex) (binary_round 53 1024 false (mx' + mp') ez) = true) as H1.
  { apply (binary_round_above _ _ _ _ b Wx); [lia..|]. rewrite EX. apply Z.mul_le_mono_nonneg_r; lia. }
  assert (fle (S754_finite false mp ep) (binary_round 53 1024 false (mx' + mp') ez) = true) as H2.
  { apply (binary_round_above _ _ _ _ b Wp); [lia..|]. rewrite EP. apply Z.mul_le_mono_nonneg_r; lia. }
  split_and!; try done; [apply binary_round_wf|]. by eapply fle_trans; [exact Hx|].
Qed.

(** ** Products *)

Lemma binary_round_aux_eq sx m e : e ≤ fexp 53 1024 (Zpos (digits2_pos m) + e) →
  binary_round_aux 53 1024 sx (Zpos m) e loc_Exact = binary_round 53 1024 sx m e.
Proof.
  intros H. unfold binary_round, shl_align. destruct (fexp 53 1024 (Zpos (digits2_pos m) + e) - e) eqn:E; [done|done|lia].
Qed.

(** A product of positive doubles stays above every double below its exact value. *)
Lemma fmul_above mx ex my ey mf ef b :
  2 ^ 52 ≤ Zpos mx → bounded 53 1024 mf ef = true → b ≤ ex + ey → b ≤ ef → b ≤ emin →
  Zpos mf * 2 ^ (ef - b) ≤ Zpos mx * Zpos my * 2 ^ (ex + ey - b) →
  fle (S754_finite false mf ef) (S754_finite false mx ex * S754_finite false my ey)%f64 = true.
Proof.
  intros Hx Hf B1 B2 B3 H. unfold fmul, SFmul. cbn [xorb]. rewrite binary_round_aux_eq.
  - apply (binary_round_above _ _ _ _ b); [done..|]. by rewrite Pos2Z.inj_mul.
  - rewrite fexp_eq. pose proof (digits2_pos_spec (mx * my)) as [_ H2].
    assert (2 ^ 52 ≤ Zpos (mx * my)) as H1 by lia.
    assert (prec ≤ Zpos (digits2_pos (mx * my))); [|lia].
    destruct (Z.le_gt_cases prec (Zpos (digits2_pos (mx * my)))) as [?|Hlt]; [done|].
    assert (2 ^ Zpos (digits2_pos (mx * my)) ≤ 2 ^ 52) by (apply Z.pow_le_mono_r; lia). lia.
Qed.

(** [float(n)] of an integer at least as large as a double. *)
Lemma of_Z_above n mf ef : bounded 53 1024 mf ef = true → ef ≤ 0 → Zpos mf ≤ n * 2 ^ (- ef) →
  of_Z n = S754_infinity false ∨ ∃ m e, of_Z n = S754_finite false m e ∧ bounded 53 1024 m e = true ∧
    (ef < e ∨ (ef = e ∧ Zpos mf ≤ Zpos m)).
Proof.
  intros Hf He H. destruct n as [|n|n]; [lia| |lia].
  unfold of_Z, binary_normalize. pose proof (binary_round_wf false n 0) as Hw.
  pose proof (bounded_canonical _ _ Hf) as [([_ _] & Hmin & _) _].
  destruct (binary_round_side false n 0 mf ef emin Hf ltac:(lia) ltac:(lia) ltac:(lia)) as [_ Hs].
  destruct Hs as [E|(m & e & E & Hme)]; [|by left|].
  - rewrite (pow2_split 0 emin ef) by lia. replace (0 - ef) with (- ef) by lia.
    rewrite Z.mul_assoc. apply Z.mul_le_mono_nonneg_r; [apply Z.pow_nonneg; lia|done].
  - right. exists m, e. split; [done|]. rewrite E in Hw. split; [exact Hw|done].
Qed.
