(* ===== verification/Sha256.v ===== *)
(** * SHA-256 and HMAC-SHA-256

    [hashlib.sha256] and [hmac.new(key, msg, hashlib.sha256)], which every hash
    chain of the program is built on: FIPS 180-4 and RFC 2104, executable, so
    that the models run on real digests.  No theorem of the development assumes
    that SHA-256 is free of collisions.  The tamper-evidence theorems instead
    return the two inputs that collide when the conclusion fails. *)

From S2P Require Import Prelude PyStr.

(** ** FIPS 180-4 *)

Definition w32 (x : N) : N := N.land x 0xffffffff.
Definition add32 (x y : N) : N := w32 (x + y).
Definition rotr (n x : N) : N := N.lor (N.shiftr x n) (w32 (N.shiftl x (32 - n))).

Definition Ch (x y z : N) : N := N.lxor (N.land x y) (N.land (N.lxor x 0xffffffff) z).
Definition Maj (x y z : N) : N := N.lxor (N.land x y) (N.lxor (N.land x z) (N.land y z)).
Definition Sigma0 (x : N) : N := N.lxor (rotr 2 x) (N.lxor (rotr 13 x) (rotr 22 x)).
Definition Sigma1 (x : N) : N := N.lxor (rotr 6 x) (N.lxor (rotr 11 x) (rotr 25 x)).
Definition sigma0 (x : N) : N := N.lxor (rotr 7 x) (N.lxor (rotr 18 x) (N.shiftr x 3)).
Definition sigma1 (x : N) : N := N.lxor (rotr 17 x) (N.lxor (rotr 19 x) (N.shiftr x 10)).

(** The first 32 bits of the fractional parts of the cube roots of the first 64 primes. *)
Definition round_constants : list N :=
  [1116352408; 1899447441; 3049323471; 3921009573; 961987163; 1508970993; 2453635748;
   2870763221; 3624381080; 310598401; 607225278; 1426881987; 1925078388; 2162078206;
   2614888103; 3248222580; 3835390401; 4022224774; 264347078; 604807628; 770255983;
   1249150122; 1555081692; 1996064986; 2554220882; 2821834349; 2952996808; 3210313671;
   3336571891; 3584528711; 113926993; 338241895; 666307205; 773529912; 1294757372;
   1396182291; 1695183700; 1986661051; 2177026350; 2456956037; 2730485921; 2820302411;
   3259730800; 3345764771; 3516065817; 3600352804; 4094571909; 275423344; 430227734;
   506948616; 659060556; 883997877; 958139571; 1322822218; 1537002063; 1747873779;
   1955562222; 2024104815; 2227730452; 2361852424; 2428436474; 2756734187; 3204031479;
   3329325298]%N.

Record hash_state := HS { ha : N; hb : N; hc : N; hd : N; he : N; hf : N; hg : N; hh : N }.

Definition initial_state : hash_state :=
  HS 0x6a09e667 0xbb67ae85 0x3c6ef372 0xa54ff53a 0x510e527f 0x9b05688c 0x1f83d9ab 0x5be0cd19.

Definition round (k w : N) (s : hash_state) : hash_state :=
  let t1 := add32 (hh s) (add32 (Sigma1 (he s)) (add32 (Ch (he s) (hf s) (hg s)) (add32 k w))) in
  let t2 := add32 (Sigma0 (ha s)) (Maj (ha s) (hb s) (hc s)) in
  HS (add32 t1 t2) (ha s) (hb s) (hc s) (add32 (hd s) t1) (he s) (hf s) (hg s).

(** The rounds, with the message schedule as a sliding window of 16 words. *)
Fixpoint rounds (ks : list N) (window : list N) (s : hash_state) : hash_state :=
  match ks with
  | [] => s
  | k :: ks' =>
      let w i := nth i window 0%N in
      let next := add32 (sigma1 (w 14%nat)) (add32 (w 9%nat) (add32 (sigma0 (w 1%nat)) (w 0%nat))) in
      rounds ks' (tail window ++ [next]) (round k (w 0%nat) s)
  end.

Definition compress (s : hash_state) (block : list N) : hash_state :=
  let r := rounds round_constants block s in
  HS (add32 (ha s) (ha r)) (add32 (hb s) (hb r)) (add32 (hc s) (hc r)) (add32 (hd s) (hd r))
     (add32 (he s) (he r)) (add32 (hf s) (hf r)) (add32 (hg s) (hg r)) (add32 (hh s) (hh r)).

Fixpoint bytes_to_list (b : bytes) : list N :=
  match b with "" => [] | String c b' => code c :: bytes_to_list b' end.

Definition be_bytes (n : nat) (x : N) : list N :=
  map (λ i, N.land (N.shiftr x (8 * N.of_nat i)) 255) (rev (seq 0 n)).

Definition pad (m : list N) : list N :=
  let l := length m in
  m ++ [128%N] ++ replicate ((119 - l mod 64) mod 64) 0%N ++ be_bytes 8 (8 * N.of_nat l).

Fixpoint be_words (m : list N) : list N :=
  match m with
  | a :: b :: c :: d :: m' =>
      N.lor (N.shiftl a 24) (N.lor (N.shiftl b 16) (N.lor (N.shiftl c 8) d)) :: be_words m'
  | _ => []
  end.

(** One 16-word block at a time; the fuel is the number of words. *)
Fixpoint absorb (fuel : nat) (ws : list N) (s : hash_state) : hash_state :=
  match fuel, ws with
  | S fuel', _ :: _ => absorb fuel' (drop 16 ws) (compress s (take 16 ws))
  | _, _ => s
  end.

Definition list_to_bytes (l : list N) : bytes := foldr (λ n b, String (ascii_of_N n) b) "" l.

Definition digest_of_state (s : hash_state) : bytes :=
  list_to_bytes (concat (map (be_bytes 4)
    [ha s; hb s; hc s; hd s; he s; hf s; hg s; hh s])).

(** [hashlib.sha256(m).digest()] and [.hexdigest()] *)
Definition sha256 (m : bytes) : bytes :=
  let ws := be_words (pad (bytes_to_list m)) in
  digest_of_state (absorb (length ws) ws initial_state).

Definition sha256_hex (m : bytes) : string := hex (sha256 m).

(** ** RFC 2104 *)

Fixpoint xor_pad (x : N) (n : nat) (k : bytes) : bytes :=
  match n with
  | O => ""
  | S n' => match k with
    | "" => String (ascii_of_N x) (xor_pad x n' "")
    | String c k' => String (ascii_of_N (N.lxor x (code c))) (xor_pad x n' k')
    end
  end.

Definition hmac_key (key : bytes) : bytes :=
  if (64 <? String.length key)%nat then sha256 key else key.

Definition hmac_inner (key msg : bytes) : bytes := xor_pad 0x36 64 (hmac_key key) +:+ msg.
Definition hmac_outer (key msg : bytes) : bytes :=
  xor_pad 0x5c 64 (hmac_key key) +:+ sha256 (hmac_inner key msg).

(** [hmac.new(key, msg, hashlib.sha256).hexdigest()] *)
Definition hmac_sha256_hex (key msg : bytes) : string := sha256_hex (hmac_outer key msg).

(** ** Facts *)

Lemma length_list_to_bytes l : String.length (list_to_bytes l) = length l.
Proof. induction l; simpl; congruence. Qed.

Lemma length_sha256 m : String.length (sha256 m) = 32%nat.
Proof. unfold sha256, digest_of_state. by rewrite length_list_to_bytes. Qed.

Lemma length_sha256_hex m : String.length (sha256_hex m) = 64%nat.
Proof. unfold sha256_hex. by rewrite length_hex, length_sha256. Qed.

#[global] Opaque sha256.

(** A collision: two different inputs with the same digest. *)
Definition collision (p : bytes * bytes) : Prop := p.1 ≠ p.2 ∧ sha256 p.1 = sha256 p.2.

#[global] Instance collision_dec p : Decision (collision p).
Proof. unfold collision. apply _. Defined.

Lemma sha256_hex_eq x y : sha256_hex x = sha256_hex y → x = y ∨ collision (x, y).
Proof.
  intros H. apply (inj hex) in H. destruct (decide (x = y)); [by left|by right].
Qed.

(** Equal HMACs on different messages exhibit a collision of SHA-256, in the
    inner or in the outer hash. *)
Definition hmac_collision (key m1 m2 : bytes) : bytes * bytes :=
  if decide (sha256 (hmac_inner key m1) = sha256 (hmac_inner key m2))
  then (hmac_inner key m1, hmac_inner key m2)
  else (hmac_outer key m1, hmac_outer key m2).

Lemma hmac_eq key m1 m2 :
  hmac_sha256_hex key m1 = hmac_sha256_hex key m2 →
  m1 = m2 ∨ collision (hmac_collision key m1 m2).
Proof.
  intros H. destruct (decide (m1 = m2)) as [->|Hne]; [by left|right].
  unfold hmac_collision. destruct (decide _) as [He|He]; unfold collision; simpl.
  - split; [|done]. intros Hi. apply Hne. unfold hmac_inner in Hi. by apply (inj _) in Hi.
  - split; [|by apply (inj hex)]. intros Ho. apply He. unfold hmac_outer in Ho. by apply (inj _) in Ho.
Qed.

(** The 64-byte block a key is expanded to; HMAC depends on nothing else. *)
Definition key_block (key : bytes) : bytes := xor_pad 0 64 (hmac_key key).

Lemma xor_pad_block x n k :
  xor_pad x n k = map_str (λ c, ascii_of_N (N.lxor x (code c))) (xor_pad 0 n k).
Proof.
  revert k; induction n as [|n IH]; intros [|c k]; cbn [xor_pad map_str]; try done; rewrite IH; f_equal.
  - by rewrite N.lxor_0_r.
  - f_equal. f_equal. unfold code. by rewrite N.lxor_0_l, ascii_N_embedding.
Qed.

Lemma hmac_key_block k1 k2 m :
  key_block k1 = key_block k2 → hmac_sha256_hex k1 m = hmac_sha256_hex k2 m.
Proof.
  unfold key_block, hmac_sha256_hex, hmac_outer, hmac_inner. intros H.
  by rewrite !(xor_pad_block 0x36), !(xor_pad_block 0x5c), H.
Qed.

Lemma map_str_inj f s t : (∀ c, f (f c) = c) → map_str f s = map_str f t → s = t.
Proof.
  intros Hf. revert t; induction s as [|c s IH]; intros [|d t]; cbn [map_str]; try done.
  intros [= Hc Ht]. f_equal; [|by apply IH]. by rewrite <-(Hf c), Hc, Hf.
Qed.

Lemma xor_pad_inj k1 k2 : xor_pad 0x5c 64 k1 = xor_pad 0x5c 64 k2 → xor_pad 0 64 k1 = xor_pad 0 64 k2.
Proof.
  rewrite (xor_pad_block 0x5c 64 k1), (xor_pad_block 0x5c 64 k2). apply map_str_inj.
  intros c. all_chars c; reflexivity.
Qed.

Lemma length_xor_pad x n k : String.length (xor_pad x n k) = n.
Proof. revert k; induction n as [|n IH]; intros [|c k]; cbn [xor_pad String.length]; auto. Qed.

(** Equal HMACs of one message under two keys. *)
Lemma hmac_eq_key k1 k2 m :
  hmac_sha256_hex k1 m = hmac_sha256_hex k2 m →
  key_block k1 = key_block k2 ∨ collision (hmac_outer k1 m, hmac_outer k2 m).
Proof.
  intros H. unfold hmac_sha256_hex in H.
  destruct (sha256_hex_eq _ _ H) as [Ho|Hc]; [left; clear H; rename Ho into H|right; exact Hc].
  apply xor_pad_inj. unfold hmac_outer in H.
  apply app_inj_str in H as [H _]; [exact H|]. rewrite !length_xor_pad. reflexivity.
Qed.

#[export] Hint Resolve length_sha256 length_sha256_hex : axg.
