(* ===== verification/DataModel.v ===== *)
(** * The graph nodes and contracts of the kernel

    [kernel/core/data_model.py] and [kernel/core/contracts.py].  A field whose
    default is a generated identifier ([_gen_id], a UUID) or the current time
    is an argument wherever the code relies on that default.  A [datetime] is
    its [isoformat()] text; [Any] is a JSON value. *)

From S2P Require Import Prelude PyStr PyFloat PyDict Json.

(** ** Enumerations *)

Inductive ExtractionStatus := SUGGESTED | ACCEPTED | EDITED | REJECTED | BLOCKED | PENDING_REVIEW.
Inductive GroundingMethod := EXACT | FUZZY | SEMANTIC | VISUAL | BLOCK.
Inductive ActionKind := READ | SUGGEST.
Inductive ActionStatus := A_PENDING | A_CONFIRMED | A_APPLIED | A_REJECTED | A_REFUSED.

#[global] Instance ExtractionStatus_eq_dec : EqDecision ExtractionStatus.
Proof. solve_decision. Defined.
#[global] Instance GroundingMethod_eq_dec : EqDecision GroundingMethod.
Proof. solve_decision. Defined.
#[global] Instance ActionKind_eq_dec : EqDecision ActionKind.
Proof. solve_decision. Defined.
#[global] Instance ActionStatus_eq_dec : EqDecision ActionStatus.
Proof. solve_decision. Defined.

(** [.value] of each enumeration, and the constructor call [E(value)], which
    raises [ValueError] on an unknown value. *)
Definition status_value (s : ExtractionStatus) : string :=
  match s with
  | SUGGESTED => "suggested" | ACCEPTED => "accepted" | EDITED => "edited"
  | REJECTED => "rejected" | BLOCKED => "blocked" | PENDING_REVIEW => "pending_review"
  end.

Definition method_value (m : GroundingMethod) : string :=
  match m with
  | EXACT => "exact" | FUZZY => "fuzzy" | SEMANTIC => "semantic"
  | VISUAL => "visual" | BLOCK => "block"
  end.

Definition kind_value (k : ActionKind) : string :=
  match k with READ => "read" | SUGGEST => "suggest" end.

Definition action_status_value (s : ActionStatus) : string :=
  match s with
  | A_PENDING => "pending" | A_CONFIRMED => "confirmed" | A_APPLIED => "applied"
  | A_REJECTED => "rejected" | A_REFUSED => "refused"
  end.

Definition enum_of {A} (value : A → string) (members : list A) (s : string) : result A :=
  match find_first (λ a, bool_decide (value a = s)) members with
  | Some a => Ok a
  | None => raise "ValueError" (s +:+ " is not a valid enum value")
  end.

Definition ExtractionStatus_of := enum_of status_value
  [SUGGESTED; ACCEPTED; EDITED; REJECTED; BLOCKED; PENDING_REVIEW].
Definition GroundingMethod_of := enum_of method_value [EXACT; FUZZY; SEMANTIC; VISUAL; BLOCK].
Definition ActionKind_of := enum_of kind_value [READ; SUGGEST].
Definition ActionStatus_of := enum_of action_status_value
  [A_PENDING; A_CONFIRMED; A_APPLIED; A_REJECTED; A_REFUSED].

(** ** Nodes *)

Record BBox := { x0 : f64; y0 : f64; x1 : f64; y1 : f64 }.

(** [BBox.__post_init__]: a NaN coordinate passes the comparison. *)
Definition mk_BBox (a b c d : f64) : result BBox :=
  if flt c a || flt d b then raise "ValueError" "Invalid bbox"
  else Ok {| x0 := a; y0 := b; x1 := c; y1 := d |}.

Record Document := {
  d_doc_id : string; d_source_path : string; d_sha256 : string;
  d_page_count : Z; d_ingested_at : string }.

Record Page := {
  p_doc_id : string; p_index : Z; p_width_px : Z; p_height_px : Z; p_image_sha256 : string }.

Record Chunk := {
  c_chunk_id : string; c_doc_id : string; c_page : Z; c_bbox : option BBox;
  c_text : string; c_source_type : string; c_embedding : list f64 }.

(** [Chunk.__post_init__] *)
Definition mk_Chunk (cid did : string) (page : Z) (bbox : option BBox) (text st : string)
    (emb : list f64) : result Chunk :=
  if page <? 0 then raise "ValueError" ("page must be >= 0, got " +:+ pretty page)
  else Ok {| c_chunk_id := cid; c_doc_id := did; c_page := page; c_bbox := bbox;
             c_text := text; c_source_type := st; c_embedding := emb |}.

Record Entity := { en_entity_id : string; en_kind : string; en_value : string; en_normalized : string }.
Record ModelVersion := { mv_model_id : string; mv_name : string; mv_weights_hash : string; mv_tier : Z }.
Record User := { u_user_id : string }.

Record Anchor := { a_chunk_id : string; a_char_span : Z * Z; a_page : Z; a_bbox : option BBox }.

Record Extraction := {
  e_ext_id : string; e_pack_id : string; e_field_name : string; e_value : string;
  e_source_span : string; e_confidence : f64; e_model_version : string;
  e_status : ExtractionStatus; e_chunk_id : string; e_method : GroundingMethod;
  e_anchors : list Anchor }.

Record Correction := {
  co_corr_id : string; co_ext_id : string; co_original : string; co_corrected : string;
  co_reason : string; co_by : string; co_at : string }.

Record Action := {
  ac_action_id : string; ac_ext_id : string; ac_kind : ActionKind; ac_target_app : string;
  ac_payload : list (string * json); ac_confidence : f64; ac_status : ActionStatus }.

(** ** Provenance chain *)

Record Chain := {
  ch_action : option Action; ch_extraction : option Extraction;
  ch_chunk : option Chunk; ch_document : option Document }.

Definition empty_chain : Chain :=
  {| ch_action := None; ch_extraction := None; ch_chunk := None; ch_document := None |}.

(** [Chain.is_complete] *)
Definition is_complete (c : Chain) : bool :=
  match ch_document c, ch_chunk c with
  | Some doc, Some chunk =>
      match ch_extraction c with
      | None => false
      | Some ext =>
          if negb (bool_decide (c_doc_id chunk = d_doc_id doc)) then false
          else if negb (bool_decide (e_chunk_id ext = c_chunk_id chunk)) then false
          else match c_bbox chunk with Some _ => true | None => false end
      end
  | _, _ => false
  end.

(** ** Orchestrator trace.  The duration, a clock reading, is left out. *)

Record TraceStage := {
  st_name : string; st_input_data : option json; st_output_data : option json; st_status : string }.

Record Trace := {
  t_stages : list TraceStage; t_halted : bool; t_halt_reason : string * list json;
  t_extractions : list Extraction }.

(** [Trace.is_complete] *)
Definition trace_is_complete (t : Trace) : bool :=
  negb (bool_decide (t_stages t = [])) &&
  forallb (λ s, match st_input_data s, st_output_data s with
                | Some _, Some _ => true | _, _ => false end) (t_stages t).

(** ** Answers and suggestions *)

Record Answer := {
  an_answer_id : string; an_query : string; an_text : string; an_citations : list Anchor;
  an_grounded : bool; an_refused : bool; an_refusal_stage : string;
  an_refusal_reason : string; an_refusal_suggestion : string }.

Record Suggestion := {
  su_action : Action; su_provenance : Chain; su_confidence : f64; su_display_text : string * list json }.

(** ** Results of the contracts.  A message with interpolated values is its
    template name and the list of the values. *)

Abbreviation message := (string * list json)%type.

Record ScanResult := { sr_blocked : bool; sr_reasons : list message }.

Inductive GateVerdict := PASS | FLAG | V_BLOCK.
#[global] Instance GateVerdict_eq_dec : EqDecision GateVerdict.
Proof. solve_decision. Defined.
Definition verdict_value (v : GateVerdict) : string :=
  match v with PASS => "pass" | FLAG => "flag" | V_BLOCK => "block" end.

Record GateResult := { gr_verdict : GateVerdict; gr_confidence : f64; gr_reasons : list message }.

Record ApplyResult := { ar_success : bool; ar_post_state : option json; ar_error : option message }.

(** ** Lemmas *)

Lemma enum_of_value {A} (value : A → string) `{!Inj (=) (=) value} members a :
  a ∈ members → enum_of value members (value a) = Ok a.
Proof.
  intros Ha. unfold enum_of. destruct (find_first _ _) as [b|] eqn:E.
  - apply find_first_Some in E as [_ E]. bool_prop. by apply (inj value) in E as ->.
  - apply find_first_None in E. rewrite Forall_forall in E. specialize (E _ Ha). by bool_prop.
Qed.

#[global] Instance status_value_inj : Inj (=) (=) status_value.
Proof. by intros [] []. Qed.
#[global] Instance method_value_inj : Inj (=) (=) method_value.
Proof. by intros [] []. Qed.
#[global] Instance kind_value_inj : Inj (=) (=) kind_value.
Proof. by intros [] []. Qed.
#[global] Instance action_status_value_inj : Inj (=) (=) action_status_value.
Proof. by intros [] []. Qed.

Lemma status_roundtrip s : ExtractionStatus_of (status_value s) = Ok s.
Proof. by destruct s. Qed.
Lemma method_roundtrip m : GroundingMethod_of (method_value m) = Ok m.
Proof. by destruct m. Qed.
Lemma kind_roundtrip k : ActionKind_of (kind_value k) = Ok k.
Proof. by destruct k. Qed.
Lemma action_status_roundtrip s : ActionStatus_of (action_status_value s) = Ok s.
Proof. by destruct s. Qed.
#[export] Hint Rewrite status_roundtrip method_roundtrip kind_roundtrip action_status_roundtrip : axg_str.

(** What a complete chain consists of. *)
Lemma is_complete_spec c :
  is_complete c = true ↔
  ∃ doc chunk ext b, ch_document c = Some doc ∧ ch_chunk c = Some chunk ∧
    ch_extraction c = Some ext ∧ c_doc_id chunk = d_doc_id doc ∧
    e_chunk_id ext = c_chunk_id chunk ∧ c_bbox chunk = Some b.
Proof.
  unfold is_complete. split.
  - repeat case_match; try done; bool_prop; subst; intros _; eauto 12.
  - intros (doc & chunk & ext & b & -> & -> & -> & -> & -> & ->). by rewrite !bool_decide_true.
Qed.

Lemma mk_BBox_Ok a b c d bb :
  mk_BBox a b c d = Ok bb → flt (x1 bb) (x0 bb) = false ∧ flt (y1 bb) (y0 bb) = false.
Proof. unfold mk_BBox. case_match eqn:E; intros; simplify_eq. by bool_prop. Qed.
