(* ===== verification/QualityGate.v ===== *)
(** * The quality gate ([kernel/sidecar/quality_gate.py])

    [LocalQualityGate.check]: grounding penalty, calibration by past
    corrections, clamping, routing.  The correction store is known through the
    interface the module declares, [CorrectionLookup]. *)

From S2P Require Import Prelude PyStr PyFloat PyDict Json PyRound DataModel.

(** The protocol [CorrectionLookup]: a store answers with at most [k]
    corrections. *)
Class CorrectionLookup (St : Type) := {
  search_similar_corrections : St → string → string → nat → list Correction;
  search_at_most s field_name value k :
    (length (search_similar_corrections s field_name value k) ≤ k)%nat }.

Record LocalQualityGate := { flag_threshold : f64; block_threshold : f64 }.

(** The constructor's check; [_FLAG_THRESHOLD] and [_BLOCK_THRESHOLD] are its
    defaults. *)
Definition new_gate (flag_threshold block_threshold : f64) : result LocalQualityGate :=
  if (block_threshold >=? flag_threshold)%f64 then raise "ValueError" "block_threshold must be < flag_threshold"
  else Ok {| flag_threshold := flag_threshold; block_threshold := block_threshold |}.

Definition default_gate : LocalQualityGate := {| flag_threshold := lit 5 10; block_threshold := lit 2 10 |}.

Definition ungrounded (e : Extraction) : bool :=
  bool_decide (e_chunk_id e = "") || bool_decide (strip (e_chunk_id e) = "") ||
  bool_decide (e_method e = BLOCK) || bool_decide (e_anchors e = []).

Definition penalty_per_correction : f64 := lit 15 100.

(** The corrections that contradict the extracted value. *)
Definition contradicts (e : Extraction) (c : Correction) : bool :=
  negb (bool_decide (co_corrected c = e_value e)).

Definition conflict_reason (e : Extraction) (c : Correction) : message :=
  ("CORRECTION_CONFLICT", [JStr (co_corr_id c); JStr (co_original c); JStr (co_corrected c); JStr (e_value e)]).

Section Gate.
Context `{CL : CorrectionLookup St}.

Definition calibrate_with_corrections (store : St) (e : Extraction) (confidence : f64)
    (reasons : list message) : f64 * list message :=
  match search_similar_corrections store (e_field_name e) (e_value e) 5 with
  | [] => (confidence, reasons)
  | corrections =>
      let conflicts := List.filter (contradicts e) corrections in
      let reasons := reasons ++ map (conflict_reason e) conflicts in
      let contradictions := Z.of_nat (length conflicts) in
      if contradictions >? 0 then
        let total_penalty := (of_Z contradictions * penalty_per_correction)%f64 in
        ((confidence - total_penalty)%f64,
         reasons ++ [("CONFIDENCE_LOWERED", [JInt contradictions; JFloat total_penalty])])
      else (confidence, reasons)
  end.

Definition route_verdict (g : LocalQualityGate) (confidence : f64) (reasons : list message)
    : GateVerdict * list message :=
  if (confidence <? block_threshold g)%f64
  then (V_BLOCK, reasons ++ [("VERDICT_BLOCK", [JFloat confidence; JFloat (block_threshold g)])])
  else if (confidence <? flag_threshold g)%f64
  then (FLAG, reasons ++ [("VERDICT_FLAG", [JFloat confidence; JFloat (flag_threshold g)])])
  else (PASS, reasons).

Definition check (g : LocalQualityGate) (store : St) (e : Extraction) : GateResult :=
  let '(confidence, reasons) :=
    if ungrounded e then (fmin (e_confidence e) (block_threshold g - lit 1 100)%f64, [("UNGROUNDED", [])])
    else (e_confidence e, []) in
  let '(confidence, reasons) := calibrate_with_corrections store e confidence reasons in
  let confidence := fmax f0 (fmin f1 confidence) in
  let '(verdict, reasons) := route_verdict g confidence reasons in
  {| gr_verdict := verdict; gr_confidence := round4 confidence; gr_reasons := reasons |}.

(** ** Lemmas *)

Lemma fmin_le_l a b : is_nan a = false → is_nan b = false → fle (fmin a b) a = true.
Proof. intros Ha Hb. unfold fmin. destruct (flt b a) eqn:E; [by apply flt_le|by apply fle_refl]. Qed.

Lemma fmin_le_r a b : is_nan a = false → is_nan b = false → fle (fmin a b) b = true.
Proof. intros Ha Hb. unfold fmin. destruct (flt b a) eqn:E; [by apply fle_refl|by apply flt_nge]. Qed.

Lemma fmin_wf a b : wf_f64 a = true → wf_f64 b = true → wf_f64 (fmin a b) = true.
Proof. intros. unfold fmin. by case_match. Qed.

Lemma fmin_nan a b : is_nan a = false → is_nan b = false → is_nan (fmin a b) = false.
Proof. intros. unfold fmin. by case_match. Qed.

Lemma fle_not_nan x y : fle x y = true → is_nan x = false ∧ is_nan y = false.
Proof. rewrite fle_key. naive_solver. Qed.

(** The penalties that can occur are finite and not negative. *)
Lemma penalty_ok n :
  (n ≤ 5)%nat → let p := (of_Z (Z.of_nat n) * penalty_per_correction)%f64 in
  is_finite p = true ∧ fle f0 p = true.
Proof. intros Hn. do 6 (destruct n as [|n]; [vm_compute; done|]). lia. Qed.

(** Past corrections never raise the confidence. *)
Lemma calibrate_le store e c reasons :
  wf_f64 c = true → is_nan c = false → fle (fst (calibrate_with_corrections store e c reasons)) c = true.
Proof.
  intros Wc Nc. unfold calibrate_with_corrections.
  pose proof (search_at_most store (e_field_name e) (e_value e) 5) as Hk.
  destruct (search_similar_corrections _ _ _ _) as [|x l]; [by apply fle_refl|].
  case_match; [|by apply fle_refl]. simpl fst.
  pose proof (List.filter_length_le (contradicts e) (x :: l)).
  destruct (penalty_ok (length (List.filter (contradicts e) (x :: l)))) as [P1 P2]; [lia|].
  by apply fsub_le.
Qed.

(** The confidence before the final clamp. *)
Definition raw_confidence (g : LocalQualityGate) (store : St) (e : Extraction) : f64 :=
  fst (calibrate_with_corrections store e
         (if ungrounded e then fmin (e_confidence e) (block_threshold g - lit 1 100)%f64 else e_confidence e) []).

Lemma calibrate_fst store e c r1 r2 :
  fst (calibrate_with_corrections store e c r1) = fst (calibrate_with_corrections store e c r2).
Proof. unfold calibrate_with_corrections. by repeat case_match. Qed.

Lemma check_verdict g store e :
  gr_verdict (check g store e) =
    let c := clamp01 (raw_confidence g store e) in
    if (c <? block_threshold g)%f64 then V_BLOCK else if (c <? flag_threshold g)%f64 then FLAG else PASS.
Proof.
  unfold check, raw_confidence, clamp01, route_verdict.
  destruct (ungrounded e); [rewrite (calibrate_fst _ _ _ [] [("UNGROUNDED", [])])|];
    destruct (calibrate_with_corrections _ _ _ _) as [c r]; cbn [fst];
    destruct (flt _ (block_threshold g)); [done| |done|]; by destruct (flt _ (flag_threshold g)).
Qed.

Lemma clamp01_lt c t : flt c t = true → flt f0 t = true → flt (clamp01 c) t = true.
Proof.
  intros Hc Ht. unfold clamp01, fmax, fmin. destruct (flt c f1) eqn:E1.
  - by destruct (flt f0 c).
  - destruct (flt f0 f1) eqn:E2; [|done].
    assert (fle f1 c = true) as H1.
    { apply flt_nge; [|done|done]. apply flt_key in Hc. naive_solver. }
    by eapply fle_lt_trans.
Qed.

(** The confidence of an ungrounded extraction stays below the penalty bound. *)
Lemma raw_confidence_ungrounded g store e :
  wf_f64 (e_confidence e) = true → is_nan (e_confidence e) = false →
  wf_f64 (block_threshold g - lit 1 100)%f64 = true → is_nan (block_threshold g - lit 1 100)%f64 = false →
  ungrounded e = true → fle (raw_confidence g store e) (block_threshold g - lit 1 100)%f64 = true.
Proof.
  intros We Ne Wb Nb Hu. unfold raw_confidence. rewrite Hu.
  eapply fle_trans; [apply calibrate_le|by apply fmin_le_r]; auto using fmin_wf, fmin_nan.
Qed.
End Gate.

Section Properties.
Context `{CL : CorrectionLookup St}.

Lemma ungrounded_verdict store e :
  wf_f64 (e_confidence e) = true → is_nan (e_confidence e) = false → ungrounded e = true →
  gr_verdict (check default_gate store e) = V_BLOCK.
Proof.
  intros We Ne Hu. rewrite check_verdict. cbv zeta.
  rewrite clamp01_lt; [done| |vm_compute; reflexivity].
  eapply fle_lt_trans; [apply raw_confidence_ungrounded; auto; vm_compute; reflexivity|].
  vm_compute. reflexivity.
Qed.

(** An ungrounded extraction - no chunk, method BLOCK or no anchors -
    is blocked by the default gate whatever confidence the model claims and
    whatever corrections are on record, provided the claim is a number. *)
Theorem ungrounded_blocked store e :
  wf_f64 (e_confidence e) = true → is_nan (e_confidence e) = false → ungrounded e = true →
  gr_verdict (check default_gate store e) = V_BLOCK.
Proof. apply ungrounded_verdict. Qed.

Lemma pass_justified_lemma g store e :
  new_gate (flag_threshold g) (block_threshold g) = Ok g →
  is_finite (block_threshold g) = true → wf_f64 (block_threshold g) = true →
  wf_f64 (block_threshold g - lit 1 100)%f64 = true → is_nan (block_threshold g - lit 1 100)%f64 = false →
  flt f0 (flag_threshold g) = true →
  wf_f64 (e_confidence e) = true → is_nan (e_confidence e) = false →
  gr_verdict (check g store e) = PASS →
  ungrounded e = false ∧ fle (flag_threshold g) (clamp01 (e_confidence e)) = true.
Proof.
  intros Hg Fb Wb Wd Nd Hf We Ne. rewrite check_verdict. cbv zeta.
  destruct (flt (clamp01 _) (block_threshold g)); [done|].
  destruct (flt (clamp01 _) (flag_threshold g)) eqn:Ef; [done|]. intros _.
  assert (is_nan (flag_threshold g) = false) as Nf by (apply flt_key in Hf; naive_solver).
  destruct (ungrounded e) eqn:Hu.
  - exfalso. assert (flt (block_threshold g) (flag_threshold g) = true) as Hlt.
    { apply not_false_is_true. intros H. apply flt_nge in H; [|by apply finite_not_nan|done].
      unfold new_gate in Hg. by rewrite H in Hg. }
    assert (fle (block_threshold g - lit 1 100)%f64 (block_threshold g) = true) as Hle.
    { apply fsub_le; [done|by apply finite_not_nan|vm_compute; reflexivity..]. }
    rewrite clamp01_lt in Ef; [done| |done].
    eapply fle_lt_trans; [by apply raw_confidence_ungrounded|]. by eapply fle_lt_trans.
  - split; [done|].
    destruct (clamp01_range (e_confidence e)) as [H01 _]. apply fle_not_nan in H01 as [_ H01].
    apply (proj1 (flt_nge _ _ H01 Nf)).
    destruct (flt (clamp01 (e_confidence e)) (flag_threshold g)) eqn:E; [|done].
    rewrite <-Ef. symmetry. eapply fle_lt_trans; [|exact E].
    assert (fle (raw_confidence g store e) (e_confidence e) = true) as Hr
      by (unfold raw_confidence; rewrite Hu; by apply calibrate_le).
    apply clamp01_mono; [|done]. by apply fle_not_nan in Hr as [? _].
Qed.

Lemma pass_numeric store e :
  wf_f64 (e_confidence e) = true → is_nan (e_confidence e) = false →
  gr_verdict (check default_gate store e) = PASS →
  ungrounded e = false ∧ fle (lit 5 10) (clamp01 (e_confidence e)) = true.
Proof. intros. apply (pass_justified_lemma default_gate store e); try done; vm_compute; reflexivity. Qed.

(** PASS has to be earned: when a gate with a positive flag threshold
    passes an extraction whose confidence is a number, the extraction is
    grounded and its own confidence, clamped to [0,1], already reached the
    flag threshold: no record of corrections can lift it there. *)
Theorem pass_justified g store e :
  new_gate (flag_threshold g) (block_threshold g) = Ok g →
  is_finite (block_threshold g) = true → wf_f64 (block_threshold g) = true →
  wf_f64 (block_threshold g - lit 1 100)%f64 = true → is_nan (block_threshold g - lit 1 100)%f64 = false →
  flt f0 (flag_threshold g) = true →
  wf_f64 (e_confidence e) = true → is_nan (e_confidence e) = false →
  gr_verdict (check g store e) = PASS →
  ungrounded e = false ∧ fle (flag_threshold g) (clamp01 (e_confidence e)) = true.
Proof. apply pass_justified_lemma. Qed.

(** The guard is lost on NaN: [min] keeps a NaN confidence through the
    grounding penalty, subtraction keeps it through the corrections, and the
    clamp turns it into 1.0, so that the default gate passes any extraction
    with confidence NaN, grounded or not, with confidence 1.0. *)
Theorem nan_confidence_passes store e :
  e_confidence e = S754_nan →
  gr_verdict (check default_gate store e) = PASS ∧ gr_confidence (check default_gate store e) = f1.
Proof.
  intros He.
  assert (∀ r, fst (calibrate_with_corrections store e S754_nan r) = S754_nan) as Hc.
  { intros r. unfold calibrate_with_corrections. by repeat case_match. }
  unfold check. rewrite He. change (fmin S754_nan _) with S754_nan.
  destruct (ungrounded e);
    (destruct (calibrate_with_corrections _ _ _ _) as [c r] eqn:E; apply (f_equal fst) in E;
     rewrite Hc in E; simpl in E; subst c; split; vm_compute; reflexivity).
Qed.
End Properties.
