(* ===== verification/MemoryStore.v ===== *)
(** * The memory store ([kernel/sidecar/memory_store.py])

    The SQLite tables, each a finite map from its primary key to a row; [INSERT
    OR REPLACE] is the insertion of the map.  Enumerations are stored by value,
    a [datetime] as its ISO text, a JSON column as its JSON value.  SQLite stores
    NaN as NULL: a [NOT NULL] column without default then aborts, and one with a
    default takes the default.  An integer outside 64 bits is refused by the
    driver.  Foreign keys are declared but not enforced by SQLite unless
    switched on, which the store does not do.  Every public method holds the
    store's lock, so a history of the store is a sequence of calls. *)

From S2P Require Import Prelude PyStr PyFloat PyDict Json PyRound DataModel QualityGate.

(** ** Rows *)

Record ChunkRow := {
  cr_doc_id : string; cr_page : Z; cr_x0 : f64; cr_y0 : f64; cr_x1 : f64; cr_y1 : f64;
  cr_text : string; cr_source_type : string; cr_embedding : list f64 }.

Record ExtractionRow := {
  er_pack_id : string; er_field_name : string; er_value : string; er_confidence : f64;
  er_model_version : string; er_status : string; er_chunk_id : string }.

Record ActionRow := {
  ar_ext_id : string; ar_kind : string; ar_target_app : string; ar_payload : list (string * json);
  ar_confidence : f64; ar_row_status : string }.

Record MemoryStore := {
  tb_documents : gmap string Document;
  tb_pages : gmap (string * Z) Page;
  tb_chunks : gmap string ChunkRow;
  tb_extractions : gmap string ExtractionRow;
  tb_corrections : gmap string Correction;
  tb_entities : gmap string Entity;
  tb_model_versions : gmap string ModelVersion;
  tb_users : gset string;
  tb_actions : gmap string ActionRow }.

Definition empty_store : MemoryStore :=
  {| tb_documents := ∅; tb_pages := ∅; tb_chunks := ∅; tb_extractions := ∅; tb_corrections := ∅;
     tb_entities := ∅; tb_model_versions := ∅; tb_users := ∅; tb_actions := ∅ |}.

(** ** Binding of parameters *)

Definition fits_int64 (z : Z) : bool := (- 2 ^ 63 <=? z) && (z <? 2 ^ 63).

Definition bind_int (z : Z) : result Z :=
  if fits_int64 z then Ok z else raise "OverflowError" "Python int too large to convert to SQLite INTEGER".

(** A [REAL NOT NULL] column without, and with, the default 0.0. *)
Definition bind_real (x : f64) : result f64 :=
  if is_nan x then raise "IntegrityError" "NOT NULL constraint failed" else Ok x.
Definition bind_real_default (x : f64) : f64 := if is_nan x then f0 else x.

(** ** Documents, pages, chunks *)

Definition upsert_document (doc : Document) (st : MemoryStore) : result MemoryStore :=
  _ ← bind_int (d_page_count doc);
  Ok {| tb_documents := <[d_doc_id doc := doc]> (tb_documents st); tb_pages := tb_pages st;
        tb_chunks := tb_chunks st; tb_extractions := tb_extractions st; tb_corrections := tb_corrections st;
        tb_entities := tb_entities st; tb_model_versions := tb_model_versions st;
        tb_users := tb_users st; tb_actions := tb_actions st |}.

Definition get_document (doc_id : string) (st : MemoryStore) : option Document := tb_documents st !! doc_id.

Definition upsert_page (page : Page) (st : MemoryStore) : result MemoryStore :=
  _ ← bind_int (p_index page); _ ← bind_int (p_width_px page); _ ← bind_int (p_height_px page);
  Ok {| tb_documents := tb_documents st; tb_pages := <[(p_doc_id page, p_index page) := page]> (tb_pages st);
        tb_chunks := tb_chunks st; tb_extractions := tb_extractions st; tb_corrections := tb_corrections st;
        tb_entities := tb_entities st; tb_model_versions := tb_model_versions st;
        tb_users := tb_users st; tb_actions := tb_actions st |}.

Definition index_le (p q : Page) : Prop := p_index p ≤ p_index q.
#[global] Instance index_le_dec : RelDecision index_le.
Proof. intros p q. unfold index_le. apply _. Defined.

(** [SELECT ... WHERE doc_id = ? ORDER BY index_val ASC] *)
Definition get_pages (doc_id : string) (st : MemoryStore) : list Page :=
  merge_sort index_le (filter (λ p, p_doc_id p = doc_id) (map_to_list (tb_pages st)).*2).

Definition upsert_chunk (chunk : Chunk) (st : MemoryStore) : result MemoryStore :=
  match c_bbox chunk with
  | None => raise "ValueError" ("Chunk " +:+ c_chunk_id chunk +:+ " has no bbox")
  | Some b =>
      _ ← bind_int (c_page chunk);
      bx0 ← bind_real (x0 b); by0 ← bind_real (y0 b); bx1 ← bind_real (x1 b); by1 ← bind_real (y1 b);
      Ok {| tb_documents := tb_documents st; tb_pages := tb_pages st;
            tb_chunks := <[c_chunk_id chunk :=
              {| cr_doc_id := c_doc_id chunk; cr_page := c_page chunk; cr_x0 := bx0; cr_y0 := by0;
                 cr_x1 := bx1; cr_y1 := by1; cr_text := c_text chunk;
                 cr_source_type := c_source_type chunk; cr_embedding := c_embedding chunk |}]> (tb_chunks st);
            tb_extractions := tb_extractions st; tb_corrections := tb_corrections st;
            tb_entities := tb_entities st; tb_model_versions := tb_model_versions st;
            tb_users := tb_users st; tb_actions := tb_actions st |}
  end.

(** [_row_to_chunk]: the constructors check the box and the page again. *)
Definition row_to_chunk (chunk_id : string) (row : ChunkRow) : result Chunk :=
  b ← mk_BBox (cr_x0 row) (cr_y0 row) (cr_x1 row) (cr_y1 row);
  mk_Chunk chunk_id (cr_doc_id row) (cr_page row) (Some b) (cr_text row) (cr_source_type row) (cr_embedding row).

Definition get_chunk (chunk_id : string) (st : MemoryStore) : result (option Chunk) :=
  match tb_chunks st !! chunk_id with
  | None => Ok None
  | Some row => c ← row_to_chunk chunk_id row; Ok (Some c)
  end.

(** ** Extractions *)

Definition record_extraction (e : Extraction) (st : MemoryStore) : result MemoryStore :=
  Ok {| tb_documents := tb_documents st; tb_pages := tb_pages st; tb_chunks := tb_chunks st;
        tb_extractions := <[e_ext_id e :=
          {| er_pack_id := e_pack_id e; er_field_name := e_field_name e; er_value := e_value e;
             er_confidence := bind_real_default (e_confidence e); er_model_version := e_model_version e;
             er_status := status_value (e_status e); er_chunk_id := e_chunk_id e |}]> (tb_extractions st);
        tb_corrections := tb_corrections st; tb_entities := tb_entities st;
        tb_model_versions := tb_model_versions st; tb_users := tb_users st; tb_actions := tb_actions st |}.

(** The columns do not hold the source span, the grounding method and the
    anchors: they come back as the constructor's defaults. *)
Definition get_extraction (ext_id : string) (st : MemoryStore) : result (option Extraction) :=
  match tb_extractions st !! ext_id with
  | None => Ok None
  | Some row =>
      status ← ExtractionStatus_of (er_status row);
      Ok (Some {| e_ext_id := ext_id; e_pack_id := er_pack_id row; e_field_name := er_field_name row;
                  e_value := er_value row; e_source_span := ""; e_confidence := er_confidence row;
                  e_model_version := er_model_version row; e_status := status;
                  e_chunk_id := er_chunk_id row; e_method := BLOCK; e_anchors := [] |})
  end.

(** ** Corrections *)

Definition record_correction (c : Correction) (st : MemoryStore) : result MemoryStore :=
  Ok {| tb_documents := tb_documents st; tb_pages := tb_pages st; tb_chunks := tb_chunks st;
        tb_extractions := tb_extractions st; tb_corrections := <[co_corr_id c := c]> (tb_corrections st);
        tb_entities := tb_entities st; tb_model_versions := tb_model_versions st;
        tb_users := tb_users st; tb_actions := tb_actions st |}.

(** The join of corrections with the extractions of the field. *)
Definition corrections_of_field (field_name : string) (st : MemoryStore) : list Correction :=
  filter (λ c, er_field_name <$> tb_extractions st !! co_ext_id c = Some field_name)
    (map_to_list (tb_corrections st)).*2.

(** [ORDER BY c.at_time DESC]: SQLite promises an ordering of the rows, and
    leaves the order of equal times open. *)
Class SqlOrder := {
  order_by_time_desc : list Correction → list Correction;
  order_perm l : order_by_time_desc l ≡ₚ l;
  order_sorted l : StronglySorted (λ c d, String.le (co_at d) (co_at c)) (order_by_time_desc l) }.

(** The similarity of a stored correction to the value. *)
Definition similarity (value : string) (c : Correction) : f64 :=
  let value_lower := lower value in
  let original := lower (co_original c) in
  if contains value_lower original then lit 8 10
  else if contains original value_lower then lit 6 10
  else
    let value_words : gset string := list_to_set (split value_lower) in
    let orig_words : gset string := list_to_set (split original) in
    let overlap := value_words ∩ orig_words in
    if bool_decide (overlap = ∅) then f0
    else (of_Z (Z.of_nat (size overlap)) / of_Z (Z.max (Z.of_nat (size value_words)) 1) * lit 4 10)%f64.

(** [scored.sort(key=lambda x: x[0], reverse=True)]: stable, highest first. *)
Fixpoint insert_desc (p : f64 * Correction) (l : list (f64 * Correction)) : list (f64 * Correction) :=
  match l with
  | [] => [p]
  | q :: l' => if flt (fst p) (fst q) then q :: insert_desc p l' else p :: l
  end.
Definition sort_desc (l : list (f64 * Correction)) : list (f64 * Correction) := foldr insert_desc [] l.

Section Search.
Context `{SO : SqlOrder}.

(** For [k >= 0]. *)
Definition search_similar (st : MemoryStore) (field_name value : string) (k : nat) : list Correction :=
  let corrections := take k (order_by_time_desc (corrections_of_field field_name st)) in
  let scored := map (λ c, (similarity value c, c)) corrections in
  take k (map snd (sort_desc scored)).
End Search.

(** ** Entities, model versions, users *)

Definition upsert_entity (e : Entity) (st : MemoryStore) : result MemoryStore :=
  Ok {| tb_documents := tb_documents st; tb_pages := tb_pages st; tb_chunks := tb_chunks st;
        tb_extractions := tb_extractions st; tb_corrections := tb_corrections st;
        tb_entities := <[en_entity_id e := e]> (tb_entities st);
        tb_model_versions := tb_model_versions st; tb_users := tb_users st; tb_actions := tb_actions st |}.
Definition get_entity (entity_id : string) (st : MemoryStore) : option Entity := tb_entities st !! entity_id.

Definition upsert_model_version (mv : ModelVersion) (st : MemoryStore) : result MemoryStore :=
  _ ← bind_int (mv_tier mv);
  Ok {| tb_documents := tb_documents st; tb_pages := tb_pages st; tb_chunks := tb_chunks st;
        tb_extractions := tb_extractions st; tb_corrections := tb_corrections st; tb_entities := tb_entities st;
        tb_model_versions := <[mv_model_id mv := mv]> (tb_model_versions st);
        tb_users := tb_users st; tb_actions := tb_actions st |}.
Definition get_model_version (model_id : string) (st : MemoryStore) : option ModelVersion :=
  tb_model_versions st !! model_id.

Definition upsert_user (u : User) (st : MemoryStore) : result MemoryStore :=
  Ok {| tb_documents := tb_documents st; tb_pages := tb_pages st; tb_chunks := tb_chunks st;
        tb_extractions := tb_extractions st; tb_corrections := tb_corrections st; tb_entities := tb_entities st;
        tb_model_versions := tb_model_versions st; tb_users := {[u_user_id u]} ∪ tb_users st;
        tb_actions := tb_actions st |}.
Definition get_user (user_id : string) (st : MemoryStore) : option User :=
  if bool_decide (user_id ∈ tb_users st) then Some {| u_user_id := user_id |} else None.

(** ** Actions *)

Definition upsert_action (a : Action) (st : MemoryStore) : result MemoryStore :=
  Ok {| tb_documents := tb_documents st; tb_pages := tb_pages st; tb_chunks := tb_chunks st;
        tb_extractions := tb_extractions st; tb_corrections := tb_corrections st; tb_entities := tb_entities st;
        tb_model_versions := tb_model_versions st; tb_users := tb_users st;
        tb_actions := <[ac_action_id a :=
          {| ar_ext_id := ac_ext_id a; ar_kind := kind_value (ac_kind a); ar_target_app := ac_target_app a;
             ar_payload := ac_payload a; ar_confidence := bind_real_default (ac_confidence a);
             ar_row_status := action_status_value (ac_status a) |}]> (tb_actions st) |}.

Definition get_action (action_id : string) (st : MemoryStore) : result (option Action) :=
  match tb_actions st !! action_id with
  | None => Ok None
  | Some row =>
      kind ← ActionKind_of (ar_kind row);
      status ← ActionStatus_of (ar_row_status row);
      Ok (Some {| ac_action_id := action_id; ac_ext_id := ar_ext_id row; ac_kind := kind;
                  ac_target_app := ar_target_app row; ac_payload := ar_payload row;
                  ac_confidence := ar_confidence row; ac_status := status |})
  end.

(** [stats] *)
Definition stats (st : MemoryStore) : list (string * Z) :=
  [("documents", Z.of_nat (size (tb_documents st))); ("chunks", Z.of_nat (size (tb_chunks st)));
   ("extractions", Z.of_nat (size (tb_extractions st))); ("corrections", Z.of_nat (size (tb_corrections st)));
   ("entities", Z.of_nat (size (tb_entities st))); ("model_versions", Z.of_nat (size (tb_model_versions st)));
   ("users", Z.of_nat (size (tb_users st))); ("actions", Z.of_nat (size (tb_actions st)))].

(** ** Histories of the store *)

Inductive store_call :=
| UpsertDocument (d : Document) | UpsertPage (p : Page) | UpsertChunk (c : Chunk)
| RecordExtraction (e : Extraction) | RecordCorrection (c : Correction) | UpsertEntity (e : Entity)
| UpsertModelVersion (m : ModelVersion) | UpsertUser (u : User) | UpsertAction (a : Action).

Definition call_result (c : store_call) (st : MemoryStore) : result MemoryStore :=
  match c with
  | UpsertDocument d => upsert_document d st | UpsertPage p => upsert_page p st
  | UpsertChunk c => upsert_chunk c st | RecordExtraction e => record_extraction e st
  | RecordCorrection c => record_correction c st | UpsertEntity e => upsert_entity e st
  | UpsertModelVersion m => upsert_model_version m st | UpsertUser u => upsert_user u st
  | UpsertAction a => upsert_action a st
  end.

(** A call that raises leaves the tables unchanged. *)
Definition run_store_call (st : MemoryStore) (c : store_call) : MemoryStore :=
  match call_result c st with Ok st' => st' | Raise _ => st end.

Definition run_store (l : list store_call) : MemoryStore := fold_left run_store_call l empty_store.

(** The last value a history writes under a key. *)
Definition last_write {A} (f : store_call → option A) (l : list store_call) : option A := last (omap f l).

Lemma last_write_snoc {A} (f : store_call → option A) l c :
  last_write f (l ++ [c]) = match f c with Some a => Some a | None => last_write f l end.
Proof.
  unfold last_write. rewrite omap_app. simpl. destruct (f c); simpl.
  - by rewrite last_snoc.
  - by rewrite app_nil_r.
Qed.

Definition box_storable (b : BBox) : bool :=
  negb (is_nan (x0 b)) && negb (is_nan (y0 b)) && negb (is_nan (x1 b)) && negb (is_nan (y1 b)).

(** The chunks the store accepts. *)
Definition storable (c : Chunk) : bool :=
  fits_int64 (c_page c) && match c_bbox c with Some b => box_storable b | None => false end.

Definition chunk_write (id : string) (c : store_call) : option Chunk :=
  match c with
  | UpsertChunk ch => if bool_decide (c_chunk_id ch = id) && storable ch then Some ch else None
  | _ => None
  end.

(** What the extraction columns keep. *)
Definition stored_extraction (e : Extraction) : Extraction :=
  {| e_ext_id := e_ext_id e; e_pack_id := e_pack_id e; e_field_name := e_field_name e; e_value := e_value e;
     e_source_span := ""; e_confidence := bind_real_default (e_confidence e);
     e_model_version := e_model_version e; e_status := e_status e; e_chunk_id := e_chunk_id e;
     e_method := BLOCK; e_anchors := [] |}.

Definition extraction_write (id : string) (c : store_call) : option Extraction :=
  match c with
  | RecordExtraction e => if bool_decide (e_ext_id e = id) then Some e else None
  | _ => None
  end.

Definition stored_action (a : Action) : Action :=
  {| ac_action_id := ac_action_id a; ac_ext_id := ac_ext_id a; ac_kind := ac_kind a;
     ac_target_app := ac_target_app a; ac_payload := ac_payload a;
     ac_confidence := bind_real_default (ac_confidence a); ac_status := ac_status a |}.

Definition action_write (id : string) (c : store_call) : option Action :=
  match c with
  | UpsertAction a => if bool_decide (ac_action_id a = id) then Some a else None
  | _ => None
  end.

(** A chunk as its constructors leave it. *)
Definition constructed (c : Chunk) : Prop :=
  0 ≤ c_page c ∧ ∀ b, c_bbox c = Some b → flt (x1 b) (x0 b) = false ∧ flt (y1 b) (y0 b) = false.

Lemma get_chunk_upsert c st st' :
  upsert_chunk c st = Ok st' → constructed c → get_chunk (c_chunk_id c) st' = Ok (Some c).
Proof.
  intros H [Hp Hb]. destruct c as [id did page bb text src emb]. unfold upsert_chunk in H. simpl in *.
  destruct bb as [[a b c d]|]; [|done]. destruct (Hb _ eq_refl) as [B1 B2]. simpl in *.
  unfold bind_int, bind_real in H. repeat case_match; try done. injection H as <-.
  unfold get_chunk. simpl. rewrite lookup_insert_eq. unfold row_to_chunk, mk_BBox. simpl. rewrite B1, B2.
  simpl. unfold mk_Chunk. by rewrite (proj2 (Z.ltb_ge _ _) Hp).
Qed.

Lemma upsert_chunk_accepts c st : is_ok (upsert_chunk c st) = storable c.
Proof.
  unfold upsert_chunk, storable, box_storable, bind_int, bind_real. destruct (c_bbox c) as [b|];
    [|by rewrite andb_false_r].
  destruct (fits_int64 _); [|done]. destruct (is_nan (x0 b)); [done|].
  destruct (is_nan (y0 b)); [done|]. destruct (is_nan (x1 b)); [done|]. by destruct (is_nan (y1 b)).
Qed.

(** A successful call on another table. *)
Ltac other_table :=
  cbv [upsert_document upsert_page upsert_chunk upsert_model_version bind_int bind_real mbind result_bind raise];
  repeat (case_match; simplify_eq; try done); done.

(** A call on another table, or on another key, keeps the row. *)
Lemma chunk_row_frame id c st :
  chunk_write id c = None → tb_chunks (run_store_call st c) !! id = tb_chunks st !! id.
Proof.
  intros H. unfold run_store_call.
  destruct c as [d|p|ch|x|co|en|m|u|a]; cbn [call_result chunk_write extraction_write action_write] in *; try done;
    try other_table.
  pose proof (upsert_chunk_accepts ch st) as Ha.
  destruct (upsert_chunk ch st) as [st'|] eqn:E; [|done]. simpl in Ha. rewrite <-Ha, andb_true_r in H.
  unfold upsert_chunk in E. destruct (c_bbox ch) as [b|]; [|done].
  repeat (apply bind_Ok in E as (? & _ & E)). injection E as <-. simpl.
  apply lookup_insert_ne. intros Hid. by rewrite bool_decide_true in H by exact Hid.
Qed.

Lemma extraction_row_frame id c st :
  extraction_write id c = None → tb_extractions (run_store_call st c) !! id = tb_extractions st !! id.
Proof.
  intros H. unfold run_store_call.
  destruct c as [d|p|ch|x|co|en|m|u|a]; cbn [call_result chunk_write extraction_write action_write] in *; try done;
    try other_table.
  apply lookup_insert_ne. intros Hid. by rewrite bool_decide_true in H by exact Hid.
Qed.

Lemma action_row_frame id c st :
  action_write id c = None → tb_actions (run_store_call st c) !! id = tb_actions st !! id.
Proof.
  intros H. unfold run_store_call.
  destruct c as [d|p|ch|x|co|en|m|u|a]; cbn [call_result chunk_write extraction_write action_write] in *; try done;
    try other_table.
  apply lookup_insert_ne. intros Hid. by rewrite bool_decide_true in H by exact Hid.
Qed.

Lemma get_extraction_record e st st' :
  record_extraction e st = Ok st' → get_extraction (e_ext_id e) st' = Ok (Some (stored_extraction e)).
Proof.
  intros [= <-]. unfold get_extraction. simpl. rewrite lookup_insert_eq. simpl. by rewrite status_roundtrip.
Qed.

Lemma get_action_upsert a st st' :
  upsert_action a st = Ok st' → get_action (ac_action_id a) st' = Ok (Some (stored_action a)).
Proof.
  intros [= <-]. unfold get_action. simpl. rewrite lookup_insert_eq. simpl.
  by rewrite kind_roundtrip; simpl; rewrite action_status_roundtrip.
Qed.

Lemma run_store_snoc l c : run_store (l ++ [c]) = run_store_call (run_store l) c.
Proof. unfold run_store. by rewrite fold_left_app. Qed.

(** The store is last-writer-wins: after any history of calls, a lookup
    returns the last value accepted under the identifier - chunks unchanged
    (those without a box, with a NaN coordinate or an oversized page were
    refused), actions unchanged but for a NaN confidence, extractions without
    their source span, grounding method and anchors - and nothing else. *)
Theorem store_last_writer_wins l id :
  Forall (λ c, match c with UpsertChunk ch => constructed ch | _ => True end) l →
  get_chunk id (run_store l) = Ok (last_write (chunk_write id) l) ∧
  get_extraction id (run_store l) = Ok (stored_extraction <$> last_write (extraction_write id) l) ∧
  get_action id (run_store l) = Ok (stored_action <$> last_write (action_write id) l).
Proof.
  induction l as [|c l IH] using rev_ind; [done|]. intros HF. apply Forall_app in HF as [HF Hc].
  rewrite Forall_singleton in Hc. destruct (IH HF) as (I1 & I2 & I3).
  rewrite !last_write_snoc, run_store_snoc. split_and!.
  - destruct (chunk_write id c) as [ch|] eqn:E.
    + destruct c as [| |x| | | | | |]; try done. simpl in E. case_match eqn:Ea; [|done]. injection E as E. subst ch.
      apply andb_true_iff in Ea as [Hid Hs]. apply bool_decide_eq_true in Hid as <-.
      unfold run_store_call. cbn [call_result]. pose proof (upsert_chunk_accepts x (run_store l)) as Ha.
      rewrite Hs in Ha. destruct (upsert_chunk x (run_store l)) eqn:Eu; [|discriminate Ha]. exact (get_chunk_upsert x (run_store l) _ Eu Hc).
    + unfold get_chunk. rewrite chunk_row_frame by done. exact I1.
  - destruct (extraction_write id c) as [e|] eqn:E.
    + destruct c as [| | |x| | | | |]; try done. simpl in E. case_bool_decide as Hid; [|done].
      injection E as E. subst e id. exact (get_extraction_record x (run_store l) _ eq_refl).
    + unfold get_extraction. rewrite extraction_row_frame by done. exact I2.
  - destruct (action_write id c) as [a|] eqn:E.
    + destruct c as [| | | | | | | |x]; try done. simpl in E. case_bool_decide as Hid; [|done].
      injection E as E. subst a id. exact (get_action_upsert x (run_store l) _ eq_refl).
    + unfold get_action. rewrite action_row_frame by done. exact I3.
Qed.

(** ** Search *)

Lemma insert_desc_perm p l : insert_desc p l ≡ₚ p :: l.
Proof. induction l as [|q l IH]; simpl; [done|]. case_match; [|done]. rewrite IH. constructor. Qed.

Lemma sort_desc_perm l : sort_desc l ≡ₚ l.
Proof. induction l; simpl; [done|]. rewrite insert_desc_perm. by f_equiv. Qed.

Definition scores_desc (p q : f64 * Correction) : Prop := flt (fst p) (fst q) = false.

Lemma insert_desc_sorted p l :
  Forall (λ q, is_nan (fst q) = false) (p :: l) → StronglySorted scores_desc l →
  StronglySorted scores_desc (insert_desc p l).
Proof.
  intros HN. induction 1 as [|q l Hs IH Hq]; simpl; [by repeat constructor|].
  apply Forall_cons in HN as [Hp HN]. apply Forall_cons in HN as [Nq HN].
  destruct (flt (fst p) (fst q)) eqn:E.
  - constructor; [apply IH; by constructor|]. rewrite insert_desc_perm. constructor; [|done].
    unfold scores_desc. destruct (flt (fst q) (fst p)) eqn:E'; [|done].
    pose proof (flt_trans _ _ _ E E') as C. by rewrite flt_irrefl in C.
  - constructor; [by constructor|]. constructor; [done|].
    rewrite Forall_forall in Hq, HN |- *. intros r Hr. unfold scores_desc in *.
    destruct (flt (fst p) (fst r)) eqn:E'; [|done].
    assert (fle (fst q) (fst p) = true) as Hle by (by apply flt_nge).
    rewrite <-(Hq r Hr). symmetry. by eapply fle_lt_trans.
Qed.

Lemma sort_desc_sorted l :
  Forall (λ q, is_nan (fst q) = false) l → StronglySorted scores_desc (sort_desc l).
Proof.
  induction l as [|p l IH]; simpl; [constructor|]. intros HN. pose proof HN as HN'.
  apply Forall_cons in HN as [Hp HN]. apply insert_desc_sorted; [|by apply IH].
  constructor; [done|]. by rewrite sort_desc_perm.
Qed.

Section SearchProperties.
Context `{SO : SqlOrder}.

Lemma search_similar_perm st field_name value k :
  search_similar st field_name value k ≡ₚ take k (order_by_time_desc (corrections_of_field field_name st)).
Proof.
  unfold search_similar. set (recent := take k (order_by_time_desc _)).
  set (scored := map (λ c, (similarity value c, c)) recent).
  assert (map snd (sort_desc scored) ≡ₚ recent) as Hp.
  { rewrite sort_desc_perm. unfold scored. by rewrite map_map, map_id. }
  rewrite take_ge; [done|]. rewrite Hp. unfold recent. rewrite length_take. lia.
Qed.

Lemma search_similar_length st field_name value k :
  (length (search_similar st field_name value k) ≤ k)%nat.
Proof. rewrite search_similar_perm, length_take. lia. Qed.

(** The store implements the interface the quality gate is proved against. *)
#[global] Instance memory_lookup : CorrectionLookup MemoryStore := {
  search_similar_corrections := search_similar; search_at_most := search_similar_length }.

Lemma elem_of_corrections_of_field field_name st c :
  c ∈ corrections_of_field field_name st ↔
  (∃ id, tb_corrections st !! id = Some c) ∧
  er_field_name <$> tb_extractions st !! co_ext_id c = Some field_name.
Proof.
  unfold corrections_of_field. rewrite list_elem_of_filter, list_elem_of_fmap. split.
  - intros [Hf ([id x] & -> & Hx)]. apply elem_of_map_to_list in Hx. eauto.
  - intros [[id Hid] Hf]. split; [done|]. exists (id, c). by rewrite elem_of_map_to_list.
Qed.

(** What [search_similar_corrections] returns: the [k] most recent
    corrections recorded on extractions of the field, re-ordered by
    decreasing similarity to the value.  An older correction is not
    considered however similar it is. *)
Theorem search_returns_most_recent st field_name value k :
  let r := search_similar st field_name value k in
  r ≡ₚ take k (order_by_time_desc (corrections_of_field field_name st)) ∧
  (∀ c, c ∈ r → er_field_name <$> tb_extractions st !! co_ext_id c = Some field_name) ∧
  (∀ c d, c ∈ r → d ∈ corrections_of_field field_name st → d ∉ r → String.le (co_at d) (co_at c)) ∧
  (Forall (λ c, is_nan (similarity value c) = false) (corrections_of_field field_name st) →
   StronglySorted (λ c d, flt (similarity value c) (similarity value d) = false) r).
Proof.
  intros r. assert (r ≡ₚ take k (order_by_time_desc (corrections_of_field field_name st))) as Hp
    by apply search_similar_perm.
  pose proof (order_perm (corrections_of_field field_name st)) as Ho.
  split_and!; [done| | |].
  - intros c Hc. rewrite Hp in Hc. apply elem_of_take in Hc as (i & Hi & _).
    apply list_elem_of_lookup_2 in Hi. rewrite Ho in Hi. by apply elem_of_corrections_of_field in Hi as [_ ?].
  - intros c d Hc Hd Hn. rewrite Hp in Hc, Hn. rewrite <-Ho in Hd.
    pose proof (order_sorted (corrections_of_field field_name st)) as Hs.
    rewrite <-(take_drop k (order_by_time_desc _)) in Hs, Hd.
    apply elem_of_app in Hd as [Hd|Hd]; [done|].
    by eapply (StronglySorted_app_1_elem_of _ _ _ c d Hs).
  - intros HN. unfold r, search_similar. set (scored := map (λ c, (similarity value c, c)) _).
    assert (∀ p, p ∈ scored → fst p = similarity value (snd p)) as Hfst.
    { intros p Hp'. unfold scored in Hp'. apply list_elem_of_fmap in Hp' as (c & -> & _). done. }
    assert (StronglySorted scores_desc (sort_desc scored)) as HS.
    { apply sort_desc_sorted. unfold scored. apply Forall_fmap. apply Forall_take. simpl.
      by rewrite Ho. }
    apply (StronglySorted_app_1_l _ _ (drop k (map snd (sort_desc scored)))).
    rewrite take_drop.
    assert (∀ p, p ∈ sort_desc scored → fst p = similarity value (snd p)) as Hfst'
      by (intros p; rewrite sort_desc_perm; apply Hfst).
    clear -HS Hfst'. rename Hfst' into Hfst.
    induction HS as [|p l HS IH Hp]; simpl; constructor.
    + apply IH. intros q Hq. apply Hfst. by right.
    + apply Forall_forall. intros c Hc. apply list_elem_of_fmap in Hc as (q & -> & Hq).
      pose proof (proj1 (Forall_forall _ _) Hp q Hq) as Hs. unfold scores_desc in Hs.
      rewrite (Hfst p), (Hfst q) in Hs; [done|by right|by left].
Qed.
End SearchProperties.

(** ** The correction flywheel *)

Section Flywheel.
Context `{SO : SqlOrder}.

(** The flywheel: with at most five corrections on record for the field,
    every recorded correction that contradicts the extracted value counts,
    and the gate's confidence before clamping is the (penalised) claim minus
    0.15 for each of them. *)
Theorem flywheel_counts_every_correction g st e :
  (length (corrections_of_field (e_field_name e) st) ≤ 5)%nat →
  let n := length (List.filter (contradicts e) (corrections_of_field (e_field_name e) st)) in
  let c := if ungrounded e then fmin (e_confidence e) (block_threshold g - lit 1 100)%f64 else e_confidence e in
  raw_confidence g st e =
    if bool_decide (n = 0%nat) then c else (c - of_Z (Z.of_nat n) * penalty_per_correction)%f64.
Proof.
  intros H5 n c. unfold raw_confidence. fold c. unfold calibrate_with_corrections. cbn [search_similar_corrections memory_lookup].
  pose proof (search_similar_perm st (e_field_name e) (e_value e) 5) as Hp.
  rewrite take_ge in Hp by (rewrite order_perm; lia). rewrite order_perm in Hp.
  assert (length (List.filter (contradicts e) (search_similar st (e_field_name e) (e_value e) 5)) = n) as Hn
    by (apply length_filter_Permutation; exact Hp).
  destruct (search_similar _ _ _ _) as [|x l] eqn:E.
  - simpl in Hn. rewrite <-Hn. done.
  - rewrite Hn. destruct n as [|n]; [done|]. rewrite bool_decide_false by done. done.
Qed.
End Flywheel.

Section Witnesses.
Definition time_desc (c d : Correction) : Prop := String.le (co_at d) (co_at c).
#[local] Instance time_desc_dec : RelDecision time_desc.
Proof. intros c d. unfold time_desc. apply _. Defined.
#[local] Instance time_desc_trans : Transitive time_desc.
Proof. intros a b c H1 H2. unfold time_desc in *. by etrans. Qed.
#[local] Instance time_desc_total : Total time_desc.
Proof. intros a b. unfold time_desc. apply (total String.le). Qed.

Definition sort_order : SqlOrder :=
  {| order_by_time_desc := merge_sort time_desc;
     order_perm := merge_sort_Permutation time_desc;
     order_sorted := StronglySorted_merge_sort time_desc |}.
#[local] Existing Instance sort_order.

Definition demo_extraction : Extraction :=
  {| e_ext_id := "e1"; e_pack_id := "invoice"; e_field_name := "total"; e_value := "1250.00";
     e_source_span := "1250.00"; e_confidence := lit 6 10; e_model_version := "m";
     e_status := SUGGESTED; e_chunk_id := "c1"; e_method := EXACT;
     e_anchors := [{| a_chunk_id := "c1"; a_char_span := (0, 7); a_page := 1; a_bbox := None |}] |}.
Definition demo_correction (id at_ : string) : Correction :=
  {| co_corr_id := id; co_ext_id := "e1"; co_original := "1250.00"; co_corrected := "1520.00";
     co_reason := ""; co_by := "u"; co_at := at_ |}.
Definition demo_store : MemoryStore :=
  run_store [RecordExtraction demo_extraction; RecordCorrection (demo_correction "k1" "2024-01-01");
             RecordCorrection (demo_correction "k2" "2024-01-02")].
Definition nan_extraction : Extraction :=
  {| e_ext_id := "e9"; e_pack_id := ""; e_field_name := "total"; e_value := "x"; e_source_span := "";
     e_confidence := S754_nan; e_model_version := ""; e_status := SUGGESTED; e_chunk_id := "";
     e_method := BLOCK; e_anchors := [] |}.
Definition overclaimed : Extraction :=
  {| e_ext_id := "e8"; e_pack_id := ""; e_field_name := "total"; e_value := "x"; e_source_span := "";
     e_confidence := lit 99 100; e_model_version := ""; e_status := SUGGESTED; e_chunk_id := "";
     e_method := BLOCK; e_anchors := [] |}.

Lemma store_last_writer_wins_witness :
  get_extraction "e1" demo_store = Ok (Some (stored_extraction demo_extraction)).
Proof.
  destruct (store_last_writer_wins
    [RecordExtraction demo_extraction; RecordCorrection (demo_correction "k1" "2024-01-01");
     RecordCorrection (demo_correction "k2" "2024-01-02")] "e1") as (_ & H & _); [by repeat constructor|].
  exact H.
Defined.

Lemma flywheel_counts_every_correction_witness :
  raw_confidence default_gate demo_store demo_extraction = (lit 6 10 - of_Z 2 * penalty_per_correction)%f64.
Proof.
  rewrite (flywheel_counts_every_correction default_gate demo_store demo_extraction);
    [vm_compute; reflexivity|apply Nat.leb_le; vm_compute; reflexivity].
Defined.

Lemma ungrounded_blocked_witness : gr_verdict (check default_gate demo_store overclaimed) = V_BLOCK.
Proof. apply ungrounded_blocked; vm_compute; reflexivity. Defined.

Lemma pass_justified_witness :
  fle (lit 5 10) (clamp01 (e_confidence demo_extraction)) = true.
Proof.
  apply (pass_justified default_gate empty_store demo_extraction); vm_compute; reflexivity.
Defined.

Lemma nan_confidence_passes_witness :
  ungrounded nan_extraction = true ∧ gr_verdict (check default_gate demo_store nan_extraction) = PASS.
Proof. split; [reflexivity|]. apply nan_confidence_passes. reflexivity. Defined.
End Witnesses.
