(* ===== verification/Provenance.v ===== *)
(** * ProvenanceLog

    [kernel/core/provenance.py]: the in-memory registry of graph nodes and the
    resolution of an entity identifier to its chain
    Action -> Extraction -> Chunk -> Document.  Every public method runs under
    the object's lock, so the state is threaded through whole method calls. *)

From S2P Require Import Prelude PyStr PyFloat PyDict Json DataModel.

Record ProvenanceLog := {
  documents : list (string * Document);
  chunks : list (string * Chunk);
  extractions : list (string * Extraction);
  actions : list (string * Action) }.

(** [__init__] *)
Definition empty_log : ProvenanceLog :=
  {| documents := []; chunks := []; extractions := []; actions := [] |}.

(** ** Registration *)

Definition register_document (doc : Document) (st : ProvenanceLog) : ProvenanceLog :=
  {| documents := dict_set (d_doc_id doc) doc (documents st); chunks := chunks st;
     extractions := extractions st; actions := actions st |}.

(** Raises on a chunk without a bbox, before the registry is touched. *)
Definition register_chunk (chunk : Chunk) (st : ProvenanceLog) : result ProvenanceLog :=
  match c_bbox chunk with
  | None => raise "ValueError" ("Chunk " +:+ c_chunk_id chunk +:+
              " has no bbox — every chunk MUST have source localization")
  | Some _ => Ok {| documents := documents st;
                    chunks := dict_set (c_chunk_id chunk) chunk (chunks st);
                    extractions := extractions st; actions := actions st |}
  end.

Definition register_extraction (ext : Extraction) (st : ProvenanceLog) : ProvenanceLog :=
  {| documents := documents st; chunks := chunks st;
     extractions := dict_set (e_ext_id ext) ext (extractions st); actions := actions st |}.

Definition register_action (a : Action) (st : ProvenanceLog) : ProvenanceLog :=
  {| documents := documents st; chunks := chunks st; extractions := extractions st;
     actions := dict_set (ac_action_id a) a (actions st) |}.

(** ** Snapshots *)

Definition chunks_for_doc (doc_id : string) (st : ProvenanceLog) : list Chunk :=
  filter (λ c, c_doc_id c = doc_id) (chunks st).*2.

Definition all_chunks (st : ProvenanceLog) : list Chunk := (chunks st).*2.

(** ** Chain resolution *)

Definition get_provenance (entity_id : string) (st : ProvenanceLog) : Chain :=
  let walk (action : option Action) (extraction : option Extraction) :=
    let chunk := ext ← extraction; assoc (e_chunk_id ext) (chunks st) in
    let document := c ← chunk; assoc (c_doc_id c) (documents st) in
    {| ch_action := action; ch_extraction := extraction; ch_chunk := chunk; ch_document := document |} in
  match assoc entity_id (actions st) with
  | Some action => walk (Some action) (assoc (ac_ext_id action) (extractions st))
  | None =>
      match assoc entity_id (extractions st) with
      | Some ext => walk None (Some ext)
      | None => empty_chain
      end
  end.

Definition verify_provenance_coverage (exts : list Extraction) (st : ProvenanceLog)
    : f64 * list string :=
  match exts with
  | [] => (of_Z 100, [])
  | _ =>
      let ungrounded :=
        (filter (λ e, is_complete (get_provenance (e_ext_id e) st) = false) exts) in
      let total := Z.of_nat (length exts) in
      let grounded := total - Z.of_nat (length ungrounded) in
      ((of_Z grounded / of_Z total * of_Z 100)%f64, e_ext_id <$> ungrounded)
  end.

(** [stats] *)
Definition stats (st : ProvenanceLog) : list (string * Z) :=
  [("documents", Z.of_nat (length (documents st))); ("chunks", Z.of_nat (length (chunks st)));
   ("extractions", Z.of_nat (length (extractions st))); ("actions", Z.of_nat (length (actions st)))].

(** ** The registry invariant: each node is filed under its own identifier,
    once, and every chunk has a bbox. *)

Record wf_log (st : ProvenanceLog) : Prop := {
  wf_documents : wf_dict (documents st) ∧ Forall (λ p, p.1 = d_doc_id p.2) (documents st);
  wf_chunks : wf_dict (chunks st) ∧
    Forall (λ p, p.1 = c_chunk_id p.2 ∧ is_Some (c_bbox p.2)) (chunks st);
  wf_extractions : wf_dict (extractions st) ∧ Forall (λ p, p.1 = e_ext_id p.2) (extractions st);
  wf_actions : wf_dict (actions st) ∧ Forall (λ p, p.1 = ac_action_id p.2) (actions st) }.

(** The mutating calls, and the registry they lead to; a call that raises
    leaves the registry unchanged. *)
Inductive log_call :=
| RegDocument (d : Document) | RegChunk (c : Chunk)
| RegExtraction (e : Extraction) | RegAction (a : Action).

Definition run_call (st : ProvenanceLog) (c : log_call) : ProvenanceLog :=
  match c with
  | RegDocument d => register_document d st
  | RegChunk c => match register_chunk c st with Ok st' => st' | Raise _ => st end
  | RegExtraction e => register_extraction e st
  | RegAction a => register_action a st
  end.

Definition run_calls (l : list log_call) : ProvenanceLog := fold_left run_call l empty_log.

Lemma wf_empty_log : wf_log empty_log.
Proof. split; split; auto with axg. Qed.

Lemma wf_run_call st c : wf_log st → wf_log (run_call st c).
Proof.
  intros [[D1 D2] [C1 C2] [E1 E2] [A1 A2]]. destruct c as [d|c|e|a]; simpl.
  - split; simpl; auto using wf_dict_set, Forall_dict_set.
  - unfold register_chunk. destruct (c_bbox c) eqn:Hb; [|by split].
    split; simpl; auto using wf_dict_set. split; [auto with axg|].
    apply Forall_dict_set; [done|]. simpl. rewrite Hb. eauto.
  - split; simpl; auto using wf_dict_set, Forall_dict_set.
  - split; simpl; auto using wf_dict_set, Forall_dict_set.
Qed.

Lemma wf_run_calls l : wf_log (run_calls l).
Proof.
  unfold run_calls. generalize wf_empty_log. generalize empty_log.
  induction l as [|c l IH]; intros st Hst; simpl; [done|]. by apply IH, wf_run_call.
Qed.

Lemma wf_chunk_lookup st cid c :
  wf_log st → assoc cid (chunks st) = Some c → c_chunk_id c = cid ∧ is_Some (c_bbox c).
Proof.
  intros [_ [_ HF] _ _] Hc. apply assoc_Some_elem in Hc.
  rewrite Forall_forall in HF. apply HF in Hc as [? ?]. by simpl in *.
Qed.

Lemma wf_document_lookup st did d :
  wf_log st → assoc did (documents st) = Some d → d_doc_id d = did.
Proof.
  intros [[_ HF] _ _ _] Hd. apply assoc_Some_elem in Hd.
  rewrite Forall_forall in HF. by apply HF in Hd.
Qed.

(** The extraction an entity stands for: that of the action of this id, or
    else the extraction of this id. *)
Definition entity_extraction (id : string) (st : ProvenanceLog) : option Extraction :=
  match assoc id (actions st) with
  | Some a => assoc (ac_ext_id a) (extractions st)
  | None => assoc id (extractions st)
  end.

(** In every registry the calls can build, the chain of an entity is
    complete exactly when its extraction, the chunk that extraction names and
    the document that chunk names are all registered: the linking and bbox
    conditions of [Chain.is_complete] never fail on a registered node. *)
Theorem get_provenance_complete l id :
  is_complete (get_provenance id (run_calls l)) = true ↔
  ∃ ext chunk doc, entity_extraction id (run_calls l) = Some ext ∧
    assoc (e_chunk_id ext) (chunks (run_calls l)) = Some chunk ∧
    assoc (c_doc_id chunk) (documents (run_calls l)) = Some doc.
Proof.
  pose proof (wf_run_calls l) as W. generalize dependent (run_calls l). intros st W.
  rewrite is_complete_spec. unfold get_provenance, entity_extraction. split.
  - intros (doc & chunk & ext & b & Hd & Hc & He & _).
    destruct (assoc id (actions st)) as [a|]; [|destruct (assoc id (extractions st)) as [e|]];
      simpl in *; try done; try (injection He as ->); try (rewrite He in Hc, Hd);
      simpl in *; rewrite Hc in Hd; eauto 7.
  - intros (ext & chunk & doc & He & Hc & Hd).
    destruct (wf_chunk_lookup _ _ _ W Hc) as [Hid [b Hb]].
    pose proof (wf_document_lookup _ _ _ W Hd) as Hdid.
    exists doc, chunk, ext, b.
    destruct (assoc id (actions st)); rewrite He; simpl; rewrite Hc; simpl; by rewrite Hd.
Qed.

(** Coverage reports exactly the extractions whose chain does not
    resolve, in their order. *)
Theorem coverage_reports_ungrounded exts st id :
  id ∈ (verify_provenance_coverage exts st).2 ↔
  ∃ e, e ∈ exts ∧ e_ext_id e = id ∧ is_complete (get_provenance id st) = false.
Proof.
  assert ((verify_provenance_coverage exts st).2 =
    e_ext_id <$> filter (λ e, is_complete (get_provenance (e_ext_id e) st) = false) exts) as ->
    by (by destruct exts).
  rewrite list_elem_of_fmap. setoid_rewrite list_elem_of_filter. naive_solver.
Qed.
