(* ===== verification/ActionExecutor.v ===== *)
(** * The action executor ([kernel/sidecar/action_executor.py])

    READ+SUGGEST only: [suggest] describes an action with its provenance,
    [apply] verifies one that a human has confirmed.  The provenance registry
    is passed as the state of [ProvenanceLog]. *)

From S2P Require Import Prelude PyStr PyFloat PyDict Json DataModel Provenance.

Definition DEFAULT_ALLOWLIST : gset string :=
  {["notepad"; "browser"; "office"; "acrobat"; "filesystem"]}.

(** [expected_value != payload_value] with a [str] on the left. *)
Definition differs (expected : string) (payload : json) : bool :=
  match payload with JStr s => negb (bool_decide (expected = s)) | _ => true end.

Definition suggest (allowlist : gset string) (log : ProvenanceLog) (action : Action) : Suggestion :=
  let display_text :=
    if bool_decide (lower (ac_target_app action) ∈ allowlist)
    then ("Suggest {kind} on {app}: {payload}",
          [JStr (kind_value (ac_kind action)); JStr (ac_target_app action); JObj (ac_payload action)])
    else ("[UNSUPPORTED APP: {app}] Suggest {kind} payload",
          [JStr (ac_target_app action); JStr (kind_value (ac_kind action))]) in
  {| su_action := action; su_provenance := get_provenance (ac_ext_id action) log;
     su_confidence := ac_confidence action; su_display_text := display_text |}.

Definition failure (msg : message) : ApplyResult :=
  {| ar_success := false; ar_post_state := None; ar_error := Some msg |}.

Definition apply (allowlist : gset string) (log : ProvenanceLog) (now : string)
    (action : Action) (human_confirm : bool) : ApplyResult :=
  if negb human_confirm then failure ("CUA violation", [])
  else
    let app_name := lower (ac_target_app action) in
    if negb (bool_decide (app_name ∈ allowlist)) then failure ("CUA Refused", [JStr (ac_target_app action)])
    else
      let chain := get_provenance (ac_ext_id action) log in
      if negb (is_complete chain) then failure ("Verification failed: incomplete provenance chain.", [])
      else
        let expected_value := match ch_extraction chain with Some e => e_value e | None => "" end in
        let payload_value := default (JStr "") (assoc "value" (ac_payload action)) in
        if truthy expected_value && truthy_json payload_value && differs expected_value payload_value
        then failure ("Verification failed: value mismatch", [JStr expected_value; payload_value])
        else
          {| ar_success := true;
             ar_post_state := Some (JObj [("status", JStr "verified"); ("app", JStr app_name);
                                          ("verified_at", JStr now)]);
             ar_error := None |}.

(** The payload agrees with the extracted value, or one of the two is empty. *)
Definition payload_agrees (action : Action) (e : Extraction) : Prop :=
  e_value e = "" ∨
  ∃ v, default (JStr "") (assoc "value" (ac_payload action)) = v ∧
    (truthy_json v = false ∨ v = JStr (e_value e)).

(** Exactly when an action is applied: a human confirmed it, its
    application is on the allowlist up to case, its extraction resolves to a
    complete provenance chain, and its payload carries the extracted value
    (or one of the two is empty, in which case nothing is compared).  In every
    other case [apply] reports an error and no post-state. *)
Theorem apply_succeeds_iff allowlist log now action human_confirm :
  let r := apply allowlist log now action human_confirm in
  (ar_success r = true ↔
     human_confirm = true ∧ lower (ac_target_app action) ∈ allowlist ∧
     is_complete (get_provenance (ac_ext_id action) log) = true ∧
     ∃ e, ch_extraction (get_provenance (ac_ext_id action) log) = Some e ∧ payload_agrees action e) ∧
  (ar_success r = false → ar_post_state r = None ∧ is_Some (ar_error r)) ∧
  (ar_success r = true → ar_error r = None ∧ is_Some (ar_post_state r)).
Proof.
  unfold apply. destruct human_confirm; cbn [negb]; [|naive_solver].
  case_bool_decide as Happ; cbn [negb]; [|naive_solver].
  set (chain := get_provenance _ _). destruct (is_complete chain) eqn:Hc; cbn [negb]; [|naive_solver].
  pose proof Hc as Hc'. apply is_complete_spec in Hc' as (doc & chunk & ext & b & _ & _ & He & _).
  rewrite He. unfold payload_agrees.
  set (v := default (JStr "") (assoc "value" (ac_payload action))).
  destruct (truthy (e_value ext) && truthy_json v && differs (e_value ext) v) eqn:E.
  - simpl. split; [|naive_solver]. split; [done|]. intros (_ & _ & _ & e & [= <-] & Hv).
    apply andb_true_iff in E as [E E3]. apply andb_true_iff in E as [E1 E2].
    apply truthy_spec in E1. destruct Hv as [?|(v' & <- & [Hv|Hv])]; [done|congruence|].
    rewrite Hv in E3. simpl in E3. by bool_prop.
  - simpl. split; [|naive_solver]. split; [|done]. intros _. do 3 (split; [done|]).
    exists ext. split; [done|].
    destruct (truthy (e_value ext)) eqn:E1.
    2: { left. unfold truthy in E1. by bool_prop. }
    right. exists v. split; [done|]. destruct (truthy_json v) eqn:E2; [right|by left].
    simpl in E. destruct v; try done. simpl in E. bool_prop. by f_equal.
Qed.
