(* ===== verification/HashChain.v ===== *)
(** * Hash chains, once for all the logs that are one

    The audit log, the flight recorder and the legal-v3 event list are lists
    of entries in which each entry carries the tag of its predecessor inside
    the bytes its own tag is computed from.  [ChainEntry] states what such an
    entry type promises; the theorems below need nothing else. *)

From S2P Require Import Prelude PyStr Sha256.

Class ChainEntry (E : Type) := {
  tag : E → string;               (** the stored signature or hash *)
  prev : E → string;              (** the stored tag of the predecessor *)
  genesis : string;               (** what the first entry stores there *)
  preimage : E → bytes;           (** the bytes the tag is computed from *)
  tag_of : bytes → string;
  witness_pair : bytes → bytes → bytes * bytes;
  wf_entry : E → bool;
  same_content : E → E → Prop;
  tag_of_collision x y : tag_of x = tag_of y → x = y ∨ collision (witness_pair x y);
  tag_of_genesis x : tag_of x ≠ genesis;
  preimage_content e1 e2 : wf_entry e1 = true → wf_entry e2 = true →
    preimage e1 = preimage e2 → same_content e1 e2;
  same_content_prev e1 e2 : same_content e1 e2 → prev e1 = prev e2
}.

Section Chain.
Context `{CE : ChainEntry E}.

Definition entry_ok (e : E) : bool := bool_decide (tag e = tag_of (preimage e)).

(** The verification loop: every tag is right and every link matches. *)
Fixpoint chain_ok (expected : string) (l : list E) : bool :=
  match l with
  | [] => true
  | e :: l' => entry_ok e && bool_decide (prev e = expected) && chain_ok (tag e) l'
  end.

Definition head_tag (l : list E) : string :=
  match last l with Some e => tag e | None => genesis end.

Lemma head_tag_snoc l e : head_tag (l ++ [e]) = tag e.
Proof. unfold head_tag. by rewrite last_snoc. Qed.

Lemma chain_ok_app l k p :
  chain_ok p (l ++ k) =
  chain_ok p l && chain_ok (match last l with Some e => tag e | None => p end) k.
Proof.
  revert p; induction l as [|e l IH]; intros p; simpl; [done|].
  rewrite IH, !andb_assoc, last_cons. by destruct (last l).
Qed.

Lemma chain_ok_snoc l e :
  chain_ok genesis (l ++ [e]) =
  chain_ok genesis l && entry_ok e && bool_decide (prev e = head_tag l).
Proof. rewrite chain_ok_app. simpl. by rewrite andb_true_r, andb_assoc. Qed.

(** Extending a verified chain with a correctly linked and tagged entry. *)
Lemma chain_ok_extend l e :
  chain_ok genesis l = true → prev e = head_tag l → tag e = tag_of (preimage e) →
  chain_ok genesis (l ++ [e]) = true.
Proof.
  intros Hl Hp Ht. rewrite chain_ok_snoc, Hl. unfold entry_ok. by rewrite !bool_decide_true.
Qed.

Lemma chain_ok_prefix l k p : chain_ok p (l ++ k) = true → chain_ok p l = true.
Proof. rewrite chain_ok_app. by intros [? _]%andb_true_iff. Qed.

(** The pair of inputs that collide when two verified chains with the same
    head differ: found by walking back from the heads. *)
Fixpoint find_collision (r1 r2 : list E) : bytes * bytes :=
  match r1, r2 with
  | e1 :: r1', e2 :: r2' =>
      if decide (preimage e1 = preimage e2) then find_collision r1' r2'
      else witness_pair (preimage e1) (preimage e2)
  | _, _ => ("", "")
  end.

Definition chain_collision (l1 l2 : list E) : bytes * bytes :=
  find_collision (reverse l1) (reverse l2).

(** The head tag commits to the whole chain. *)
Lemma head_commits l1 l2 :
  chain_ok genesis l1 = true → chain_ok genesis l2 = true →
  forallb wf_entry l1 = true → forallb wf_entry l2 = true →
  head_tag l1 = head_tag l2 →
  Forall2 (λ e1 e2, same_content e1 e2 ∧ tag e1 = tag e2) l1 l2 ∨
  collision (chain_collision l1 l2).
Proof.
  unfold chain_collision.
  revert l2; induction l1 as [|e1 l1 IH] using rev_ind; intros l2;
    destruct l2 as [|e2 l2 _] using rev_ind; intros C1 C2 W1 W2 Hh.
  - left. constructor.
  - rewrite chain_ok_snoc in C2. bool_prop. unfold entry_ok in *. bool_prop.
    rewrite head_tag_snoc in Hh. simpl in Hh.
    exfalso. eapply tag_of_genesis. etrans; [|exact (eq_sym Hh)]. by symmetry.
  - rewrite chain_ok_snoc in C1. bool_prop. unfold entry_ok in *. bool_prop.
    rewrite head_tag_snoc in Hh. simpl in Hh.
    exfalso. eapply tag_of_genesis. etrans; [|exact Hh]. by symmetry.
  - rewrite chain_ok_snoc in C1, C2. bool_prop. unfold entry_ok in *. bool_prop.
    rewrite !head_tag_snoc in Hh. rewrite !forallb_app in W1, W2. simpl in W1, W2. bool_prop.
    rewrite !reverse_snoc. simpl.
    destruct (decide (preimage e1 = preimage e2)) as [Hpre|Hpre].
    + assert (same_content e1 e2) as Hs by (by apply preimage_content).
      destruct (IH l2) as [HF|HC]; auto.
      { apply same_content_prev in Hs. congruence. }
      left. apply Forall2_app; [done|]. by repeat constructor.
    + right. destruct (tag_of_collision (preimage e1) (preimage e2)) as [?|?]; [congruence|done..].
Qed.
End Chain.
