(* ===== verification/AuditLog.v ===== *)
(** * The signed audit log

    [kernel/core/audit_log.py] and the summary of [kernel/core/audit_export.py].
    Entries are signed with HMAC-SHA256 over their canonical JSON, which
    contains the signature of the previous entry.  A fresh UUID and the
    current time are arguments of the two logging calls. *)

From S2P Require Import Prelude PyStr PyFloat PyDict Json Sha256 DataModel HashChain.

Record AuditEntry := {
  entry_id : string; timestamp : string; question : string; document_hash : string;
  outcome : string; grounded : bool; source_region : list (string * json);
  cascade_stage : string; model_id : string; signature : string; prev_signature : string }.

(** The dict signed by [content_bytes]: every field but the signature. *)
Definition payload (e : AuditEntry) : json :=
  JObj [("entry_id", JStr (entry_id e)); ("timestamp", JStr (timestamp e));
        ("question", JStr (question e)); ("document_hash", JStr (document_hash e));
        ("outcome", JStr (outcome e)); ("grounded", JBool (grounded e));
        ("source_region", JObj (source_region e)); ("cascade_stage", JStr (cascade_stage e));
        ("model_id", JStr (model_id e)); ("prev_signature", JStr (prev_signature e))].

(** [_anchor_to_region] *)
Definition anchor_to_region (a : Anchor) : list (string * json) :=
  [("chunk_id", JStr (a_chunk_id a));
   ("char_span", JArr [JInt (fst (a_char_span a)); JInt (snd (a_char_span a))]);
   ("page", JInt (a_page a))] ++
  match a_bbox a with
  | None => []
  | Some b => [("bbox", JObj [("x0", JFloat (x0 b)); ("y0", JFloat (y0 b));
                              ("x1", JFloat (x1 b)); ("y1", JFloat (y1 b))])]
  end.

Record SignedAuditLog := { session_key : bytes; entries : list AuditEntry; last_signature : string }.

(** [__init__] *)
Definition new_log (key : bytes) : result SignedAuditLog :=
  if bool_decide (key = "") then raise "ValueError" "session_key must not be empty"
  else Ok {| session_key := key; entries := []; last_signature := "" |}.

Section AuditLog.
Context `{FR : FloatRepr}.

Definition content_bytes (e : AuditEntry) : bytes := canonical true (payload e).

(** [_sign] *)
Definition sign (key : bytes) (content : bytes) : string := hmac_sha256_hex key content.

(** Sign the entry, append it and move the head, the common end of
    [log_answer] and [log_refusal]. *)
Definition append_entry (e : AuditEntry) (log : SignedAuditLog) : AuditEntry * SignedAuditLog :=
  let sg := sign (session_key log) (content_bytes e) in
  let e' := {| entry_id := entry_id e; timestamp := timestamp e; question := question e;
               document_hash := document_hash e; outcome := outcome e; grounded := grounded e;
               source_region := source_region e; cascade_stage := cascade_stage e;
               model_id := model_id e; signature := sg; prev_signature := prev_signature e |} in
  (e', {| session_key := session_key log; entries := entries log ++ [e']; last_signature := sg |}).

Definition log_answer (uuid now : string) (answer : Answer) (document_hash model_id cascade_stage : string)
    (log : SignedAuditLog) : AuditEntry * SignedAuditLog :=
  let cascade_stage :=
    if bool_decide (cascade_stage = "") then (if an_grounded answer then "EXACT" else "BLOCK")
    else cascade_stage in
  let source_region :=
    match an_citations answer with
    | [] => []
    | c :: rest => anchor_to_region c ++
        (match rest with
         | [] => []
         | _ => [("additional_citations", JArr (map (λ a, JObj (anchor_to_region a)) rest))]
         end)
    end in
  append_entry
    {| entry_id := uuid; timestamp := now; question := an_query answer;
       document_hash := document_hash; outcome := "answer"; grounded := an_grounded answer;
       source_region := source_region; cascade_stage := cascade_stage; model_id := model_id;
       signature := ""; prev_signature := last_signature log |} log.

Definition log_refusal (uuid now question document_hash cascade_stage model_id : string)
    (log : SignedAuditLog) : AuditEntry * SignedAuditLog :=
  append_entry
    {| entry_id := uuid; timestamp := now; question := question;
       document_hash := document_hash; outcome := "refusal"; grounded := false;
       source_region := []; cascade_stage := cascade_stage; model_id := model_id;
       signature := ""; prev_signature := last_signature log |} log.

(** [hmac.compare_digest] on two [str]: [TypeError] unless both are ASCII. *)
Definition compare_digest (a b : string) : result bool :=
  if is_ascii a && is_ascii b then Ok (bool_decide (a = b))
  else raise "TypeError" "comparing strings with non-ASCII characters is not supported".

Definition verify_entry (key : bytes) (e : AuditEntry) : result bool :=
  compare_digest (signature e) (sign key (content_bytes e)).

(** The loop of [verify_chain] and [verify_chain_with_key]: the signature is
    checked before the link, and the first failure ends it. *)
Fixpoint verify_from (key : bytes) (expected_prev : string) (l : list AuditEntry) : result bool :=
  match l with
  | [] => Ok true
  | e :: l' =>
      ok ← verify_entry key e;
      if negb ok then Ok false
      else if negb (bool_decide (prev_signature e = expected_prev)) then Ok false
      else verify_from key (signature e) l'
  end.

Definition verify_chain (log : SignedAuditLog) : result bool :=
  verify_from (session_key log) "" (entries log).
Definition verify_chain_with_key (key : bytes) (log : SignedAuditLog) : result bool :=
  verify_from key "" (entries log).

(** [from_json], after [json.loads] has produced the entries. *)
Definition from_entries (l : list AuditEntry) (key : bytes) : result SignedAuditLog :=
  log0 ← new_log key;
  let log := {| session_key := session_key log0; entries := l;
                last_signature := match last l with Some e => signature e | None => "" end |} in
  ok ← verify_chain log;
  if ok : bool then Ok log
  else raise "ValueError" "Loaded audit log chain is broken (tampered)".

(** ** Export summary ([export_json]) *)

Definition count (p : AuditEntry → bool) (l : list AuditEntry) : Z :=
  Z.of_nat (length (List.filter p l)).

Definition is_answer (e : AuditEntry) : bool := bool_decide (outcome e = "answer").
Definition is_refusal (e : AuditEntry) : bool := bool_decide (outcome e = "refusal").

Definition export_entry (e : AuditEntry) : json :=
  JObj [("entry_id", JStr (entry_id e)); ("timestamp", JStr (timestamp e));
        ("question", JStr (question e)); ("document_hash", JStr (document_hash e));
        ("outcome", JStr (outcome e)); ("grounded", JBool (grounded e));
        ("source_region", match source_region e with [] => JNull | r => JObj r end);
        ("cascade_stage", JStr (cascade_stage e)); ("model_id", JStr (model_id e));
        ("signature", JStr (signature e)); ("prev_signature", JStr (prev_signature e))].

Definition export_json (now : string) (log : SignedAuditLog) : result json :=
  chain_valid ← verify_chain log;
  let l := entries log in
  Ok (JObj
    [("export_metadata", JObj
        [("exported_at", JStr now); ("entry_count", JInt (Z.of_nat (length l)));
         ("chain_integrity", JStr (if chain_valid : bool then "VALID" else "BROKEN"));
         ("format_version", JStr "1.0"); ("system", JStr "Kairo Phantom")]);
     ("summary", JObj
        [("total_answers", JInt (count is_answer l));
         ("total_refusals", JInt (count is_refusal l));
         ("grounded_answers", JInt (count (λ e, is_answer e && grounded e) l));
         ("ungrounded_answers", JInt (count (λ e, is_answer e && negb (grounded e)) l))]);
     ("entries", JArr (map export_entry l))]).

(** ** The audit log as a hash chain *)

Definition wf_audit (e : AuditEntry) : bool := wf_json (payload e).

(** Same content: every signed field, the source region up to key order. *)
Definition same_audit (e1 e2 : AuditEntry) : Prop :=
  entry_id e1 = entry_id e2 ∧ timestamp e1 = timestamp e2 ∧ question e1 = question e2 ∧
  document_hash e1 = document_hash e2 ∧ outcome e1 = outcome e2 ∧ grounded e1 = grounded e2 ∧
  canon (JObj (source_region e1)) = canon (JObj (source_region e2)) ∧
  cascade_stage e1 = cascade_stage e2 ∧ model_id e1 = model_id e2 ∧
  prev_signature e1 = prev_signature e2.

Lemma content_same e1 e2 :
  wf_audit e1 = true → wf_audit e2 = true → content_bytes e1 = content_bytes e2 → same_audit e1 e2.
Proof.
  intros W1 W2 H. apply canonical_inj in H; [|done..]. destruct e1, e2. unfold same_audit, payload in *. cbn [entry_id timestamp question document_hash outcome grounded source_region cascade_stage model_id prev_signature] in *.
  canon_field H "entry_id". canon_field H "timestamp". canon_field H "question".
  canon_field H "document_hash". canon_field H "outcome". canon_field H "grounded".
  canon_field H "cascade_stage". canon_field H "model_id".
  canon_field H "prev_signature". split_and!; try congruence.
  canon_member H "source_region" G. congruence.
Qed.

Lemma sign_nonempty key x : sign key x ≠ "".
Proof.
  intros H. apply (f_equal String.length) in H. unfold sign, hmac_sha256_hex in H.
  by rewrite length_sha256_hex in H.
Qed.

Lemma same_audit_prev e1 e2 : same_audit e1 e2 → prev_signature e1 = prev_signature e2.
Proof. unfold same_audit. naive_solver. Qed.

#[local] Instance audit_chain (key : bytes) : ChainEntry AuditEntry := {
  tag := signature; prev := prev_signature; genesis := "";
  preimage := content_bytes; tag_of := sign key; witness_pair := hmac_collision key;
  wf_entry := wf_audit; same_content := same_audit;
  tag_of_collision := hmac_eq key; tag_of_genesis := sign_nonempty key;
  preimage_content := content_same; same_content_prev := same_audit_prev }.

Lemma is_ascii_hex b : is_ascii (hex b) = true.
Proof. pose proof (encode_ascii_hex b) as H. unfold encode_ascii in H. by case_match. Qed.

Lemma verify_entry_true key e : verify_entry key e = Ok true ↔ signature e = sign key (content_bytes e).
Proof.
  unfold verify_entry, compare_digest, sign, hmac_sha256_hex, sha256_hex. rewrite is_ascii_hex, andb_true_r.
  split.
  - intros H. crush_match H. by bool_prop.
  - intros ->. rewrite is_ascii_hex. by rewrite bool_decide_true.
Qed.

(** The loop accepts exactly the hash chains. *)
Lemma verify_from_chain key p l :
  verify_from key p l = Ok true ↔ chain_ok (CE := audit_chain key) p l = true.
Proof.
  revert p; induction l as [|e l IH]; intros p; [done|]. cbn [verify_from chain_ok].
  rewrite !andb_true_iff, bind_Ok. unfold entry_ok. rewrite !bool_decide_eq_true. cbn [prev tag tag_of preimage audit_chain].
  rewrite <-verify_entry_true, <-IH. split.
  - intros ([] & -> & H); [|done]. simpl in H. crush_match H; by bool_prop.
  - intros [[H ->] H']. exists true. split; [done|]. by rewrite bool_decide_true.
Qed.

(** *** The logging calls *)

Inductive audit_call :=
| LogAnswer (uuid now : string) (a : Answer) (document_hash model_id cascade_stage : string)
| LogRefusal (uuid now question document_hash cascade_stage model_id : string).

Definition run_audit_call (log : SignedAuditLog) (c : audit_call) : SignedAuditLog :=
  match c with
  | LogAnswer u t a d m s => (log_answer u t a d m s log).2
  | LogRefusal u t q d s m => (log_refusal u t q d s m log).2
  end.

Definition is_answer_call (c : audit_call) : bool :=
  match c with LogAnswer _ _ _ _ _ _ => true | _ => false end.
Definition grounded_call (c : audit_call) : bool :=
  match c with LogAnswer _ _ a _ _ _ => an_grounded a | _ => false end.

(** The log invariant: a verified chain whose head is [last_signature]. *)
Definition log_inv (key : bytes) (log : SignedAuditLog) : Prop :=
  session_key log = key ∧ last_signature log = head_tag (CE := audit_chain key) (entries log) ∧
  chain_ok (CE := audit_chain key) "" (entries log) = true.

Lemma append_entry_inv key e log :
  log_inv key log → prev_signature e = last_signature log → log_inv key (append_entry e log).2.
Proof.
  intros (<- & Hl & Hc) Hp. unfold append_entry. cbn [snd fst]. split_and!; cbn [entries session_key last_signature].
  - done.
  - by rewrite (head_tag_snoc (CE := audit_chain _)).
  - apply (chain_ok_extend (CE := audit_chain (session_key log))); [done|by cbn [prev prev_signature audit_chain]; rewrite Hp|done].
Qed.

Lemma run_audit_call_inv key log c : log_inv key log → log_inv key (run_audit_call log c).
Proof. intros H. destruct c; by apply append_entry_inv. Qed.

Lemma run_audit_inv key cs log : log_inv key log → log_inv key (fold_left run_audit_call cs log).
Proof. revert log; induction cs; simpl; auto using run_audit_call_inv. Qed.

Lemma new_log_inv key log : new_log key = Ok log → log_inv key log ∧ entries log = [].
Proof. unfold new_log. case_bool_decide; [done|]. intros [= <-]. done. Qed.

Lemma log_inv_last key log :
  log_inv key log →
  last_signature log = match last (entries log) with Some e => signature e | None => "" end.
Proof. by intros (_ & -> & _). Qed.
End AuditLog.

Section Properties.
Context `{FR : FloatRepr}.

Lemma run_audit_verifies key cs log0 :
  new_log key = Ok log0 → verify_chain (fold_left run_audit_call cs log0) = Ok true.
Proof.
  intros H0. destruct (new_log_inv _ _ H0) as [I0 _].
  destruct (run_audit_inv key cs log0 I0) as (Hk & _ & Hc).
  apply verify_from_chain in Hc. unfold verify_chain. by rewrite Hk.
Qed.

Lemma run_audit_length cs log0 :
  length (entries (fold_left run_audit_call cs log0)) = (length cs + length (entries log0))%nat.
Proof.
  revert log0. induction cs as [|c cs IH]; intros log0; simpl; [done|].
  rewrite IH. destruct c; simpl; rewrite length_app; simpl; lia.
Qed.

(** Every log that the two logging calls build, in any order and from
    any inputs, verifies under its session key, holds one entry per call,
    and is reloaded unchanged by [from_json]'s reconstruction. *)
Theorem audit_log_roundtrip key cs log0 log :
  new_log key = Ok log0 → fold_left run_audit_call cs log0 = log →
  verify_chain log = Ok true ∧ length (entries log) = length cs ∧
  from_entries (entries log) key = Ok log.
Proof.
  intros H0 <-. destruct (new_log_inv _ _ H0) as [I0 E0].
  pose proof (run_audit_inv key cs log0 I0) as I. pose proof (log_inv_last _ _ I) as Hlast.
  pose proof (run_audit_verifies key cs log0 H0) as Hv.
  split_and!; [done|rewrite run_audit_length, E0; simpl; lia|].
  unfold from_entries. rewrite H0. simpl. unfold verify_chain in *. cbn [session_key entries].
  destruct I as (Hk & _), I0 as (Hk0 & _). rewrite Hk in Hv. rewrite Hk0, Hv. simpl. f_equal.
  rewrite <-Hlast. destruct (fold_left _ _ _) as [k es ls]. simpl in *. by subst.
Qed.

(** C10.  Tamper evidence: when two entry lists both verify under the key and
    end in the same signature, they agree entry by entry on every signed
    field and every signature; otherwise [chain_collision] computes a
    SHA-256 collision from them. *)
Theorem audit_head_commits key l1 l2 :
  verify_from key "" l1 = Ok true → verify_from key "" l2 = Ok true →
  forallb wf_audit l1 = true → forallb wf_audit l2 = true →
  head_tag (CE := audit_chain key) l1 = head_tag (CE := audit_chain key) l2 →
  Forall2 (λ e1 e2, same_audit e1 e2 ∧ signature e1 = signature e2) l1 l2 ∨
  collision (chain_collision (CE := audit_chain key) l1 l2).
Proof.
  intros V1 V2 W1 W2 H. apply verify_from_chain in V1, V2.
  exact (head_commits (CE := audit_chain key) l1 l2 V1 V2 W1 W2 H).
Qed.

Lemma sign_key_block k1 k2 m : key_block k1 = key_block k2 → sign k1 m = sign k2 m.
Proof. apply hmac_key_block. Qed.

Lemma verify_from_key_block k1 k2 p l :
  key_block k1 = key_block k2 → verify_from k1 p l = verify_from k2 p l.
Proof.
  intros H. revert p; induction l as [|e l IH]; intros p; [done|]. cbn [verify_from].
  unfold verify_entry. rewrite (sign_key_block k1 k2 _ H). unfold mbind, result_bind.
  repeat (case_match; try done). 
Qed.

(** What [verify_chain_with_key] tells apart: keys with the same 64-byte
    HMAC block give the same answer on every log, and a non-empty log that
    two keys both accept shows that their blocks are equal or that its first
    entry exhibits a SHA-256 collision. *)
Theorem verify_with_key_distinguishes k1 k2 log e l :
  entries log = e :: l →
  (key_block k1 = key_block k2 → verify_chain_with_key k1 log = verify_chain_with_key k2 log) ∧
  (verify_chain_with_key k1 log = Ok true → verify_chain_with_key k2 log = Ok true →
   key_block k1 = key_block k2 ∨
   collision (hmac_outer k1 (content_bytes e), hmac_outer k2 (content_bytes e))).
Proof.
  intros He. unfold verify_chain_with_key. split; [by apply verify_from_key_block|].
  rewrite He. intros H1 H2. apply verify_from_chain in H1, H2. simpl in H1, H2.
  unfold entry_ok in *. bool_prop. cbn [tag tag_of preimage audit_chain] in *.
  apply hmac_eq_key. unfold sign in *. congruence.
Qed.

Lemma count_app p l k : count p (l ++ k) = count p l + count p k.
Proof. unfold count. rewrite List.filter_app, length_app. lia. Qed.

(** The four totals of the summary. *)
Definition totals (l : list AuditEntry) : Z * Z * Z * Z :=
  (count is_answer l, count is_refusal l, count (λ e, is_answer e && grounded e) l,
   count (λ e, is_answer e && negb (grounded e)) l).

Lemma totals_run cs log :
  entries log = [] →
  totals (entries (fold_left run_audit_call cs log)) =
  (Z.of_nat (length (List.filter is_answer_call cs)),
   Z.of_nat (length (List.filter (λ c, negb (is_answer_call c)) cs)),
   Z.of_nat (length (List.filter grounded_call cs)),
   Z.of_nat (length (List.filter (λ c, is_answer_call c && negb (grounded_call c)) cs))).
Proof.
  intros H0. induction cs as [|c cs IH] using rev_ind; [simpl; by rewrite H0|].
  rewrite fold_left_app_snoc, !List.filter_app, !length_app.
  revert IH. generalize (fold_left run_audit_call cs log). intros lg IH.
  unfold totals in *. injection IH as I1 I2 I3 I4.
  destruct c as [u n a d m s|u n q d s m]; unfold run_audit_call, log_answer, log_refusal, append_entry;
    cbn [snd entries]; rewrite !count_app, I1, I2, I3, I4; [destruct a as [?? ? ? [] ? ? ? ?]|]; 
    repeat (apply f_equal2 || done || (unfold count; simpl; lia)).
Qed.

(** The compliance export of a log the calls built reports a VALID chain,
    the exact number of answer and refusal calls, grounded and ungrounded
    answers separately, and lists every entry in order. *)
Theorem export_summary_exact key cs log0 log now :
  new_log key = Ok log0 → fold_left run_audit_call cs log0 = log →
  ∃ meta summary v, export_json now log = Ok v ∧
    get v "export_metadata" = Some meta ∧ get v "summary" = Some summary ∧
    get v "entries" = Some (JArr (map export_entry (entries log))) ∧
    get meta "chain_integrity" = Some (JStr "VALID") ∧
    get meta "entry_count" = Some (JInt (Z.of_nat (length cs))) ∧
    get summary "total_answers" = Some (JInt (Z.of_nat (length (List.filter is_answer_call cs)))) ∧
    get summary "total_refusals" =
      Some (JInt (Z.of_nat (length (List.filter (λ c, negb (is_answer_call c)) cs)))) ∧
    get summary "grounded_answers" = Some (JInt (Z.of_nat (length (List.filter grounded_call cs)))) ∧
    get summary "ungrounded_answers" =
      Some (JInt (Z.of_nat (length (List.filter (λ c, is_answer_call c && negb (grounded_call c)) cs)))).
Proof.
  intros H0 <-. pose proof (run_audit_verifies key cs log0 H0) as Hv.
  destruct (new_log_inv _ _ H0) as [_ E0]. pose proof (run_audit_length cs log0) as Hl.
  pose proof (totals_run cs log0 E0) as Ht. unfold totals in Ht. injection Ht as T1 T2 T3 T4.
  unfold export_json. rewrite Hv. cbn [mbind result_bind]. rewrite T1, T2, T3, T4, Hl, E0.
  cbn [length]. rewrite Nat.add_0_r.
  eexists _, _, _. split_and!; reflexivity.
Qed.
End Properties.

(** ** Concrete runs *)

Section Witnesses.
#[local] Existing Instance exact_float_repr.

Definition demo_answer : Answer :=
  {| an_answer_id := "a1"; an_query := "total?"; an_text := "42";
     an_citations := [{| a_chunk_id := "c1"; a_char_span := (0, 2); a_page := 1;
                         a_bbox := Some {| x0 := f0; y0 := f0; x1 := f1; y1 := f1 |} |}];
     an_grounded := true; an_refused := false; an_refusal_stage := "";
     an_refusal_reason := ""; an_refusal_suggestion := "" |}.
Definition demo_calls : list audit_call :=
  [LogAnswer "u1" "t1" demo_answer "d" "m" ""; LogRefusal "u2" "t2" "why?" "d" "BLOCK" "m"].
Definition demo_log0 : SignedAuditLog :=
  {| session_key := "k"; entries := []; last_signature := "" |}.
Definition demo_log : SignedAuditLog := fold_left run_audit_call demo_calls demo_log0.

Lemma audit_log_roundtrip_witness :
  verify_chain demo_log = Ok true ∧ from_entries (entries demo_log) "k" = Ok demo_log.
Proof. destruct (audit_log_roundtrip "k" demo_calls demo_log0 demo_log) as (H1 & _ & H2);
  [reflexivity|reflexivity|]. split; [exact H1|exact H2]. Defined.

Lemma audit_head_commits_witness :
  let l := entries demo_log in
  Forall2 (λ e1 e2, same_audit e1 e2 ∧ signature e1 = signature e2) l l ∨
  collision (chain_collision (CE := audit_chain "k") l l).
Proof.
  assert (verify_from "k" "" (entries demo_log) = Ok true)
    by (vm_compute; reflexivity).
  apply (audit_head_commits "k"); [assumption|assumption|vm_compute; reflexivity..].
Defined.

Lemma verify_with_key_distinguishes_witness :
  "k" ≠ String "k" (String "000" "") ∧
  verify_chain_with_key "k" demo_log = verify_chain_with_key (String "k" (String "000" "")) demo_log.
Proof.
  split; [done|].
  eapply (verify_with_key_distinguishes "k" (String "k" (String "000" "")) demo_log);
    vm_compute; reflexivity.
Defined.

Lemma export_summary_exact_witness :
  ∃ meta v, export_json "now" demo_log = Ok v ∧ get v "export_metadata" = Some meta ∧
    get meta "entry_count" = Some (JInt 2).
Proof.
  destruct (export_summary_exact "k" demo_calls demo_log0 demo_log "now")
    as (meta & s & v & H1 & H2 & _ & _ & _ & H3 & _); [reflexivity|reflexivity|].
  exists meta, v. split; [exact H1|]. split; [exact H2|exact H3].
Defined.
End Witnesses.
