(* ===== verification/Refusal.v ===== *)
(** * Refusal diagnostics ([kernel/core/refusal.py])

    The texts attached to a refused answer.  The character U+2014 of the
    suggestion texts is written as its three UTF-8 bytes; no operation looks
    inside those texts. *)

From S2P Require Import Prelude PyStr PyFloat PyDict Json DataModel.

Definition STAGE_DESCRIPTIONS : list (string * string) :=
  [("BLOCK", "no exact/fuzzy/semantic/visual match above threshold");
   ("FUZZY", "fuzzy match found but below the 0.92 threshold");
   ("SEMANTIC", "semantic match found but below the 0.86 threshold or re-verification failed");
   ("VISUAL", "visual retrieval attempted but IoU below 0.5 threshold");
   ("NORMALIZE", "text normalization failed — input could not be processed");
   ("EXACT", "exact match attempted but no verbatim source text found")].

Definition STAGE_SUGGESTIONS : list (string * string) :=
  [("BLOCK", "The answer may not be in this document, or the relevant section wasn't extracted cleanly. Try rephrasing the query or verifying the document was ingested correctly.");
   ("FUZZY", "A near-match was found but didn't meet the 0.92 similarity threshold. Check if the source text has typos or formatting differences.");
   ("SEMANTIC", "A semantically similar passage was found but didn't pass re-verification. The meaning may be related but not directly supported by the source.");
   ("VISUAL", "A visual region was identified but the overlap (IoU) was below 0.5. The relevant figure or table may need higher-resolution ingestion.");
   ("NORMALIZE", "The input text could not be normalized for matching. Check for encoding issues or non-standard characters.");
   ("EXACT", "No verbatim match was found in the source. The exact wording may differ — try a broader query.")].

(** [d.get(stage, d["BLOCK"])] *)
Definition lookup_stage (d : list (string * string)) (stage : string) : string :=
  default (default "" (assoc "BLOCK" d)) (assoc stage d).

Definition refusal_stage (a : Answer) : string := or_str (an_refusal_stage a) "BLOCK".
Definition refusal_reason (a : Answer) : string :=
  or_str (an_refusal_reason a) (lookup_stage STAGE_DESCRIPTIONS (refusal_stage a)).
Definition refusal_suggestion (a : Answer) : string :=
  or_str (an_refusal_suggestion a) (lookup_stage STAGE_SUGGESTIONS (refusal_stage a)).

Definition format_refusal (a : Answer) : string :=
  if negb (an_refused a) then an_text a
  else "No grounded source found — reached " +:+ refusal_stage a +:+ ": " +:+ refusal_reason a
       +:+ " " +:+ refusal_suggestion a.

Definition get_refusal_metadata (a : Answer) : list (string * string) :=
  if negb (an_refused a) then
    [("label", ""); ("stage", ""); ("reason", ""); ("suggestion", "")]
  else
    [("label", "No grounded source found"); ("stage", refusal_stage a);
     ("reason", refusal_reason a); ("suggestion", refusal_suggestion a)].

(** The record given to [logger.warning], if any. *)
Definition log_refusal (now : string) (a : Answer) : option (list string) :=
  if negb (an_refused a) then None
  else
    let metadata := get_refusal_metadata a in
    let field k := default "" (assoc k metadata) in
    Some [now; take_str 200 (an_query a); field "stage"; field "reason"; field "suggestion"].

Lemma or_str_nonempty a b : b ≠ "" → or_str a b ≠ "".
Proof. unfold or_str. by case_bool_decide. Qed.

Lemma lookup_stage_nonempty d stage :
  Forall (λ p, p.2 ≠ "") d → is_Some (assoc "BLOCK" d) → lookup_stage d stage ≠ "".
Proof.
  intros HF [b Hb]. unfold lookup_stage. rewrite Hb. rewrite Forall_forall in HF.
  destruct (assoc stage d) as [v|] eqn:E; simpl.
  - by apply assoc_Some_elem, HF in E.
  - by apply assoc_Some_elem, HF in Hb.
Qed.

(** The diagnostic of a refused answer always names a stage, a reason and
    a suggestion, whatever the answer left empty and whatever stage it names,
    and the formatted message contains all three; any other answer is shown
    unchanged and is not logged. *)
Theorem refusal_always_explained a now :
  (an_refused a = true →
   (∀ k, In k ["label"; "stage"; "reason"; "suggestion"] →
      ∃ v, assoc k (get_refusal_metadata a) = Some v ∧ v ≠ "" ∧ contains v (format_refusal a) = true) ∧
   log_refusal now a ≠ None) ∧
  (an_refused a = false → format_refusal a = an_text a ∧ log_refusal now a = None).
Proof.
  unfold get_refusal_metadata, format_refusal, log_refusal.
  split; intros ->; simpl; [|done]. split; [|done].
  assert (refusal_stage a ≠ "") as Hs by (by apply or_str_nonempty).
  assert (refusal_reason a ≠ "") as Hr.
  { apply or_str_nonempty, lookup_stage_nonempty; [|done]. by repeat constructor. }
  assert (refusal_suggestion a ≠ "") as Hg.
  { apply or_str_nonempty, lookup_stage_nonempty; [|done]. by repeat constructor. }
  intros k Hk. repeat destruct Hk as [<-|Hk]; [..|done]; simpl.
  - eexists; split; [done|]. split; [done|]. apply contains_spec.
    exists "", (" — reached " +:+ refusal_stage a +:+ ": " +:+ refusal_reason a +:+ " " +:+ refusal_suggestion a).
    done.
  - eexists; split; [done|]. split; [done|]. apply contains_spec.
    exists "No grounded source found — reached ", (": " +:+ refusal_reason a +:+ " " +:+ refusal_suggestion a). done.
  - eexists; split; [done|]. split; [done|]. apply contains_spec.
    exists ("No grounded source found — reached " +:+ refusal_stage a +:+ ": "), (" " +:+ refusal_suggestion a).
    by rewrite <-!app_assoc_str.
  - eexists; split; [done|]. split; [done|]. apply contains_spec.
    exists ("No grounded source found — reached " +:+ refusal_stage a +:+ ": " +:+ refusal_reason a +:+ " "), "".
    by rewrite <-!app_assoc_str, app_nil_r_str.
Qed.

Lemma refusal_always_explained_witness :
  let a := {| an_answer_id := "a"; an_query := "q"; an_text := ""; an_citations := [];
              an_grounded := false; an_refused := true; an_refusal_stage := "OTHER";
              an_refusal_reason := ""; an_refusal_suggestion := "" |} in
  log_refusal "now" a ≠ None.
Proof. intros a. destruct (refusal_always_explained a "now") as [H _]. by apply H. Defined.
