(* ===== verification/Reproducibility.v ===== *)
(** * Reproducibility receipts ([kernel/core/reproducibility.py])

    A receipt commits to the corpus, the outputs and the configuration of a
    run by SHA-256 over canonical encodings.  The identifier and the time of a
    receipt are arguments of [build]. *)

From S2P Require Import Prelude PyStr PyFloat PyDict Json Sha256 DataModel.

Record ReproducibilityReceipt := {
  receipt_id : string; created_at : string; corpus_hash : string; model_id : string;
  model_version : string; seed : Z; result_hash : string; answer_count : Z;
  refusal_count : Z; config_hash : string }.

Record ReproducibilityReceiptBuilder := {
  b_model_id : string; b_model_version : string; b_seed : Z; b_config : list (string * json) }.

(** [ReproducibilityReceipt.verify] *)
Definition verify (r : ReproducibilityReceipt) (ch rh mi mv : string) (s : Z) (cfg : string) : bool :=
  bool_decide (corpus_hash r = ch) && bool_decide (result_hash r = rh) &&
  bool_decide (model_id r = mi) && bool_decide (model_version r = mv) &&
  bool_decide (seed r = s) && bool_decide (config_hash r = cfg).

Definition newline : string := String "010" "".

Definition corpus_text (corpus_texts : list string) : string := join newline (sort_by id corpus_texts).

Definition hash_corpus (corpus_texts : list string) : string :=
  sha256_hex (utf8 (corpus_text corpus_texts)).

Definition canonical_answer (a : Answer) : json :=
  JObj
    [("query", JStr (an_query a)); ("text", JStr (an_text a));
     ("grounded", JBool (an_grounded a)); ("refused", JBool (an_refused a));
     ("citations", JArr (map (λ c, JObj (
        [("chunk_id", JStr (a_chunk_id c));
         ("char_span", JArr [JInt (fst (a_char_span c)); JInt (snd (a_char_span c))]);
         ("page", JInt (a_page c))] ++
        match a_bbox c with
        | None => []
        | Some b => [("bbox", JArr [JFloat (x0 b); JFloat (y0 b); JFloat (x1 b); JFloat (y1 b)])]
        end)) (an_citations a)))].

(** [lambda x: x["query"]] *)
Definition query_key (v : json) : string :=
  match get v "query" with Some (JStr s) => s | _ => "" end.

Definition results_payload (answers : list Answer) (refusals : list string) : json :=
  JObj [("answers", JArr (sort_by query_key (map canonical_answer answers)));
        ("refusals", JArr (map JStr (sort_by id refusals)))].

Section Receipts.
Context `{FR : FloatRepr}.

Definition hash_config (config : list (string * json)) : string :=
  sha256_hex (canonical true (JObj config)).

Definition hash_results (answers : list Answer) (refusals : list string) : string :=
  sha256_hex (canonical true (results_payload answers refusals)).

Definition build (uuid now : string) (b : ReproducibilityReceiptBuilder) (corpus_texts : list string)
    (answers : list Answer) (refusals : list string) : ReproducibilityReceipt :=
  {| receipt_id := uuid; created_at := now; corpus_hash := hash_corpus corpus_texts;
     model_id := b_model_id b; model_version := b_model_version b; seed := b_seed b;
     result_hash := hash_results answers refusals; answer_count := Z.of_nat (length answers);
     refusal_count := Z.of_nat (length refusals); config_hash := hash_config (b_config b) |}.
End Receipts.

Definition compare_receipts (r1 r2 : ReproducibilityReceipt) : list (string * bool) :=
  [("corpus_hash", bool_decide (corpus_hash r1 = corpus_hash r2));
   ("model_id", bool_decide (model_id r1 = model_id r2));
   ("model_version", bool_decide (model_version r1 = model_version r2));
   ("seed", bool_decide (seed r1 = seed r2));
   ("result_hash", bool_decide (result_hash r1 = result_hash r2));
   ("answer_count", bool_decide (answer_count r1 = answer_count r2));
   ("refusal_count", bool_decide (refusal_count r1 = refusal_count r2));
   ("config_hash", bool_decide (config_hash r1 = config_hash r2))].

Definition assert_byte_identical (r1 r2 : ReproducibilityReceipt) : result () :=
  match List.filter (λ p, negb (snd p)) (compare_receipts r1 r2) with
  | [] => Ok ()
  | mismatches => raise "AssertionError"
      ("Receipts are not byte-identical. Mismatched fields:" +:+ newline +:+ join newline (map fst mismatches))
  end.

(** ** Lemmas.  (The [AssertionError] also prints the two values of each
    mismatched field; the model keeps the names.) *)

Lemma no_mismatch (l : list (string * bool)) :
  List.filter (λ p, negb (snd p)) l = [] ↔ forallb snd l = true.
Proof.
  induction l as [|[k []] l IH]; simpl; [done|exact IH|done].
Qed.

Lemma assert_byte_identical_Ok r1 r2 :
  assert_byte_identical r1 r2 = Ok () ↔
  corpus_hash r1 = corpus_hash r2 ∧ model_id r1 = model_id r2 ∧ model_version r1 = model_version r2 ∧
  seed r1 = seed r2 ∧ result_hash r1 = result_hash r2 ∧ answer_count r1 = answer_count r2 ∧
  refusal_count r1 = refusal_count r2 ∧ config_hash r1 = config_hash r2.
Proof.
  unfold assert_byte_identical.
  transitivity (forallb snd (compare_receipts r1 r2) = true).
  { rewrite <-no_mismatch. by destruct (List.filter _ _). }
  cbn [compare_receipts forallb snd]. rewrite !andb_true_iff, !bool_decide_eq_true.
  naive_solver.
Qed.

Lemma query_key_canonical a : query_key (canonical_answer a) = an_query a.
Proof. done. Qed.

Lemma canonical_answers_sorted answers :
  sort_by query_key (map canonical_answer answers) = map canonical_answer (sort_by an_query answers).
Proof. apply sort_by_map. done. Qed.

(** Same output of the same query, citations up to the order of JSON keys. *)
Definition same_output (a b : Answer) : Prop :=
  an_query a = an_query b ∧ an_text a = an_text b ∧ an_grounded a = an_grounded b ∧
  an_refused a = an_refused b ∧
  canon <$> get (canonical_answer a) "citations" = canon <$> get (canonical_answer b) "citations".

Lemma canonical_answer_inj a b : canon (canonical_answer a) = canon (canonical_answer b) → same_output a b.
Proof.
  intros H. destruct a as [i1 q1 t1 c1 g1 r1 s1 m1 u1], b as [i2 q2 t2 c2 g2 r2 s2 m2 u2].
  unfold canonical_answer, same_output in *.
  cbn [an_query an_text an_grounded an_refused an_citations get] in *.
  canon_member H "citations" G.
  canon_field H "query". canon_field H "text". canon_field H "grounded". canon_field H "refused".
  split_and!; try congruence. unfold canonical_answer. cbn [get an_citations assoc bool_decide]. exact G.
Qed.

Lemma canonical_answers_inj l1 l2 :
  map canon (map canonical_answer l1) = map canon (map canonical_answer l2) → Forall2 same_output l1 l2.
Proof.
  rewrite !map_map. intros H. apply map_eq_Forall2 in H.
  eapply Forall2_impl; [exact H|]. apply canonical_answer_inj.
Qed.

Lemma results_payload_inj a1 a2 r1 r2 :
  canon (results_payload a1 r1) = canon (results_payload a2 r2) →
  Forall2 same_output (sort_by an_query a1) (sort_by an_query a2) ∧ sort_by id r1 = sort_by id r2.
Proof.
  unfold results_payload. rewrite !canonical_answers_sorted.
  generalize (sort_by an_query a1) (sort_by an_query a2) (sort_by id r1) (sort_by id r2).
  intros l1 l2 k1 k2 H. canon_field H "answers". canon_field H "refusals".
  split; [by apply canonical_answers_inj|].
  rewrite !map_map in F0. apply map_eq_Forall2 in F0.
  clear -F0. induction F0 as [|x y k1 k2 Hxy _ IH]; [done|]. injection Hxy as ->. by rewrite IH.
Qed.

Section Properties.
Context `{FR : FloatRepr}.

(** Determinism: two runs with the same settings, whose corpora, answers
    and refusals are the same up to order, produce receipts that
    [assert_byte_identical] accepts and that [verify] each other, provided no
    two different answers share a query. *)
Theorem receipts_reproducible u1 u2 n1 n2 b c1 c2 a1 a2 r1 r2 :
  c1 ≡ₚ c2 → a1 ≡ₚ a2 → r1 ≡ₚ r2 →
  (∀ x y, x ∈ a1 → y ∈ a1 → an_query x = an_query y → x = y) →
  let x := build u1 n1 b c1 a1 r1 in
  let y := build u2 n2 b c2 a2 r2 in
  assert_byte_identical x y = Ok () ∧
  verify x (corpus_hash y) (result_hash y) (model_id y) (model_version y) (seed y) (config_hash y) = true.
Proof.
  intros Hc Ha Hr Hq x y.
  assert (corpus_hash x = corpus_hash y) as E1.
  { simpl. unfold hash_corpus, corpus_text. by rewrite (sort_by_unique id c1 c2). }
  assert (result_hash x = result_hash y) as E2.
  { simpl. unfold hash_results, results_payload. rewrite !canonical_answers_sorted.
    by rewrite (sort_by_unique an_query a1 a2), (sort_by_unique id r1 r2). }
  split.
  - apply assert_byte_identical_Ok.
    split_and!; [exact E1|reflexivity..|exact E2| | |reflexivity]; simpl; by rewrite ?Ha, ?Hr.
  - unfold verify. rewrite E1, E2. by rewrite !bool_decide_true.
Qed.

(** What a matching pair of receipts proves: same model, seed and
    counts, and for each of the three hashes either the committed content is
    the same - the outputs answer by answer in the order of their queries,
    the refusals, the configuration up to key order, the joined corpus - or
    the two encodings are a SHA-256 collision. *)
Theorem receipts_commit u1 u2 n1 n2 b1 b2 c1 c2 a1 a2 r1 r2 :
  assert_byte_identical (build u1 n1 b1 c1 a1 r1) (build u2 n2 b2 c2 a2 r2) = Ok () →
  wf_json (JObj (b_config b1)) = true → wf_json (JObj (b_config b2)) = true →
  wf_json (results_payload a1 r1) = true → wf_json (results_payload a2 r2) = true →
  b_model_id b1 = b_model_id b2 ∧ b_model_version b1 = b_model_version b2 ∧ b_seed b1 = b_seed b2 ∧
  (corpus_text c1 = corpus_text c2 ∨ collision (utf8 (corpus_text c1), utf8 (corpus_text c2))) ∧
  (Forall2 same_output (sort_by an_query a1) (sort_by an_query a2) ∧ sort_by id r1 = sort_by id r2 ∨
   collision (canonical true (results_payload a1 r1), canonical true (results_payload a2 r2))) ∧
  (canon (JObj (b_config b1)) = canon (JObj (b_config b2)) ∨
   collision (canonical true (JObj (b_config b1)), canonical true (JObj (b_config b2)))).
Proof.
  rewrite assert_byte_identical_Ok. intros (Hc & Hm & Hv & Hs & Hr & _ & _ & Hg) W1 W2 W3 W4.
  cbn [build corpus_hash result_hash config_hash model_id model_version seed] in *.
  unfold hash_corpus, hash_results, hash_config in *.
  split_and!; try assumption.
  - destruct (sha256_hex_eq _ _ Hc) as [H|H]; [left|right; exact H]. by apply (inj utf8).
  - destruct (sha256_hex_eq _ _ Hr) as [H|H]; [left|right; exact H].
    apply results_payload_inj. by apply (canonical_inj true).
  - destruct (sha256_hex_eq _ _ Hg) as [H|H]; [left|right; exact H]. by apply (canonical_inj true).
Qed.
End Properties.

(** The corpus hash is over the joined texts and not over the list of
    them: splitting a text at a line break leaves the hash unchanged, so
    different corpora can carry the same receipt. *)
Theorem hash_corpus_join l k :
  StronglySorted (key_order id) (l ++ k) → l ≠ [] → k ≠ [] →
  hash_corpus (l ++ k) = hash_corpus [join newline l +:+ newline +:+ join newline k].
Proof.
  intros Hs Hl Hk. unfold hash_corpus, corpus_text.
  assert (sort_by id (l ++ k) = l ++ k) as ->.
  { apply (StronglySorted_unique_strong (key_order id)); auto using sort_by_sorted, sort_by_perm.
    intros x y _ _. unfold key_order, id. apply (anti_symm String.le). }
  cbn [sort_by foldr insert_sorted join]. do 2 f_equal.
  clear Hs. induction l as [|x [|y l] IH]; [done| |].
  - simpl. by destruct k.
  - specialize (IH ltac:(done)). cbn [app join] in *. rewrite IH. by rewrite !app_assoc_str.
Qed.

Section Witnesses.
#[local] Existing Instance exact_float_repr.

Definition demo_out (q : string) : Answer :=
  {| an_answer_id := "id"; an_query := q; an_text := "t"; an_citations := []; an_grounded := true;
     an_refused := false; an_refusal_stage := ""; an_refusal_reason := "";
     an_refusal_suggestion := "" |}.
Definition demo_builder : ReproducibilityReceiptBuilder :=
  {| b_model_id := "m"; b_model_version := "v"; b_seed := 42;
     b_config := [("fuzzy_threshold", JFloat (lit 92 100))] |}.

Lemma receipts_reproducible_witness :
  assert_byte_identical (build "1" "t" demo_builder ["x"; "y"] [demo_out "p"; demo_out "q"] ["r"; "s"])
                        (build "2" "u" demo_builder ["y"; "x"] [demo_out "q"; demo_out "p"] ["s"; "r"]) = Ok ().
Proof.
  eapply (receipts_reproducible "1" "2" "t" "u" demo_builder); [constructor..|].
  intros x y Hx Hy. set_unfold. destruct Hx as [->|[->|[]]], Hy as [->|[->|[]]]; done.
Defined.

Lemma receipts_commit_witness :
  let r u := build u "t" demo_builder ["x"] [demo_out "p"] [] in
  assert_byte_identical (r "1") (r "2") = Ok () ∧ b_seed demo_builder = b_seed demo_builder.
Proof.
  intros r. assert (assert_byte_identical (r "1") (r "2") = Ok ()) as H by (by apply assert_byte_identical_Ok).
  split; [exact H|].
  eapply (receipts_commit "1" "2" "t" "t" demo_builder demo_builder ["x"] ["x"] [demo_out "p"] [demo_out "p"] [] []);
    [exact H|vm_compute; reflexivity..].
Defined.

Lemma hash_corpus_join_witness :
  hash_corpus ["a"; "b"] = hash_corpus ["a" +:+ newline +:+ "b"].
Proof. apply (hash_corpus_join ["a"] ["b"]); [|done|done]. repeat constructor. Defined.
End Witnesses.
