(* ===== verification/Levenshtein.v ===== *)
(** * Edit distance

    The specification - the least number of single-character insertions,
    deletions and substitutions - and the two implementations of the program:
    the full matrix of [kernel/core/verifier_standalone.py] and the bit-vector
    algorithm of [kernel/core/grounding.py], both inside their functions
    [levenshtein_ratio].  Both are shown to compute the specified distance. *)

From S2P Require Import Prelude PyStr PyDict.

(** ** Specification *)

Inductive edits : list ascii → list ascii → Z → Prop :=
| edits_nil : edits [] [] 0
| edits_keep c s t n : edits s t n → edits (c :: s) (c :: t) n
| edits_subst a b s t n : edits s t n → edits (a :: s) (b :: t) (n + 1)
| edits_delete a s t n : edits s t n → edits (a :: s) t (n + 1)
| edits_insert b s t n : edits s t n → edits s (b :: t) (n + 1).

Definition edit_distance (s t : list ascii) (d : Z) : Prop :=
  edits s t d ∧ ∀ n, edits s t n → d ≤ n.

(** ** The matrix of the standalone verifier *)

Abbreviation matrix := (list (list Z)).

(** [dist[r][c]] and [dist[r][c] = v], for indices in range. *)
Definition mget (m : matrix) (r c : nat) : Z := default 0 (row ← m !! r; row !! c).
Definition mset (r c : nat) (v : Z) (m : matrix) : matrix := alter (λ row, <[c := v]> row) r m.

Definition dp_cell (s1 s2 : list ascii) (col : nat) (dist : matrix) (row : nat) : matrix :=
  let cost := if bool_decide (s1 !! (row - 1)%nat = s2 !! (col - 1)%nat) then 0 else 1 in
  mset row col
    (Z.min (Z.min (mget dist (row - 1) col + 1) (mget dist row (col - 1) + 1))
           (mget dist (row - 1) (col - 1) + cost)) dist.

Definition dp_column (s1 s2 : list ascii) (dist : matrix) (col : nat) : matrix :=
  fold_left (dp_cell s1 s2 col) (seq 1 (length s1)) dist.

Definition dp_init (rows cols : nat) : matrix :=
  let dist := replicate rows (replicate cols 0) in
  let dist := fold_left (λ d i, mset i 0 (Z.of_nat i) d) (seq 1 (rows - 1)) dist in
  fold_left (λ d j, mset 0 j (Z.of_nat j) d) (seq 1 (cols - 1)) dist.

Definition dp_distance (s1 s2 : list ascii) : Z :=
  let dist := fold_left (dp_column s1 s2) (seq 1 (length s2)) (dp_init (S (length s1)) (S (length s2))) in
  mget dist (length s1) (length s2).

(** ** The bit-vector algorithm of the grounding cascade *)

Definition add_mask (masks : list (string * Z)) (p : nat * ascii) : list (string * Z) :=
  let '(index, char) := p in
  dict_set (String char "")
    (Z.lor (default 0 (assoc (String char "") masks)) (Z.shiftl 1 (Z.of_nat index))) masks.

Definition masks_of (s1 : list ascii) : list (string * Z) :=
  fold_left add_mask (imap pair s1) [].

Record myers := { positive : Z; negative : Z; distance : Z }.

Definition myers_step (masks : list (string * Z)) (high_bit : Z) (st : myers) (char : ascii) : myers :=
  let equal := default 0 (assoc (String char "") masks) in
  let vertical := Z.lor equal (negative st) in
  let horizontal :=
    Z.lor (Z.lxor (Z.land equal (positive st) + positive st) (positive st)) equal in
  let plus := Z.lor (negative st) (Z.lnot (Z.lor horizontal (positive st))) in
  let minus := Z.land (positive st) horizontal in
  let distance :=
    if negb (Z.land plus high_bit =? 0) then distance st + 1
    else if negb (Z.land minus high_bit =? 0) then distance st - 1
    else distance st in
  let plus := Z.lor (Z.shiftl plus 1) 1 in
  let minus := Z.shiftl minus 1 in
  {| positive := Z.lor minus (Z.lnot (Z.lor vertical plus));
     negative := Z.land plus vertical; distance := distance |}.

Definition myers_init (s1 : list ascii) : myers :=
  {| positive := Z.shiftl 1 (Z.of_nat (length s1)) - 1; negative := 0;
     distance := Z.of_nat (length s1) |}.

(** For a non-empty [s1], as the caller ensures ([1 << -1] would raise). *)
Definition myers_distance (s1 s2 : list ascii) : Z :=
  let high_bit := Z.shiftl 1 (Z.of_nat (length s1) - 1) in
  distance (fold_left (myers_step (masks_of s1) high_bit) s2 (myers_init s1)).

(** ** The recurrence, on reversed prefixes *)

Definition mismatch (a b : ascii) : Z := if bool_decide (a = b) then 0 else 1.

Fixpoint led (s : list ascii) : list ascii → Z :=
  match s with
  | [] => λ t, Z.of_nat (length t)
  | a :: s' => fix go t :=
      match t with
      | [] => Z.of_nat (length s)
      | b :: t' => Z.min (Z.min (led s' t + 1) (go t' + 1)) (led s' t' + mismatch a b)
      end
  end.

Lemma led_nil_r s : led s [] = Z.of_nat (length s).
Proof. by destruct s. Qed.

Lemma led_cons a s b t :
  led (a :: s) (b :: t) =
  Z.min (Z.min (led s (b :: t) + 1) (led (a :: s) t + 1)) (led s t + mismatch a b).
Proof. done. Qed.

Lemma mismatch_range a b : 0 ≤ mismatch a b ≤ 1.
Proof. unfold mismatch. case_bool_decide; lia. Qed.

Lemma led_least s t n : edits s t n → led s t ≤ n.
Proof.
  induction 1 as [|c s t n _ IH|a b s t n _ IH|a s t n _ IH|b s t n _ IH].
  - done.
  - rewrite led_cons. unfold mismatch. rewrite bool_decide_true by done. lia.
  - rewrite led_cons. pose proof (mismatch_range a b). lia.
  - destruct t as [|b t]; [rewrite led_nil_r in *; simpl length; lia|rewrite led_cons; lia].
  - destruct s as [|a s]; [simpl in *; lia|rewrite led_cons; lia].
Qed.

Lemma edits_insert_all t : edits [] t (Z.of_nat (length t)).
Proof.
  induction t as [|b t IH]; [constructor|]. simpl length.
  rewrite Nat2Z.inj_succ. by apply edits_insert.
Qed.

Lemma led_attained s t : edits s t (led s t).
Proof.
  revert t. induction s as [|a s IHs]; intros t; [apply edits_insert_all|].
  induction t as [|b t IHt].
  - rewrite led_nil_r. simpl length. rewrite Nat2Z.inj_succ, <-led_nil_r. by apply edits_delete.
  - rewrite led_cons. unfold Z.min at 1 2.
    assert (edits (a :: s) (b :: t) (led s t + mismatch a b)).
    { unfold mismatch. case_bool_decide as E; [subst; rewrite Z.add_0_r; by apply edits_keep|].
      by apply edits_subst. }
    repeat case_match; auto using edits_delete, edits_insert.
Qed.

Lemma edits_app s t n s' t' m : edits s t n → edits s' t' m → edits (s ++ s') (t ++ t') (n + m).
Proof.
  intros H H'. induction H; simpl; [done|by apply edits_keep|..];
    rewrite <-Z.add_assoc, (Z.add_comm 1), Z.add_assoc; by constructor.
Qed.

Lemma edits_reverse s t n : edits s t n → edits (reverse s) (reverse t) n.
Proof.
  induction 1; rewrite ?reverse_cons.
  - constructor.
  - rewrite <-(Z.add_0_r n). apply edits_app; [done|]. apply edits_keep, edits_nil.
  - apply edits_app; [done|]. apply (edits_subst a b [] [] 0), edits_nil.
  - rewrite <-(app_nil_r (reverse t)). apply edits_app; [done|]. apply (edits_delete a [] [] 0), edits_nil.
  - rewrite <-(app_nil_r (reverse s)). apply edits_app; [done|]. apply (edits_insert b [] [] 0), edits_nil.
Qed.

Lemma led_distance s t : edit_distance s t (led (reverse s) (reverse t)).
Proof.
  split.
  - rewrite <-(reverse_involutive s), <-(reverse_involutive t) at 1.
    apply edits_reverse, led_attained.
  - intros n Hn. by apply led_least, edits_reverse.
Qed.

(** The distance of the prefixes of lengths [i] and [j]: entry [(i, j)] of the
    matrix. *)
Definition cell (s t : list ascii) (i j : nat) : Z := led (reverse (take i s)) (reverse (take j t)).

Lemma cell_0_l s t j : (j ≤ length t)%nat → cell s t 0 j = Z.of_nat j.
Proof. intros. unfold cell. simpl. rewrite length_reverse, length_take. lia. Qed.

Lemma cell_0_r s t i : (i ≤ length s)%nat → cell s t i 0 = Z.of_nat i.
Proof.
  intros. unfold cell. rewrite take_0, reverse_nil, led_nil_r, length_reverse, length_take. lia.
Qed.

Lemma cell_S s t i j a b :
  s !! i = Some a → t !! j = Some b →
  cell s t (S i) (S j) =
  Z.min (Z.min (cell s t i (S j) + 1) (cell s t (S i) j + 1)) (cell s t i j + mismatch a b).
Proof.
  intros Ha Hb. unfold cell.
  by rewrite (take_S_r s i a Ha), (take_S_r t j b Hb), !reverse_snoc, led_cons.
Qed.

Lemma cell_full s t : edit_distance s t (cell s t (length s) (length t)).
Proof. unfold cell. rewrite !take_ge by lia. apply led_distance. Qed.

Lemma edit_distance_unique s t d e : edit_distance s t d → edit_distance s t e → d = e.
Proof. intros [H1 H2] [H3 H4]. specialize (H2 _ H3). specialize (H4 _ H1). lia. Qed.

(** ** The matrix computes the recurrence *)

Definition dims (rows cols : nat) (m : matrix) : Prop :=
  length m = rows ∧ Forall (λ row, length row = cols) m.

Lemma dims_mset rows cols r c v m : dims rows cols m → dims rows cols (mset r c v m).
Proof.
  intros [Hl HF]. split; [by rewrite <-Hl; apply length_alter|].
  apply Forall_alter; [done|]. intros row Hr. rewrite length_insert.
  rewrite Forall_lookup in HF. eauto.
Qed.

Lemma mget_mset rows cols m r c v r' c' :
  dims rows cols m → (r < rows)%nat → (c < cols)%nat →
  mget (mset r c v m) r' c' = if decide (r' = r ∧ c' = c) then v else mget m r' c'.
Proof.
  intros [Hl HF] Hr Hc. unfold mget, mset.
  destruct (decide (r' = r)) as [->|Hne].
  - rewrite list_lookup_alter_eq. destruct (lookup_lt_is_Some_2 m r) as [row Hrow]; [lia|].
    rewrite Hrow. simpl. rewrite Forall_lookup in HF. specialize (HF _ _ Hrow).
    destruct (decide (c' = c)) as [->|Hne].
    + rewrite list_lookup_insert_eq by lia. by rewrite decide_True.
    + rewrite list_lookup_insert_ne by done. rewrite decide_False by naive_solver. done.
  - rewrite list_lookup_alter_ne by done. by rewrite decide_False by naive_solver.
Qed.

(** Entries of the zero matrix, and the state after the two border loops. *)
Lemma dp_init_spec rows cols :
  (0 < rows)%nat → (0 < cols)%nat → dims rows cols (dp_init rows cols) ∧
  (∀ r, (r < rows)%nat → mget (dp_init rows cols) r 0 = Z.of_nat r) ∧
  (∀ c, (c < cols)%nat → mget (dp_init rows cols) 0 c = Z.of_nat c).
Proof.
  intros Hr Hc. unfold dp_init.
  set (z := replicate rows (replicate cols 0)).
  assert (dims rows cols z) as Dz.
  { split; [apply length_replicate|]. apply Forall_replicate, length_replicate. }
  assert (∀ r c, mget z r c = 0) as Hz.
  { intros r c. unfold mget, z. destruct (_ !! r) as [row|] eqn:E; [|done].
    apply lookup_replicate in E as [-> _]. simpl. destruct (_ !! c) eqn:E; [|done].
    by apply lookup_replicate in E as [-> _]. }
  set (P i m := dims rows cols m ∧ (∀ r, (r < i)%nat → (r < rows)%nat → mget m r 0 = Z.of_nat r) ∧
                (∀ c, mget m 0 c = 0)).
  set (m1 := fold_left _ (seq 1 (rows - 1)) z).
  assert (P (1 + (rows - 1))%nat m1) as (D1 & C1 & R1).
  { apply fold_seq_inv.
    - split_and!; [done| |done]. intros r ? ?. rewrite Hz. lia.
    - intros i m Hi (D & C & R). split_and!; [by apply dims_mset| |].
      + intros r ? ?. erewrite mget_mset by (done || lia). case_decide as E; [lia|]. apply C; lia.
      + intros c. erewrite mget_mset by (done || lia). rewrite decide_False by lia. done. }
  set (Q j m := dims rows cols m ∧ (∀ r, (r < rows)%nat → mget m r 0 = Z.of_nat r) ∧
                (∀ c, (c < j)%nat → (c < cols)%nat → mget m 0 c = Z.of_nat c)).
  set (m2 := fold_left _ (seq 1 (cols - 1)) m1).
  assert (Q (1 + (cols - 1))%nat m2) as (D2 & C2 & R2).
  { apply fold_seq_inv.
    - split_and!; [done|intros; apply C1; lia|]. intros c ? ?. rewrite R1. lia.
    - intros j m Hj (D & C & R). split_and!; [by apply dims_mset| |].
      + intros r ?. erewrite mget_mset by (done || lia). rewrite decide_False by lia. by apply C.
      + intros c ? ?. erewrite mget_mset by (done || lia). case_decide as E; [lia|]. apply R; lia. }
  split_and!; [done|done|]. intros c ?. apply R2; lia.
Qed.

Section Matrix.
Variables (s t : list ascii).
Let rows := S (length s).
Let cols := S (length t).

(** The cells known after the columns before [col] and, in column [col],
    the rows before [row]. *)
Definition known (col row : nat) (m : matrix) : Prop :=
  dims rows cols m ∧
  ∀ r c, (r < rows)%nat → (c < cols)%nat → (c < col)%nat ∨ r = 0%nat ∨ (c = col ∧ (r < row)%nat) →
    mget m r c = cell s t r c.

Lemma known_cell col row m :
  (1 ≤ col < cols)%nat → (1 ≤ row < rows)%nat →
  known col row m → known col (S row) (dp_cell s t col m row).
Proof.
  intros Hc Hr [D K]. split; [by apply dims_mset|]. intros r c Hr' Hc' Hk.
  unfold dp_cell. erewrite mget_mset by (done || lia).
  case_decide as E; [destruct E as [-> ->]|apply K; [done..|lia]].
  destruct row as [|i]; [lia|]. destruct col as [|j]; [lia|].
  destruct (lookup_lt_is_Some_2 s i) as [a Ha]; [lia|].
  destruct (lookup_lt_is_Some_2 t j) as [b Hb]; [lia|].
  rewrite (cell_S s t i j a b Ha Hb). rewrite !Nat.sub_succ, !Nat.sub_0_r, Ha, Hb.
  rewrite !K by lia. unfold mismatch.
  repeat case_bool_decide; congruence || lia.
Qed.

Lemma known_column col m :
  (1 ≤ col < cols)%nat → known col 1 m → known (S col) 1 (dp_column s t m col).
Proof.
  intros Hc K. unfold dp_column.
  assert (known col (1 + length s) (fold_left (dp_cell s t col) (seq 1 (length s)) m)) as [D K'].
  { apply (fold_seq_inv (known col)); [done|]. intros i y Hi. apply known_cell; [done|lia]. }
  split; [done|]. intros r c Hr Hc' Hk. apply K'; [done..|]. lia.
Qed.

Lemma dp_distance_cell : dp_distance s t = cell s t (length s) (length t).
Proof.
  unfold dp_distance.
  destruct (dp_init_spec rows cols) as (D & C & R); [lia..|].
  assert (known (1 + length t) 1
    (fold_left (dp_column s t) (seq 1 (length t)) (dp_init rows cols))) as [_ K].
  { apply (fold_seq_inv (λ col, known col 1)).
    - split; [done|]. intros r c Hr Hc [Hk|[->|[-> Hk]]].
      + assert (c = 0%nat) as -> by lia. rewrite C by done. rewrite cell_0_r; lia.
      + rewrite R by done. rewrite cell_0_l; lia.
      + assert (r = 0%nat) as -> by lia. rewrite R by done. rewrite cell_0_l; lia.
    - intros i y Hi. apply known_column. lia. }
  apply K; lia.
Qed.
End Matrix.

(** ** The bit-vector algorithm follows the columns of the matrix *)

Lemma land_pow2_nonzero x k : 0 ≤ k → negb (Z.land x (Z.shiftl 1 k) =? 0) = Z.testbit x k.
Proof.
  intros Hk. rewrite Z.shiftl_1_l. destruct (Z.testbit x k) eqn:E.
  - apply negb_true_iff, Z.eqb_neq. intros H0.
    assert (Z.testbit (Z.land x (2 ^ k)) k = true) as H
      by (by rewrite Z.land_spec, E, Z.pow2_bits_true).
    by rewrite H0, Z.bits_0 in H.
  - apply negb_false_iff, Z.eqb_eq, Z.bits_inj'. intros n Hn.
    rewrite Z.bits_0, Z.land_spec, Z.pow2_bits_eqb by done.
    destruct (Z.eqb_spec k n) as [->|]; [by rewrite E|apply andb_false_r].
Qed.

(** The mask of a character has the bits of its positions. *)
Lemma add_mask_testbit masks index char c (i : nat) :
  Z.testbit (default 0 (assoc (String c "") (add_mask masks (index, char)))) (Z.of_nat i) =
  Z.testbit (default 0 (assoc (String c "") masks)) (Z.of_nat i) ||
    (bool_decide (c = char) && bool_decide (i = index)).
Proof.
  unfold add_mask. destruct (decide (c = char)) as [->|Hne].
  - rewrite assoc_set_eq, bool_decide_true by done. simpl.
    rewrite Z.lor_spec, Z.shiftl_1_l, Z.pow2_bits_eqb by lia. f_equal.
    destruct (Z.eqb_spec (Z.of_nat index) (Z.of_nat i)); case_bool_decide; lia || done.
  - rewrite assoc_set_ne by congruence. by rewrite (bool_decide_false (c = char)), orb_false_r.
Qed.

Lemma masks_of_testbit s c (i : nat) :
  Z.testbit (default 0 (assoc (String c "") (masks_of s))) (Z.of_nat i) = bool_decide (s !! i = Some c).
Proof.
  unfold masks_of. revert i. induction s as [|a s IH] using rev_ind; intros i.
  - simpl. by rewrite Z.bits_0.
  - rewrite imap_app, fold_left_app. cbn [imap fold_left].
    rewrite add_mask_testbit, IH, Nat.add_0_r, lookup_app.
    destruct (s !! i) as [b|] eqn:E.
    + apply lookup_lt_Some in E. rewrite (bool_decide_false (i = length s)) by lia.
      by rewrite andb_false_r, orb_false_r.
    + apply lookup_ge_None in E. rewrite (bool_decide_false (None = Some c)) by done. simpl.
      rewrite list_lookup_singleton. case_match; repeat case_bool_decide; try done;
        try congruence; try lia.
Qed.

(** One addition computes the whole carry chain of a column. *)
Definition horizontal_of (E P : Z) : Z := Z.lor (Z.lxor (Z.land E P + P) P) E.

Lemma carry_chain E P :
  Z.testbit (horizontal_of E P) 0 = Z.testbit E 0 ∧
  ∀ i, 0 ≤ i → Z.testbit (horizontal_of E P) (Z.succ i) =
    Z.testbit E (Z.succ i) || (Z.testbit P i && Z.testbit (horizontal_of E P) i).
Proof.
  destruct (Z.add_carry_bits (Z.land E P) P false) as (c & Hsum & Hnext & H0).
  rewrite Z.add_0_r in Hsum.
  assert (∀ i, 0 ≤ i → Z.testbit (horizontal_of E P) i = Z.testbit E i || Z.testbit c i) as HX.
  { intros i Hi. unfold horizontal_of. rewrite Hsum. rewrite !Z.lor_spec, !Z.lxor_spec, Z.land_spec.
    by destruct (Z.testbit E i), (Z.testbit P i), (Z.testbit c i). }
  split.
  - rewrite HX by lia. by rewrite H0, orb_false_r.
  - intros i Hi. rewrite !HX by lia. rewrite <-(Z.div2_bits c i) by done.
    rewrite Hnext, Z.lor_spec, !Z.land_spec, Z.lor_spec, Z.land_spec.
    by destruct (Z.testbit E i), (Z.testbit P i), (Z.testbit c i), (Z.testbit E (Z.succ i)).
Qed.

(** The recurrence in one cell, from the vertical difference [v] on its left
    and the horizontal difference [h] above it. *)
Lemma cell_step (d v h : Z) (eq : bool) D :
  -1 ≤ v ≤ 1 → -1 ≤ h ≤ 1 →
  D = Z.min (Z.min (d + h + 1) (d + v + 1)) (d + (if eq then 0 else 1)) →
  let isneg x := bool_decide (x = -1) in
  let ispos x := bool_decide (x = 1) in
  -1 ≤ D - (d + v) ≤ 1 ∧ -1 ≤ D - (d + h) ≤ 1 ∧
  ispos (D - (d + v)) = isneg v || negb ((eq || isneg h) || ispos v) ∧
  isneg (D - (d + v)) = ispos v && (eq || isneg h) ∧
  ispos (D - (d + h)) = isneg h || negb ((eq || isneg v) || ispos h) ∧
  isneg (D - (d + h)) = ispos h && (eq || isneg v).
Proof.
  intros Hv Hh HD.
  assert (v = -1 ∨ v = 0 ∨ v = 1) as Cv by lia. assert (h = -1 ∨ h = 0 ∨ h = 1) as Ch by lia.
  destruct Cv as [->|[->| ->]], Ch as [->|[->| ->]], eq; simpl;
    split_and!; try lia; case_bool_decide; try done; lia.
Qed.

Section Columns.
Variables (s t : list ascii).
Let m := length s.

Definition vdelta (i j : nat) : Z := cell s t (S i) j - cell s t i j.
Definition hdelta (i j : nat) : Z := cell s t i (S j) - cell s t i j.

(** The state after [j] characters of [t]. *)
Definition column_state (j : nat) (st : myers) : Prop :=
  distance st = cell s t m j ∧
  ∀ i, (i < m)%nat → -1 ≤ vdelta i j ≤ 1 ∧
    Z.testbit (positive st) (Z.of_nat i) = bool_decide (vdelta i j = 1) ∧
    Z.testbit (negative st) (Z.of_nat i) = bool_decide (vdelta i j = -1).

Lemma column_state_0 : column_state 0 (myers_init s).
Proof.
  split; [simpl; by rewrite cell_0_r|]. intros i Hi. unfold vdelta.
  rewrite !cell_0_r by lia. split; [lia|]. simpl.
  rewrite Z.shiftl_1_l, Z.sub_1_r, <-Z.ones_equiv, Z.ones_spec_low by lia.
  rewrite Z.bits_0. split; [rewrite bool_decide_true by lia|rewrite bool_decide_false by lia]; done.
Qed.

Section Step.
Variables (j : nat) (b : ascii) (st : myers).
Hypothesis Hb : t !! j = Some b.
Hypothesis Hst : column_state j st.

Let eq (i : nat) : bool := bool_decide (s !! i = Some b).
Let E : Z := default 0 (assoc (String b "") (masks_of s)).
Let X : Z := horizontal_of E (positive st).
Let isneg (x : Z) : bool := bool_decide (x = -1).
Let ispos (x : Z) : bool := bool_decide (x = 1).

Lemma hdelta_0 : hdelta 0 j = 1.
Proof. apply lookup_lt_Some in Hb. unfold hdelta. rewrite !cell_0_l; lia. Qed.

(** [cell_step] for row [i] of this column. *)
Lemma row_step i :
  (i < m)%nat → -1 ≤ hdelta i j ≤ 1 →
  -1 ≤ hdelta (S i) j ≤ 1 ∧ -1 ≤ vdelta i (S j) ≤ 1 ∧
  ispos (hdelta (S i) j) = isneg (vdelta i j) || negb ((eq i || isneg (hdelta i j)) || ispos (vdelta i j)) ∧
  isneg (hdelta (S i) j) = ispos (vdelta i j) && (eq i || isneg (hdelta i j)) ∧
  ispos (vdelta i (S j)) = isneg (hdelta i j) || negb ((eq i || isneg (vdelta i j)) || ispos (hdelta i j)) ∧
  isneg (vdelta i (S j)) = ispos (hdelta i j) && (eq i || isneg (vdelta i j)).
Proof.
  intros Hi Hh. destruct Hst as [_ Hv]. destruct (Hv i Hi) as [Hvr _].
  destruct (lookup_lt_is_Some_2 s i Hi) as [a Ha].
  assert (hdelta (S i) j = cell s t (S i) (S j) - (cell s t i j + vdelta i j)) as ->
    by (unfold hdelta, vdelta; lia).
  assert (vdelta i (S j) = cell s t (S i) (S j) - (cell s t i j + hdelta i j)) as ->
    by (unfold hdelta, vdelta; lia).
  apply cell_step; [done..|]. rewrite (cell_S s t i j a b Ha Hb). unfold mismatch, eq. rewrite Ha.
  unfold hdelta, vdelta. repeat case_bool_decide; congruence || lia.
Qed.

Lemma row_chain i :
  (i ≤ m)%nat → -1 ≤ hdelta i j ≤ 1 ∧
  ((i < m)%nat → Z.testbit X (Z.of_nat i) = eq i || isneg (hdelta i j)).
Proof.
  destruct (carry_chain E (positive st)) as [X0 XS].
  assert (∀ i, Z.testbit E (Z.of_nat i) = eq i) as HE by (intros; apply masks_of_testbit).
  induction i as [|i IH]; intros Hi.
  - rewrite hdelta_0. split; [lia|]. intros _. unfold X. change (Z.of_nat 0) with 0. rewrite X0.
    change 0 with (Z.of_nat 0) at 1. by rewrite HE, orb_false_r.
  - destruct IH as [Hh HX]; [lia|]. destruct (row_step i) as (R1 & _ & _ & R2 & _); [lia|done|].
    split; [done|]. intros Hi'. rewrite R2, Nat2Z.inj_succ. unfold X. rewrite XS by lia.
    rewrite <-Nat2Z.inj_succ, HE. fold X. rewrite HX by lia.
    destruct Hst as [_ Hv]. destruct (Hv i) as (_ & -> & _); [lia|]. done.
Qed.

Let plus : Z := Z.lor (negative st) (Z.lnot (Z.lor X (positive st))).
Let minus : Z := Z.land (positive st) X.

Lemma horizontal_bits i :
  (i < m)%nat →
  Z.testbit plus (Z.of_nat i) = ispos (hdelta (S i) j) ∧
  Z.testbit minus (Z.of_nat i) = isneg (hdelta (S i) j).
Proof.
  intros Hi. destruct (row_chain i) as [Hh HX]; [lia|]. specialize (HX Hi).
  destruct (row_step i) as (_ & _ & R1 & R2 & _); [done..|]. rewrite R1, R2.
  destruct Hst as [_ Hv]. destruct (Hv i) as (_ & HP & HN); [lia|].
  unfold plus, minus. rewrite Z.lor_spec, Z.lnot_spec, Z.lor_spec, Z.land_spec by lia.
  rewrite HX, HP, HN. done.
Qed.

(** The shifts move the differences to the row below; row 0 contributes +1. *)
Lemma shifted_bits i :
  (i < m)%nat →
  Z.testbit (Z.lor (Z.shiftl plus 1) 1) (Z.of_nat i) = ispos (hdelta i j) ∧
  Z.testbit (Z.shiftl minus 1) (Z.of_nat i) = isneg (hdelta i j).
Proof.
  intros Hi. rewrite Z.lor_spec, !Z.shiftl_spec by lia. destruct i as [|i].
  - rewrite hdelta_0. rewrite !Z.testbit_neg_r by lia. done.
  - replace (Z.of_nat (S i) - 1) with (Z.of_nat i) by lia.
    destruct (horizontal_bits i) as [-> ->]; [lia|]. split; [|done].
    replace 1 with (2 ^ 0) by done. rewrite Z.pow2_bits_false by lia. apply orb_false_r.
Qed.

Lemma column_state_S :
  (0 < m)%nat →
  column_state (S j) (myers_step (masks_of s) (Z.shiftl 1 (Z.of_nat m - 1)) st b).
Proof.
  intros Hm. destruct Hst as [Hd Hv].
  assert (∃ k, m = S k) as [k Hk] by (destruct m; [lia|eauto]).
  split.
  - unfold myers_step. cbn [distance]. fold E. fold (horizontal_of E (positive st)). fold X.
    fold plus. fold minus. rewrite !land_pow2_nonzero by lia.
    replace (Z.of_nat m - 1) with (Z.of_nat k) by lia.
    destruct (horizontal_bits k) as [-> ->]; [lia|].
    destruct (row_chain (S k)) as [Hh _]; [lia|]. unfold ispos, isneg. rewrite <-Hk in *.
    rewrite Hd. unfold hdelta in *. repeat case_bool_decide; lia.
  - intros i Hi. destruct (row_chain i) as [Hh _]; [lia|].
    destruct (row_step i) as (_ & R0 & _ & _ & R1 & R2); [done..|]. split; [done|].
    destruct (shifted_bits i Hi) as [HP HN]. destruct (Hv i Hi) as (_ & _ & HV).
    assert (Z.testbit E (Z.of_nat i) = eq i) as HE by apply masks_of_testbit.
    unfold myers_step. cbn [positive negative]. fold E. fold (horizontal_of E (positive st)). fold X.
    fold plus. fold minus. fold (ispos (vdelta i (S j))). fold (isneg (vdelta i (S j))).
    rewrite R1, R2. rewrite Z.land_spec, Z.lor_spec, Z.lnot_spec, !(Z.lor_spec (Z.lor _ _)) by lia.
    rewrite HN, (Z.lor_spec E), HE, HV. fold (isneg (vdelta i j)).
    revert HP. rewrite Z.lor_spec. intros ->. done.
Qed.
  End Step.

Lemma myers_distance_cell : (0 < m)%nat → myers_distance s t = cell s t m (length t).
Proof.
  intros Hm. unfold myers_distance. fold m.
  set (f := myers_step _ _).
  assert (∀ k, (k ≤ length t)%nat → column_state k (fold_left f (take k t) (myers_init s))) as H.
  { induction k as [|k IH]; intros Hk; [apply column_state_0|].
    destruct (lookup_lt_is_Some_2 t k) as [b Hb]; [lia|].
    rewrite (take_S_r t k b Hb), fold_left_app. simpl.
    apply column_state_S; [done|apply IH; lia|done]. }
  specialize (H (length t) ltac:(lia)). rewrite take_ge in H by lia. by destruct H.
Qed.
End Columns.

(** The matrix of the standalone verifier's [levenshtein_ratio] computes
    the edit distance: its last entry is the cost of some edit script from
    [s1] to [s2], and no script is cheaper. *)
Theorem dp_distance_correct s1 s2 : edit_distance s1 s2 (dp_distance s1 s2).
Proof. rewrite dp_distance_cell. apply cell_full. Qed.

(** C9.  The bit-vector loop of the grounding cascade computes the same edit
    distance: the carries of one addition per character, the infinitely many
    sign bits of [~] above the word and the shifts never corrupt a column. *)
Theorem myers_distance_correct s1 s2 :
  s1 ≠ [] → edit_distance s1 s2 (myers_distance s1 s2) ∧ myers_distance s1 s2 = dp_distance s1 s2.
Proof.
  intros Hs. rewrite myers_distance_cell by (destruct s1; [done|simpl; lia]).
  split; [apply cell_full|by rewrite dp_distance_cell].
Qed.

Lemma myers_distance_correct_witness :
  edit_distance (chars "kitten") (chars "sitting") 3.
Proof. apply (myers_distance_correct (chars "kitten")). done. Defined.
