(* ===== verification/TextMatch.v ===== *)
(** * Text helpers shared by the two grounding verifiers

    [normalize_text] and the word windows of [best_fuzzy_match], which
    [kernel/core/grounding.py] and [kernel/core/verifier_standalone.py] define
    alike, and the token sets of their semantic re-verification. *)

From S2P Require Import Prelude PyStr PyFloat.

(** The characters kept by [re.sub(r'[^\w\s\-\.]', '', text)]. *)
Definition kept (c : ascii) : bool :=
  is_word c || is_space c || bool_decide (c = "-"%char) || bool_decide (c = "."%char).

(** The currency signs of the last substitution that lie below U+0100:
    [$], U+00A3 and U+00A5. *)
Definition is_currency (c : ascii) : bool :=
  let n := code c in (n =? 36)%N || (n =? 163)%N || (n =? 165)%N.

Definition normalize_text (text : string) : string :=
  let text := strip (lower text) in
  let text := filter_str kept text in
  let text := join " " (split text) in
  filter_str (λ c, negb (is_currency c)) text.

(** [set(normalize_text(s).split())] *)
Definition tokens (s : string) : gset string := list_to_set (split (normalize_text s)).

(** The span [(window[0][1], window[-1][2])] of [words_spans[i:i+length]]. *)
Definition window_span (spans : list (nat * nat)) (i length : nat) : option (nat * nat) :=
  let window := take length (drop i spans) in
  match head window, last window with
  | Some a, Some b => Some (fst a, snd b)
  | _, _ => None
  end.

(** The last substitution finds nothing left to remove. *)
Lemma kept_not_currency c : kept c = true → is_currency c = false.
Proof. by all_chars c. Qed.

(** A window inside the list of words has a span. *)
Lemma window_span_Some spans i length :
  (0 < length)%nat → (i < List.length spans)%nat → is_Some (window_span spans i length).
Proof.
  intros Hl Hi. unfold window_span. destruct length as [|n]; [lia|].
  destruct (drop i spans) as [|x l] eqn:E.
  { apply (f_equal List.length) in E. rewrite length_drop in E. simpl in E. lia. }
  simpl. rewrite last_cons. destruct (last (take n l)); eauto.
Qed.
