(* ===== verification/Grounding.v ===== *)
(** * The grounding cascade ([kernel/core/grounding.py])

    [GroundingVerifierImpl.verify]: NORMALIZE, EXACT, FUZZY, SEMANTIC, VISUAL,
    BLOCK.  The embedding model ([kernel/core/embeddings.py], which computes
    with numpy) and the parser of decimal floats are parameters. *)

From S2P Require Import Prelude PyStr PyFloat PyDict Json DataModel Levenshtein TextMatch.

Definition LEVENSHTEIN_MAX_LEN : nat := 200.

Definition levenshtein_ratio (s1 s2 : string) : f64 :=
  let s1 := lower s1 in
  let s2 := lower s2 in
  if bool_decide (s1 = s2) then f1
  else if (len s1 =? 0) || (len s2 =? 0) then f0
  else
    let max_len := Z.max (len s1) (len s2) in
    let min_len := Z.min (len s1) (len s2) in
    if (of_Z min_len / of_Z max_len <? lit 5 10)%f64 then f0
    else
      let s1 := if (LEVENSHTEIN_MAX_LEN <? String.length s1)%nat
                then take_str LEVENSHTEIN_MAX_LEN s1 else s1 in
      let s2 := if (LEVENSHTEIN_MAX_LEN <? String.length s2)%nat
                then take_str LEVENSHTEIN_MAX_LEN s2 else s2 in
      let distance := myers_distance (chars s1) (chars s2) in
      (f1 - of_Z distance / of_Z (Z.max (len s1) (len s2)))%f64.

Definition MAX_WINDOWS : nat := 500.

(** [int(x)] of a non-negative finite float. *)
Definition int_of_float (x : f64) : nat :=
  match x with
  | S754_finite false m e =>
      Z.to_nat (if 0 <=? e then Zpos m * 2 ^ e else Zpos m / 2 ^ (- e))
  | _ => 0
  end.

Record scan := { windows_scanned : nat; best_ratio : f64; best_span : nat * nat }.

(** One window: the body of the inner loop of [best_fuzzy_match]. *)
Definition scan_window (val_norm text : string) (words_spans : list (nat * nat)) (length : nat)
    (st : scan) (i : nat) : scan :=
  if (MAX_WINDOWS <=? windows_scanned st)%nat then st
  else
    let '(b, e) := default (0, 0)%nat (window_span words_spans i length) in
    let ratio := levenshtein_ratio val_norm (normalize_text (slice b e text)) in
    if (ratio >? best_ratio st)%f64
    then {| windows_scanned := S (windows_scanned st); best_ratio := ratio; best_span := (b, e) |}
    else {| windows_scanned := S (windows_scanned st); best_ratio := best_ratio st;
            best_span := best_span st |}.

(** The window starts of one length: all of them, or 500 evenly spaced ones. *)
Definition window_indices (num_windows : nat) : list nat :=
  if (num_windows <=? MAX_WINDOWS)%nat then seq 0 num_windows
  else
    let step := (of_Z (Z.of_nat num_windows) / of_Z (Z.of_nat MAX_WINDOWS))%f64 in
    map (λ i, int_of_float (of_Z (Z.of_nat i) * step)%f64) (seq 0 MAX_WINDOWS).

(** [range(max(1, n-1), min(total_words + 1, n+3))] *)
Definition window_lengths (n total_words : nat) : list nat :=
  let lo := Nat.max 1 (n - 1) in
  seq lo (Nat.min (total_words + 1) (n + 3) - lo).

Definition scan_length (val_norm text : string) (words_spans : list (nat * nat)) (st : scan)
    (length : nat) : scan :=
  if (MAX_WINDOWS <=? windows_scanned st)%nat then st
  else fold_left (scan_window val_norm text words_spans length)
         (window_indices (List.length words_spans + 1 - length)) st.

Definition best_fuzzy_match (value text : string) : f64 * (nat * nat) :=
  let val_norm := normalize_text value in
  if bool_decide (val_norm = "") then (f0, (0, 0)%nat)
  else
    let n := List.length (split val_norm) in
    let words_spans := word_spans text in
    match words_spans with
    | [] => (f0, (0, 0)%nat)
    | _ =>
        let st := fold_left (scan_length val_norm text words_spans)
                    (window_lengths n (List.length words_spans))
                    {| windows_scanned := 0; best_ratio := f0; best_span := (0, 0)%nat |} in
        (best_ratio st, best_span st)
    end.

Definition bbox_iou (b1 b2 : BBox) : f64 :=
  let ix0 := fmax (x0 b1) (x0 b2) in
  let iy0 := fmax (y0 b1) (y0 b2) in
  let ix1 := fmin (x1 b1) (x1 b2) in
  let iy1 := fmin (y1 b1) (y1 b2) in
  let inter_w := fmax f0 (ix1 - ix0)%f64 in
  let inter_h := fmax f0 (iy1 - iy0)%f64 in
  let inter_area := (inter_w * inter_h)%f64 in
  let area1 := ((x1 b1 - x0 b1) * (y1 b1 - y0 b1))%f64 in
  let area2 := ((x1 b2 - x0 b2) * (y1 b2 - y0 b2))%f64 in
  let union := (area1 + area2 - inter_area)%f64 in
  if (union <=? f0)%f64 then f0 else (inter_area / union)%f64.

Record GroundingVerifierImpl := {
  fuzzy_threshold : f64; semantic_threshold : f64; visual_threshold : f64;
  disabled_stages : list GroundingMethod }.

(** The constructor's defaults. *)
Definition default_verifier : GroundingVerifierImpl :=
  {| fuzzy_threshold := lit 92 100; semantic_threshold := lit 86 100;
     visual_threshold := lit 5 10; disabled_stages := [] |}.

Definition enabled (v : GroundingVerifierImpl) (m : GroundingMethod) : bool :=
  negb (bool_decide (m ∈ disabled_stages v)).

Definition span_anchor (chunk : Chunk) (span : nat * nat) : Anchor :=
  {| a_chunk_id := c_chunk_id chunk; a_char_span := (Z.of_nat (fst span), Z.of_nat (snd span));
     a_page := c_page chunk; a_bbox := c_bbox chunk |}.

(** Keep the first chunk whose score reaches the threshold and beats the best
    so far: the loops of the FUZZY, SEMANTIC and VISUAL stages. *)
Definition keep_best {A} (threshold : f64) (best : f64 * option A) (score : f64) (a : A) : f64 * option A :=
  if (score >=? threshold)%f64 && (score >? fst best)%f64 then (score, Some a) else best.

Definition exact_stage (target : string) (chunks : list Chunk) : option Anchor :=
  chunk ← find_first (λ c, contains (lower target) (lower (c_text c))) chunks;
  start ← find (lower target) (lower (c_text chunk));
  Some (span_anchor chunk (start, start + String.length target)%nat).

Definition fuzzy_stage (v : GroundingVerifierImpl) (target : string) (chunks : list Chunk) : option Anchor :=
  snd (fold_left (λ best chunk,
         let '(ratio, span) := best_fuzzy_match target (c_text chunk) in
         keep_best (fuzzy_threshold v) best ratio (span_anchor chunk span))
       chunks (f0, None)).

Section Cascade.
(** [kernel.core.embeddings] and [float(s)]. *)
Variable get_embedding : string → list f64.
Variable cosine_similarity : list f64 → list f64 → f64.
Variable parse_float : string → result f64.

Definition chunk_embedding (chunk : Chunk) : list f64 :=
  match c_embedding chunk with [] => get_embedding (c_text chunk) | e => e end.

Definition semantic_stage (v : GroundingVerifierImpl) (target : string) (chunks : list Chunk) : option Anchor :=
  let target_emb := get_embedding target in
  best_sem_chunk ← snd (fold_left (λ best chunk,
       keep_best (semantic_threshold v) best
         (cosine_similarity target_emb (chunk_embedding chunk)) chunk) chunks (f0, None));
  let chunk_words := tokens (c_text best_sem_chunk) in
  let target_words := tokens target in
  if negb (bool_decide (chunk_words ∩ target_words = ∅)) || bool_decide (target_words = ∅)
  then Some (span_anchor best_sem_chunk (0, String.length (c_text best_sem_chunk))%nat)
  else None.

(** A [ValueError] of [float] or of [BBox] gives [None]. *)
Definition parse_candidate_bbox (source_span : string) : option BBox :=
  if negb (starts_with "bbox:" source_span) then None
  else match split_char ","%char (drop_str 5 source_span) with
  | [p0; p1; p2; p3] =>
      match (a ← parse_float p0; b ← parse_float p1; c ← parse_float p2; d ← parse_float p3;
             mk_BBox a b c d) with
      | Ok b => Some b
      | Raise _ => None
      end
  | _ => None
  end.

Definition visual_stage (v : GroundingVerifierImpl) (source_span : string) (chunks : list Chunk) : option Anchor :=
  candidate ← parse_candidate_bbox source_span;
  chunk ← snd (fold_left (λ best chunk,
       match c_bbox chunk with
       | None => best
       | Some b => keep_best (visual_threshold v) best (bbox_iou candidate b) chunk
       end) chunks (f0, None));
  Some (span_anchor chunk (0, String.length (c_text chunk))%nat).

(** [if stage enabled: ... return method, (anchor,)], else the next stage. *)
Definition try_stage (v : GroundingVerifierImpl) (m : GroundingMethod) (anchor : option Anchor)
    (next : GroundingMethod * list Anchor) : GroundingMethod * list Anchor :=
  if enabled v m then match anchor with Some a => (m, [a]) | None => next end else next.

Definition target_of (value source_span : string) : string := or_str source_span value.

Definition verify (v : GroundingVerifierImpl) (value source_span : string) (chunks : list Chunk)
    : GroundingMethod * list Anchor :=
  match chunks with
  | [] => (BLOCK, [])
  | _ =>
      let target := target_of value source_span in
      if bool_decide (strip target = "") then (BLOCK, [])
      else
        try_stage v EXACT (exact_stage target chunks)
        (try_stage v FUZZY (fuzzy_stage v target chunks)
        (try_stage v SEMANTIC (semantic_stage v target chunks)
        (try_stage v VISUAL (visual_stage v source_span chunks)
        (BLOCK, []))))
  end.
End Cascade.

(** ** The window scan *)

(** What is known of a scan: its ratio is that of the window it names, and it
    is at least that of every window visited. *)
Section Scan.
Variables (val_norm text : string) (words_spans : list (nat * nat)).

Definition window_ratio (span : nat * nat) : f64 :=
  levenshtein_ratio val_norm (normalize_text (slice (fst span) (snd span) text)).

Definition span_at (length i : nat) : nat * nat :=
  default (0, 0)%nat (window_span words_spans i length).

Definition scan_sound (lengths : list nat) (st : scan) : Prop :=
  best_ratio st = f0 ∧ best_span st = (0, 0)%nat ∨
  flt f0 (best_ratio st) = true ∧ best_ratio st = window_ratio (best_span st) ∧
  ∃ L i, L ∈ lengths ∧ i ∈ window_indices (List.length words_spans + 1 - L) ∧ best_span st = span_at L i.

Lemma scan_window_eq length st i :
  scan_window val_norm text words_spans length st i =
  if (MAX_WINDOWS <=? windows_scanned st)%nat then st
  else if flt (best_ratio st) (window_ratio (span_at length i))
  then {| windows_scanned := S (windows_scanned st); best_ratio := window_ratio (span_at length i);
          best_span := span_at length i |}
  else {| windows_scanned := S (windows_scanned st); best_ratio := best_ratio st;
          best_span := best_span st |}.
Proof. unfold scan_window, window_ratio, span_at. by destruct (default _ _). Qed.

Lemma scan_sound_window lengths L st i :
  L ∈ lengths → i ∈ window_indices (List.length words_spans + 1 - L) →
  scan_sound lengths st → scan_sound lengths (scan_window val_norm text words_spans L st i).
Proof.
  intros HL Hi Hst. rewrite scan_window_eq. case_match; [done|].
  case_match eqn:E; [|done]. right. simpl. split_and!; [|done|eauto].
  destruct Hst as [[H0 _]|[Hp _]]; [by rewrite H0 in E|by eapply flt_trans].
Qed.

Lemma scan_sound_all lengths st :
  scan_sound lengths st →
  scan_sound lengths (fold_left (scan_length val_norm text words_spans) lengths st).
Proof.
  intros Hst. apply fold_left_inv; [done|]. intros st' L HL H'. unfold scan_length.
  case_match; [done|]. apply fold_left_inv; [done|]. intros. by apply scan_sound_window.
Qed.

Lemma windows_scanned_window length st i :
  windows_scanned (scan_window val_norm text words_spans length st i) =
  if (MAX_WINDOWS <=? windows_scanned st)%nat then windows_scanned st else S (windows_scanned st).
Proof. rewrite scan_window_eq. by repeat case_match. Qed.

Lemma windows_scanned_fold length l st :
  (windows_scanned st ≤ MAX_WINDOWS)%nat →
  windows_scanned (fold_left (scan_window val_norm text words_spans length) l st) =
  Nat.min MAX_WINDOWS (windows_scanned st + List.length l).
Proof.
  revert st. induction l as [|i l IH]; intros st H; cbn [fold_left List.length]; [lia|].
  assert (windows_scanned (scan_window val_norm text words_spans length st i) =
          Nat.min MAX_WINDOWS (S (windows_scanned st))) as Hs.
  { rewrite windows_scanned_window. destruct (Nat.leb_spec MAX_WINDOWS (windows_scanned st)); lia. }
  rewrite IH by lia. lia.
Qed.

Lemma length_window_indices k : List.length (window_indices k) = Nat.min k MAX_WINDOWS.
Proof.
  unfold window_indices. case_match eqn:E; rewrite ?Nat.leb_le, ?Nat.leb_gt in E;
    rewrite ?length_map, length_seq; lia.
Qed.

(** A full scan: nothing happens any more. *)
Lemma scan_full lengths st :
  windows_scanned st = MAX_WINDOWS →
  fold_left (scan_length val_norm text words_spans) lengths st = st.
Proof.
  intros H. induction lengths as [|L l IH]; simpl; [done|].
  unfold scan_length at 2. by rewrite H.
Qed.

(** The visited windows are not better than the result. *)
Definition dominates (st : scan) (x : f64) : Prop := flt (best_ratio st) x = false.

Lemma scan_window_dominates length st i x :
  dominates st x → dominates (scan_window val_norm text words_spans length st i) x.
Proof.
  unfold dominates. intros H. rewrite scan_window_eq. destruct (_ <=? _)%nat; [exact H|].
  destruct (flt (best_ratio st) (window_ratio _)) eqn:E; simpl; [|exact H].
  destruct (flt (window_ratio _) x) eqn:E'; [|done]. rewrite (flt_trans _ _ _ E E') in H. discriminate.
Qed.

Lemma scan_fold_dominates length l st x :
  dominates st x → dominates (fold_left (scan_window val_norm text words_spans length) l st) x.
Proof. intros H. apply fold_left_inv; auto using scan_window_dominates. Qed.

Lemma scan_lengths_dominates lengths st x :
  dominates st x → dominates (fold_left (scan_length val_norm text words_spans) lengths st) x.
Proof.
  intros H. apply fold_left_inv; [done|]. intros st' L _ H'. unfold scan_length.
  case_match; auto using scan_fold_dominates.
Qed.

Lemma scan_fold_visits length l st i :
  (windows_scanned st + List.length l ≤ MAX_WINDOWS)%nat → i ∈ l →
  dominates (fold_left (scan_window val_norm text words_spans length) l st)
    (window_ratio (span_at length i)).
Proof.
  revert st. induction l as [|k l IH]; intros st Hn Hi; [by apply not_elem_of_nil in Hi|].
  simpl in *. apply elem_of_cons in Hi as [->|Hi].
  - apply scan_fold_dominates. unfold dominates. rewrite scan_window_eq.
    rewrite (proj2 (Nat.leb_gt _ _)) by lia.
    case_match eqn:E; simpl; [apply flt_irrefl|done].
  - apply IH; [|done]. rewrite windows_scanned_window. case_match; lia.
Qed.
End Scan.

Section ScanAll.
Variables (val_norm text : string) (words_spans : list (nat * nat)).

Definition total_windows (lengths : list nat) : nat :=
  sum_list_with (λ L, List.length words_spans + 1 - L)%nat lengths.

Lemma scan_lengths_visit lengths st L i :
  (windows_scanned st + total_windows lengths ≤ MAX_WINDOWS)%nat →
  L ∈ lengths → (i < List.length words_spans + 1 - L)%nat →
  dominates (fold_left (scan_length val_norm text words_spans) lengths st)
    (window_ratio val_norm text (span_at words_spans L i)).
Proof.
  revert st. induction lengths as [|K lengths IH]; intros st Hn HL Hi; [by apply not_elem_of_nil in HL|].
  unfold total_windows in Hn. cbn [sum_list_with fold_left] in *. fold (total_windows lengths) in Hn.
  assert (∀ k, (k ≤ MAX_WINDOWS)%nat → window_indices k = seq 0 k) as HW.
  { intros k Hk. unfold window_indices. by rewrite (proj2 (Nat.leb_le _ _)). }
  apply elem_of_cons in HL as [->|HL].
  - apply scan_lengths_dominates. unfold scan_length. rewrite (proj2 (Nat.leb_gt _ _)) by lia.
    apply scan_fold_visits; [rewrite length_window_indices; lia|].
    rewrite HW by lia. apply elem_of_seq. lia.
  - apply IH; [|done|done]. unfold scan_length. case_match eqn:E; [lia|].
    rewrite windows_scanned_fold by lia. rewrite length_window_indices. lia.
Qed.
End ScanAll.

Definition init_scan : scan := {| windows_scanned := 0; best_ratio := f0; best_span := (0, 0)%nat |}.

Lemma init_scan_sound val_norm text spans lengths : scan_sound val_norm text spans lengths init_scan.
Proof. by left. Qed.

(** The scan without its early return: an empty text has no windows. *)
Lemma best_fuzzy_match_eq value text :
  normalize_text value ≠ "" →
  let st := fold_left (scan_length (normalize_text value) text (word_spans text))
              (window_lengths (List.length (split (normalize_text value)))
                 (List.length (word_spans text))) init_scan in
  best_fuzzy_match value text = (best_ratio st, best_span st).
Proof.
  intros Hv. unfold best_fuzzy_match. rewrite bool_decide_false by done.
  destruct (word_spans text); [|done].
  unfold window_lengths. simpl List.length.
  replace (Nat.min (0 + 1) _ - _)%nat with 0%nat by lia. done.
Qed.

Lemma best_fuzzy_match_sound value text :
  normalize_text value ≠ "" →
  let '(ratio, span) := best_fuzzy_match value text in
  let spans := word_spans text in
  ratio = f0 ∧ span = (0, 0)%nat ∨
  flt f0 ratio = true ∧ ratio = window_ratio (normalize_text value) text span ∧
  ∃ L i, L ∈ window_lengths (List.length (split (normalize_text value))) (List.length spans) ∧
    i ∈ window_indices (List.length spans + 1 - L) ∧ span = span_at spans L i.
Proof. intros Hv. rewrite best_fuzzy_match_eq by done. apply scan_sound_all, init_scan_sound. Qed.

(** [best_fuzzy_match] on a non-empty normalized value: the result is zero
    with an empty span, or the positive similarity of the normalized text
    under the returned span, which is a window of [n-1] to [n+2] consecutive
    words of the text; and when there are at most 500 such windows, none of
    them is more similar. *)
Theorem best_fuzzy_match_spec value text :
  normalize_text value ≠ "" →
  let val_norm := normalize_text value in
  let spans := word_spans text in
  let lengths := window_lengths (List.length (split val_norm)) (List.length spans) in
  let '(ratio, span) := best_fuzzy_match value text in
  (ratio = f0 ∧ span = (0, 0)%nat ∨
   flt f0 ratio = true ∧ ratio = window_ratio val_norm text span ∧
   ∃ L i, L ∈ lengths ∧ i ∈ window_indices (List.length spans + 1 - L) ∧ span = span_at spans L i) ∧
  ((total_windows spans lengths ≤ MAX_WINDOWS)%nat →
   ∀ L i, L ∈ lengths → (i < List.length spans + 1 - L)%nat →
     flt ratio (window_ratio val_norm text (span_at spans L i)) = false).
Proof.
  intros Hv val_norm spans lengths. pose proof (best_fuzzy_match_sound value text Hv) as HS.
  rewrite best_fuzzy_match_eq in * by done. fold val_norm spans in HS |- *. fold lengths in HS |- *.
  split; [exact HS|]. intros Hn L i HL Hi.
  by apply (scan_lengths_visit val_norm text spans lengths init_scan).
Qed.

(** In a long chunk the budget of 500 windows is spent on the first
    window length: when there are at least 500 windows of [max(1, n-1)] words,
    every match found has that many words, so a value of [n >= 2] words is
    never compared with a window of its own length. *)
Theorem best_fuzzy_match_long value text :
  let n := List.length (split (normalize_text value)) in
  let spans := word_spans text in
  (MAX_WINDOWS ≤ List.length spans + 1 - Nat.max 1 (n - 1))%nat →
  let '(ratio, span) := best_fuzzy_match value text in
  ratio = f0 ∨ ∃ i, span = span_at spans (Nat.max 1 (n - 1)) i.
Proof.
  intros n spans Hn. destruct (decide (normalize_text value = "")) as [He|Hv].
  { unfold best_fuzzy_match. rewrite bool_decide_true by done. by left. }
  rewrite best_fuzzy_match_eq by done. fold spans n.
  set (L := Nat.max 1 (n - 1)) in *.
  assert (window_lengths n (List.length spans) =
          L :: seq (S L) (Nat.min (List.length spans + 1) (n + 3) - L - 1)) as ->.
  { unfold window_lengths. fold L.
    assert (1 ≤ Nat.min (List.length spans + 1) (n + 3) - L)%nat as Hk by (unfold MAX_WINDOWS in Hn; lia).
    destruct (Nat.min _ _ - L)%nat as [|k]; [lia|]. simpl. by rewrite Nat.sub_0_r. }
  cbn [fold_left].
  set (st := scan_length _ _ _ _ L).
  assert (windows_scanned st = MAX_WINDOWS) as Hst.
  { unfold st, scan_length. cbn [windows_scanned init_scan].
    rewrite (proj2 (Nat.leb_gt _ _)) by (unfold MAX_WINDOWS; lia).
    rewrite windows_scanned_fold by (cbn [windows_scanned init_scan]; lia).
    rewrite length_window_indices. cbn [windows_scanned init_scan]. lia. }
  rewrite scan_full by done.
  assert (scan_sound (normalize_text value) text spans [L] st) as [[H0 _]|(_ & _ & K & i & HK & _ & Hi)].
  { apply (scan_sound_all (normalize_text value) text spans [L] init_scan), init_scan_sound. }
  - by left.
  - right. apply list_elem_of_singleton in HK as ->. eauto.
Qed.

(** ** The cascade *)

Section KeepBest.
Context {A : Type} (threshold : f64).

Definition nonneg_best (best : f64 * option A) : Prop := fle f0 (fst best) = true.

(** [Q] holds of whatever the loop has kept. *)
Definition kept_spec (Q : f64 → A → Prop) (best : f64 * option A) : Prop :=
  fle f0 (fst best) = true ∧ ∀ a, snd best = Some a → Q (fst best) a.

Lemma keep_best_spec (Q : f64 → A → Prop) best score a :
  kept_spec Q best →
  (fle threshold score = true → flt f0 score = true → Q score a) →
  kept_spec Q (keep_best threshold best score a).
Proof.
  intros [H0 HQ] Hs. unfold keep_best. case_match eqn:E; [|done].
  apply andb_true_iff in E as [E1 E2].
  assert (flt f0 score = true) by (by eapply fle_lt_trans).
  split; simpl; [by apply flt_le|]. intros ? [= <-]. by apply Hs.
Qed.

Lemma kept_spec_init (Q : f64 → A → Prop) : kept_spec Q (f0, None).
Proof. by split. Qed.
End KeepBest.

(** The anchor names [chunk] and carries its page and box. *)
Definition anchors_chunk (a : Anchor) (chunk : Chunk) : Prop :=
  a_chunk_id a = c_chunk_id chunk ∧ a_page a = c_page chunk ∧ a_bbox a = c_bbox chunk.

Section Evidence.
Variable get_embedding : string → list f64.
Variable cosine_similarity : list f64 → list f64 → f64.
Variable parse_float : string → result f64.
Abbreviation cascade := (verify get_embedding cosine_similarity parse_float).

(** What each stage has established about the chunk it anchors to. *)
Definition stage_evidence (v : GroundingVerifierImpl) (target source_span : string) (chunk : Chunk)
    (m : GroundingMethod) (span : Z * Z) : Prop :=
  match m with
  | EXACT => ∃ b, span = (Z.of_nat b, Z.of_nat (b + String.length target)) ∧
      lower (slice b (b + String.length target) (c_text chunk)) = lower target
  | FUZZY => ∃ b e, span = (Z.of_nat b, Z.of_nat e) ∧
      fle (fuzzy_threshold v)
        (levenshtein_ratio (normalize_text target) (normalize_text (slice b e (c_text chunk)))) = true
  | SEMANTIC =>
      fle (semantic_threshold v)
        (cosine_similarity (get_embedding target) (chunk_embedding get_embedding chunk)) = true ∧
      ((∃ w, w ∈ tokens (c_text chunk) ∧ w ∈ tokens target) ∨ tokens target = ∅)
  | VISUAL => ∃ candidate b, parse_candidate_bbox parse_float source_span = Some candidate ∧
      c_bbox chunk = Some b ∧ fle (visual_threshold v) (bbox_iou candidate b) = true
  | BLOCK => False
  end.

Lemma exact_stage_evidence v target source_span chunks a :
  exact_stage target chunks = Some a →
  ∃ chunk, chunk ∈ chunks ∧ anchors_chunk a chunk ∧
    stage_evidence v target source_span chunk EXACT (a_char_span a).
Proof.
  unfold exact_stage. intros H. apply bind_Some in H as (chunk & Hc & H).
  apply bind_Some in H as (start & Hf & H). injection H as <-.
  apply find_first_Some in Hc as [Hc _]. exists chunk. split; [done|]. split; [done|].
  exists start. split; [done|]. apply find_Some in Hf as [_ Hf]. rewrite length_lower in Hf.
  by rewrite lower_slice.
Qed.

Lemma exact_stage_None target chunks :
  exact_stage target chunks = None ↔
  ∀ chunk, chunk ∈ chunks → contains (lower target) (lower (c_text chunk)) = false.
Proof.
  unfold exact_stage. destruct (find_first _ chunks) as [c|] eqn:E; simpl.
  - apply find_first_Some in E as [Hc E]. split; [|intros H; by rewrite H in E].
    unfold contains in E. by destruct (find _ _).
  - apply find_first_None in E. rewrite Forall_forall in E. by split; [intros _|].
Qed.

Lemma fuzzy_stage_evidence v target source_span chunks a :
  fuzzy_stage v target chunks = Some a →
  ∃ chunk, chunk ∈ chunks ∧ anchors_chunk a chunk ∧
    stage_evidence v target source_span chunk FUZZY (a_char_span a).
Proof.
  unfold fuzzy_stage. intros Ha.
  set (Q := λ (_ : f64) (a : Anchor), ∃ chunk, chunk ∈ chunks ∧ anchors_chunk a chunk ∧
    stage_evidence v target source_span chunk FUZZY (a_char_span a)).
  refine (proj2 (_ : kept_spec Q (fold_left _ chunks (f0, None))) a Ha).
  apply fold_left_inv; [apply kept_spec_init|]. intros best chunk Hc Hb.
  destruct (best_fuzzy_match target (c_text chunk)) as [ratio [b e]] eqn:E.
  apply keep_best_spec; [done|]. intros H1 H2. exists chunk. split; [done|]. split; [done|].
  exists b, e. split; [done|].
  destruct (decide (normalize_text target = "")) as [Hn|Hn].
  { unfold best_fuzzy_match in E. rewrite bool_decide_true in E by done.
    injection E as <- <- <-. by rewrite flt_irrefl in H2. }
  pose proof (best_fuzzy_match_sound target (c_text chunk) Hn) as S. rewrite E in S.
  destruct S as [[-> _]|(_ & -> & _)]; [by rewrite flt_irrefl in H2|done].
Qed.

Lemma semantic_stage_evidence v target source_span chunks a :
  semantic_stage get_embedding cosine_similarity v target chunks = Some a →
  ∃ chunk, chunk ∈ chunks ∧ anchors_chunk a chunk ∧
    stage_evidence v target source_span chunk SEMANTIC (a_char_span a).
Proof.
  unfold semantic_stage. intros H. apply bind_Some in H as (chunk & Hc & H).
  case_match eqn:E; [|done]. injection H as <-. exists chunk.
  set (Q := λ (s : f64) (c : Chunk), c ∈ chunks ∧ fle (semantic_threshold v)
        (cosine_similarity (get_embedding target) (chunk_embedding get_embedding c)) = true).
  assert (kept_spec Q (fold_left (λ best chunk,
       keep_best (semantic_threshold v) best
         (cosine_similarity (get_embedding target) (chunk_embedding get_embedding chunk)) chunk)
         chunks (f0, None))) as HQ.
  { apply fold_left_inv; [apply kept_spec_init|]. intros best c Hc' Hb. by apply keep_best_spec. }
  destruct (proj2 HQ _ Hc) as [Hin Hcos]. split; [done|]. split; [done|]. split; [done|].
  apply orb_true_iff in E as [E|E]; bool_prop; [left|by right].
  apply set_choose_L in E as [w Hw]. set_solver.
Qed.

Lemma visual_stage_evidence v target source_span chunks a :
  visual_stage parse_float v source_span chunks = Some a →
  ∃ chunk, chunk ∈ chunks ∧ anchors_chunk a chunk ∧
    stage_evidence v target source_span chunk VISUAL (a_char_span a).
Proof.
  unfold visual_stage. intros H. apply bind_Some in H as (cand & Hp & H).
  apply bind_Some in H as (chunk & Hc & H). injection H as <-. exists chunk.
  set (Q := λ (s : f64) (c : Chunk), c ∈ chunks ∧
    ∃ b, c_bbox c = Some b ∧ fle (visual_threshold v) (bbox_iou cand b) = true).
  set (f := λ (best : f64 * option Chunk) (chunk : Chunk), match c_bbox chunk with
    | Some b => keep_best (visual_threshold v) best (bbox_iou cand b) chunk | None => best end).
  assert (kept_spec Q (fold_left f chunks (f0, None))) as HQ.
  { apply fold_left_inv; [apply kept_spec_init|]. intros best c Hc' Hb. unfold f.
    destruct (c_bbox c) as [b|] eqn:Eb; [|done]. apply keep_best_spec; [done|].
    intros ? _. split; eauto. }
  destruct (proj2 HQ chunk Hc) as [Hin (b & Hb & Hi)]. split; [done|]. split; [done|].
  exists cand, b. done.
Qed.

Lemma try_stage_inv v m anchor next m' anchors :
  try_stage v m anchor next = (m', anchors) →
  (enabled v m = true ∧ ∃ a, anchor = Some a ∧ m' = m ∧ anchors = [a]) ∨ next = (m', anchors).
Proof. unfold try_stage. repeat case_match; intros; simplify_eq; eauto 7. Qed.

Lemma verify_evidence_lemma v value source_span chunks m anchors :
  cascade v value source_span chunks = (m, anchors) →
  (m = BLOCK ∧ anchors = []) ∨
  ∃ a chunk, anchors = [a] ∧ enabled v m = true ∧ chunk ∈ chunks ∧ anchors_chunk a chunk ∧
    stage_evidence v (target_of value source_span) source_span chunk m (a_char_span a).
Proof.
  unfold verify. intros H.
  assert (chunks ≠ [] → bool_decide (strip (target_of value source_span) = "") = false →
    (m = BLOCK ∧ anchors = []) ∨ enabled v m = true ∧ ∃ a, anchors = [a] ∧ ∃ chunk, chunk ∈ chunks ∧
      anchors_chunk a chunk ∧
      stage_evidence v (target_of value source_span) source_span chunk m (a_char_span a)) as HA.
  { intros Hc Hs. destruct chunks as [|c cs] eqn:Ec; [done|]. rewrite Hs in H.
    apply try_stage_inv in H as [[He (a & Ha & -> & ->)]|H].
    { right. split; [done|]. exists a. split; [done|]. by apply exact_stage_evidence. }
    apply try_stage_inv in H as [[He (a & Ha & -> & ->)]|H].
    { right. split; [done|]. exists a. split; [done|]. by apply fuzzy_stage_evidence. }
    apply try_stage_inv in H as [[He (a & Ha & -> & ->)]|H].
    { right. split; [done|]. exists a. split; [done|]. by apply semantic_stage_evidence. }
    apply try_stage_inv in H as [[He (a & Ha & -> & ->)]|H].
    { right. split; [done|]. exists a. split; [done|]. by apply visual_stage_evidence. }
    left. by injection H as <- <-. }
  destruct chunks as [|c cs]; [left; by injection H as <- <-|].
  destruct (bool_decide _) eqn:Hs; [left; by injection H as <- <-|].
  destruct HA as [?|(? & a & ? & ch & ?)]; [done|done|by left|right; exists a, ch; naive_solver].
Qed.
(** C7.  Every grounding is backed by evidence: a result other than BLOCK
    comes from an enabled stage and carries one anchor, which names a chunk
    of the input with that chunk's page and box, and the stage's condition
    holds of that chunk: EXACT - the spanned text is the target up to case;
    FUZZY - the spanned words reach the similarity threshold; SEMANTIC - the
    cosine reaches its threshold and a normalized word is shared (or the
    target has none); VISUAL - the box encoded in the source span overlaps
    the chunk's stored box by the threshold. *)
Theorem verify_evidence v value source_span chunks m anchors :
  cascade v value source_span chunks = (m, anchors) →
  (m = BLOCK ∧ anchors = []) ∨
  ∃ a chunk, anchors = [a] ∧ enabled v m = true ∧ chunk ∈ chunks ∧ anchors_chunk a chunk ∧
    stage_evidence v (target_of value source_span) source_span chunk m (a_char_span a).
Proof. apply verify_evidence_lemma. Qed.

(** EXACT is complete: with the stage enabled and a target that is not
    blank, the cascade answers EXACT if and only if some chunk contains the
    target up to case, whatever the other stages would say. *)
Theorem verify_exact_iff v value source_span chunks :
  enabled v EXACT = true → strip (target_of value source_span) ≠ "" →
  fst (cascade v value source_span chunks) = EXACT ↔
  ∃ chunk, chunk ∈ chunks ∧
    contains (lower (target_of value source_span)) (lower (c_text chunk)) = true.
Proof.
  intros He Hs. set (target := target_of value source_span) in *. unfold verify.
  destruct chunks as [|c cs] eqn:Ec.
  { split; [done|]. intros (ch & Hin & _). by apply not_elem_of_nil in Hin. }
  rewrite <-Ec. fold target. rewrite bool_decide_false by done. unfold try_stage at 1. rewrite He.
  destruct (exact_stage target chunks) as [a|] eqn:Ex.
  - split; [|done]. intros _. unfold exact_stage in Ex. apply bind_Some in Ex as (ch & Hch & _).
    apply find_first_Some in Hch as [? ?]. eauto.
  - pose proof (proj1 (exact_stage_None _ _) Ex) as Hn. split.
    + intros H. exfalso. unfold try_stage in H. repeat case_match; done.
    + intros (ch & Hin & Hc). rewrite Hn in Hc; done.
Qed.
End Evidence.

(** ** The similarity score *)

Lemma edit_distance_refl s : edit_distance s s 0.
Proof.
  split.
  - induction s; [constructor|by apply edits_keep].
  - intros n H. assert (∀ s t n, edits s t n → 0 ≤ n) as Hn by (clear; induction 1; lia). eauto.
Qed.

(** The similarity of two texts longer than 200 characters depends on
    their first 200 characters alone: when those agree up to case and the
    lengths are within a factor of two, the similarity is 1.0 whatever follows. *)
Theorem long_texts_truncated s1 s2 :
  (LEVENSHTEIN_MAX_LEN < String.length s1)%nat → (LEVENSHTEIN_MAX_LEN < String.length s2)%nat →
  lower (take_str LEVENSHTEIN_MAX_LEN s1) = lower (take_str LEVENSHTEIN_MAX_LEN s2) →
  (of_Z (Z.min (len s1) (len s2)) / of_Z (Z.max (len s1) (len s2)) <? lit 5 10)%f64 = false →
  levenshtein_ratio s1 s2 = f1.
Proof.
  intros H1 H2 Ht Hr. unfold levenshtein_ratio. case_bool_decide; [done|].
  unfold len in *. rewrite !length_lower.
  rewrite !(proj2 (Z.eqb_neq _ _)) by (unfold LEVENSHTEIN_MAX_LEN in *; lia). cbn [orb]. rewrite Hr.
  rewrite !(proj2 (Nat.ltb_lt _ _)) by done. rewrite !lower_take in Ht. rewrite Ht.
  set (t := take_str _ (lower s2)).
  assert (String.length t = LEVENSHTEIN_MAX_LEN) as Hl.
  { unfold t. rewrite length_take_str, length_lower. lia. }
  assert (myers_distance (chars t) (chars t) = 0) as ->.
  { rewrite myers_distance_cell by (rewrite length_chars, Hl; unfold LEVENSHTEIN_MAX_LEN; lia).
    eapply edit_distance_unique; [apply cell_full|apply edit_distance_refl]. }
  rewrite Hl. vm_compute. reflexivity.
Qed.

Lemma edits_length s t n : edits s t n → Z.abs (Z.of_nat (length s) - Z.of_nat (length t)) ≤ n.
Proof. induction 1; simpl; lia. Qed.

Lemma edits_max s t : ∃ n, edits s t n ∧ n ≤ Z.max (Z.of_nat (length s)) (Z.of_nat (length t)).
Proof.
  revert t. induction s as [|a s IH]; intros t; [exists (Z.of_nat (length t)); split; [apply edits_insert_all|simpl; lia]|].
  destruct t as [|b t].
  - destruct (IH []) as (n & Hn & Hl). exists (n + 1). split; [by apply edits_delete|simpl in *; lia].
  - destruct (IH t) as (n & Hn & Hl). exists (n + 1). split; [by apply edits_subst|simpl; lia].
Qed.

Lemma edit_distance_bounds s t d :
  edit_distance s t d →
  Z.abs (Z.of_nat (length s) - Z.of_nat (length t)) ≤ d ≤ Z.max (Z.of_nat (length s)) (Z.of_nat (length t)).
Proof.
  intros [H1 H2]. split; [by apply edits_length|]. destruct (edits_max s t) as (n & Hn & Hl).
  specialize (H2 n Hn). lia.
Qed.

Definition SHORT : nat := 64.

(** The floating-point comparisons for a distance [d] and a longer length [m]. *)
Definition threshold_ok (m d : nat) : bool :=
  Bool.eqb (lit 92 100 <=? f1 - of_Z (Z.of_nat d) / of_Z (Z.of_nat m))%f64
           (25 * Z.of_nat d <=? 2 * Z.of_nat m) &&
  (negb (of_Z (Z.of_nat d) / of_Z (Z.of_nat m) <? lit 5 10)%f64 ||
   (2 * Z.of_nat m <? 25 * (Z.of_nat m - Z.of_nat d))).

Lemma threshold_table : forallb (λ m, forallb (threshold_ok m) (seq 0 (S m))) (seq 1 SHORT) = true.
Proof. vm_compute. reflexivity. Qed.

Lemma threshold_table_at d m :
  0 ≤ d ≤ m → 0 < m ≤ Z.of_nat SHORT →
  (lit 92 100 <=? f1 - of_Z d / of_Z m)%f64 = (25 * d <=? 2 * m) ∧
  ((of_Z d / of_Z m <? lit 5 10)%f64 = true → 2 * m < 25 * (m - d)).
Proof.
  intros Hd Hm. 
  assert (In (Z.to_nat m) (seq 1 SHORT)) as Im by (apply in_seq; unfold SHORT in *; lia).
  assert (In (Z.to_nat d) (seq 0 (S (Z.to_nat m)))) as Id by (apply in_seq; lia).
  pose proof (proj1 (forallb_forall _ _) (proj1 (forallb_forall _ _) threshold_table _ Im) _ Id) as H.
  unfold threshold_ok in H. rewrite !Z2Nat.id in H by lia.
  apply andb_true_iff in H as [H1 H2]. apply Bool.eqb_prop in H1. split; [exact H1|].
  intros Hf. rewrite Hf in H2. simpl in H2. lia.
Qed.

(** What the FUZZY threshold means: for texts of 1 to 64 characters the
    floating-point similarity reaches 0.92 exactly when the edit distance, up
    to case, is at most 2/25 of the longer length; neither the early exit on
    lengths nor rounding changes the decision. *)
Theorem fuzzy_threshold_exact s1 s2 d :
  (1 ≤ String.length s1 ≤ SHORT)%nat → (1 ≤ String.length s2 ≤ SHORT)%nat →
  edit_distance (chars (lower s1)) (chars (lower s2)) d →
  (lit 92 100 <=? levenshtein_ratio s1 s2)%f64 = true ↔
  25 * d <= 2 * Z.max (len s1) (len s2).
Proof.
  intros H1 H2 Hd. unfold SHORT in *. unfold levenshtein_ratio, len.
  rewrite !length_lower. case_bool_decide as He.
  { rewrite He in Hd. pose proof (edit_distance_unique _ _ _ _ Hd (edit_distance_refl _)) as ->.
    split; [lia|done]. }
  rewrite !(proj2 (Z.eqb_neq _ _)) by lia. cbn [orb].
  assert (String.length (lower s1) ≤ 64 ∧ String.length (lower s2) ≤ 64)%nat as [B1 B2]
    by (rewrite !length_lower; lia).
  pose proof (edit_distance_bounds _ _ _ Hd) as HB. rewrite !length_chars, !length_lower in HB.
  destruct (_ <? lit 5 10)%f64 eqn:Hg.
  { apply threshold_table_at in Hg; [|lia|unfold SHORT; lia]. split; [done|lia]. }
  rewrite !(proj2 (Nat.ltb_ge _ _)) by (unfold LEVENSHTEIN_MAX_LEN; lia).
  assert (myers_distance (chars (lower s1)) (chars (lower s2)) = d) as ->.
  { rewrite myers_distance_cell by (rewrite length_chars, length_lower; lia).
    eapply edit_distance_unique; [apply cell_full|done]. }
  rewrite !length_lower. destruct (threshold_table_at d (Z.max (Z.of_nat (String.length s1)) (Z.of_nat (String.length s2))))
    as [-> _]; [lia|unfold SHORT; lia|]. apply Z.leb_le.
Qed.

Section Witnesses.
Fixpoint repeat_str (n : nat) (s : string) : string :=
  match n with O => "" | S n' => s +:+ repeat_str n' s end.

Definition demo_chunk : Chunk :=
  {| c_chunk_id := "c1"; c_doc_id := "d1"; c_page := 1;
     c_bbox := Some {| x0 := f0; y0 := f0; x1 := f1; y1 := f1 |};
     c_text := "Invoice from ACME Corporation"; c_source_type := "pdf"; c_embedding := [] |}.
Definition no_embedding : string → list f64 := λ _, [].
Definition no_similarity : list f64 → list f64 → f64 := λ _ _, f0.
Definition no_float : string → result f64 := λ _, raise "ValueError" "".

Lemma best_fuzzy_match_spec_witness :
  let '(ratio, span) := best_fuzzy_match "Acme Corporation" (c_text demo_chunk) in
  ratio = f0 ∨
  ratio = window_ratio (normalize_text "Acme Corporation") (c_text demo_chunk) span.
Proof.
  assert (normalize_text "Acme Corporation" ≠ "") as H by (vm_compute; discriminate).
  pose proof (best_fuzzy_match_spec "Acme Corporation" (c_text demo_chunk) H) as S.
  destruct (best_fuzzy_match _ _) as [r s]. destruct S as [[[H1 _]|(_ & H1 & _)] _]; [left|right]; exact H1.
Defined.

Example best_fuzzy_match_acme :
  snd (best_fuzzy_match "Acme Corporation" (c_text demo_chunk)) = (13, 29)%nat.
Proof. vm_compute. reflexivity. Qed.

Lemma best_fuzzy_match_long_witness :
  let '(ratio, span) := best_fuzzy_match "alpha beta" (repeat_str 600 "w ") in
  ratio = f0 ∨ ∃ i, span = span_at (word_spans (repeat_str 600 "w ")) 1 i.
Proof.
  apply (best_fuzzy_match_long "alpha beta" (repeat_str 600 "w ")).
  apply Nat.leb_le. vm_compute. reflexivity.
Defined.

Lemma verify_evidence_witness :
  ∃ a chunk, chunk ∈ [demo_chunk] ∧ anchors_chunk a chunk ∧
    stage_evidence no_embedding no_similarity no_float default_verifier "acme" "" chunk EXACT (a_char_span a).
Proof.
  destruct (verify_evidence no_embedding no_similarity no_float default_verifier "acme" "" [demo_chunk] EXACT
    [span_anchor demo_chunk (13, 17)%nat]) as [[? _]|(a & ch & _ & _ & ? & ? & ?)];
    [vm_compute; reflexivity|discriminate|eauto].
Defined.

Lemma verify_exact_iff_witness :
  fst (verify no_embedding no_similarity no_float default_verifier "acme" "" [demo_chunk]) = EXACT.
Proof.
  apply verify_exact_iff; [vm_compute; reflexivity|vm_compute; discriminate|].
  exists demo_chunk. split; [constructor|vm_compute; reflexivity].
Defined.

Lemma long_texts_truncated_witness :
  levenshtein_ratio (repeat_str 200 "a" +:+ "b") (repeat_str 200 "a" +:+ "xyz") = f1.
Proof.
  apply long_texts_truncated; try (apply Nat.ltb_lt); vm_compute; reflexivity.
Defined.

Lemma fuzzy_threshold_exact_witness :
  (lit 92 100 <=? levenshtein_ratio "acme corporation ltd inc" "acme corporatoin ltd inc")%f64 = false.
Proof.
  apply not_true_is_false. intros H.
  pose proof (proj1 (myers_distance_correct (chars "acme corporation ltd inc") (chars "acme corporatoin ltd inc")
    ltac:(done))) as Hd.
  apply (fuzzy_threshold_exact "acme corporation ltd inc" "acme corporatoin ltd inc") with (3 := Hd) in H;
    [|unfold SHORT; simpl; lia..].
  vm_compute in H. by apply H.
Defined.
End Witnesses.
