(* ===== verification/Standalone.v ===== *)
(** * The standalone verifier ([kernel/core/verifier_standalone.py])

    The model-independent re-check of a claimed quote and bounding box against
    the stored geometry.  The module defines its own [BBox] and
    [normalize_text]; they are those of [DataModel] and [TextMatch].  The text
    of [Rejected.detail] is left out. *)

From S2P Require Import Prelude PyStr PyFloat PyDict Json DataModel Levenshtein TextMatch.

Inductive VerifyMethod := V_EXACT | V_FUZZY | V_SEMANTIC | V_VISUAL.
Inductive RejectReason := OFF_PAGE | EMPTY_QUOTE | NO_MATCH | BBOX_MISMATCH | WHITESPACE.

Record StoredRegion := { r_text : string; r_bbox : BBox; r_page : Z; r_region_id : string }.
Record PageBounds := { width : f64; height : f64 }.

Record Verified := {
  v_method : VerifyMethod; v_matched_text : string; v_matched_bbox : BBox;
  v_matched_region_id : string; v_similarity : f64; v_iou : f64; v_page : Z }.
Record Rejected := { rj_reason : RejectReason; rj_best_similarity : f64; rj_best_iou : f64 }.

(** ** Geometry *)

Definition area (b : BBox) : f64 := ((x1 b - x0 b) * (y1 b - y0 b))%f64.

Definition compute_iou (a b : BBox) : f64 :=
  let ix0 := fmax (x0 a) (x0 b) in
  let iy0 := fmax (y0 a) (y0 b) in
  let ix1 := fmin (x1 a) (x1 b) in
  let iy1 := fmin (y1 a) (y1 b) in
  let inter_w := (ix1 - ix0)%f64 in
  let inter_h := (iy1 - iy0)%f64 in
  if (inter_w <=? f0)%f64 || (inter_h <=? f0)%f64 then f0
  else
    let inter_area := (inter_w * inter_h)%f64 in
    let union_area := (area a + area b - inter_area)%f64 in
    if (union_area <=? f0)%f64 then f0 else (inter_area / union_area)%f64.

Definition bbox_within_page (b : BBox) (page : option PageBounds) : bool :=
  match page with
  | None => true
  | Some p =>
      if (x0 b <? f0)%f64 || (y0 b <? f0)%f64 then false
      else negb ((x1 b >? width p)%f64 || (y1 b >? height p)%f64)
  end.

Definition bbox_over_whitespace (claimed : BBox) (regions : list StoredRegion) (iou_threshold : f64) : bool :=
  forallb (λ r, negb (compute_iou claimed (r_bbox r) >=? iou_threshold)%f64) regions.

(** ** Text *)

Definition levenshtein_ratio (s1 s2 : string) : f64 :=
  let s1 := lower s1 in
  let s2 := lower s2 in
  if bool_decide (s1 = s2) then f1
  else if (len s1 =? 0) || (len s2 =? 0) then f0
  else (f1 - of_Z (dp_distance (chars s1) (chars s2)) / of_Z (Z.max (len s1) (len s2)))%f64.

Abbreviation best := (f64 * (nat * nat))%type.

Definition try_window (val_norm text : string) (words_spans : list (nat * nat)) (length : nat)
    (st : best) (i : nat) : best :=
  let '(b, e) := default (0, 0)%nat (window_span words_spans i length) in
  let ratio := levenshtein_ratio val_norm (normalize_text (slice b e text)) in
  if (ratio >? fst st)%f64 then (ratio, (b, e)) else st.

Definition best_fuzzy_match (value text : string) : best :=
  let val_norm := normalize_text value in
  if bool_decide (val_norm = "") then (f0, (0, 0)%nat)
  else
    let n := List.length (split val_norm) in
    let words_spans := word_spans text in
    match words_spans with
    | [] => (f0, (0, 0)%nat)
    | _ =>
        let lo := Nat.max 1 (n - 1) in
        fold_left (λ st length,
            fold_left (try_window val_norm text words_spans length)
              (seq 0 (List.length words_spans - length + 1)) st)
          (seq lo (Nat.min (List.length words_spans + 1) (n + 3) - lo))
          (f0, (0, 0)%nat)
    end.

Definition card (s : gset string) : Z := Z.of_nat (size s).

Definition jaccard_similarity (s1 s2 : string) : f64 :=
  let tokens1 := tokens s1 in
  let tokens2 := tokens s2 in
  if bool_decide (tokens1 = ∅) && bool_decide (tokens2 = ∅) then f1
  else if bool_decide (tokens1 = ∅) || bool_decide (tokens2 = ∅) then f0
  else (of_Z (card (tokens1 ∩ tokens2)) / of_Z (card (tokens1 ∪ tokens2)))%f64.

Definition semantic_re_verify (claimed_quote region_text : string) : bool :=
  let claim_words := tokens claimed_quote in
  let region_words := tokens region_text in
  let claim_content := filter (λ w, 2 < len w) claim_words in
  if bool_decide (claim_content = ∅)
  then (card claim_words >? 0) && (card (claim_words ∩ region_words) >? 0)
  else card (claim_content ∩ region_words) >? 0.

(** ** The cascade *)

Record StandaloneVerifier := {
  fuzzy_threshold : f64; semantic_threshold : f64; visual_iou_threshold : f64 }.

Definition default_verifier : StandaloneVerifier :=
  {| fuzzy_threshold := lit 92 100; semantic_threshold := lit 86 100; visual_iou_threshold := lit 5 10 |}.

Definition accept (m : VerifyMethod) (r : StoredRegion) (similarity iou : f64) : Verified :=
  {| v_method := m; v_matched_text := r_text r; v_matched_bbox := r_bbox r;
     v_matched_region_id := r_region_id r; v_similarity := similarity; v_iou := iou; v_page := r_page r |}.

Definition reject (reason : RejectReason) (similarity iou : f64) : Rejected :=
  {| rj_reason := reason; rj_best_similarity := similarity; rj_best_iou := iou |}.

(** [best_sim] and [best_iou], the running maxima. *)
Abbreviation progress := (f64 * f64)%type.

(** The EXACT loop: it returns at the first region that contains the quote
    and overlaps the claimed box, and otherwise records what it saw. *)
Fixpoint exact_loop (v : StandaloneVerifier) (norm_quote : string) (claimed : BBox)
    (regions : list StoredRegion) (p : progress) : Verified + progress :=
  match regions with
  | [] => inr p
  | region :: regions' =>
      if contains norm_quote (normalize_text (r_text region)) then
        let iou := compute_iou claimed (r_bbox region) in
        if (iou >=? visual_iou_threshold v)%f64 then inl (accept V_EXACT region f1 iou)
        else exact_loop v norm_quote claimed regions' (f1, fmax (snd p) iou)
      else exact_loop v norm_quote claimed regions' p
  end.

(** The region with the highest score, as FUZZY and SEMANTIC select it. *)
Definition best_region (score : StoredRegion → f64) (regions : list StoredRegion) : f64 * option StoredRegion :=
  fold_left (λ best region,
      let s := score region in
      if (s >? fst best)%f64 then (s, Some region) else best) regions (f0, None).

Definition fuzzy_step (v : StandaloneVerifier) (quote : string) (claimed : BBox)
    (regions : list StoredRegion) (p : progress) : Verified + progress :=
  match best_region (λ r, fst (best_fuzzy_match quote (r_text r))) regions with
  | (ratio, Some region) =>
      if (ratio >=? fuzzy_threshold v)%f64 then
        let iou := compute_iou claimed (r_bbox region) in
        if (iou >=? visual_iou_threshold v)%f64 then inl (accept V_FUZZY region ratio iou)
        else inr (fmax (fst p) ratio, fmax (snd p) iou)
      else inr p
  | (_, None) => inr p
  end.

Definition semantic_step (v : StandaloneVerifier) (quote : string) (claimed : BBox)
    (regions : list StoredRegion) (p : progress) : Verified + progress :=
  match best_region (λ r, jaccard_similarity quote (r_text r)) regions with
  | (score, Some region) =>
      if (score >=? semantic_threshold v)%f64 then
        let best_sim := fmax (fst p) score in
        if semantic_re_verify quote (r_text region) then
          let iou := compute_iou claimed (r_bbox region) in
          if (iou >=? visual_iou_threshold v)%f64 then inl (accept V_SEMANTIC region score iou)
          else inr (best_sim, fmax (snd p) iou)
        else inr (best_sim, snd p)
      else inr p
  | (_, None) => inr p
  end.

Fixpoint visual_loop (v : StandaloneVerifier) (quote norm_quote : string) (claimed : BBox)
    (regions : list StoredRegion) (p : progress) : Verified + progress :=
  match regions with
  | [] => inr p
  | region :: regions' =>
      let iou := compute_iou claimed (r_bbox region) in
      let p := (fst p, fmax (snd p) iou) in
      if (iou >=? visual_iou_threshold v)%f64 then
        if contains norm_quote (normalize_text (r_text region)) then inl (accept V_VISUAL region f1 iou)
        else
          let fuzzy_ratio := fst (best_fuzzy_match quote (r_text region)) in
          if (fuzzy_ratio >=? fuzzy_threshold v)%f64
          then inl (accept V_VISUAL region fuzzy_ratio iou)
          else visual_loop v quote norm_quote claimed regions' p
      else visual_loop v quote norm_quote claimed regions' p
  end.

(** The choice of the reject reason when no stage passed. *)
Definition block (v : StandaloneVerifier) (claimed : BBox) (regions : list StoredRegion) (p : progress) : Rejected :=
  let '(best_sim, best_iou) := p in
  if (best_sim >=? fuzzy_threshold v)%f64 || (best_sim >=? semantic_threshold v)%f64
  then reject BBOX_MISMATCH best_sim best_iou
  else if (best_iou >=? visual_iou_threshold v)%f64 then reject NO_MATCH best_sim best_iou
  else if bbox_over_whitespace claimed regions (lit 1 10) then reject WHITESPACE best_sim best_iou
  else reject NO_MATCH best_sim best_iou.

(** Run the next stage unless this one accepted. *)
Definition or_else {A} (r : A + progress) (next : progress → A + Rejected) : A + Rejected :=
  match r with inl a => inl a | inr p => next p end.

Definition verify (v : StandaloneVerifier) (claimed_quote : string) (claimed_bbox : BBox)
    (stored_geometry : list StoredRegion) (page_bounds : option PageBounds) : Verified + Rejected :=
  match stored_geometry with
  | [] => inr (reject NO_MATCH f0 f0)
  | _ =>
      if negb (bbox_within_page claimed_bbox page_bounds) then inr (reject OFF_PAGE f0 f0)
      else
        let norm_quote := normalize_text claimed_quote in
        if bool_decide (norm_quote = "") then inr (reject EMPTY_QUOTE f0 f0)
        else
          or_else (exact_loop v norm_quote claimed_bbox stored_geometry (f0, f0)) (λ p,
          or_else (fuzzy_step v claimed_quote claimed_bbox stored_geometry p) (λ p,
          or_else (semantic_step v claimed_quote claimed_bbox stored_geometry p) (λ p,
          or_else (visual_loop v claimed_quote norm_quote claimed_bbox stored_geometry p) (λ p,
          inr (block v claimed_bbox stored_geometry p)))))
  end.

(** ** Lemmas on the stages *)

Lemma or_else_inl {A} (r : A + progress) next (a : A) :
  or_else r next = inl a → r = inl a ∨ ∃ p, r = inr p ∧ next p = inl a.
Proof. destruct r; simpl; intros; simplify_eq; eauto. Qed.

Lemma or_else_inr {A} (r : A + progress) next (b : Rejected) :
  or_else r next = inr b → ∃ p, r = inr p ∧ next p = inr b.
Proof. destruct r; simpl; intros; simplify_eq; eauto. Qed.

Lemma best_region_spec score regions s r :
  best_region score regions = (s, Some r) → r ∈ regions ∧ s = score r.
Proof.
  unfold best_region.
  set (f := λ (best : f64 * option StoredRegion) region, _). intros H.
  assert (∀ r, snd (fold_left f regions (f0, None)) = Some r →
    r ∈ regions ∧ fst (fold_left f regions (f0, None)) = score r) as HI.
  { apply (fold_left_inv (λ b, ∀ r, snd b = Some r → r ∈ regions ∧ fst b = score r)); [done|].
    intros best x Hx Hb r'. unfold f. case_match; [|by apply Hb]. intros [= <-]. done. }
  specialize (HI r). rewrite H in HI. by apply HI.
Qed.

(** The claimed box overlaps the region and the verdict copies the region. *)
Definition located (v : StandaloneVerifier) (claimed : BBox) (r : StoredRegion) (a : Verified) : Prop :=
  v_matched_text a = r_text r ∧ v_matched_bbox a = r_bbox r ∧ v_matched_region_id a = r_region_id r ∧
  v_page a = r_page r ∧ v_iou a = compute_iou claimed (r_bbox r) ∧
  fle (visual_iou_threshold v) (v_iou a) = true.

Definition quote_in (quote : string) (r : StoredRegion) : bool :=
  contains (normalize_text quote) (normalize_text (r_text r)).

(** The text condition of each stage. *)
Definition text_evidence (v : StandaloneVerifier) (quote : string) (r : StoredRegion)
    (m : VerifyMethod) (similarity : f64) : Prop :=
  match m with
  | V_EXACT => quote_in quote r = true ∧ similarity = f1
  | V_FUZZY => similarity = fst (best_fuzzy_match quote (r_text r)) ∧
      fle (fuzzy_threshold v) similarity = true
  | V_SEMANTIC => similarity = jaccard_similarity quote (r_text r) ∧
      fle (semantic_threshold v) similarity = true ∧ semantic_re_verify quote (r_text r) = true
  | V_VISUAL => quote_in quote r = false ∧ similarity = fst (best_fuzzy_match quote (r_text r)) ∧
      fle (fuzzy_threshold v) similarity = true
  end.

Definition accepted (v : StandaloneVerifier) (quote : string) (claimed : BBox)
    (regions : list StoredRegion) (a : Verified) : Prop :=
  ∃ r, r ∈ regions ∧ located v claimed r a ∧ text_evidence v quote r (v_method a) (v_similarity a).

Lemma located_accept v claimed r m s :
  fle (visual_iou_threshold v) (compute_iou claimed (r_bbox r)) = true →
  located v claimed r (accept m r s (compute_iou claimed (r_bbox r))).
Proof. by repeat split. Qed.
#[local] Hint Resolve located_accept : core.

Lemma exact_loop_inl v quote claimed regions p a :
  exact_loop v (normalize_text quote) claimed regions p = inl a → accepted v quote claimed regions a.
Proof.
  revert p. induction regions as [|r regions IH]; intros p; cbn [exact_loop]; [done|]. intros H.
  assert ((∃ p', exact_loop v (normalize_text quote) claimed regions p' = inl a) →
          accepted v quote claimed (r :: regions) a) as Hrest.
  { intros (p' & Hp). destruct (IH _ Hp) as (r' & ? & ?). exists r'. split; [by right|done]. }
  destruct (contains _ _) eqn:Ec; [|eauto]. destruct (fle _ _) eqn:Ei; [|eauto].
  injection H as <-. exists r. split; [left|]. by split; [apply located_accept|].
Qed.

Lemma exact_loop_inr v quote claimed regions p p' :
  exact_loop v (normalize_text quote) claimed regions p = inr p' →
  ∀ r, r ∈ regions → quote_in quote r = true →
    fle (visual_iou_threshold v) (compute_iou claimed (r_bbox r)) = false.
Proof.
  revert p. induction regions as [|r regions IH]; intros p H r' Hr Hq; [by apply not_elem_of_nil in Hr|].
  cbn [exact_loop] in H. fold (quote_in quote r) in H. apply elem_of_cons in Hr as [->|Hr].
  - rewrite Hq in H. by destruct (fle _ _).
  - repeat case_match; simplify_eq; eauto.
Qed.

Lemma fuzzy_step_inl v quote claimed regions p a :
  fuzzy_step v quote claimed regions p = inl a → accepted v quote claimed regions a.
Proof.
  unfold fuzzy_step. destruct (best_region _ _) as [ratio [r|]] eqn:E; [|done].
  apply best_region_spec in E as [Hr ->]. intros H. repeat case_match; simplify_eq.
  exists r. split; [done|]. by split; [apply located_accept|].
Qed.

Lemma semantic_step_inl v quote claimed regions p a :
  semantic_step v quote claimed regions p = inl a → accepted v quote claimed regions a.
Proof.
  unfold semantic_step. destruct (best_region _ _) as [score [r|]] eqn:E; [|done].
  apply best_region_spec in E as [Hr ->]. intros H. repeat case_match; simplify_eq.
  exists r. split; [done|]. by split; [apply located_accept|].
Qed.

Lemma visual_loop_inl v quote claimed regions p a :
  (∀ r, r ∈ regions → quote_in quote r = true →
    fle (visual_iou_threshold v) (compute_iou claimed (r_bbox r)) = false) →
  visual_loop v quote (normalize_text quote) claimed regions p = inl a →
  accepted v quote claimed regions a.
Proof.
  revert p. induction regions as [|r regions IH]; intros p HQ; cbn [visual_loop]; [done|]. intros H.
  assert ((∃ p', visual_loop v quote (normalize_text quote) claimed regions p' = inl a) →
          accepted v quote claimed (r :: regions) a) as Hrest.
  { intros (p' & Hp). destruct (IH p') as (r' & ? & ?); [intros; apply HQ; [by right|done]|done|].
    exists r'. split; [by right|done]. }
  fold (quote_in quote r) in H. destruct (fle (visual_iou_threshold v) _) eqn:Ei; [|eauto].
  destruct (quote_in quote r) eqn:Eq; [by rewrite HQ in Ei by (done || left)|].
  destruct (fle (fuzzy_threshold v) _) eqn:Ef; [|eauto]. injection H as <-.
  exists r. split; [left|]. by split; [apply located_accept|].
Qed.

(** A region that overlaps the claim and carries its text makes the VISUAL loop accept. *)
Definition supports (v : StandaloneVerifier) (quote : string) (claimed : BBox) (r : StoredRegion) : Prop :=
  fle (visual_iou_threshold v) (compute_iou claimed (r_bbox r)) = true ∧
  (quote_in quote r = true ∨ fle (fuzzy_threshold v) (fst (best_fuzzy_match quote (r_text r))) = true).

Lemma visual_loop_inr v quote claimed regions p p' :
  visual_loop v quote (normalize_text quote) claimed regions p = inr p' →
  (∀ r, r ∈ regions → ¬ supports v quote claimed r) ∧
  (∀ x, flt (snd p) x = false → flt (snd p') x = false) ∧ fst p' = fst p ∧
  (∀ r, r ∈ regions → flt (snd p') (compute_iou claimed (r_bbox r)) = false).
Proof.
  revert p. induction regions as [|r regions IH]; intros p; cbn [visual_loop].
  { intros [= <-]. split_and!; try done; intros ? Hr; by apply not_elem_of_nil in Hr. }
  fold (quote_in quote r). set (q := (fst p, fmax (snd p) (compute_iou claimed (r_bbox r)))). intros H.
  assert (visual_loop v quote (normalize_text quote) claimed regions q = inr p' ∧ ¬ supports v quote claimed r)
    as [HR Hns].
  { unfold supports. destruct (fle (visual_iou_threshold v) _); [|naive_solver].
    destruct (quote_in quote r); [done|]. destruct (fle (fuzzy_threshold v) _); [done|]. naive_solver. }
  destruct (IH _ HR) as (H1 & H2 & H3 & H4).
  split_and!; [..|done|].
  - intros r' Hr. apply elem_of_cons in Hr as [->|Hr]; auto.
  - intros x Hx. apply H2. unfold q. simpl. by apply flt_fmax.
  - intros r' Hr. apply elem_of_cons in Hr as [->|Hr]; [|by apply H4]. apply H2. apply flt_fmax_r.
Qed.

(** Some text stage found the quote in a region, wherever that region is. *)
Definition text_matched (v : StandaloneVerifier) (quote : string) (r : StoredRegion) : Prop :=
  quote_in quote r = true ∨
  fle (fuzzy_threshold v) (fst (best_fuzzy_match quote (r_text r))) = true ∨
  fle (semantic_threshold v) (jaccard_similarity quote (r_text r)) = true.

(** [best_sim] is still zero unless a text stage matched. *)
Definition sim_explained (v : StandaloneVerifier) (quote : string) (regions : list StoredRegion) (p : progress) : Prop :=
  fst p = f0 ∨ ∃ r, r ∈ regions ∧ text_matched v quote r.

Lemma exact_loop_sim v quote claimed regions all p p' :
  (∀ r, r ∈ regions → r ∈ all) → sim_explained v quote all p →
  exact_loop v (normalize_text quote) claimed regions p = inr p' → sim_explained v quote all p'.
Proof.
  revert p. induction regions as [|r regions IH]; intros p Hin Hp H; cbn [exact_loop] in H; [by injection H as <-|].
  fold (quote_in quote r) in H.
  assert (∀ r, r ∈ regions → r ∈ all) as Hin' by (intros; apply Hin; by right).
  destruct (quote_in quote r) eqn:Hq; [|by eapply IH].
  destruct (fle _ _); [done|]. eapply IH; [done| |exact H].
  right. exists r. split; [apply Hin; left|by left].
Qed.

Lemma fuzzy_step_sim v quote claimed regions p p' :
  sim_explained v quote regions p → fuzzy_step v quote claimed regions p = inr p' →
  sim_explained v quote regions p'.
Proof.
  unfold fuzzy_step. intros Hp H. destruct (best_region _ _) as [ratio [r|]] eqn:E; [|by simplify_eq].
  apply best_region_spec in E as [Hr ->]. repeat case_match; simplify_eq; [|done].
  right. exists r. split; [done|]. right. by left.
Qed.

Lemma semantic_step_sim v quote claimed regions p p' :
  sim_explained v quote regions p → semantic_step v quote claimed regions p = inr p' →
  sim_explained v quote regions p'.
Proof.
  unfold semantic_step. intros Hp H. destruct (best_region _ _) as [score [r|]] eqn:E; [|by simplify_eq].
  apply best_region_spec in E as [Hr ->]. repeat case_match; simplify_eq; [..|done];
    right; exists r; (split; [done|]); right; by right.
Qed.

Lemma block_cases v claimed regions p :
  rj_best_iou (block v claimed regions p) = snd p ∧
  match rj_reason (block v claimed regions p) with
  | BBOX_MISMATCH => fle (fuzzy_threshold v) (fst p) = true ∨ fle (semantic_threshold v) (fst p) = true
  | WHITESPACE => bbox_over_whitespace claimed regions (lit 1 10) = true
  | NO_MATCH => True
  | _ => False
  end.
Proof.
  unfold block. destruct p as [sim iou]. simpl.
  destruct (_ || _) eqn:E1; [split; [done|]; by apply orb_true_iff in E1|].
  destruct (fle _ iou); [done|]. by destruct (bbox_over_whitespace _ _ _) eqn:E2.
Qed.

(** ** Properties *)

(** C8.  The verifier never accepts on the model's word: an accepted claim is
    on the page, not empty, and comes with a stored region whose text, box,
    page and identifier are the ones reported, whose computed IoU with the
    claimed box is the one reported and reaches the threshold, and whose text
    satisfies the condition of the reported method with the reported
    similarity.  In particular VISUAL only ever accepts by a fuzzy match. *)
Theorem verify_accepts_only_supported v quote claimed regions page a :
  verify v quote claimed regions page = inl a →
  bbox_within_page claimed page = true ∧ normalize_text quote ≠ "" ∧ accepted v quote claimed regions a.
Proof.
  unfold verify. destruct regions as [|r0 rs] eqn:Er; [done|]. rewrite <-Er. clear Er.
  destruct (bbox_within_page claimed page); [cbn [negb]|done].
  case_bool_decide as Hn; [done|]. intros H. split; [done|]. split; [done|].
  apply or_else_inl in H as [H|(p1 & H1 & H)]; [by eapply exact_loop_inl|].
  apply or_else_inl in H as [H|(p2 & H2 & H)]; [by eapply fuzzy_step_inl|].
  apply or_else_inl in H as [H|(p3 & H3 & H)]; [by eapply semantic_step_inl|].
  apply or_else_inl in H as [H|(p4 & H4 & H)]; [|done].
  eapply visual_loop_inl; [|done]. by eapply exact_loop_inr.
Qed.

(** Every rejection is explained by its reason: OFF_PAGE and EMPTY_QUOTE
    say so of the claim; after the cascade no region both overlaps the claim
    and carries its text (verbatim or fuzzily), the reported best IoU is a
    maximum over all regions, WHITESPACE means no region reaches an IoU of 0.1,
    and BBOX_MISMATCH that some region's text did match (unless a threshold is
    not positive). *)
Theorem verify_rejection_explained v quote claimed regions page rj :
  verify v quote claimed regions page = inr rj →
  match rj_reason rj with
  | OFF_PAGE => bbox_within_page claimed page = false
  | EMPTY_QUOTE => normalize_text quote = ""
  | reason =>
      (∀ r, r ∈ regions → ¬ supports v quote claimed r ∧
         flt (rj_best_iou rj) (compute_iou claimed (r_bbox r)) = false) ∧
      (reason = WHITESPACE → ∀ r, r ∈ regions → fle (lit 1 10) (compute_iou claimed (r_bbox r)) = false) ∧
      (reason = BBOX_MISMATCH →
         (∃ r, r ∈ regions ∧ text_matched v quote r) ∨
         fle (fuzzy_threshold v) f0 = true ∨ fle (semantic_threshold v) f0 = true)
  end.
Proof.
  unfold verify. destruct regions as [|r0 rs] eqn:Er.
  { intros [= <-]. simpl. split_and!; try done; intros ? Hr; by apply not_elem_of_nil in Hr. }
  rewrite <-Er. clear Er. destruct (bbox_within_page claimed page); cbn [negb]; [|by intros [= <-]].
  case_bool_decide as Hn; [by intros [= <-]|]. intros H.
  apply or_else_inr in H as (p1 & H1 & H). apply or_else_inr in H as (p2 & H2 & H).
  apply or_else_inr in H as (p3 & H3 & H). apply or_else_inr in H as (p4 & H4 & H). injection H as <-.
  assert (sim_explained v quote regions p3) as HS.
  { eapply semantic_step_sim, H3. eapply fuzzy_step_sim, H2. eapply exact_loop_sim, H1; [done|by left]. }
  apply visual_loop_inr in H4 as (HV & _ & Hsim & Hiou).
  destruct (block_cases v claimed regions p4) as [Hb Hr]. rewrite Hb.
  assert (∀ r, r ∈ regions → ¬ supports v quote claimed r ∧
    flt (snd p4) (compute_iou claimed (r_bbox r)) = false) as HA by eauto.
  destruct (rj_reason _); try done; split_and!; try done.
  - intros _. destruct HS as [H0|HS]; [|by left]. right. by rewrite <-H0, <-Hsim.
  - intros _ r Hin. unfold bbox_over_whitespace in Hr. rewrite forallb_forall in Hr.
    apply list_elem_of_In in Hin. specialize (Hr r Hin). by apply negb_true_iff in Hr.
Qed.

(** Completeness: a claim on the page whose box overlaps some stored
    region that contains the normalized quote, or matches it fuzzily, is
    always accepted, whatever the other regions say. *)
Theorem verify_complete v quote claimed regions page r :
  bbox_within_page claimed page = true → normalize_text quote ≠ "" →
  r ∈ regions → supports v quote claimed r →
  ∃ a, verify v quote claimed regions page = inl a.
Proof.
  intros Hp Hn Hr Hs. destruct (verify v quote claimed regions page) as [a|rj] eqn:E; [eauto|].
  exfalso. unfold verify in E. destruct regions as [|r0 rs] eqn:Er; [by apply not_elem_of_nil in Hr|].
  rewrite <-Er in *. rewrite Hp, bool_decide_false in E by done. cbn [negb] in E.
  apply or_else_inr in E as (p1 & _ & E). apply or_else_inr in E as (p2 & _ & E).
  apply or_else_inr in E as (p3 & _ & E). apply or_else_inr in E as (p4 & H4 & _).
  apply visual_loop_inr in H4 as (HV & _). by apply (HV r).
Qed.

Section Witnesses.
Definition demo_region : StoredRegion :=
  {| r_text := "Total due: 1,250.00 EUR"; r_page := 2; r_region_id := "r7";
     r_bbox := {| x0 := of_Z 10; y0 := of_Z 10; x1 := of_Z 110; y1 := of_Z 30 |} |}.
Definition demo_claim : BBox := {| x0 := of_Z 20; y0 := of_Z 10; x1 := of_Z 110; y1 := of_Z 30 |}.
Definition far_claim : BBox := {| x0 := of_Z 500; y0 := of_Z 500; x1 := of_Z 510; y1 := of_Z 510 |}.

Lemma verify_accepts_only_supported_witness :
  ∃ a, verify default_verifier "total due" demo_claim [demo_region] None = inl a ∧
    accepted default_verifier "total due" demo_claim [demo_region] a.
Proof.
  exists (accept V_EXACT demo_region f1 (compute_iou demo_claim (r_bbox demo_region))).
  assert (verify default_verifier "total due" demo_claim [demo_region] None =
    inl (accept V_EXACT demo_region f1 (compute_iou demo_claim (r_bbox demo_region)))) as H
    by (vm_compute; reflexivity).
  split; [exact H|]. apply (verify_accepts_only_supported _ _ _ _ _ _ H).
Defined.

Lemma verify_rejection_explained_witness :
  ∃ r, r ∈ [demo_region] ∧ text_matched default_verifier "total due" r.
Proof.
  assert (verify default_verifier "total due" far_claim [demo_region] None =
    inr (reject BBOX_MISMATCH f1 f0)) as H by (vm_compute; reflexivity).
  apply verify_rejection_explained in H as (_ & _ & [H|[H|H]]); [reflexivity|exact H|vm_compute in H; discriminate..].
Defined.

Lemma verify_complete_witness :
  ∃ a, verify default_verifier "total due" demo_claim [demo_region] None = inl a.
Proof.
  apply (verify_complete _ _ _ _ _ demo_region); [reflexivity|vm_compute; discriminate|constructor|].
  split; [vm_compute; reflexivity|left; vm_compute; reflexivity].
Defined.
End Witnesses.
