(* ===== verification/Orchestrator.v ===== *)
(** * The orchestrator ([kernel/sidecar/orchestrator.py])

    [OrchestratorImpl.run]: ingestion, security filter, intent gate, router,
    compression, extraction, grounding, quality gate, suggestion or human
    review.  The ingestor, the security filter, the pack and the compressor are
    interfaces; provenance, memory, grounding verifier and quality gate are the
    components modelled in their own files.  Durations (clock readings) are
    left out of the trace. *)

From S2P Require Import Prelude PyStr PyFloat PyDict Json PyRound DataModel QualityGate MemoryStore.
From S2P Require Import Provenance Levenshtein TextMatch Grounding.

(** ** Interfaces *)

Class Ingestor := { ingest : string → result (list Chunk * Document * list Page) }.
Class SecurityFilter := { scan : string → ScanResult }.
Class Pack := { pack_name : string; pack_fields : list string; extract : list Chunk → result (list Extraction) }.
(** [None] when [kairo.context.compressor] cannot be imported; the number is
    [reduction_pct]. *)
Class Compressor := { compress : option (list Chunk → list Chunk * f64) }.
(** The embedding model and [float]. *)
Class Numerics := {
  get_embedding : string → list f64; cosine : list f64 → list f64 → f64; parse_float : string → result f64 }.

(** ** State and effects: both stores keep what was written before an
    exception. *)

Record sys := { prov : ProvenanceLog; mem : MemoryStore }.
Definition M (A : Type) : Type := sys → result A * sys.

#[global] Instance M_ret : MRet M := λ A a s, (Ok a, s).
#[global] Instance M_bind : MBind M := λ A B f m s,
  match m s with (Ok a, s') => f a s' | (Raise e, s') => (Raise e, s') end.

Definition on_mem (f : MemoryStore → result MemoryStore) : M () := λ s,
  match f (mem s) with
  | Ok m => (Ok (), {| prov := prov s; mem := m |})
  | Raise e => (Raise e, s)
  end.
Definition on_prov (f : ProvenanceLog → result ProvenanceLog) : M () := λ s,
  match f (prov s) with
  | Ok p => (Ok (), {| prov := p; mem := mem s |})
  | Raise e => (Raise e, s)
  end.
Definition get_mem : M MemoryStore := λ s, (Ok (mem s), s).

(** [for x in l: body(x)] *)
Fixpoint for_each {A} (l : list A) (body : A → M ()) : M () :=
  match l with [] => mret () | x :: l' => body x ≫= λ _, for_each l' body end.

(** ** Pieces of the pipeline *)

Definition stage (name : string) (input output : json) (status : string) : TraceStage :=
  {| st_name := name; st_input_data := Some input; st_output_data := Some output; st_status := status |}.

Definition no_reason : message := ("", []).
Definition count_json {A} (l : list A) : json := JInt (Z.of_nat (length l)).
Definition strings_json (l : list string) : json := JArr (map JStr l).
Definition reasons_json (l : list message) : json := JArr (map (λ m, JArr (JStr (fst m) :: snd m)) l).

(** Registration of the ingested document in provenance and memory. *)
Definition register_ingested (chunks : list Chunk) (doc : Document) (pages : list Page) : M () :=
  _ ← on_prov (λ p, Ok (register_document doc p));
  _ ← on_mem (upsert_document doc);
  _ ← for_each pages (λ page, on_mem (upsert_page page));
  for_each chunks (λ chunk, _ ← on_prov (register_chunk chunk); on_mem (upsert_chunk chunk)).

(** [os.path.basename] (POSIX): what follows the last slash. *)
Fixpoint basename_go (s acc : string) : string :=
  match s with
  | "" => acc
  | String c s' => if bool_decide (c = "/"%char) then basename_go s' s' else basename_go s' acc
  end.
Definition basename (s : string) : string := basename_go s s.

Definition with_source_type (src : string) (c : Chunk) : Chunk :=
  {| c_chunk_id := c_chunk_id c; c_doc_id := c_doc_id c; c_page := c_page c; c_bbox := c_bbox c;
     c_text := c_text c; c_source_type := src; c_embedding := c_embedding c |}.

Definition relabel (source_path : string) (chunks : list Chunk) : list Chunk :=
  let src := if truthy source_path then basename source_path else "" in
  if truthy src then map (with_source_type src) chunks else chunks.

Definition with_grounding (m : GroundingMethod) (anchors : list Anchor) (cid : string) (e : Extraction) : Extraction :=
  {| e_ext_id := e_ext_id e; e_pack_id := e_pack_id e; e_field_name := e_field_name e; e_value := e_value e;
     e_source_span := e_source_span e; e_confidence := e_confidence e; e_model_version := e_model_version e;
     e_status := e_status e; e_chunk_id := cid; e_method := m; e_anchors := anchors |}.

Definition with_verdict (status : ExtractionStatus) (confidence : f64) (e : Extraction) : Extraction :=
  {| e_ext_id := e_ext_id e; e_pack_id := e_pack_id e; e_field_name := e_field_name e; e_value := e_value e;
     e_source_span := e_source_span e; e_confidence := confidence; e_model_version := e_model_version e;
     e_status := status; e_chunk_id := e_chunk_id e; e_method := e_method e; e_anchors := e_anchors e |}.

(** Stage 5.5: the grounding of one extraction. *)
Definition ground `{Numerics} (chunks : list Chunk) (e : Extraction) : Extraction :=
  let '(m, anchors) := verify get_embedding cosine parse_float default_verifier
                         (e_value e) (e_source_span e) chunks in
  let chunk_id := match anchors with a :: _ => a_chunk_id a | [] => e_chunk_id e end in
  with_grounding m anchors chunk_id e.

(** Stage 6: the loop over the extractions. *)
Record gate_state := {
  g_results : list json; g_all : list Extraction; g_passed : list Extraction;
  g_halted : bool; g_reason : message }.

Definition gate_one (g : LocalQualityGate) `{SqlOrder} (store : MemoryStore) (st : gate_state) (e : Extraction) : gate_state :=
  let r := check g store e in
  let results := g_results st ++
    [JObj [("ext_id", JStr (e_ext_id e)); ("field", JStr (e_field_name e));
           ("verdict", JStr (verdict_value (gr_verdict r))); ("confidence", JFloat (gr_confidence r))]] in
  match gr_verdict r with
  | V_BLOCK =>
      {| g_results := results; g_all := g_all st ++ [with_verdict PENDING_REVIEW (gr_confidence r) e];
         g_passed := g_passed st; g_halted := true;
         g_reason := ("Quality gate BLOCKED extraction",
                      [JStr (e_ext_id e); JStr (e_field_name e); reasons_json (gr_reasons r)]) |}
  | FLAG =>
      {| g_results := results; g_all := g_all st ++ [with_verdict PENDING_REVIEW (gr_confidence r) e];
         g_passed := g_passed st; g_halted := g_halted st; g_reason := g_reason st |}
  | PASS =>
      let passed := with_verdict (e_status e) (gr_confidence r) e in
      {| g_results := results; g_all := g_all st ++ [passed]; g_passed := g_passed st ++ [passed];
         g_halted := g_halted st; g_reason := g_reason st |}
  end.

Definition gate_all (g : LocalQualityGate) `{SqlOrder} (store : MemoryStore) (l : list Extraction) : gate_state :=
  fold_left (gate_one g store) l
    {| g_results := []; g_all := []; g_passed := []; g_halted := false; g_reason := no_reason |}.

Definition halted_trace (stages : list TraceStage) (reason : message) (exts : list Extraction) : Trace :=
  {| t_stages := stages; t_halted := true; t_halt_reason := reason; t_extractions := exts |}.

(** ** The pipeline *)

Section Run.
Context `{Ingestor, SecurityFilter, Pack, Compressor, Numerics, SqlOrder}.
Variable gate : LocalQualityGate.

Definition suggestion_json (e : Extraction) : json :=
  JObj [("ext_id", JStr (e_ext_id e)); ("field", JStr (e_field_name e)); ("value", JStr (e_value e));
        ("confidence", JFloat (e_confidence e))].

(** Stages 6 and 7, after the extractions have been recorded. *)
Definition finish (stages : list TraceStage) (extractions : list Extraction) (store : MemoryStore) : Trace :=
  let gs := gate_all gate store extractions in
  let stages := stages ++ [stage "quality_gate"
    (JObj [("extraction_count", count_json extractions)])
    (JObj [("results", JArr (g_results gs)); ("passed", count_json (g_passed gs));
           ("flagged_or_blocked", JInt (Z.of_nat (length extractions) - Z.of_nat (length (g_passed gs))))])
    (if g_halted gs then "halted" else "ok")] in
  if g_halted gs then
    halted_trace (stages ++ [stage "human_review"
      (JObj [("reason", JArr (JStr (fst (g_reason gs)) :: snd (g_reason gs)));
             ("extractions_needing_review",
              strings_json (map e_ext_id
                (List.filter (λ e, bool_decide (e_status e = PENDING_REVIEW)) (g_all gs))))])
      (JObj [("status", JStr "awaiting_human_review")]) "halted"]) (g_reason gs) (g_all gs)
  else
    {| t_stages := stages ++ [stage "suggest"
         (JObj [("passed_count", count_json (g_passed gs))])
         (JObj [("suggestions", JArr (map suggestion_json (g_passed gs)))]) "ok"];
       t_halted := false; t_halt_reason := no_reason; t_extractions := g_all gs |}.

(** Stages 3 to 5, and the rest when the pack does not raise. *)
Definition after_filter (source_path : string) (chunks : list Chunk) (stages : list TraceStage) : M Trace :=
  let intent := JObj [("type", JStr "extract"); ("pack", JStr pack_name); ("fields", strings_json pack_fields)] in
  let compressed := match compress with
    | Some f => let '(cs, pct) := f chunks in
        (cs, JObj [("compressed_chunk_count", count_json cs); ("reduction_pct", JFloat pct)])
    | None => (chunks, JObj [("status", JStr "skipped")])
    end in
  let stages := stages ++
    [stage "intent_gate" (JObj [("chunk_count", count_json chunks)]) intent "ok";
     stage "router" intent (JObj [("selected_pack", JStr pack_name);
                                  ("fields_to_extract", strings_json pack_fields)]) "ok";
     stage "context_compression" (JObj [("chunk_count", count_json chunks)]) (snd compressed) "ok"] in
  let chunks := relabel source_path chunks in
  match extract (fst compressed) with
  | Raise e =>
      mret (halted_trace (stages ++ [stage "extractor" (JObj [("chunk_count", count_json chunks)])
              (JObj [("error", JStr (exn_msg e))]) "halted"]) ("Extractor failed", [JStr (exn_msg e)]) [])
  | Ok extractions =>
      let stages := stages ++ [stage "extractor" (JObj [("chunk_count", count_json chunks)])
                                 (JObj [("extraction_count", count_json extractions)]) "ok"] in
      let extractions := map (ground chunks) extractions in
      _ ← for_each extractions (λ e, _ ← on_prov (λ p, Ok (register_extraction e p)); on_mem (record_extraction e));
      store ← get_mem;
      mret (finish stages extractions store)
  end.

Definition run (doc : Document) : M Trace :=
  match ingest (d_source_path doc) with
  | Raise e =>
      mret (halted_trace [stage "context_capture" (JObj [("path", JStr (d_source_path doc))])
                            (JObj [("error", JStr (exn_msg e))]) "halted"]
              ("Ingestor failed", [JStr (exn_msg e)]) [])
  | Ok (chunks, ingested_doc, pages) =>
      let stages := [stage "context_capture" (JObj [("path", JStr (d_source_path doc))])
        (JObj [("chunk_count", count_json chunks); ("page_count", JInt (d_page_count ingested_doc))]) "ok"] in
      _ ← register_ingested chunks ingested_doc pages;
      let all_text := join (String "010" "") (map c_text chunks) in
      let scan_result := scan all_text in
      let stages := stages ++ [stage "security_filter" (JObj [("text_length", JInt (len all_text))])
        (JObj [("blocked", JBool (sr_blocked scan_result)); ("reasons", reasons_json (sr_reasons scan_result))])
        (if sr_blocked scan_result then "halted" else "ok")] in
      if sr_blocked scan_result
      then mret (halted_trace stages ("Security filter blocked", [reasons_json (sr_reasons scan_result)]) [])
      else after_filter (d_source_path doc) chunks stages
  end.
End Run.

(** ** Lemmas *)

Lemma M_bind_Ok {A B} (m : M A) (f : A → M B) s b s' :
  (m ≫= f) s = (Ok b, s') → ∃ a s1, m s = (Ok a, s1) ∧ f a s1 = (Ok b, s').
Proof. unfold mbind, M_bind. destruct (m s) as [[a|e] s1]; [eauto|done]. Qed.

(** Neither store has gained or changed an extraction. *)
Definition same_extractions (s s' : sys) : Prop :=
  extractions (prov s') = extractions (prov s) ∧ tb_extractions (mem s') = tb_extractions (mem s).

(** The same actions are registered. *)
Definition same_actions (s s' : sys) : Prop := actions (prov s') = actions (prov s).

#[local] Instance same_extractions_preorder : PreOrder same_extractions.
Proof. split; [by split|]. intros s1 s2 s3 [? ?] [? ?]. split; congruence. Qed.
#[local] Instance same_actions_preorder : PreOrder same_actions.
Proof. split; [done|]. unfold same_actions. intros s1 s2 s3 ? ?. congruence. Qed.

(** An action relates the states before and after it, whether it raises or not. *)
Section Keeps.
Context (R : sys → sys → Prop) `{!PreOrder R}.
Definition keeps {A} (m : M A) : Prop := ∀ s r s', m s = (r, s') → R s s'.

Lemma keeps_bind {A B} (m : M A) (f : A → M B) : keeps m → (∀ a, keeps (f a)) → keeps (m ≫= f).
Proof.
  intros Hm Hf s r s'. unfold mbind, M_bind. destruct (m s) as [[a|e] s1] eqn:E; intros H.
  - etrans; [by eapply Hm|by eapply Hf].
  - injection H as <- <-. by eapply Hm.
Qed.

Lemma keeps_for_each {A} (l : list A) body : (∀ x, keeps (body x)) → keeps (for_each l body).
Proof.
  intros Hb. induction l as [|x l IH]; simpl; [by intros s r s' [= <- <-]|]. by apply keeps_bind.
Qed.

Lemma keeps_on_mem f : (∀ p m m', f m = Ok m' → R {| prov := p; mem := m |} {| prov := p; mem := m' |}) → keeps (on_mem f).
Proof. intros Hf [p m] r s'. unfold on_mem. cbn. destruct (f m) eqn:E; intros [= <- <-]; [by apply Hf|done]. Qed.

Lemma keeps_on_prov f : (∀ m p p', f p = Ok p' → R {| prov := p; mem := m |} {| prov := p'; mem := m |}) → keeps (on_prov f).
Proof. intros Hf [p m] r s'. unfold on_prov. cbn. destruct (f p) eqn:E; intros [= <- <-]; [by apply Hf|done]. Qed.
End Keeps.

Ltac store_frame :=
  intros ? ? ? HH; revert HH; unfold same_extractions, same_actions;
  cbv [upsert_document upsert_page upsert_chunk record_extraction bind_int bind_real mbind result_bind raise register_chunk];
  repeat (case_match; simplify_eq; try done); intros; simplify_eq; done.

Ltac keep_steps :=
  repeat first [apply keeps_bind; [apply _| |intros _] | apply keeps_for_each; [apply _|intros ?]
    | apply keeps_on_prov; [apply _|store_frame] | apply keeps_on_mem; [apply _|store_frame]].

Lemma keeps_register_ingested chunks doc pages : keeps same_extractions (register_ingested chunks doc pages).
Proof. unfold register_ingested. keep_steps. Qed.

Lemma ingested_keeps_actions chunks doc pages : keeps same_actions (register_ingested chunks doc pages).
Proof. unfold register_ingested. keep_steps. Qed.

(** Recording the extractions files each under its identifier, the last of an
    identifier, and registers no action. *)
Abbreviation record_all l :=
  (for_each l (λ e, _ ← on_prov (λ p, Ok (register_extraction e p)); on_mem (record_extraction e))).

Lemma recorded_keeps_actions l : keeps same_actions (record_all l).
Proof. keep_steps. Qed.

Lemma record_all_extractions l : ∀ s r s', record_all l s = (r, s') →
  extractions (prov s') = fold_left (λ d e, dict_set (e_ext_id e) e d) l (extractions (prov s)).
Proof.
  induction l as [|e l IH]; intros s r s'; cbn [for_each fold_left]; [by intros [= _ <-]|].
  unfold mbind, M_bind at 1. unfold on_prov, on_mem, record_extraction, M_bind at 1. cbn. intros H. by apply IH in H as ->.
Qed.

Lemma filed_assoc l : ∀ d x, x ∈ l → NoDup (map e_ext_id l) →
  assoc (e_ext_id x) (fold_left (λ d e, dict_set (e_ext_id e) e d) l d) = Some x.
Proof.
  assert (∀ l d id, id ∉ map e_ext_id l → assoc id (fold_left (λ d e, dict_set (e_ext_id e) e d) l d) = assoc id d) as Hold.
  { clear. induction l as [|e l IH]; intros d id Hid; cbn [fold_left]; [done|]. apply not_elem_of_cons in Hid as [Hne Hid].
    rewrite IH by done. by apply assoc_set_ne. }
  induction l as [|e l IH]; intros d x; cbn [fold_left]; [by intros ?%not_elem_of_nil|].
  intros [->|Hx]%elem_of_cons [Hn Hl]%NoDup_cons; [|by apply IH]. rewrite Hold by done. apply assoc_set_eq.
Qed.

(** ** The quality gate loop *)

Section GateLoop.
Context `{SqlOrder} (g : LocalQualityGate) (store : MemoryStore).

(** How the loop marks one extraction. *)
Definition marked (e : Extraction) : Extraction :=
  let r := check g store e in
  with_verdict (match gr_verdict r with PASS => e_status e | _ => PENDING_REVIEW end) (gr_confidence r) e.

Definition is_verdict (v : GateVerdict) (e : Extraction) : bool :=
  bool_decide (gr_verdict (check g store e) = v).

Lemma gate_all_spec l :
  let gs := gate_all g store l in
  g_all gs = map marked l ∧ g_passed gs = map marked (List.filter (is_verdict PASS) l) ∧
  g_halted gs = existsb (is_verdict V_BLOCK) l.
Proof.
  simpl. unfold gate_all. set (st0 := {| g_results := [] |}).
  assert (∀ l st, let gs := fold_left (gate_one g store) l st in
    g_all gs = g_all st ++ map marked l ∧
    g_passed gs = g_passed st ++ map marked (List.filter (is_verdict PASS) l) ∧
    g_halted gs = g_halted st || existsb (is_verdict V_BLOCK) l) as HG; [|by apply (HG l st0)].
  clear l. intros l. induction l as [|e l IH]; intros st; cbn [fold_left map List.filter existsb].
  { by rewrite !app_nil_r, orb_false_r. }
  destruct (IH (gate_one g store st e)) as (H1 & H2 & H3). rewrite H1, H2, H3. clear.
  assert (∀ v, is_verdict v e = bool_decide (gr_verdict (check g store e) = v)) as Hv by done.
  assert (marked e = with_verdict (match gr_verdict (check g store e) with
    PASS => e_status e | _ => PENDING_REVIEW end) (gr_confidence (check g store e)) e) as Hm by done.
  unfold gate_one. destruct (is_verdict PASS e) eqn:E1, (is_verdict V_BLOCK e) eqn:E2;
    rewrite Hv in E1, E2; bool_prop; cbn [map]; rewrite Hm; try congruence;
    destruct (gr_verdict (check g store e)); try done; cbn [g_all g_passed g_halted orb];
    rewrite <-?app_assoc, ?orb_true_r; done.
Qed.
End GateLoop.

(** ** Inversion of a run *)

Section Properties.
Context `{Ingestor, SecurityFilter, Pack, Compressor, Numerics, SqlOrder}.
Abbreviation run_default := (run default_gate).

Definition filter_blocks (chunks : list Chunk) : bool :=
  sr_blocked (scan (join (String "010" "") (map c_text chunks))).

Definition pipeline : list string :=
  ["context_capture"; "security_filter"; "intent_gate"; "router"; "context_compression";
   "extractor"; "quality_gate"; "suggest"].

Definition stage_names (t : Trace) : list string := map st_name (t_stages t).
Definition statuses (t : Trace) : list string := map st_status (t_stages t).

(** The extractions a run grades: those of the pack, grounded. *)
Definition grounded_extractions (source_path : string) (chunks : list Chunk) (exts : list Extraction)
    : list Extraction := map (ground (relabel source_path chunks)) exts.

(** A run that gets to the quality gate. *)
Definition graded (doc : Document) (t : Trace) (chunks : list Chunk) (exts : list Extraction) (store : MemoryStore) : Prop :=
  ∃ d pages stages,
    t = finish default_gate stages (grounded_extractions (d_source_path doc) chunks exts) store ∧
    ingest (d_source_path doc) = Ok (chunks, d, pages) ∧ filter_blocks chunks = false ∧
    map st_name stages = take 6 pipeline ∧ Forall (λ s, st_status s = "ok") stages ∧
    forallb (λ s, match st_input_data s, st_output_data s with Some _, Some _ => true | _, _ => false end) stages = true.

(** What the pack is given. *)
Definition pack_input (chunks : list Chunk) : list Chunk := match compress with Some f => (f chunks).1 | None => chunks end.

(** A run that stops earlier, with no extraction. *)
Definition stopped (t : Trace) (n : nat) : Prop :=
  t_halted t = true ∧ t_extractions t = [] ∧ stage_names t = take n pipeline ∧
  statuses t = repeat "ok" (n - 1) ++ ["halted"] ∧ trace_is_complete t = true.

Lemma run_cases doc s t s' :
  run_default doc s = (Ok t, s') →
  (∃ e, ingest (d_source_path doc) = Raise e ∧ stopped t 1 ∧ s' = s) ∨
  (∃ chunks d pages, ingest (d_source_path doc) = Ok (chunks, d, pages) ∧ filter_blocks chunks = true ∧
     stopped t 2 ∧ same_extractions s s') ∨
  (∃ chunks d pages, ingest (d_source_path doc) = Ok (chunks, d, pages) ∧ filter_blocks chunks = false ∧
     stopped t 6 ∧ same_extractions s s' ∧ ∃ input e, extract input = Raise e) ∨
  (∃ chunks exts store, graded doc t chunks exts store ∧
     ∃ input, input = pack_input chunks ∧ extract input = Ok exts).
Proof.
  unfold run. destruct (ingest (d_source_path doc)) as [[[chunks d] pages]|e] eqn:Ei.
  2: { intros [= <- <-]. left. exists e. split; [done|]. by repeat split. }
  intros Hr. apply M_bind_Ok in Hr as ([] & s1 & Hreg & Hr). apply keeps_register_ingested in Hreg.
  cbv zeta in Hr. fold (filter_blocks chunks) in Hr. destruct (filter_blocks chunks) eqn:Eb.
  { injection Hr as <- <-. right; left. exists chunks, d, pages. split; [done|]. split; [done|].
    split; [by repeat split|done]. }
  right; right. unfold after_filter in Hr.
  assert (fst (match compress with Some f => let '(cs, pct) := f chunks in
      (cs, JObj [("compressed_chunk_count", count_json cs); ("reduction_pct", JFloat pct)])
    | None => (chunks, JObj [("status", JStr "skipped")]) end) = pack_input chunks) as Ein.
  { unfold pack_input. destruct compress as [f|]; [|done]. by destruct (f chunks). }
  destruct (match compress with Some f => _ | None => _ end) as [cchunks cjson]. cbn [fst snd] in Hr, Ein. subst cchunks.
  destruct (extract (pack_input chunks)) as [exts|e] eqn:Ee.
  2: { injection Hr as <- <-. left. exists chunks, d, pages. split; [done|]. split; [done|].
       split; [by repeat split|]. split; [done|eauto]. }
  right. apply M_bind_Ok in Hr as ([] & s2 & _ & Hr). apply M_bind_Ok in Hr as (store & s3 & _ & Hr).
  injection Hr as <- <-. exists chunks, exts, store. split; [|eauto].
  exists d, pages. eexists. split; [reflexivity|]. split; [done|]. split; [done|].
  split; [reflexivity|]. split; [by repeat constructor|reflexivity].
Qed.

(** The pipeline never annotates and continues: the stages of a finished
    run are the eight of the pipeline in order, all "ok", with input and
    output; a halted run consists of an initial segment of the pipeline
    (after ingestion, the filter or the extractor failed), or of the seven
    stages up to the quality gate followed by human review, its last stage
    is marked "halted", and the first kind produces no extraction. *)
Theorem run_trace_ordered doc s t s' :
  run_default doc s = (Ok t, s') →
  trace_is_complete t = true ∧
  ((t_halted t = false ∧ stage_names t = pipeline ∧ statuses t = repeat "ok" 8) ∨
   (∃ n, In n [1; 2; 6]%nat ∧ stopped t n) ∨
   (t_halted t = true ∧ stage_names t = take 7 pipeline ++ ["human_review"] ∧
    statuses t = repeat "ok" 6 ++ ["halted"; "halted"])).
Proof.
  intros Hr. apply run_cases in Hr as [(e & _ & Hs & _)|[(c & d & p & _ & _ & Hs & _)|
    [(c & d & p & _ & _ & Hs & _)|(chunks & exts & store & Hg & _)]]].
  - split; [by destruct Hs as (_ & _ & _ & _ & ?)|]. right; left. exists 1%nat. split; [by left|done].
  - split; [by destruct Hs as (_ & _ & _ & _ & ?)|]. right; left. exists 2%nat. split; [by right; left|done].
  - split; [by destruct Hs as (_ & _ & _ & _ & ?)|]. right; left. exists 6%nat.
    split; [by right; right; left|done].
  - destruct Hg as (d & pages & stages & -> & _ & _ & Hn & Hst & Hio).
    assert (map st_status stages = repeat "ok" 6) as Hok.
    { assert (length stages = 6%nat) as Hl by (rewrite <-(length_map st_name), Hn; done).
      clear -Hst Hl. rewrite <-Hl. clear Hl. induction Hst as [|x l Hx _ IH]; simpl; congruence. }
    unfold finish. set (gs := gate_all _ _ _). unfold trace_is_complete, stage_names, statuses.
    destruct (g_halted gs); cbn [halted_trace t_stages t_halted];
      rewrite !map_app, Hn, Hok, !forallb_app, Hio; (split; [by rewrite <-app_assoc; destruct stages|]).
    + right; right. done.
    + left. done.
Qed.

(** C37.  A blocked document goes no further: when the security filter blocks
    the text of the ingested chunks, the run halts at that stage with no
    extraction, whatever the pack would return, and neither store has gained
    or changed an extraction. *)
Theorem security_block_halts doc s t s' chunks d pages :
  run_default doc s = (Ok t, s') → ingest (d_source_path doc) = Ok (chunks, d, pages) → filter_blocks chunks = true →
  stopped t 2 ∧ same_extractions s s'.
Proof.
  intros Hr Hi Hb. apply run_cases in Hr as [(e & He & _)|[(c & ? & ? & Hc & _ & Hs & Hx)|
    [(c & ? & ? & Hc & Hb' & _)|(c & exts & store & (? & ? & ? & _ & Hc & Hb' & _) & _)]]];
    rewrite Hi in *; simplify_eq; [done|congruence|congruence].
Qed.

(** The claimed confidences of the pack are numbers. *)
Definition numeric_claims : Prop :=
  ∀ input exts, extract input = Ok exts →
    Forall (λ e, wf_f64 (e_confidence e) = true ∧ is_nan (e_confidence e) = false) exts.

Lemma ground_fields chunks e :
  e_confidence (ground chunks e) = e_confidence e ∧ e_value (ground chunks e) = e_value e ∧
  e_source_span (ground chunks e) = e_source_span e ∧
  (e_method (ground chunks e), e_anchors (ground chunks e)) =
    verify get_embedding cosine parse_float default_verifier (e_value e) (e_source_span e) chunks.
Proof. unfold ground. by destruct (verify _ _ _ _ _ _ _). Qed.

Lemma elem_of_relabel src c chunks :
  c ∈ relabel src chunks → ∃ c0, c0 ∈ chunks ∧ (c = c0 ∨ ∃ l, c = with_source_type l c0).
Proof.
  unfold relabel. destruct (truthy (if truthy src then basename src else "")).
  - intros Hc. apply list_elem_of_fmap in Hc as (c0 & -> & Hc). eauto.
  - eauto.
Qed.

(** Where an extraction of a run comes from: the pack returned it on what the
    compressor left of the ingested chunks, and it was grounded in the chunks
    as they were ingested, then graded. *)
Lemma run_extraction doc s t s' chunks d pages e :
  run_default doc s = (Ok t, s') → ingest (d_source_path doc) = Ok (chunks, d, pages) → e ∈ t_extractions t →
  ∃ exts e0 store, extract (pack_input chunks) = Ok exts ∧ e0 ∈ exts ∧
    e = marked default_gate store (ground (relabel (d_source_path doc) chunks) e0).
Proof.
  intros Hr Hi He. apply run_cases in Hr as [(x & _ & Hst & _)|[(c & ? & ? & _ & _ & Hst & _)|
    [(c & ? & ? & _ & _ & Hst & _)|(c & exts & store & (? & ? & stages & -> & Hc & _) & input & -> & Hx)]]];
    try (destruct Hst as (_ & Hno & _); rewrite Hno in He; by apply not_elem_of_nil in He).
  rewrite Hi in Hc. injection Hc as <- <- <-.
  destruct (gate_all_spec default_gate store (grounded_extractions (d_source_path doc) chunks exts)) as (Hall & _ & _).
  assert (e ∈ map (marked default_gate store) (grounded_extractions (d_source_path doc) chunks exts)) as He'.
  { rewrite <-Hall. unfold finish in He. by destruct (g_halted _). }
  apply list_elem_of_fmap in He' as (ge & -> & (e0 & -> & He0)%list_elem_of_fmap). by exists exts, e0, store.
Qed.

(** What a run leaves in the provenance log: no action, and, when the
    identifiers of its extractions are distinct, each of them under its own,
    as it was before the gate. *)
Lemma run_records doc s t s' : run_default doc s = (Ok t, s') →
  actions (prov s') = actions (prov s) ∧
  ∀ e, e ∈ t_extractions t → NoDup (map e_ext_id (t_extractions t)) →
    ∃ store x, e = marked default_gate store x ∧ assoc (e_ext_id e) (extractions (prov s')) = Some x.
Proof.
  unfold run. destruct (ingest (d_source_path doc)) as [[[chunks d] pages]|x]; intros Hr.
  2: { injection Hr as <- <-. split; [done|]. by intros e ?%not_elem_of_nil. }
  apply M_bind_Ok in Hr as ([] & s1 & Hreg & Hr). apply ingested_keeps_actions in Hreg. cbv zeta in Hr. destruct (sr_blocked _).
  { injection Hr as <- <-. split; [done|]. by intros e ?%not_elem_of_nil. }
  unfold after_filter in Hr. destruct (extract _) as [exts|x].
  2: { injection Hr as <- <-. split; [done|]. by intros e ?%not_elem_of_nil. }
  apply M_bind_Ok in Hr as ([] & s2 & Hrec & Hr). apply M_bind_Ok in Hr as (store & s3 & Hst & Hr).
  injection Hst as <- <-. injection Hr as <- <-. pose proof (recorded_keeps_actions _ _ _ _ Hrec) as Ha.
  split; [unfold same_actions in *; congruence|]. set (l := map (ground _) exts) in *.
  destruct (gate_all_spec default_gate (mem s2) l) as (Hall & _ & _).
  assert (∀ stages, t_extractions (finish default_gate stages l (mem s2)) = map (marked default_gate (mem s2)) l) as ->.
  { intros stages. rewrite <-Hall. unfold finish. by destruct (g_halted _). }
  intros e (x & -> & Hx)%list_elem_of_fmap Hn. exists (mem s2), x. split; [done|].
  rewrite (record_all_extractions _ _ _ _ Hrec). cbn [marked with_verdict e_ext_id]. apply filed_assoc; [done|].
  by rewrite map_map in Hn.
Qed.

(** The evidence of an answer of the cascade on the ingested chunks. *)
Lemma cascade_evidence src chunks value span m anchors :
  verify get_embedding cosine parse_float default_verifier value span (relabel src chunks) = (m, anchors) → m ≠ BLOCK →
  ∃ a chunk, anchors = [a] ∧ chunk ∈ chunks ∧ anchors_chunk a chunk ∧
    stage_evidence get_embedding cosine parse_float default_verifier (target_of value span) span chunk m (a_char_span a).
Proof.
  intros Hv Hm. apply verify_evidence_lemma in Hv as [[? _]|(a & ch & -> & _ & Hch & Ha & Hev)]; [done|].
  apply elem_of_relabel in Hch as (c & Hc & Hch). exists a, c. destruct Hch as [->|[l ->]]; by split_and!.
Qed.

(** C6.  Refuse or cite, end to end: when the pack's confidences are numbers,
    every extraction of a run that is not sent to human review carries one
    anchor into an ingested chunk, with that chunk's page and box, the
    evidence of its grounding stage holds of that chunk, and the pack itself
    claimed a confidence of at least 0.5. *)
Theorem surviving_extractions_grounded doc s t s' chunks d pages e :
  numeric_claims → run_default doc s = (Ok t, s') → ingest (d_source_path doc) = Ok (chunks, d, pages) →
  e ∈ t_extractions t → e_status e ≠ PENDING_REVIEW →
  ∃ a chunk e0 input exts, extract input = Ok exts ∧ e0 ∈ exts ∧ e_value e = e_value e0 ∧
    fle (lit 5 10) (clamp01 (e_confidence e0)) = true ∧
    e_anchors e = [a] ∧ chunk ∈ chunks ∧ anchors_chunk a chunk ∧
    stage_evidence get_embedding cosine parse_float default_verifier
      (target_of (e_value e) (e_source_span e)) (e_source_span e) chunk (e_method e) (a_char_span a).
Proof.
  intros Hnum Hr Hi He Hs. destruct (run_extraction _ _ _ _ _ _ _ _ Hr Hi He) as (exts & e0 & store & Hx & He0 & ->).
  destruct (ground_fields (relabel (d_source_path doc) chunks) e0) as (Fc & Fv & Fs & Fm).
  set (ge := ground _ e0) in *.
  assert (gr_verdict (check default_gate store ge) = PASS) as Hpass.
  { unfold marked in Hs. simpl in Hs. by destruct (gr_verdict _). }
  pose proof (Hnum _ exts Hx) as Hn. rewrite Forall_forall in Hn. destruct (Hn e0 He0) as [Hw Hnan].
  rewrite <-Fc in Hw, Hnan. destruct (pass_numeric store ge Hw Hnan Hpass) as [Hgr Hconf].
  symmetry in Fm. apply cascade_evidence in Fm as (a & c & Ha & Hc & Hac & Hev).
  2: { intros Hm. unfold ungrounded in Hgr. by rewrite Hm, !orb_true_r in Hgr. }
  exists a, c, e0, (pack_input chunks), exts. rewrite Fc in Hconf. rewrite <-Fv, <-Fs in Hev. by split_and!.
Qed.

(** One unsupported value stops the document: when the pack returns an
    extraction, with a numeric confidence, whose value the grounding cascade
    cannot find in the ingested chunks, the run does not finish: it is
    halted and ends in human review. *)
Theorem ungrounded_value_halts doc s t s' chunks d pages exts e :
  run_default doc s = (Ok t, s') → ingest (d_source_path doc) = Ok (chunks, d, pages) → filter_blocks chunks = false →
  (∀ input, extract input = Ok exts) → e ∈ exts →
  wf_f64 (e_confidence e) = true → is_nan (e_confidence e) = false →
  verify get_embedding cosine parse_float default_verifier (e_value e) (e_source_span e)
    (relabel (d_source_path doc) chunks) = (BLOCK, []) →
  t_halted t = true ∧ last (stage_names t) = Some "human_review".
Proof.
  intros Hr Hi Hb Hx He Hw Hn Hv. apply run_cases in Hr as [(x & Hx' & _)|[(c & ? & ? & Hc & Hb' & _)|
    [(c & ? & ? & _ & _ & _ & _ & input & x & Hx')|(c & exts' & store & (? & ? & stages & -> & Hc & _) & input & _ & Hx')]]].
  - by rewrite Hi in Hx'.
  - rewrite Hi in Hc. injection Hc as <- <- <-. congruence.
  - by rewrite Hx in Hx'.
  - rewrite Hi in Hc. injection Hc as <- <- <-. rewrite Hx in Hx'. injection Hx' as <-.
    destruct (gate_all_spec default_gate store (grounded_extractions (d_source_path doc) chunks exts)) as (_ & _ & Hh).
    assert (g_halted (gate_all default_gate store (grounded_extractions (d_source_path doc) chunks exts)) = true) as Hg.
    { rewrite Hh. apply existsb_exists. exists (ground (relabel (d_source_path doc) chunks) e).
      split; [apply in_map, list_elem_of_In, He|].
      destruct (ground_fields (relabel (d_source_path doc) chunks) e) as (Fc & _ & _ & Fm).
      rewrite Hv in Fm. injection Fm as Fm _. unfold is_verdict. apply bool_decide_eq_true.
      apply ungrounded_verdict; rewrite ?Fc; try done. unfold ungrounded. by rewrite Fm, !orb_true_r. }
    unfold finish. rewrite Hg. split; [done|]. unfold stage_names. cbn [halted_trace t_stages].
    rewrite map_app. apply last_snoc.
Qed.
End Properties.

Section Witnesses.
Definition demo_document : Document :=
  {| d_doc_id := "d1"; d_source_path := "/in/invoice.pdf"; d_sha256 := "00"; d_page_count := 1;
     d_ingested_at := "2024-01-01T00:00:00+00:00" |}.
Definition pack_extraction (value : string) (confidence : f64) : Extraction :=
  {| e_ext_id := "e1"; e_pack_id := "p"; e_field_name := "vendor"; e_value := value; e_source_span := "";
     e_confidence := confidence; e_model_version := "m"; e_status := SUGGESTED; e_chunk_id := "";
     e_method := BLOCK; e_anchors := [] |}.

#[local] Instance demo_ingestor : Ingestor := { ingest _ := Ok ([demo_chunk], demo_document, []) }.
Definition open_filter : SecurityFilter := {| scan _ := {| sr_blocked := false; sr_reasons := [] |} |}.
Definition closed_filter : SecurityFilter := {| scan _ := {| sr_blocked := true; sr_reasons := [("PII", [])] |} |}.
Definition demo_pack (value : string) : Pack :=
  {| pack_name := "InvoicePack"; pack_fields := ["vendor"];
     extract _ := Ok [pack_extraction value (lit 9 10)] |}.
#[local] Instance no_compressor : Compressor := { compress := None }.
#[local] Instance no_numerics : Numerics :=
  { get_embedding := no_embedding; cosine := no_similarity; parse_float := no_float }.
#[local] Existing Instance sort_order.

Definition start : sys := {| prov := empty_log; mem := empty_store |}.
Definition demo_run (SF : SecurityFilter) (value : string) : result Trace * sys :=
  @run demo_ingestor SF (demo_pack value) no_compressor no_numerics sort_order default_gate demo_document start.

Lemma run_trace_ordered_witness : ∃ t, fst (demo_run open_filter "acme") = Ok t ∧ trace_is_complete t = true.
Proof.
  destruct (demo_run open_filter "acme") as [[t|e] s'] eqn:E; [|vm_compute in E; discriminate].
  exists t. split; [reflexivity|].
  apply (@run_trace_ordered demo_ingestor open_filter (demo_pack "acme") no_compressor no_numerics sort_order
           demo_document start t s' E).
Defined.

Lemma security_block_halts_witness :
  ∃ t s', demo_run closed_filter "acme" = (Ok t, s') ∧ t_extractions t = [].
Proof.
  destruct (demo_run closed_filter "acme") as [[t|e] s'] eqn:E; [|vm_compute in E; discriminate].
  exists t, s'. split; [reflexivity|].
  apply (@security_block_halts demo_ingestor closed_filter (demo_pack "acme") no_compressor no_numerics sort_order
           demo_document start t s' [demo_chunk] demo_document [] E eq_refl eq_refl).
Defined.

Lemma surviving_extractions_grounded_witness :
  ∃ t e, fst (demo_run open_filter "acme") = Ok t ∧ e ∈ t_extractions t ∧
    ∃ a chunk, e_anchors e = [a] ∧ chunk ∈ [demo_chunk] ∧ anchors_chunk a chunk.
Proof.
  destruct (demo_run open_filter "acme") as [[t|x] s'] eqn:E; [|vm_compute in E; discriminate].
  assert (∃ e, e ∈ t_extractions t ∧ e_status e = SUGGESTED) as (e & He & Hs).
  { vm_compute in E. injection E as <- _. eexists. split; [left|reflexivity]. }
  exists t, e. split; [reflexivity|]. split; [exact He|].
  destruct (@surviving_extractions_grounded demo_ingestor open_filter (demo_pack "acme") no_compressor no_numerics
    sort_order demo_document start t s' [demo_chunk] demo_document [] e) as (a & ch & _ & _ & _ & _ & _ & _ & _ & Ha & Hc & Hac & _);
    [|exact E|reflexivity|exact He|rewrite Hs; discriminate|exists a, ch; split; [exact Ha|split; [exact Hc|exact Hac]]].
  intros input exts Hx. injection Hx as <-. constructor; [|constructor].
  split; vm_compute; reflexivity.
Defined.

Lemma ungrounded_value_halts_witness :
  ∃ t, fst (demo_run open_filter "not in the text") = Ok t ∧ t_halted t = true.
Proof.
  destruct (demo_run open_filter "not in the text") as [[t|x] s'] eqn:E; [|vm_compute in E; discriminate].
  exists t. split; [reflexivity|].
  refine (proj1 (@ungrounded_value_halts demo_ingestor open_filter (demo_pack "not in the text") no_compressor
    no_numerics sort_order demo_document start t s' [demo_chunk] demo_document []
    [pack_extraction "not in the text" (lit 9 10)] (pack_extraction "not in the text" (lit 9 10))
    E eq_refl eq_refl (λ _, eq_refl) _ _ _ _)); [constructor|vm_compute; reflexivity..].
Defined.
End Witnesses.
