(* ===== verification/Base64.v ===== *)
(** * Base64

    [base64.b64encode] and [base64.b64decode] of the Python library, the
    latter as [binascii.a2b_base64] reads its input without [validate]:
    characters outside the alphabet are skipped and a complete padding ends
    the input.  Decoding inverts encoding. *)

From Stdlib Require Import ZifyN.
From S2P Require Import Prelude PyStr.

(** [lia] with division and remainder of [N]. *)
Ltac nlia := zify; Z.div_mod_to_equations; lia.

(** ** Sextets *)

Definition sextet_char (n : N) : ascii :=
  if (n <? 26)%N then ascii_of_N (65 + n)
  else if (n <? 52)%N then ascii_of_N (71 + n)
  else if (n <? 62)%N then ascii_of_N (n - 4)
  else if (n =? 62)%N then "+"%char else "/"%char.

Definition sextet_value (c : ascii) : option N :=
  let n := code c in
  if between 65 90 n then Some (n - 65)%N
  else if between 97 122 n then Some (n - 71)%N
  else if between 48 57 n then Some (n + 4)%N
  else if (n =? 43)%N then Some 62%N
  else if (n =? 47)%N then Some 63%N
  else None.

Definition pad : ascii := "=".

(** ** Encoding *)

Fixpoint b64encode (b : bytes) : string :=
  match b with
  | "" => ""
  | String a "" =>
      let n := code a in
      String (sextet_char (n / 4)) (String (sextet_char (n mod 4 * 16)) (String pad (String pad "")))
  | String a (String b "") =>
      let n := code a in let m := code b in
      String (sextet_char (n / 4)) (String (sextet_char (n mod 4 * 16 + m / 16))
        (String (sextet_char (m mod 16 * 4)) (String pad "")))
  | String a (String b (String c r)) =>
      let n := code a in let m := code b in let k := code c in
      String (sextet_char (n / 4)) (String (sextet_char (n mod 4 * 16 + m / 16))
        (String (sextet_char (m mod 16 * 4 + k / 64)) (String (sextet_char (k mod 64)) (b64encode r))))
  end.

(** ** Decoding *)

(** The loop of [a2b_base64]: the position in the quad, the bits left over from
    the last character and the number of pads seen since. *)
Fixpoint a2b (s : string) (quad_pos : nat) (leftchar : N) (pads : nat) : result bytes :=
  match s with
  | "" => match quad_pos with O => Ok "" | _ => raise "Error" "Incorrect padding" end
  | String c s' =>
      if decide (c = pad) then
        if (2 <=? quad_pos)%nat && (4 <=? quad_pos + S pads)%nat then Ok ""
        else a2b s' quad_pos leftchar (if (2 <=? quad_pos)%nat then S pads else pads)
      else match sextet_value c with
           | None => a2b s' quad_pos leftchar pads
           | Some v =>
               let emit x rest := r ← rest; Ok (String (ascii_of_N x) r) in
               match quad_pos with
               | 0%nat => a2b s' 1 v 0
               | 1%nat => emit (leftchar * 4 + v / 16)%N (a2b s' 2 (v mod 16)%N 0)
               | 2%nat => emit (leftchar * 16 + v / 4)%N (a2b s' 3 (v mod 4)%N 0)
               | _ => emit (leftchar * 64 + v)%N (a2b s' 0 0%N 0)
               end
           end
  end.

(** A [str] argument is encoded as ASCII first. *)
Definition b64decode (s : string) : result bytes :=
  if is_ascii s then a2b s 0 0 0
  else raise "ValueError" "string argument should contain only ASCII characters".

(** ** The round trip *)

Lemma sextet_roundtrip n : (n < 64)%N → sextet_value (sextet_char n) = Some n ∧ sextet_char n ≠ pad.
Proof.
  intros Hn. assert (Forall (λ n, sextet_value (sextet_char n) = Some n ∧ sextet_char n ≠ pad) (map N.of_nat (seq 0 64))) as H.
  { apply (bool_decide_unpack _). vm_compute. exact I. }
  rewrite Forall_forall in H. apply H. apply list_elem_of_fmap. exists (N.to_nat n). split; [by rewrite N2Nat.id|].
  apply elem_of_seq. lia.
Qed.

Lemma a2b_sextet n s q l p : (n < 64)%N →
  a2b (String (sextet_char n) s) q l p =
  match q with
  | 0%nat => a2b s 1 n 0
  | 1%nat => r ← a2b s 2 (n mod 16)%N 0; Ok (String (ascii_of_N (l * 4 + n / 16)) r)
  | 2%nat => r ← a2b s 3 (n mod 4)%N 0; Ok (String (ascii_of_N (l * 16 + n / 4)) r)
  | _ => r ← a2b s 0 0%N 0; Ok (String (ascii_of_N (l * 64 + n)) r)
  end.
Proof.
  intros Hn. destruct (sextet_roundtrip n Hn) as [H1 H2]. cbn [a2b]. rewrite decide_False by done.
  rewrite H1. done.
Qed.

Lemma code_lt c : (code c < 256)%N.
Proof. unfold code. apply N_ascii_bounded. Qed.

Lemma ascii_code x c : x = code c → ascii_of_N x = c.
Proof. intros ->. apply ascii_N_embedding. Qed.

(** Join the pieces of a byte. *)
Ltac join_byte c := rewrite (ascii_code _ c) by (pose proof (code_lt c); nlia).

Lemma string_ind3 (P : string → Prop) :
  P "" → (∀ a, P (String a "")) → (∀ a b, P (String a (String b ""))) →
  (∀ a b c s, P s → P (String a (String b (String c s)))) → ∀ s, P s.
Proof.
  intros H0 H1 H2 H3. fix IH 1. intros [|a [|b [|c s]]]; [done|apply H1|apply H2|]. apply H3, IH.
Qed.

Lemma sextet_ascii n : (n < 64)%N → (code (sextet_char n) <? 128)%N = true.
Proof.
  intros Hn. assert (Forall (λ n, (code (sextet_char n) <? 128)%N = true) (map N.of_nat (seq 0 64))) as H.
  { apply (bool_decide_unpack _). vm_compute. exact I. }
  rewrite Forall_forall in H. apply H. apply list_elem_of_fmap. exists (N.to_nat n). split; [by rewrite N2Nat.id|].
  apply elem_of_seq. lia.
Qed.

Lemma b64encode_ascii b : is_ascii (b64encode b) = true.
Proof.
  unfold is_ascii. induction b as [|a|a b|a b c s IH] using string_ind3; [done|..]; cbn [b64encode forall_str];
    pose proof (code_lt a); try pose proof (code_lt b); try pose proof (code_lt c);
    rewrite !sextet_ascii by nlia; [done|done|exact IH].
Qed.

Lemma a2b_encode b : a2b (b64encode b) 0 0 0 = Ok b.
Proof.
  induction b as [|a|a b|a b c s IH] using string_ind3; [done|..]; cbn [b64encode];
    pose proof (code_lt a).
  - rewrite !a2b_sextet by nlia. cbn [a2b]. rewrite !decide_True by done.
    cbn. join_byte a. done.
  - pose proof (code_lt b). rewrite !a2b_sextet by nlia. cbn [a2b]. rewrite !decide_True by done. cbn.
    join_byte a. join_byte b. done.
  - pose proof (code_lt b). pose proof (code_lt c). rewrite !a2b_sextet by nlia. rewrite IH. cbn.
    join_byte a. join_byte b. join_byte c. done.
Qed.

Lemma b64decode_encode b : b64decode (b64encode b) = Ok b.
Proof. unfold b64decode. rewrite b64encode_ascii. apply a2b_encode. Qed.

#[global] Instance b64encode_inj : Inj (=) (=) b64encode.
Proof.
  intros x y H. assert (Ok (A := bytes) x = Ok y) as E by (by rewrite <-!b64decode_encode, H). by injection E.
Qed.
