(* ===== verification/Ed25519.v ===== *)
(** * Ed25519 signatures

    The [cryptography] package is outside the sources: its keys and signatures
    are a class with the documented laws, which every signer and verifier of
    the development is stated against. *)

From S2P Require Import Prelude PyStr.

(** Ed25519 keys of the [cryptography] package: 32-byte seeds and public keys,
    and a signature verifies under the key that made it. *)
Class Ed25519 := {
  ed_public : bytes → bytes;
  ed_sign : bytes → bytes → bytes;
  ed_verify : bytes → bytes → bytes → bool;
  length_ed_public seed : String.length seed = 32%nat → String.length (ed_public seed) = 32%nat;
  ed_verify_sign seed m : String.length seed = 32%nat →
    ed_verify (ed_public seed) (ed_sign seed m) m = true
}.

(** [Ed25519PublicKey.verify(bytes.fromhex(signature), message)] where
    [InvalidSignature] and [ValueError] mean [False]. *)
Definition verify_hex `{Ed25519} (pub : bytes) (signature : string) (message : bytes) : bool :=
  match fromhex signature with Ok s => ed_verify pub s message | Raise _ => false end.

Lemma verify_hex_sign `{Ed25519} seed m :
  String.length seed = 32%nat → verify_hex (ed_public seed) (hex (ed_sign seed m)) m = true.
Proof. intros Hl. unfold verify_hex. rewrite fromhex_hex. by apply ed_verify_sign. Qed.

(** A scheme with the laws of [Ed25519]: the public key is the seed and a
    signature is the message after it. *)
Lemma plain_verify (s m : bytes) : String.length s = 32%nat → bool_decide (s +:+ m = s +:+ m) = true.
Proof. intros _. by rewrite bool_decide_true. Qed.

Definition plain_signatures : Ed25519 :=
  {| ed_public := λ s, s; ed_sign := λ s m, s +:+ m; ed_verify := λ p m g, bool_decide (m = p +:+ g);
     length_ed_public := λ s H, H; ed_verify_sign := plain_verify |}.
