(* ===== verification/Merkle.v ===== *)
(** * Merkle trees over receipts, and signed checkpoints

    [kairo/trust/merkle.py]: the RFC 6962 tree hash, inclusion proofs, and the
    checkpoints signed with Ed25519.  Digests are computed (Sha256.v); the
    signature scheme is the [cryptography] package's, a class whose laws are
    what its documentation promises.  A JSONL file is the list of the objects
    on its lines. *)

From S2P Require Import Prelude PyStr PyFloat PyDict Json Sha256 Ed25519.

(** ** The tree hash *)

Definition LEAF_PREFIX : ascii := ascii_of_N 0.
Definition NODE_PREFIX : ascii := ascii_of_N 1.

Definition leaf_input (leaf : bytes) : bytes := String LEAF_PREFIX leaf.
Definition node_input (left right : bytes) : bytes := String NODE_PREFIX (left +:+ right).

Definition merkle_leaf_hash (leaf : bytes) : string := sha256_hex (leaf_input leaf).

(** [while k * 2 < n: k *= 2] *)
Fixpoint double_while (fuel k n : nat) : nat :=
  match fuel with
  | O => k
  | S fuel' => if (k * 2 <? n)%nat then double_while fuel' (k * 2) n else k
  end.

Definition largest_power_of_two_lt (n : nat) : nat := double_while n 1 n.

(** The recursion of [_mth]; the number of leaves is fuel enough. *)
Fixpoint mth_go (fuel : nat) (leaves : list bytes) : bytes :=
  match fuel, leaves with
  | _, [] => sha256 ""
  | _, [l] => sha256 (leaf_input l)
  | O, _ => ""
  | S fuel', _ =>
      let k := largest_power_of_two_lt (length leaves) in
      sha256 (node_input (mth_go fuel' (take k leaves)) (mth_go fuel' (drop k leaves)))
  end.

Definition mth (leaves : list bytes) : bytes := mth_go (length leaves) leaves.

Definition merkle_root (leaves : list bytes) : string := hex (mth leaves).

(** ** Inclusion proofs *)

(** The inner function [path]. *)
Fixpoint path (fuel : nat) (lvs : list bytes) (idx : nat) : list (string * string) :=
  match fuel, lvs with
  | O, _ | _, [_] => []
  | S fuel', _ =>
      let k := largest_power_of_two_lt (length lvs) in
      if (idx <? k)%nat then path fuel' (take k lvs) idx ++ [("R", hex (mth (drop k lvs)))]
      else path fuel' (drop k lvs) (idx - k) ++ [("L", hex (mth (take k lvs)))]
  end.

Definition merkle_proof (leaves : list bytes) (index : Z) : result (list (string * string)) :=
  if (0 <=? index) && (index <? Z.of_nat (length leaves))
  then Ok (path (length leaves) leaves (Z.to_nat index))
  else raise "IndexError" ("index " +:+ pretty index +:+ " out of range for "
                           +:+ pretty (Z.of_nat (length leaves)) +:+ " leaves").

(** The loop over the proof; [None] is the early [return False]. *)
Fixpoint climb (running : bytes) (proof : list (string * string)) : result (option bytes) :=
  match proof with
  | [] => Ok (Some running)
  | (side, sibling_hex) :: proof' =>
      sibling ← fromhex sibling_hex;
      if bool_decide (side = "L") then climb (sha256 (node_input sibling running)) proof'
      else if bool_decide (side = "R") then climb (sha256 (node_input running sibling)) proof'
      else Ok None
  end.

Definition verify_merkle_proof (leaf : bytes) (index tree_size : Z)
    (proof : list (string * string)) (root_hex : string) : result bool :=
  if negb ((0 <=? index) && (index <? tree_size)) then Ok false else
  running ← climb (sha256 (leaf_input leaf)) proof;
  Ok (match running with Some r => bool_decide (hex r = root_hex) | None => false end).

(** ** The split point *)

Lemma double_while_spec fuel k n :
  (k < n)%nat → (0 < k)%nat → (n <= fuel + k)%nat →
  let r := double_while fuel k n in
  (k ≤ r < n ∧ n ≤ 2 * r)%nat ∧ ∃ e, r = (k * 2 ^ e)%nat.
Proof.
  revert k. induction fuel as [|fuel IH]; intros k Hk H0 Hf; cbn [double_while]; [lia|].
  destruct (Nat.ltb_spec (k * 2) n) as [H|H].
  - destruct (IH (k * 2)%nat) as [Hr [e He]]; [lia..|]. split; [lia|].
    exists (S e). rewrite He. cbn [Nat.pow]. lia.
  - split; [lia|]. exists 0%nat. cbn [Nat.pow]. lia.
Qed.

(** The largest power of two below [n]. *)
Lemma split_point n : (2 ≤ n)%nat →
  (1 ≤ largest_power_of_two_lt n < n ∧ n ≤ 2 * largest_power_of_two_lt n)%nat ∧
  ∃ e, largest_power_of_two_lt n = (2 ^ e)%nat.
Proof.
  intros Hn. destruct (double_while_spec n 1 n) as [H [e He]]; [lia..|].
  split; [exact H|]. exists e. unfold largest_power_of_two_lt. rewrite He. lia.
Qed.

(** ** The tree by its splits

    [tree_input] is the string whose digest is the tree hash. *)

Lemma mth_go_enough f1 f2 l : (length l ≤ f1)%nat → (length l ≤ f2)%nat → mth_go f1 l = mth_go f2 l.
Proof.
  revert f2 l. induction f1 as [|f1 IH]; intros f2 [|x [|y l]] H1 H2; destruct f2 as [|f2]; try done; cbn [length] in *; try lia.
  cbn [mth_go]. cbn [length].
  destruct (split_point (S (S (length l)))) as [Hk _]; [lia|]. revert Hk.
  generalize (largest_power_of_two_lt (S (S (length l)))). intros k Hk.
  rewrite (IH f2 (take k _)), (IH f2 (drop k _)); [done|..];
    rewrite ?length_take, ?length_drop; cbn [length]; lia.
Qed.

Definition split_left (l : list bytes) : list bytes := take (largest_power_of_two_lt (length l)) l.
Definition split_right (l : list bytes) : list bytes := drop (largest_power_of_two_lt (length l)) l.

Definition tree_input (l : list bytes) : bytes :=
  match l with
  | [] => ""
  | [x] => leaf_input x
  | _ => node_input (mth (split_left l)) (mth (split_right l))
  end.

Lemma split_lengths l : (2 ≤ length l)%nat →
  l = split_left l ++ split_right l ∧
  (1 ≤ length (split_left l) < length l)%nat ∧ (1 ≤ length (split_right l) < length l)%nat ∧
  (length (split_right l) ≤ length (split_left l))%nat ∧
  length (split_left l) = largest_power_of_two_lt (length l).
Proof.
  intros H. unfold split_left, split_right. rewrite take_drop.
  destruct (split_point (length l) H) as [Hk _].
  rewrite length_take, length_drop. split_and!; lia || done.
Qed.

Lemma mth_go_step f l : (2 ≤ length l)%nat →
  mth_go (S f) l = sha256 (node_input (mth_go f (split_left l)) (mth_go f (split_right l))).
Proof. destruct l as [|x [|y l]]; cbn [length]; [lia|lia|reflexivity]. Qed.

Lemma tree_input_node l : (2 ≤ length l)%nat →
  tree_input l = node_input (mth (split_left l)) (mth (split_right l)).
Proof. destruct l as [|x [|y l]]; cbn [length]; intros; [lia|lia|done]. Qed.

Lemma mth_input l : mth l = sha256 (tree_input l).
Proof.
  destruct (decide (2 ≤ length l)%nat) as [H|H].
  - rewrite (tree_input_node l H). unfold mth at 1.
    destruct (split_lengths l H) as (_ & H1 & H2 & _). destruct (length l) as [|n] eqn:Hn; [lia|].
    rewrite mth_go_step by lia. unfold mth.
    by rewrite (mth_go_enough n (length (split_left l))), (mth_go_enough n (length (split_right l))) by lia.
  - destruct l as [|x [|y l]]; [reflexivity|reflexivity|]. cbn [length] in H. lia.
Qed.

Lemma length_mth l : String.length (mth l) = 32%nat.
Proof. rewrite mth_input. apply length_sha256. Qed.

(** Induction on the tree. *)
Lemma tree_ind (P : list bytes → Prop) :
  P [] → (∀ x, P [x]) →
  (∀ l, (2 ≤ length l)%nat → P (split_left l) → P (split_right l) → P l) → ∀ l, P l.
Proof.
  intros H0 H1 Hs l. remember (length l) as n eqn:Hn. revert l Hn.
  induction (lt_wf n) as [n _ IH]. intros [|x [|y l]] ->; [done|done|].
  set (l' := x :: y :: l) in *. assert (2 ≤ length l')%nat as H by (unfold l'; cbn [length]; lia).
  destruct (split_lengths l' H) as (_ & ? & ? & _).
  apply Hs; [done|eapply IH; [|done]; lia..].
Qed.

Lemma node_input_inj a b c d :
  String.length a = String.length c → node_input a b = node_input c d → a = c ∧ b = d.
Proof. unfold node_input. intros Hl [= H]. by apply app_inj_str in H. Qed.

Lemma node_input_inj_r a b c d :
  String.length b = String.length d → node_input a b = node_input c d → a = c ∧ b = d.
Proof.
  unfold node_input. intros Hl [= H]. apply app_inj_str; [|done].
  apply (f_equal String.length) in H. rewrite !length_app_str in H. lia.
Qed.

(** Equal trees have equal halves. *)
Lemma tree_input_eq_node l1 l2 : (2 ≤ length l1)%nat → tree_input l1 = tree_input l2 →
  (2 ≤ length l2)%nat ∧ mth (split_left l1) = mth (split_left l2) ∧
  mth (split_right l1) = mth (split_right l2).
Proof.
  intros H1 H. rewrite (tree_input_node l1 H1) in H.
  destruct l2 as [|x [|y l2]]; [done|done|].
  assert (2 ≤ length (x :: y :: l2))%nat as H2 by (cbn [length]; lia).
  rewrite (tree_input_node _ H2) in H. split; [done|].
  apply node_input_inj in H; [done|]. by rewrite !length_mth.
Qed.

(** ** Proofs of inclusion *)

Lemma climb_app r p q :
  climb r (p ++ q) = r' ← climb r p; match r' with Some r'' => climb r'' q | None => Ok None end.
Proof.
  revert r. induction p as [|[side s] p IH]; intros r; [done|]. cbn [app climb].
  destruct (fromhex s); cbn [mbind result_bind]; [|done].
  repeat case_bool_decide; auto.
Qed.

Lemma path_step f l idx : (2 ≤ length l)%nat →
  path (S f) l idx =
  if (idx <? length (split_left l))%nat
  then path f (split_left l) idx ++ [("R", hex (mth (split_right l)))]
  else path f (split_right l) (idx - length (split_left l)) ++ [("L", hex (mth (split_left l)))].
Proof.
  intros H. destruct (split_lengths l H) as (_ & _ & _ & _ & ->).
  destruct l as [|x [|y l]]; cbn [length] in H; [lia|lia|reflexivity].
Qed.

(** The path of a leaf climbs to the root. *)
Lemma path_climbs f l idx x : (length l ≤ f)%nat → l !! idx = Some x →
  climb (sha256 (leaf_input x)) (path f l idx) = Ok (Some (mth l)).
Proof.
  revert l idx. induction f as [|f IH]; intros l idx Hf Hx.
  { apply lookup_lt_Some in Hx. lia. }
  destruct (decide (2 ≤ length l)%nat) as [H|H].
  - rewrite (path_step f l idx H). destruct (split_lengths l H) as (Hl & H1 & H2 & _ & _).
    rewrite (mth_input l), (tree_input_node l H). rewrite Hl in Hx.
    destruct (Nat.ltb_spec idx (length (split_left l))) as [Hi|Hi].
    + rewrite lookup_app_l in Hx by done. rewrite climb_app, (IH (split_left l) _ ltac:(lia) Hx).
      cbn [mbind result_bind climb]. by rewrite fromhex_hex.
    + rewrite lookup_app_r in Hx by done. rewrite climb_app, (IH (split_right l) _ ltac:(lia) Hx).
      cbn [mbind result_bind climb]. by rewrite fromhex_hex.
  - destruct l as [|y [|z l]]; cbn [length] in H; [by rewrite lookup_nil in Hx| |lia].
    destruct idx; [|done]. injection Hx as ->. reflexivity.
Qed.

(** ... and has at most ⌈log2 n⌉ siblings. *)
Lemma path_length f l idx : (idx < length l)%nat →
  (length (path f l idx) ≤ Nat.log2_up (length l))%nat.
Proof.
  revert l idx. induction f as [|f IH]; intros l idx Hi; [simpl; lia|].
  destruct (decide (2 ≤ length l)%nat) as [H|H].
  - rewrite (path_step f l idx H). destruct (split_lengths l H) as (Hl & H1 & H2 & H3 & Hk).
    destruct (split_point (length l) H) as [[_ Hn] [e He]]. rewrite <-Hk in Hn, He.
    assert (Nat.log2_up (length l) = S e) as Hlog.
    { apply Nat.log2_up_unique; [lia|]. cbn [Nat.pred Nat.pow]. lia. }
    assert (Nat.log2_up (length (split_left l)) = e) as Hleft by (rewrite He; apply Nat.log2_up_pow2; lia).
    pose proof (Nat.log2_up_le_mono _ _ H3) as Hright.
    assert (length l = length (split_left l) + length (split_right l))%nat as Hsum
      by (rewrite <-length_app; by f_equal).
    destruct (Nat.ltb_spec idx (length (split_left l))) as [Hs|Hs]; rewrite length_app; cbn [length].
    + specialize (IH (split_left l) idx Hs). lia.
    + specialize (IH (split_right l) (idx - length (split_left l))%nat ltac:(lia)). lia.
  - destruct l as [|y [|z l]]; cbn [length] in H; [simpl in Hi; lia|simpl; lia|lia].
Qed.

(** The string hashed last by the verification of a reversed proof. *)
Fixpoint proof_input (leaf : bytes) (rproof : list (string * string)) : bytes :=
  match rproof with
  | [] => leaf_input leaf
  | (side, sibling_hex) :: rproof' =>
      let running := sha256 (proof_input leaf rproof') in
      match fromhex sibling_hex with
      | Ok s => if bool_decide (side = "L") then node_input s running else node_input running s
      | Raise _ => ""
      end
  end.

(** Walk down tree and proof together to the first difference. *)
Fixpoint forged (leaf : bytes) (rproof : list (string * string)) (l : list bytes) : bytes * bytes :=
  if decide (proof_input leaf rproof = tree_input l) then
    match rproof with
    | [] => ("", "")
    | (side, _) :: rproof' =>
        forged leaf rproof' (if bool_decide (side = "L") then split_right l else split_left l)
    end
  else (proof_input leaf rproof, tree_input l).

Lemma climb_snoc_inv r p side s r' :
  climb r (p ++ [(side, s)]) = Ok (Some r') →
  ∃ r0 sib, climb r p = Ok (Some r0) ∧ fromhex s = Ok sib ∧
    r' = sha256 (if bool_decide (side = "L") then node_input sib r0 else node_input r0 sib).
Proof.
  rewrite climb_app, bind_Ok. intros ([r0|] & Hp & H); [|done]. cbn [climb] in H.
  apply bind_Ok in H as (sib & Hs & H). exists r0, sib. split; [done|]. split; [done|].
  repeat case_bool_decide; congruence.
Qed.

Lemma climb_input leaf rp r :
  climb (sha256 (leaf_input leaf)) (rev rp) = Ok (Some r) → r = sha256 (proof_input leaf rp).
Proof.
  revert r. induction rp as [|[side s] rp IH]; intros r; cbn [rev proof_input].
  - cbn [climb]. by intros [=].
  - intros (r0 & sib & H0 & Hs & ->)%climb_snoc_inv. rewrite Hs, (IH _ H0). by case_bool_decide.
Qed.

Lemma climb_sound leaf rp l :
  climb (sha256 (leaf_input leaf)) (rev rp) = Ok (Some (mth l)) → leaf ∈ l ∨ collision (forged leaf rp l).
Proof.
  revert l. induction rp as [|[side s] rp IH]; intros l Hc; pose proof (climb_input _ _ _ Hc) as Hin;
    rewrite mth_input in Hin; cbn [forged]; case_decide as He; try (right; split; [done|by symmetry]).
  - left. destruct l as [|x [|y l]]; [done| |done]. injection He as ->. left.
  - cbn [rev] in Hc. apply climb_snoc_inv in Hc as (r0 & sib & H0 & Hs & _).
    cbn [proof_input] in He. rewrite Hs, <-(climb_input _ _ _ H0) in He.
    assert (String.length r0 = 32%nat) as Hr by (rewrite (climb_input _ _ _ H0); apply length_sha256).
    destruct l as [|x [|y l]]; [by case_bool_decide..|].
    set (l' := x :: y :: l) in *. assert (2 ≤ length l')%nat as H by (unfold l'; cbn [length]; lia).
    rewrite (tree_input_node l' H) in He. destruct (split_lengths l' H) as (Hl & _).
    assert (∀ z, z ∈ split_left l' ∨ z ∈ split_right l' → z ∈ l') as Hsub
      by (intros z Hz; rewrite Hl; apply elem_of_app; done).
    case_bool_decide.
    + apply node_input_inj_r in He as [_ ->]; [|by rewrite length_mth]. destruct (IH _ H0); auto.
    + apply node_input_inj in He as [-> _]; [|by rewrite length_mth]. destruct (IH _ H0); auto.
Qed.

(** ** Roots commit to the leaves *)

Fixpoint root_collision (fuel : nat) (l1 l2 : list bytes) : bytes * bytes :=
  match fuel with
  | S fuel' =>
      if decide (tree_input l1 = tree_input l2) then
        if decide (split_left l1 = split_left l2)
        then root_collision fuel' (split_right l1) (split_right l2)
        else root_collision fuel' (split_left l1) (split_left l2)
      else (tree_input l1, tree_input l2)
  | O => (tree_input l1, tree_input l2)
  end.

Lemma mth_commits f l1 l2 : (length l1 ≤ f)%nat → mth l1 = mth l2 →
  l1 = l2 ∨ collision (root_collision f l1 l2).
Proof.
  revert l1 l2. induction f as [|f IH]; intros l1 l2 Hf H;
    pose proof H as Hs; rewrite !mth_input in Hs; cbn [root_collision].
  - destruct l1; [|simpl in Hf; lia]. destruct (decide (tree_input l2 = "")) as [H2|H2].
    + left. by destruct l2 as [|? [|??]].
    + right. split; [|done]. cbn [fst snd tree_input]. auto.
  - destruct (decide (tree_input l1 = tree_input l2)) as [He|He]; [|by right; split].
    destruct l1 as [|x [|y l1]].
    + left. by destruct l2 as [|? [|??]].
    + left. destruct l2 as [|? [|??]]; [done|by injection He as ->|done].
    + set (l := x :: y :: l1) in *. assert (2 ≤ length l)%nat as Hl by (unfold l; cbn [length]; lia).
      destruct (tree_input_eq_node _ _ Hl He) as (Hl2 & HL & HR).
      destruct (split_lengths l Hl) as (E1 & ? & ? & _), (split_lengths l2 Hl2) as (E2 & _).
      destruct (decide (split_left l = split_left l2)) as [EL|EL].
      * destruct (IH (split_right l) (split_right l2) ltac:(lia) HR) as [ER|CR]; [|by right].
        left. by rewrite E1, E2, EL, ER.
      * destruct (IH (split_left l) (split_left l2) ltac:(lia) HL); [done|by right].
Qed.

(** ** The properties of the proofs *)

(** Completeness: for every leaf of every tree [merkle_proof] returns a
    proof of at most ⌈log2 n⌉ siblings that [verify_merkle_proof] accepts
    against the root, and outside the tree it raises [IndexError]. *)
Theorem merkle_proof_complete leaves i leaf :
  0 <= i → leaves !! Z.to_nat i = Some leaf →
  ∃ proof, merkle_proof leaves i = Ok proof ∧
    verify_merkle_proof leaf i (Z.of_nat (length leaves)) proof (merkle_root leaves) = Ok true ∧
    (length proof ≤ Nat.log2_up (length leaves))%nat ∧
    ∀ j, j < 0 ∨ Z.of_nat (length leaves) <= j →
      ∃ msg, merkle_proof leaves j = Raise (Exn "IndexError" msg).
Proof.
  intros H0 Hl. pose proof (lookup_lt_Some _ _ _ Hl) as Hi.
  assert ((0 <=? i) && (i <? Z.of_nat (length leaves)) = true) as Hr by lia.
  exists (path (length leaves) leaves (Z.to_nat i)). unfold merkle_proof, verify_merkle_proof.
  rewrite Hr. split_and!; [done| |by apply path_length|].
  - cbn [negb]. rewrite (path_climbs _ _ _ leaf) by done. cbn [mbind result_bind].
    unfold merkle_root. by rewrite bool_decide_true.
  - intros j Hj. replace ((0 <=? j) && (j <? Z.of_nat (length leaves))) with false by lia.
    by eexists.
Qed.

(** C11.  Soundness: a proof accepted against the root of a tree is a proof of
    a leaf of that tree, or [forged] computes a SHA-256 collision from it.
    The index and the size only pass a range test: the verdict is the same
    for every other position in range of every other claimed size. *)
Theorem merkle_proof_sound leaves leaf i n proof :
  verify_merkle_proof leaf i n proof (merkle_root leaves) = Ok true →
  (leaf ∈ leaves ∨ collision (forged leaf (rev proof) leaves)) ∧
  ∀ i' n', 0 <= i' < n' →
    verify_merkle_proof leaf i' n' proof (merkle_root leaves) = Ok true.
Proof.
  unfold verify_merkle_proof. destruct (negb _) eqn:Hr; [done|]. intros Hv. split.
  - apply bind_Ok in Hv as ([r|] & Hc & [= Hv]). bool_prop.
    apply climb_sound. rewrite rev_involutive, Hc. do 2 f_equal. by apply (inj hex).
  - intros i' n' H. replace ((0 <=? i') && (i' <? n')) with true by lia. done.
Qed.

(** A root commits to the list of leaves: equal roots mean equal lists,
    of any lengths, or [root_collision] computes a SHA-256 collision. *)
Theorem merkle_root_binding l1 l2 :
  merkle_root l1 = merkle_root l2 → l1 = l2 ∨ collision (root_collision (length l1) l1 l2).
Proof. intros H%(inj hex). by apply mth_commits. Qed.

(** ** Canonical forms in a fixed field order *)

(** [{k: temp[k] for k in order if k in temp}] *)
Definition in_order (order : list string) (temp : dict) : dict :=
  omap (λ k, pair k <$> assoc k temp) order.

(** [dict(d)] with [self_hash] and [signature] emptied *)
Definition blanked (d : dict) : dict :=
  dict_set "signature" (JStr "") (dict_set "self_hash" (JStr "") d).

Definition CHECKPOINT_FIELD_ORDER : list string :=
  ["checkpoint_seq"; "timestamp"; "agent_id"; "tree_size"; "merkle_root"; "prev_checkpoint_hash";
   "self_hash"; "signature"].

Definition receipt_field_order : list string :=
  ["seq"; "timestamp"; "agent_id"; "action"; "context"; "outcome"; "prev_hash"; "self_hash";
   "signature"; "opik_trace_id"; "opik_trace_url"; "domain"].

Definition canonical_in `{FloatRepr} (order : list string) (d : dict) : bytes :=
  utf8 (print false (JObj (in_order order (blanked d)))).

Definition canonical_checkpoint `{FloatRepr} : dict → bytes := canonical_in CHECKPOINT_FIELD_ORDER.
Definition receipt_canonical `{FloatRepr} : dict → bytes := canonical_in receipt_field_order.

Definition receipt_leaves `{FloatRepr} (receipts : list dict) : list bytes :=
  map (λ r, sha256_hex (receipt_canonical r)) receipts.

(** ** Checkpoints *)

(** [v + 1] on the values a JSON file can hold *)
Definition plus_one (v : json) : result json :=
  match v with
  | JInt z => Ok (JInt (z + 1))
  | JBool b => Ok (JInt (if b then 2 else 1))
  | JFloat f => Ok (JFloat (fadd f f1))
  | _ => raise "TypeError" "unsupported operand type(s) for +"
  end.

Section Checkpoints.
Context `{FR : FloatRepr} `{ED : Ed25519}.

(** The pair returned: the checkpoint, and the file it is appended to. *)
Definition create_checkpoint (receipts existing : list dict) (private_key_hex : string) (now : Z) :
    result (dict * list dict) :=
  let root := merkle_root (receipt_leaves receipts) in
  prev_hash ← match last existing with Some c => item "self_hash" c | None => Ok (JStr "genesis") end;
  seq ← match last existing with
        | Some c => n ← item "checkpoint_seq" c; plus_one n
        | None => Ok (JInt 0) end;
  seed ← fromhex (take_str 64 private_key_hex);
  _ ← ensure (String.length seed =? 32)%nat "ValueError" "An Ed25519 private key is 32 bytes long";
  let ckpt := [("checkpoint_seq", seq); ("timestamp", JInt now); ("agent_id", JStr (hex (ed_public seed)));
               ("tree_size", JInt (Z.of_nat (length receipts))); ("merkle_root", JStr root);
               ("prev_checkpoint_hash", prev_hash); ("self_hash", JStr ""); ("signature", JStr "")] in
  let self_hash := sha256_hex (canonical_checkpoint ckpt) in
  let ckpt := dict_set "self_hash" (JStr self_hash) ckpt in
  message ← encode_ascii self_hash;
  let ckpt := dict_set "signature" (JStr (hex (ed_sign seed message))) ckpt in
  Ok (ckpt, existing ++ [ckpt]).

(** The violation strings, by their format and the values they show. *)
Inductive violation :=
| SelfHashMismatch (seq : option json)
| InvalidSignature (seq : option json) (exception : string).

(** [bytes.fromhex(d[k])] *)
Definition hex_item (k : string) (d : dict) : result bytes :=
  v ← item k d;
  match v with JStr s => fromhex s | _ => raise "TypeError" "fromhex() argument must be str" end.

(** The body of the [try]. *)
Definition check_signature (ckpt : dict) : result () :=
  pub ← hex_item "agent_id" ckpt;
  _ ← ensure (String.length pub =? 32)%nat "ValueError" "An Ed25519 public key is 32 bytes long";
  signature ← hex_item "signature" ckpt;
  message ← (v ← item "self_hash" ckpt;
             match v with JStr s => encode_ascii s | _ => raise "AttributeError" "encode" end);
  ensure (ed_verify pub signature message) "InvalidSignature" "".

Definition caught (cls : string) : bool :=
  bool_decide (cls ∈ ["InvalidSignature"; "ValueError"; "UnicodeEncodeError"; "KeyError"]).

Definition verify_checkpoint (ckpt : dict) : result (list violation) :=
  let computed := sha256_hex (canonical_checkpoint ckpt) in
  if negb (is_str computed (assoc "self_hash" ckpt))
  then Ok [SelfHashMismatch (assoc "checkpoint_seq" ckpt)]
  else match check_signature ckpt with
       | Ok _ => Ok []
       | Raise e => if caught (exn_class e)
                    then Ok [InvalidSignature (assoc "checkpoint_seq" ckpt) (exn_class e)]
                    else Raise e
       end.

(** ** What the canonical forms commit to *)

Definition same_fields (order : list string) (d1 d2 : dict) : Prop :=
  ∀ k, k ∈ order → k ≠ "self_hash" → k ≠ "signature" → assoc k d1 = assoc k d2.

Lemma assoc_in_order order temp k : k ∈ order → assoc k (in_order order temp) = assoc k temp.
Proof.
  induction order as [|k' order IH]; [by intros ?%not_elem_of_nil|].
  intros Hk. unfold in_order. cbn [omap list_omap].
  destruct (assoc k' temp) as [v|] eqn:Ek; cbn [fmap option_fmap option_map assoc].
  - case_bool_decide as E; [by subst|]. apply elem_of_cons in Hk as [->|Hk]; [done|by apply IH].
  - apply elem_of_cons in Hk as [->|Hk]; [|by apply IH].
    rewrite Ek. apply assoc_None. intros ([k2 v] & -> & H)%list_elem_of_fmap.
    apply list_elem_of_omap in H as (k3 & _ & H). cbn [fst] in Ek.
    destruct (assoc k3 temp) eqn:E3; [|done]. injection H as -> ->. congruence.
Qed.

Lemma assoc_blanked k d : k ≠ "self_hash" → k ≠ "signature" → assoc k (blanked d) = assoc k d.
Proof. intros. unfold blanked. by rewrite !assoc_set_ne. Qed.

Lemma wf_blanked order d : wf_json (JObj d) = true → wf_json (JObj (in_order order (blanked d))) = true.
Proof.
  cbn [wf_json]. rewrite !forallb_forall. intros H [k v] Hin%list_elem_of_In.
  apply list_elem_of_omap in Hin as (k' & _ & Hk').
  destruct (assoc k' (blanked d)) as [v'|] eqn:E; [|done]. injection Hk' as -> ->.
  apply assoc_Some_elem in E. unfold blanked in E.
  apply elem_dict_set in E as [[= -> ->]|E]; [done|].
  apply elem_dict_set in E as [[= -> ->]|E]; [done|]. apply H. by apply list_elem_of_In.
Qed.

Lemma canonical_in_fields order d1 d2 :
  wf_json (JObj d1) = true → wf_json (JObj d2) = true →
  canonical_in order d1 = canonical_in order d2 → same_fields order d1 d2.
Proof.
  intros W1 W2 H%(inj utf8)%print_inj; [|by apply wf_blanked..]. injection H as H.
  intros k Hk H1 H2. rewrite <-(assoc_blanked k d1), <-(assoc_blanked k d2) by done.
  by rewrite <-(assoc_in_order order (blanked d1)), H, assoc_in_order.
Qed.

(** The first two receipts with different canonical forms. *)
Fixpoint leaf_collision (rs1 rs2 : list dict) : bytes * bytes :=
  match rs1, rs2 with
  | r1 :: rs1', r2 :: rs2' =>
      if decide (receipt_canonical r1 = receipt_canonical r2) then leaf_collision rs1' rs2'
      else (receipt_canonical r1, receipt_canonical r2)
  | _, _ => ("", "")
  end.

Lemma receipt_leaves_commit rs1 rs2 :
  forallb (λ r, wf_json (JObj r)) rs1 = true → forallb (λ r, wf_json (JObj r)) rs2 = true →
  receipt_leaves rs1 = receipt_leaves rs2 →
  Forall2 (same_fields receipt_field_order) rs1 rs2 ∨ collision (leaf_collision rs1 rs2).
Proof.
  revert rs2. induction rs1 as [|r1 rs1 IH]; intros [|r2 rs2].
  - intros. left. constructor.
  - intros _ _ H. discriminate H.
  - intros _ _ H. discriminate H.
  - intros [W1 W1']%andb_true_iff [W2 W2']%andb_true_iff H.
    assert (sha256_hex (receipt_canonical r1) = sha256_hex (receipt_canonical r2)) as Hh
      by exact (f_equal (List.hd "") H).
    apply (f_equal tail) in H. cbn [leaf_collision].
    destruct (decide (receipt_canonical r1 = receipt_canonical r2)) as [E|E].
    + destruct (IH rs2 W1' W2' H) as [HF|HC]; [left|right; exact HC].
      constructor; [exact (canonical_in_fields _ _ _ W1 W2 E)|exact HF].
    + right. apply sha256_hex_eq in Hh as [Hh|Hh]; [contradiction|exact Hh].
Qed.

(** ** A checkpoint that was created *)

Lemma encode_sha256_hex x : encode_ascii (sha256_hex x) = Ok (sha256_hex x).
Proof. exact (encode_ascii_hex (sha256 x)). Qed.

(** The fields of a new checkpoint, given its link and its key. *)
Definition unsigned (seq prev_hash : json) (seed : bytes) (receipts : list dict) (now : Z) : dict :=
  [("checkpoint_seq", seq); ("timestamp", JInt now); ("agent_id", JStr (hex (ed_public seed)));
   ("tree_size", JInt (Z.of_nat (length receipts)));
   ("merkle_root", JStr (merkle_root (receipt_leaves receipts)));
   ("prev_checkpoint_hash", prev_hash); ("self_hash", JStr ""); ("signature", JStr "")].

Definition signed (seed : bytes) (d : dict) : dict :=
  let h := sha256_hex (canonical_checkpoint d) in
  dict_set "signature" (JStr (hex (ed_sign seed h))) (dict_set "self_hash" (JStr h) d).

Lemma create_checkpoint_inv receipts existing key now ckpt file :
  create_checkpoint receipts existing key now = Ok (ckpt, file) →
  ∃ seq prev_hash seed, fromhex (take_str 64 key) = Ok seed ∧ String.length seed = 32%nat ∧
    file = existing ++ [ckpt] ∧ ckpt = signed seed (unsigned seq prev_hash seed receipts now) ∧
    match last existing with
    | None => seq = JInt 0 ∧ prev_hash = JStr "genesis"
    | Some c => item "self_hash" c = Ok prev_hash ∧ (n ← item "checkpoint_seq" c; plus_one n) = Ok seq
    end.
Proof.
  unfold create_checkpoint. cbv zeta. intros (ph & Hp & H)%bind_Ok.
  apply bind_Ok in H as (seq & Hs & H). apply bind_Ok in H as (seed & Hseed & H).
  apply bind_Ok in H as ([] & Hl & H). apply ensure_Ok, Nat.eqb_eq in Hl.
  apply bind_Ok in H as (m & Hm & H). rewrite encode_sha256_hex in Hm.
  injection Hm as <-. injection H as <- <-.
  exists seq, ph, seed. split_and!; [exact Hseed|exact Hl|reflexivity|reflexivity|].
  destruct (last existing); [split; [exact Hp|exact Hs]|split; congruence].
Qed.

Lemma blanked_signed seed seq ph receipts now :
  blanked (signed seed (unsigned seq ph seed receipts now)) =
  unsigned seq ph seed receipts now.
Proof. reflexivity. Qed.

Lemma canonical_signed seed seq ph receipts now :
  canonical_checkpoint (signed seed (unsigned seq ph seed receipts now)) =
  canonical_checkpoint (unsigned seq ph seed receipts now).
Proof. unfold canonical_checkpoint, canonical_in. rewrite blanked_signed. reflexivity. Qed.

Lemma signed_fields seed seq ph receipts now :
  let u := unsigned seq ph seed receipts now in let c := signed seed u in
  let h := sha256_hex (canonical_checkpoint u) in
  assoc "self_hash" c = Some (JStr h) ∧ assoc "signature" c = Some (JStr (hex (ed_sign seed h))) ∧
  assoc "agent_id" c = Some (JStr (hex (ed_public seed))) ∧
  assoc "merkle_root" c = Some (JStr (merkle_root (receipt_leaves receipts))) ∧
  assoc "tree_size" c = Some (JInt (Z.of_nat (length receipts))) ∧
  assoc "prev_checkpoint_hash" c = Some ph ∧ assoc "checkpoint_seq" c = Some seq ∧
  assoc "timestamp" c = Some (JInt now).
Proof. split_and!; reflexivity. Qed.

Lemma check_signature_signed c h seed :
  String.length seed = 32%nat → encode_ascii h = Ok h →
  assoc "self_hash" c = Some (JStr h) → assoc "signature" c = Some (JStr (hex (ed_sign seed h))) →
  assoc "agent_id" c = Some (JStr (hex (ed_public seed))) → check_signature c = Ok ().
Proof.
  intros Hl Hh F1 F2 F3. unfold check_signature, hex_item, item. rewrite F1, F2, F3.
  cbn [mbind result_bind]. rewrite !fromhex_hex. cbn [mbind result_bind].
  rewrite length_ed_public by exact Hl. cbn [Nat.eqb ensure mbind result_bind].
  rewrite Hh. cbn [mbind result_bind]. by rewrite ed_verify_sign.
Qed.

Lemma verify_checkpoint_ok c h :
  sha256_hex (canonical_checkpoint c) = h → assoc "self_hash" c = Some (JStr h) →
  check_signature c = Ok () → verify_checkpoint c = Ok [].
Proof.
  intros Hh F1 Hc. unfold verify_checkpoint. cbv zeta. rewrite Hh, F1, Hc. unfold is_str.
  by rewrite bool_decide_true.
Qed.

Lemma signed_verifies seed seq ph receipts now : String.length seed = 32%nat →
  verify_checkpoint (signed seed (unsigned seq ph seed receipts now)) = Ok [].
Proof.
  intros Hl. destruct (signed_fields seed seq ph receipts now) as (F1 & F2 & F3 & _).
  eapply verify_checkpoint_ok; [|exact F1|].
  - exact (f_equal sha256_hex (canonical_signed seed seq ph receipts now)).
  - exact (check_signature_signed _ _ _ Hl (encode_sha256_hex _) F1 F2 F3).
Qed.

Lemma created_fields c seed seq ph receipts now :
  c = signed seed (unsigned seq ph seed receipts now) →
  assoc "self_hash" c = Some (JStr (hex (sha256 (canonical_checkpoint c)))) ∧
  assoc "merkle_root" c = Some (JStr (merkle_root (receipt_leaves receipts))).
Proof.
  intros E. destruct (signed_fields seed seq ph receipts now) as (F1 & _ & _ & F4 & _).
  rewrite <-(canonical_signed seed), <-E in F1. rewrite <-E in F4. split; [exact F1|exact F4].
Qed.

(** A pair of colliding inputs when two checkpoints share their hash but not
    their receipts. *)
Definition checkpoint_collision (c1 c2 : dict) (rs1 rs2 : list dict) : bytes * bytes :=
  let l1 := receipt_leaves rs1 in let l2 := receipt_leaves rs2 in
  if decide (canonical_checkpoint c1 = canonical_checkpoint c2) then
    if decide (l1 = l2) then leaf_collision rs1 rs2 else root_collision (length l1) l1 l2
  else (canonical_checkpoint c1, canonical_checkpoint c2).

Lemma receipt_leaves_root rs1 rs2 :
  forallb (λ r, wf_json (JObj r)) rs1 = true → forallb (λ r, wf_json (JObj r)) rs2 = true →
  merkle_root (receipt_leaves rs1) = merkle_root (receipt_leaves rs2) →
  Forall2 (same_fields receipt_field_order) rs1 rs2 ∨
  collision (if decide (receipt_leaves rs1 = receipt_leaves rs2) then leaf_collision rs1 rs2
             else root_collision (length (receipt_leaves rs1)) (receipt_leaves rs1) (receipt_leaves rs2)).
Proof.
  intros W1 W2 H%(inj hex).
  destruct (decide (receipt_leaves rs1 = receipt_leaves rs2)) as [E|E];
    [by apply receipt_leaves_commit|].
  destruct (mth_commits _ _ _ (Nat.le_refl _) H); [contradiction|by right].
Qed.

(** A checkpoint that [create_checkpoint] returns is appended to the
    file, verifies, records the number of receipts and their Merkle root, and
    is linked to the last checkpoint of the file by its hash and the next
    sequence number. *)
Theorem checkpoint_verifies receipts existing key now ckpt file :
  create_checkpoint receipts existing key now = Ok (ckpt, file) →
  file = existing ++ [ckpt] ∧ verify_checkpoint ckpt = Ok [] ∧
  assoc "tree_size" ckpt = Some (JInt (Z.of_nat (length receipts))) ∧
  assoc "merkle_root" ckpt = Some (JStr (merkle_root (receipt_leaves receipts))) ∧
  match last existing with
  | None => assoc "prev_checkpoint_hash" ckpt = Some (JStr "genesis") ∧
            assoc "checkpoint_seq" ckpt = Some (JInt 0)
  | Some c => assoc "prev_checkpoint_hash" ckpt = assoc "self_hash" c ∧
              ∀ n, assoc "checkpoint_seq" c = Some (JInt n) →
                assoc "checkpoint_seq" ckpt = Some (JInt (n + 1))
  end.
Proof.
  intros (seq & ph & seed & _ & Hl & -> & -> & H)%create_checkpoint_inv.
  destruct (signed_fields seed seq ph receipts now) as (_ & _ & _ & F4 & F5 & F6 & F7 & _).
  split; [reflexivity|]. split; [apply signed_verifies; exact Hl|]. split; [exact F5|]. split; [exact F4|].
  rewrite F6, F7. destruct (last existing) as [c|].
  - destruct H as [Hp Hs]. unfold item in *. split.
    + destruct (assoc "self_hash" c); [by injection Hp as ->|done].
    + intros n Hn. rewrite Hn in Hs. cbn in Hs. by injection Hs as <-.
  - destruct H as [-> ->]. by split.
Qed.

(** A checkpoint hash commits to the receipts: when two created
    checkpoints have the same [self_hash], their receipt lists have the same
    length and agree on every field that is hashed; otherwise
    [checkpoint_collision] computes a SHA-256 collision. *)
Theorem checkpoint_commits rs1 rs2 ex1 ex2 k1 k2 now1 now2 c1 c2 f1 f2 :
  create_checkpoint rs1 ex1 k1 now1 = Ok (c1, f1) → create_checkpoint rs2 ex2 k2 now2 = Ok (c2, f2) →
  forallb (λ r, wf_json (JObj r)) (rs1 ++ rs2 ++ [c1; c2]) = true →
  assoc "self_hash" c1 = assoc "self_hash" c2 →
  Forall2 (same_fields receipt_field_order) rs1 rs2 ∨ collision (checkpoint_collision c1 c2 rs1 rs2).
Proof.
  intros (s1 & p1 & seed1 & _ & _ & _ & E1 & _)%create_checkpoint_inv
         (s2 & p2 & seed2 & _ & _ & _ & E2 & _)%create_checkpoint_inv W Hh.
  rewrite !forallb_app in W. apply andb_true_iff in W as [W1 W]. apply andb_true_iff in W as [W2 W].
  unfold forallb in W. apply andb_true_iff in W as [W3 W]. apply andb_true_iff in W as [W4 _].
  destruct (created_fields _ _ _ _ _ _ E1) as [F1 M1]. destruct (created_fields _ _ _ _ _ _ E2) as [F2 M2].
  clear E1 E2. unfold checkpoint_collision. cbv zeta.
  destruct (decide (canonical_checkpoint c1 = canonical_checkpoint c2)) as [E|E].
  - apply receipt_leaves_root; [exact W1|exact W2|].
    assert (assoc "merkle_root" c1 = assoc "merkle_root" c2) as HM.
    { apply (canonical_in_fields _ _ _ W3 W4 E); [|discriminate..]. unfold CHECKPOINT_FIELD_ORDER. set_solver. }
    rewrite M1, M2 in HM. exact (Some_JStr_inj _ _ HM).
  - right. rewrite F1, F2 in Hh. split; [exact E|exact (inj hex _ _ (Some_JStr_inj _ _ Hh))].
Qed.
End Checkpoints.

(** ** Concrete trees and checkpoints *)

Section Witnesses.
#[local] Existing Instance exact_float_repr.

#[local] Existing Instance plain_signatures.

Definition demo_leaves : list bytes := ["a"; "b"; "c"].
Definition demo_proof : list (string * string) := path 3 demo_leaves 2.

Lemma merkle_proof_complete_witness :
  ∃ proof, merkle_proof demo_leaves 2 = Ok proof ∧ (length proof ≤ 2)%nat.
Proof.
  destruct (merkle_proof_complete demo_leaves 2 "c") as (p & H1 & _ & H2 & _); [done|reflexivity|].
  exists p. split; [exact H1|]. exact H2.
Defined.

Lemma merkle_proof_sound_witness :
  ("c" ∈ demo_leaves ∨ collision (forged "c" (rev demo_proof) demo_leaves)) ∧
  verify_merkle_proof "c" 0 5 demo_proof (merkle_root demo_leaves) = Ok true.
Proof.
  destruct (merkle_proof_sound demo_leaves "c" 2 3 demo_proof) as [H1 H2]; [vm_compute; reflexivity|].
  split; [exact H1|]. apply H2. lia.
Defined.

Lemma merkle_root_binding_witness :
  demo_leaves = "a" :: ["b"; "c"] ∨ collision (root_collision 3 demo_leaves demo_leaves).
Proof. exact (merkle_root_binding demo_leaves demo_leaves eq_refl). Defined.

Definition demo_seed : string := hex "0123456789abcdef0123456789abcdef".
Definition demo_receipts : list dict := [[("seq", JInt 0); ("action", JStr "run")]].
Definition demo_first : dict * list dict :=
  match create_checkpoint demo_receipts [] demo_seed 7 with Ok r => r | Raise _ => ([], []) end.

Lemma demo_created : create_checkpoint demo_receipts [] demo_seed 7 = Ok (demo_first.1, demo_first.2).
Proof. vm_compute. reflexivity. Qed.

Lemma checkpoint_verifies_witness :
  verify_checkpoint demo_first.1 = Ok [] ∧ assoc "tree_size" demo_first.1 = Some (JInt 1).
Proof.
  destruct (checkpoint_verifies _ _ _ _ _ _ demo_created) as (_ & H1 & H2 & _).
  split; [exact H1|exact H2].
Defined.

Lemma checkpoint_commits_witness :
  Forall2 (same_fields receipt_field_order) demo_receipts demo_receipts ∨
  collision (checkpoint_collision demo_first.1 demo_first.1 demo_receipts demo_receipts).
Proof.
  apply (checkpoint_commits _ _ _ _ _ _ _ _ _ _ _ _ demo_created demo_created);
    [vm_compute; reflexivity|reflexivity].
Defined.
End Witnesses.
