(* ===== verification/FlightRecorder.v ===== *)
(** * The flight recorder

    [kairo/trust/flight_recorder.py]: hash-chained execution traces, their
    verification and their replay.  A JSONL file is the list of what
    [json.loads] finds on its lines; the clock is an argument. *)

From S2P Require Import Prelude PyStr PyFloat PyDict Json Sha256 HashChain Merkle.

(** The fields are whatever the JSON of the entry holds. *)
Record FlightEntry := {
  seq : json; timestamp : json; stage : json; input_hash : json; output_hash : json;
  receipt_hash : json; prev_hash : json; self_hash : json; metadata : json }.

Definition to_dict (e : FlightEntry) : dict :=
  [("seq", seq e); ("timestamp", timestamp e); ("stage", stage e); ("input_hash", input_hash e);
   ("output_hash", output_hash e); ("receipt_hash", receipt_hash e); ("prev_hash", prev_hash e);
   ("self_hash", self_hash e); ("metadata", metadata e)].

Definition from_dict (d : dict) : result FlightEntry :=
  s ← item "seq" d; t ← item "timestamp" d; st ← item "stage" d; i ← item "input_hash" d;
  o ← item "output_hash" d; p ← item "prev_hash" d; h ← item "self_hash" d;
  Ok {| seq := s; timestamp := t; stage := st; input_hash := i; output_hash := o;
        receipt_hash := default JNull (assoc "receipt_hash" d); prev_hash := p; self_hash := h;
        metadata := default (JObj []) (assoc "metadata" d) |}.

Record FlightLog := { agent_id : string; entries : list FlightEntry; last_hash : json }.

Definition new_log (agent : string) : FlightLog :=
  {| agent_id := agent; entries := []; last_hash := JStr "genesis" |}.

(** A line of the file: blank, not JSON, an object, or other JSON. *)
Inductive line := Blank | NotJson (msg : string) | Obj (d : dict) | Other.

(** The violation strings, by their format and the values they show. *)
Inductive flight_violation :=
| LogNotFound
| InvalidJson (line_num : Z) (msg : string)
| SelfHash (seq : option json) (computed : string) (stored : json)
| PrevHash (seq : option json) (expected got : json)
| MerkleMismatch (expected : string) (got : option string).

(** [v[:16]]: of a string or a list, anything else raises. *)
Definition first16 (v : json) : result json :=
  match v with
  | JStr s => Ok (JStr (take_str 16 s))
  | JArr l => Ok (JArr (take 16 l))
  | _ => raise "TypeError" "object is not subscriptable"
  end.

Section Recorder.
Context `{FR : FloatRepr}.

(** [_canonical_hash] *)
Definition canonical_hash (data : json) : string :=
  match data with
  | JStr s => sha256_hex (utf8 s)
  | _ => sha256_hex (canonical false data)
  end.

(** The bytes hashed by [_entry_hash]. *)
Definition entry_bytes (d : dict) : bytes := canonical false (JObj (dict_set "self_hash" (JStr "") d)).
Definition entry_hash (d : dict) : string := sha256_hex (entry_bytes d).

Definition add_entry (stg input output : json) (receipt : json) (meta : option json) (now : Z)
    (log : FlightLog) : result (FlightEntry * FlightLog) :=
  let entry_dict :=
    [("seq", JInt (Z.of_nat (length (entries log)))); ("timestamp", JInt now); ("stage", stg);
     ("input_hash", JStr (canonical_hash input)); ("output_hash", JStr (canonical_hash output));
     ("receipt_hash", receipt); ("prev_hash", last_hash log); ("self_hash", JStr "");
     ("metadata", match meta with Some v => if truthy_json v then v else JObj [] | None => JObj [] end)] in
  let entry_dict := dict_set "self_hash" (JStr (entry_hash entry_dict)) entry_dict in
  entry ← from_dict entry_dict;
  Ok (entry, {| agent_id := agent_id log; entries := entries log ++ [entry]; last_hash := self_hash entry |}).

Definition root_hash (log : FlightLog) : json :=
  match last (entries log) with Some e => self_hash e | None => JStr "genesis" end.

(** [h.encode("ascii")] *)
Definition encode_leaf (h : json) : result bytes :=
  match h with JStr s => encode_ascii s | _ => raise "AttributeError" "encode" end.

Definition receipt_hashes (log : FlightLog) : list json :=
  List.filter (λ h, match h with JNull => false | _ => true end) (map receipt_hash (entries log)).

Definition merkle_root_of_receipts (log : FlightLog) : result (option string) :=
  match receipt_hashes log with
  | [] => Ok None
  | hs => leaves ← mapM_result encode_leaf hs; Ok (Some (merkle_root leaves))
  end.

Definition save (log : FlightLog) : list line := map (λ e, Obj (to_dict e)) (entries log).

Fixpoint load_lines (file : list line) (log : FlightLog) : result FlightLog :=
  match file with
  | [] => Ok log
  | Blank :: file' => load_lines file' log
  | NotJson msg :: _ => raise "JSONDecodeError" msg
  | Other :: _ => raise "TypeError" "indices must be integers"
  | Obj d :: file' =>
      entry ← from_dict d;
      load_lines file' {| agent_id := agent_id log; entries := entries log ++ [entry];
                          last_hash := self_hash entry |}
  end.

Definition load (file : option (list line)) : result FlightLog :=
  match file with
  | None => raise "FileNotFoundError" ""
  | Some f => load_lines f (new_log "")
  end.

(** One stage dictionary of [record_flight]. *)
Definition record_stage (s : dict) (now : Z) (log : FlightLog) : result FlightLog :=
  stg ← item "stage" s; input ← item "input" s; output ← item "output" s;
  r ← add_entry stg input output (default JNull (assoc "receipt_hash" s)) (assoc "metadata" s) now log;
  Ok r.2.

Fixpoint record_stages (stages : list dict) (clock : nat → Z) (log : FlightLog) : result FlightLog :=
  match stages with
  | [] => Ok log
  | s :: stages' =>
      log' ← record_stage s (clock (length (entries log))) log;
      record_stages stages' clock log'
  end.

Definition record_flight (stages : list dict) (agent : string) (clock : nat → Z) : result FlightLog :=
  record_stages stages clock (new_log agent).

(** The self-hash check and the link check of one entry. *)
Definition check_self (d : dict) : result (list flight_violation) :=
  let computed := entry_hash d in
  if is_str computed (assoc "self_hash" d) then Ok [] else
  stored ← first16 (default (JStr "") (assoc "self_hash" d));
  Ok [SelfHash (assoc "seq" d) (take_str 16 computed) stored].

Definition check_link (expected : json) (d : dict) : result (list flight_violation) :=
  if match assoc "prev_hash" d with Some v => py_eq v expected | None => py_eq JNull expected end
  then Ok [] else
  e ← first16 expected; g ← first16 (default (JStr "") (assoc "prev_hash" d));
  Ok [PrevHash (assoc "seq" d) e g].

Fixpoint verify_lines (file : list line) (line_num : Z) (expected : json) : result (list flight_violation) :=
  match file with
  | [] => Ok []
  | Blank :: file' => verify_lines file' (line_num + 1) expected
  | NotJson msg :: file' =>
      vs ← verify_lines file' (line_num + 1) expected; Ok (InvalidJson line_num msg :: vs)
  | Other :: _ => raise "TypeError" "not an object"
  | Obj d :: file' =>
      v1 ← check_self d; v2 ← check_link expected d;
      vs ← verify_lines file' (line_num + 1) (default (JStr "") (assoc "self_hash" d));
      Ok (v1 ++ v2 ++ vs)
  end.

Definition verify_flight_log (file : option (list line)) : result (list flight_violation) :=
  match file with
  | None => Ok [LogNotFound]
  | Some f => verify_lines f 1 (JStr "genesis")
  end.

Record ReplayResult := {
  valid : bool; violations : list flight_violation; entry_count : Z; rr_root_hash : json;
  rr_merkle_root : option string; expected_merkle_root : option string; merkle_root_matches : option bool }.

Definition replay_flight (file : option (list line)) (expected : option string) : result ReplayResult :=
  vs ← verify_flight_log file; log ← load file; root ← merkle_root_of_receipts log;
  let res := {| valid := bool_decide (length vs = 0%nat); violations := vs;
                entry_count := Z.of_nat (length (entries log)); rr_root_hash := root_hash log;
                rr_merkle_root := root; expected_merkle_root := None; merkle_root_matches := None |} in
  match expected with
  | None => Ok res
  | Some e =>
      let matches := bool_decide (root = Some e) in
      Ok {| valid := valid res && matches;
            violations := if matches then vs
              else vs ++ [MerkleMismatch (take_str 16 e)
                            (match root with Some a => if truthy a then Some (take_str 16 a) else None
                             | None => None end)];
            entry_count := entry_count res; rr_root_hash := rr_root_hash res; rr_merkle_root := root;
            expected_merkle_root := Some e; merkle_root_matches := Some matches |}
  end.

(** ** A flight log as a hash chain *)

Definition str_at (k : string) (d : dict) : string :=
  match assoc k d with Some (JStr s) => s | _ => "" end.

(** The entry is a dictionary: its keys are distinct. *)
Definition wf_flight (d : dict) : bool := wf_json (JObj d) && bool_decide (NoDup d.*1).

(** Same content: every member but [self_hash], up to the order of keys. *)
Definition same_members (d1 d2 : dict) : Prop :=
  ∀ k, k ≠ "self_hash" → canon <$> assoc k d1 = canon <$> assoc k d2.

Lemma wf_json_dict_set k v (d : dict) :
  wf_json (JObj d) = true → wf_json v = true → wf_json (JObj (dict_set k v d)) = true.
Proof.
  cbn [wf_json]. rewrite !forallb_forall. intros Hd Hv p Hp%list_elem_of_In.
  apply elem_dict_set in Hp as [->|Hp]; [done|]. apply Hd. by apply list_elem_of_In.
Qed.

Lemma entry_bytes_members d1 d2 :
  wf_flight d1 = true → wf_flight d2 = true → entry_bytes d1 = entry_bytes d2 → same_members d1 d2.
Proof.
  intros [W1 N1]%andb_true_iff [W2 N2]%andb_true_iff H k Hk. bool_prop.
  apply canonical_inj in H; [|by apply wf_json_dict_set..].
  apply (canon_assoc k) in H; [|by apply wf_dict_set..]. by rewrite !assoc_set_ne in H.
Qed.

Lemma canon_str v s : canon v = JStr s → v = JStr s.
Proof. by destruct v. Qed.

Lemma same_members_prev d1 d2 : same_members d1 d2 → str_at "prev_hash" d1 = str_at "prev_hash" d2.
Proof.
  intros H. specialize (H "prev_hash" ltac:(discriminate)). unfold str_at.
  destruct (assoc "prev_hash" d1) as [v1|], (assoc "prev_hash" d2) as [v2|]; try discriminate H; [|done].
  injection H as H. destruct v1, v2; try discriminate H; cbn [canon] in H; congruence.
Qed.

Lemma entry_hash_not_genesis x : sha256_hex x ≠ "genesis".
Proof. intros H. apply (f_equal String.length) in H. by rewrite length_sha256_hex in H. Qed.

#[local] Instance flight_chain : ChainEntry dict := {
  tag := str_at "self_hash"; prev := str_at "prev_hash"; genesis := "genesis";
  preimage := entry_bytes; tag_of := sha256_hex; witness_pair := pair;
  wf_entry := wf_flight; same_content := same_members;
  tag_of_collision := sha256_hex_eq; tag_of_genesis := entry_hash_not_genesis;
  preimage_content := entry_bytes_members; same_content_prev := same_members_prev }.

Definition objects (file : list line) : list dict :=
  omap (λ l, match l with Obj d => Some d | _ => None end) file.

Definition readable (l : line) : bool := match l with Blank | Obj _ => true | _ => false end.

Lemma sha256_hex_nonempty x : sha256_hex x ≠ "".
Proof. intros H. apply (f_equal String.length) in H. by rewrite length_sha256_hex in H. Qed.

Lemma is_str_at h k d : h ≠ "" → is_str h (assoc k d) = true ↔ str_at k d = h.
Proof.
  intros Hh. unfold is_str, str_at.
  destruct (assoc k d) as [[]|]; rewrite ?bool_decide_eq_true; split; congruence.
Qed.

Lemma check_self_nil d : check_self d = Ok [] ↔ entry_ok d = true.
Proof.
  unfold check_self, entry_ok. cbv zeta. cbn [tag tag_of preimage flight_chain]. fold (entry_hash d).
  pose proof (is_str_at (entry_hash d) "self_hash" d (sha256_hex_nonempty _)) as Hi.
  rewrite bool_decide_eq_true, <-Hi. destruct (is_str _ _); [by split|].
  split; [|done]. intros H. apply bind_Ok in H as (? & _ & H). discriminate H.
Qed.

Lemma check_link_nil p d : p ≠ "" → check_link (JStr p) d = Ok [] ↔ str_at "prev_hash" d = p.
Proof.
  intros Hp. unfold check_link, str_at. split.
  - destruct (match assoc "prev_hash" d with Some v => py_eq v (JStr p) | None => _ end) eqn:E.
    + intros _. destruct (assoc "prev_hash" d) as [[]|]; try discriminate E. cbn [py_eq] in E. by bool_prop.
    + intros (? & _ & (? & _ & [=])%bind_Ok)%bind_Ok.
  - destruct (assoc "prev_hash" d) as [[]|]; try congruence. intros ->. cbn [py_eq].
    by rewrite bool_decide_true.
Qed.

(** No violation is reported exactly for the hash chains. *)
Lemma verify_lines_chain file n p : p ≠ "" →
  verify_lines file n (JStr p) = Ok [] ↔ forallb readable file = true ∧ chain_ok p (objects file) = true.
Proof.
  revert n p. induction file as [|l file IH]; intros n p Hp; [done|].
  destruct l as [|msg|d|]; cbn [verify_lines forallb readable andb].
  - by apply IH.
  - rewrite bind_Ok. split; [intros (? & _ & [=])|by intros []].
  - cbn [objects omap list_omap]. fold (objects file). cbn [chain_ok]. rewrite !andb_true_iff, <-check_self_nil.
    rewrite bool_decide_eq_true, <-(check_link_nil p d Hp). cbn [prev flight_chain].
    assert (check_self d = Ok [] →
      verify_lines file (n + 1) (default (JStr "") (assoc "self_hash" d)) = Ok [] ↔
      forallb readable file = true ∧ chain_ok (tag d) (objects file) = true) as Hrest.
    { intros Hs. apply check_self_nil in Hs. unfold entry_ok in Hs. bool_prop.
      assert (tag d ≠ "") as Ht by (rewrite Hs; apply sha256_hex_nonempty).
      cbn [tag flight_chain] in Ht |- *. unfold str_at in Ht |- *.
      destruct (assoc "self_hash" d) as [[]|]; try done. by apply IH. }
    split.
    + intros Hv. apply bind_Ok in Hv as (v1 & H1 & Hv). apply bind_Ok in Hv as (v2 & H2 & Hv).
      apply bind_Ok in Hv as (vs & H3 & Hv). injection Hv as H.
      apply app_nil in H as [-> [-> ->]%app_nil]. apply Hrest in H3 as [? ?]; done.
    + intros (Hr & (H1 & H2) & Hc). rewrite H1. cbn [mbind result_bind]. rewrite H2. cbn [mbind result_bind].
      rewrite (proj2 (Hrest H1)); done.
  - split; [done|by intros []].
Qed.

Lemma verify_flight_chain f :
  verify_flight_log (Some f) = Ok [] ↔
  forallb readable f = true ∧ chain_ok (CE := flight_chain) "genesis" (objects f) = true.
Proof. by apply verify_lines_chain. Qed.

(** ** Recording *)

(** The chain of the entries verifies and ends in [last_hash]. *)
Definition log_inv (log : FlightLog) : Prop :=
  chain_ok (CE := flight_chain) "genesis" (map to_dict (entries log)) = true ∧
  last_hash log = JStr (head_tag (CE := flight_chain) (map to_dict (entries log))).

Lemma add_entry_inv stg i o r meta now log e log' :
  log_inv log → add_entry stg i o r meta now log = Ok (e, log') →
  log_inv log' ∧ entries log' = entries log ++ [e].
Proof.
  intros [Hc Hl] H. unfold add_entry in H. cbv zeta in H. apply bind_Ok in H as (e' & He & H).
  injection H as <- <-. cbn [dict_set bool_decide decide_rel] in He.
  unfold from_dict, item in He. cbn in He. injection He as <-.
  split; [|done]. unfold log_inv. cbn [entries last_hash].
  rewrite map_app. cbn [map]. rewrite (head_tag_snoc (CE := flight_chain)). split; [|done].
  apply (chain_ok_extend (CE := flight_chain)); [exact Hc| |done].
  cbn. unfold str_at. cbn. by rewrite Hl.
Qed.

Lemma record_stages_inv stages clock log log' :
  log_inv log → record_stages stages clock log = Ok log' →
  log_inv log' ∧ (length (entries log') = length (entries log) + length stages)%nat.
Proof.
  revert log. induction stages as [|s stages IH]; intros log Hi; cbn [record_stages].
  - intros [= <-]. split; [done|simpl; lia].
  - intros H. apply bind_Ok in H as (log1 & H1 & H). unfold record_stage in H1.
    apply bind_Ok in H1 as (stg & _ & H1). apply bind_Ok in H1 as (i & _ & H1).
    apply bind_Ok in H1 as (o & _ & H1). apply bind_Ok in H1 as ([e log2] & H1 & [= <-]).
    apply add_entry_inv in H1 as [Hi2 He]; [|done]. cbn [snd] in H.
    destruct (IH _ Hi2 H) as [Hi' Hl]. split; [done|]. rewrite Hl, He, length_app. simpl. lia.
Qed.

Lemma objects_save log : objects (save log) = map to_dict (entries log).
Proof.
  unfold objects, save. induction (entries log) as [|e es IH]; [done|].
  cbn [map omap list_omap]. by rewrite IH.
Qed.

Lemma from_to_dict e : from_dict (to_dict e) = Ok e.
Proof. by destruct e. Qed.

Lemma load_save es log : load_lines (map (λ e, Obj (to_dict e)) es) log =
  Ok {| agent_id := agent_id log; entries := entries log ++ es;
        last_hash := match last es with Some e => self_hash e | None => last_hash log end |}.
Proof.
  revert log. induction es as [|e es IH]; intros log; cbn [map load_lines].
  - destruct log. cbn. by rewrite app_nil_r.
  - rewrite from_to_dict. cbn [mbind result_bind]. rewrite IH. cbn [agent_id entries last_hash].
    rewrite last_cons, <-app_assoc. by destruct (last es).
Qed.

Lemma record_flight_inv stages agent clock log :
  record_flight stages agent clock = Ok log → log_inv log ∧ length (entries log) = length stages.
Proof. intros H. by apply record_stages_inv in H. Qed.

(** Every flight that [record_flight] records is verified without a
    violation after [save], is loaded back entry by entry, and its replay
    against its own Merkle root of receipts is valid and reports one entry per
    stage and the recorded chain head. *)
Theorem recorded_flight_replays stages agent clock log root :
  record_flight stages agent clock = Ok log → merkle_root_of_receipts log = Ok (Some root) →
  verify_flight_log (Some (save log)) = Ok [] ∧
  (∃ log', load (Some (save log)) = Ok log' ∧ entries log' = entries log) ∧
  ∃ res, replay_flight (Some (save log)) (Some root) = Ok res ∧ valid res = true ∧
    violations res = [] ∧ entry_count res = Z.of_nat (length stages) ∧
    rr_root_hash res = root_hash log ∧ rr_merkle_root res = Some root.
Proof.
  intros H Hroot. destruct (record_flight_inv _ _ _ _ H) as [[Hc _] Hl].
  assert (verify_flight_log (Some (save log)) = Ok []) as Hv.
  { apply verify_flight_chain. rewrite objects_save. split; [|exact Hc].
    unfold save. clear. induction (entries log) as [|e es IH]; [done|exact IH]. }
  pose proof (load_save (entries log) (new_log "")) as HL. cbn [entries new_log app] in HL.
  split; [exact Hv|]. split; [eexists; split; [exact HL|done]|].
  unfold replay_flight. rewrite Hv. cbn [load mbind result_bind]. fold (save log) in HL. rewrite HL.
  cbn [mbind result_bind]. unfold merkle_root_of_receipts, receipt_hashes in Hroot |- *. cbn [entries].
  rewrite Hroot. cbn [mbind result_bind]. rewrite bool_decide_true by done.
  eexists. split; [done|]. cbn [valid violations entry_count rr_root_hash rr_merkle_root entries].
  rewrite Hl, bool_decide_true by done. split_and!; reflexivity.
Qed.

(** The [valid] flag of a replay. *)
Lemma replay_valid f expected res :
  replay_flight (Some f) expected = Ok res →
  valid res = true ↔
  verify_flight_log (Some f) = Ok [] ∧ match expected with Some r => rr_merkle_root res = Some r | None => True end.
Proof.
  unfold replay_flight. intros H. apply bind_Ok in H as (vs & -> & H).
  apply bind_Ok in H as (log & _ & H). apply bind_Ok in H as (root & _ & H).
  assert (bool_decide (length vs = 0%nat) = true ↔ Ok vs = Ok []) as Hvs.
  { rewrite bool_decide_eq_true. destruct vs; split; simpl; congruence. }
  destruct expected as [r|]; injection H as <-; cbn [valid rr_merkle_root].
  - by rewrite andb_true_iff, Hvs, bool_decide_eq_true.
  - rewrite Hvs. naive_solver.
Qed.

(** The root hash of what [load] reads is the tag of the last object. *)
Lemma load_head f log log' : load_lines f log = Ok log' →
  root_hash log' = match last (objects f) with Some d => default JNull (assoc "self_hash" d) | None => root_hash log end.
Proof.
  revert log. induction f as [|l f IH]; intros log; cbn [load_lines]; [by intros [= <-]|].
  destruct l as [|msg|d|]; try done; [exact (IH log)|].
  intros H. apply bind_Ok in H as (e & He & H). rewrite (IH _ H). cbn [objects omap list_omap].
  fold (objects f). rewrite last_cons. destruct (last (objects f)); [done|].
  unfold root_hash. cbn [entries]. rewrite last_snoc. unfold from_dict, item in He.
  destruct (assoc "self_hash" d) as [h|]; cbn [default].
  - unfold mbind, result_bind in He. crush_match He.
  - unfold mbind, result_bind in He. crush_match He.
Qed.

Lemma replay_root f expected res :
  replay_flight (Some f) expected = Ok res →
  rr_root_hash res =
    match last (objects f) with Some d => default JNull (assoc "self_hash" d) | None => JStr "genesis" end.
Proof.
  unfold replay_flight. intros H. apply bind_Ok in H as (vs & _ & H).
  apply bind_Ok in H as (log & Hl & H). apply bind_Ok in H as (root & _ & H).
  apply load_head in Hl. cbn in Hl. destruct expected; injection H as <-; exact Hl.
Qed.

Lemma replay_head f expected res :
  chain_ok (CE := flight_chain) "genesis" (objects f) = true → replay_flight (Some f) expected = Ok res →
  rr_root_hash res = JStr (head_tag (CE := flight_chain) (objects f)).
Proof.
  intros Hc Hr. rewrite (replay_root _ _ _ Hr). unfold head_tag.
  destruct (objects f) as [|d l _] using rev_ind; [done|]. rewrite last_snoc.
  rewrite (chain_ok_snoc (CE := flight_chain)) in Hc. apply andb_true_iff in Hc as [Hc _].
  apply andb_true_iff in Hc as [_ Hc]. unfold entry_ok in Hc. apply bool_decide_eq_true in Hc.
  assert (tag d ≠ "") as Ht by (rewrite Hc; apply sha256_hex_nonempty).
  cbn [tag flight_chain] in Ht |- *. unfold str_at in Ht |- *. by destruct (assoc "self_hash" d) as [[]|].
Qed.

(** Tamper evidence of flight files: two replays that report [valid] and
    the same root hash replayed the same entries, equal member by member up to
    the order of keys; otherwise [chain_collision] computes a SHA-256
    collision from the two files. *)
Theorem replay_commits f1 f2 exp1 exp2 r1 r2 :
  replay_flight (Some f1) exp1 = Ok r1 → replay_flight (Some f2) exp2 = Ok r2 →
  valid r1 = true → valid r2 = true →
  forallb wf_flight (objects f1) = true → forallb wf_flight (objects f2) = true →
  rr_root_hash r1 = rr_root_hash r2 →
  Forall2 (λ d1 d2, same_members d1 d2 ∧ str_at "self_hash" d1 = str_at "self_hash" d2)
    (objects f1) (objects f2) ∨
  collision (chain_collision (CE := flight_chain) (objects f1) (objects f2)).
Proof.
  intros R1 R2 V1 V2 W1 W2 H.
  apply (replay_valid _ _ _ R1) in V1 as [V1 _]. apply (replay_valid _ _ _ R2) in V2 as [V2 _].
  apply verify_flight_chain in V1 as [_ C1]. apply verify_flight_chain in V2 as [_ C2].
  rewrite (replay_head _ _ _ C1 R1), (replay_head _ _ _ C2 R2) in H. injection H as H.
  exact (head_commits (CE := flight_chain) _ _ C1 C2 W1 W2 H).
Qed.

(** What a replay does not report: on a missing file and on a file with a
    line that is not JSON, [verify_flight_log] returns a violation and
    [replay_flight] raises. *)
Theorem replay_raises_on_unreadable pre msg post expected :
  forallb readable pre = true →
  (∃ e, replay_flight None expected = Raise e) ∧ verify_flight_log None = Ok [LogNotFound] ∧
  (∃ e, replay_flight (Some (pre ++ NotJson msg :: post)) expected = Raise e).
Proof.
  intros Hp. split; [by eexists|]. split; [done|].
  unfold replay_flight. destruct (verify_flight_log _) as [vs|e]; [|by eexists]. cbn [mbind result_bind load].
  assert (∀ log, ∃ e, load_lines (pre ++ NotJson msg :: post) log = Raise e) as Hl.
  { induction pre as [|l pre IH]; intros log; [by eexists|]. cbn [forallb] in Hp. bool_prop.
    destruct l as [| |d|]; try done; cbn [app load_lines]; [by apply IH|].
    destruct (from_dict d); [by apply IH|by eexists]. }
  destruct (Hl (new_log "")) as [e ->]. by eexists.
Qed.
End Recorder.

(** ** A concrete flight *)

Section Witnesses.
#[local] Existing Instance exact_float_repr.

Definition demo_stages : list dict :=
  [[("stage", JStr "ingest"); ("input", JStr "doc"); ("output", JInt 1); ("receipt_hash", JStr "ab")];
   [("stage", JStr "extract"); ("input", JInt 1); ("output", JArr [])]].

Definition demo_flight : FlightLog :=
  match record_flight demo_stages "agent" Z.of_nat with Ok l => l | Raise _ => new_log "" end.

Lemma demo_recorded : record_flight demo_stages "agent" Z.of_nat = Ok demo_flight.
Proof. vm_compute. reflexivity. Qed.

Definition demo_root : string := merkle_root ["ab"].

Lemma recorded_flight_replays_witness :
  ∃ res, replay_flight (Some (save demo_flight)) (Some demo_root) = Ok res ∧ valid res = true ∧
    entry_count res = 2.
Proof.
  destruct (recorded_flight_replays demo_stages "agent" Z.of_nat demo_flight demo_root demo_recorded)
    as (_ & _ & res & H1 & H2 & _ & H3 & _); [vm_compute; reflexivity|].
  exists res. split; [exact H1|]. split; [exact H2|exact H3].
Defined.

Definition demo_replay : ReplayResult :=
  match replay_flight (Some (save demo_flight)) None with
  | Ok r => r
  | Raise _ => {| valid := false; violations := []; entry_count := 0; rr_root_hash := JNull;
                  rr_merkle_root := None; expected_merkle_root := None; merkle_root_matches := None |}
  end.

Lemma demo_replayed : replay_flight (Some (save demo_flight)) None = Ok demo_replay ∧ valid demo_replay = true.
Proof. split; vm_compute; reflexivity. Qed.

Lemma replay_commits_witness :
  let l := objects (save demo_flight) in
  Forall2 (λ d1 d2, same_members d1 d2 ∧ str_at "self_hash" d1 = str_at "self_hash" d2) l l ∨
  collision (chain_collision (CE := flight_chain) l l).
Proof.
  destruct demo_replayed as [R V].
  apply (replay_commits _ _ _ _ _ _ R R V V); [vm_compute; reflexivity..|reflexivity].
Defined.

Lemma replay_raises_on_unreadable_witness :
  ∃ e, replay_flight (Some [Blank; NotJson "Expecting value"]) None = Raise e.
Proof. apply (replay_raises_on_unreadable [Blank] "Expecting value" [] None eq_refl). Defined.
End Witnesses.
