(* ===== verification/Breaker.v ===== *)
(** * The circuit breaker of the model router

    [CircuitBreaker] of [kernel/sidecar/melious_router.py].  Times are the
    binary64 readings of the monotonic clock.  The router calls these methods
    under its lock, so a history of the breaker is a sequence of calls. *)

From S2P Require Import Prelude PyStr PyFloat.

Record CircuitBreaker := {
  failure_threshold : Z; recovery_seconds : f64; failures : Z; opened_at : option f64;
  probing : bool; generation : Z }.

Definition new_breaker : CircuitBreaker :=
  {| failure_threshold := 3; recovery_seconds := of_Z 15; failures := 0; opened_at := None;
     probing := false; generation := 0 |}.

Definition with_state (f : Z) (o : option f64) (p : bool) (g : Z) (b : CircuitBreaker) : CircuitBreaker :=
  {| failure_threshold := failure_threshold b; recovery_seconds := recovery_seconds b;
     failures := f; opened_at := o; probing := p; generation := g |}.

Definition allow (now : f64) (b : CircuitBreaker) : bool * CircuitBreaker :=
  match opened_at b with
  | None => (true, b)
  | Some o =>
      if flt (fsub now o) (recovery_seconds b) || probing b then (false, b)
      else (true, with_state (failures b) (opened_at b) true (generation b) b)
  end.

(** [generation is not None and generation != self.generation] *)
Definition stale (g : option Z) (b : CircuitBreaker) : bool :=
  match g with Some g => negb (g =? generation b) | None => false end.

Definition success (g : option Z) (b : CircuitBreaker) : CircuitBreaker :=
  if stale g b then b
  else with_state 0 None false
         (match opened_at b with Some _ => generation b + 1 | None => generation b end) b.

Definition failure (now : f64) (g : option Z) (b : CircuitBreaker) : CircuitBreaker :=
  if stale g b then b
  else
    let n := failures b + 1 in
    if failure_threshold b <=? n then with_state n (Some now) false (generation b + 1) b
    else with_state n (opened_at b) false (generation b) b.

Definition state (now : f64) (b : CircuitBreaker) : string :=
  match opened_at b with
  | None => "CLOSED"
  | Some o => if fle (recovery_seconds b) (fsub now o) then "HALF_OPEN" else "OPEN"
  end.

(** ** Histories *)

Inductive call :=
| Allow (now : f64)
| Success (g : option Z)
| Failure (now : f64) (g : option Z).

(** One call: the answer of [allow] (true for the other two) and the breaker. *)
Definition step (c : call) (b : CircuitBreaker) : bool * CircuitBreaker :=
  match c with
  | Allow now => allow now b
  | Success g => (true, success g b)
  | Failure now g => (true, failure now g b)
  end.

Fixpoint run (cs : list call) (b : CircuitBreaker) : list bool * CircuitBreaker :=
  match cs with
  | [] => ([], b)
  | c :: cs' => let '(r, b1) := step c b in let '(rs, b2) := run cs' b1 in (r :: rs, b2)
  end.

(** A closed breaker has failed less often than its threshold in a row and
    holds no probe; an open one has reached the threshold. *)
Definition breaker_inv (b : CircuitBreaker) : Prop :=
  0 <= failures b ∧
  match opened_at b with
  | None => failures b < failure_threshold b ∧ probing b = false
  | Some _ => failure_threshold b <= failures b
  end.

Lemma new_breaker_inv : breaker_inv new_breaker.
Proof. unfold breaker_inv, new_breaker. simpl. lia. Qed.

Lemma step_threshold c b : failure_threshold (step c b).2 = failure_threshold b.
Proof. destruct c; cbn [step snd]; unfold allow, success, failure; repeat (case_match; try done). Qed.

Lemma step_inv c b : 0 < failure_threshold b → breaker_inv b → breaker_inv (step c b).2.
Proof.
  unfold breaker_inv. intros Ht H. destruct c as [now|g|now g]; cbn [step snd].
  - unfold allow. destruct (opened_at b) eqn:E; [|cbn [snd]; by rewrite E].
    case_match; cbn [snd with_state opened_at failures failure_threshold probing]; by rewrite ?E.
  - unfold success. destruct (stale g b); [exact H|]. cbn. lia.
  - unfold failure. cbv zeta. destruct (stale g b); [exact H|].
    destruct (failure_threshold b <=? failures b + 1) eqn:E; bool_prop; cbn.
    + lia.
    + destruct (opened_at b); [lia|]. split; [lia|]. split; [lia|done].
Qed.

Lemma step_generation c b : generation b <= generation (step c b).2.
Proof.
  destruct c as [now|g|now g]; cbn [step snd]; unfold allow, success, failure;
    repeat case_match; cbn; lia.
Qed.

(** The generation is unchanged only while the circuit neither opens nor closes. *)
Lemma step_epoch c b : breaker_inv b → generation (step c b).2 = generation b →
  (opened_at (step c b).2 = None ↔ opened_at b = None).
Proof.
  unfold breaker_inv. intros Hi. destruct c as [now|g|now g]; cbn [step snd].
  - unfold allow. destruct (opened_at b) eqn:E; [|cbn [snd]; by rewrite E]. case_match; cbn; by rewrite ?E.
  - unfold success. destruct (stale g b); [done|]. destruct (opened_at b); cbn; [lia|done].
  - unfold failure. cbv zeta. destruct (stale g b); [done|].
    destruct (failure_threshold b <=? failures b + 1); cbn; [lia|done].
Qed.

Lemma run_snd_cons c cs b : (run (c :: cs) b).2 = (run cs (step c b).2).2.
Proof. cbn [run]. destruct (step c b) as [r b1]. cbn [snd]. by destruct (run cs b1). Qed.

Lemma run_inv cs b : 0 < failure_threshold b → breaker_inv b →
  breaker_inv (run cs b).2 ∧ generation b <= generation (run cs b).2.
Proof.
  revert b. induction cs as [|c cs IH]; intros b Ht H; [simpl; split; [done|lia]|].
  rewrite run_snd_cons. destruct (IH (step c b).2) as [H1 H2];
    [by rewrite step_threshold|by apply step_inv|].
  split; [done|]. pose proof (step_generation c b). lia.
Qed.

Lemma run_epoch cs b : 0 < failure_threshold b → breaker_inv b →
  generation (run cs b).2 = generation b → (opened_at (run cs b).2 = None ↔ opened_at b = None).
Proof.
  revert b. induction cs as [|c cs IH]; intros b Ht H; [done|]. rewrite run_snd_cons. intros Hg.
  pose proof (step_generation c b) as H1.
  destruct (run_inv cs (step c b).2) as [_ H2]; [by rewrite step_threshold|by apply step_inv|].
  rewrite IH; [|by rewrite step_threshold|by apply step_inv|lia]. apply step_epoch; [done|lia].
Qed.

(** Epochs of the breaker, over any history of a fresh one: it is closed
    exactly while fewer than three failures in a row were counted; and once
    it has opened (or closed) after a request was admitted, the outcome of
    that request, success or failure, changes nothing any more. *)
Theorem stale_outcomes_ignored before after now :
  let b := (run before new_breaker).2 in
  let b' := (run after b).2 in
  (opened_at b = None ↔ failures b < 3) ∧
  generation b <= generation b' ∧
  ((opened_at b = None ∧ opened_at b' ≠ None) ∨ (opened_at b ≠ None ∧ opened_at b' = None) →
   success (Some (generation b)) b' = b' ∧ failure now (Some (generation b)) b' = b').
Proof.
  intros b b'. assert (0 < failure_threshold new_breaker) as Ht by (simpl; lia).
  assert (∀ cs c, failure_threshold c = 3 → failure_threshold (run cs c).2 = 3) as Hth.
  { induction cs as [|x cs IH]; intros c Hc; [done|]. rewrite run_snd_cons. apply IH. by rewrite step_threshold. }
  destruct (run_inv before new_breaker Ht new_breaker_inv) as [Hi _]. fold b in Hi.
  assert (failure_threshold b = 3) as Hb by by apply Hth.
  destruct (run_inv after b) as [Hi' Hg]; [lia|done|]. fold b' in Hi', Hg.
  split_and!; [|done|].
  - unfold breaker_inv in Hi. rewrite Hb in Hi. destruct (opened_at b); split; try done; [lia|by intros; destruct Hi as [_ []]].
  - intros Hc. assert (generation b ≠ generation b') as Hne.
    { intros He. pose proof (run_epoch after b ltac:(lia) Hi (eq_sym He)) as Hep.
      change (run after b).2 with b' in Hep. destruct Hc as [[]|[]]; tauto. }
    unfold success, failure, stale. by replace (generation b =? generation b') with false by lia.
Qed.

(** The breaker while a probe is out: open, and the probe taken. *)
Definition probe_out (b : CircuitBreaker) : Prop := is_Some (opened_at b) ∧ probing b = true.

(** A call that is not the outcome of the probe: an admission, or an outcome
    of another epoch. *)
Definition not_the_probe (b : CircuitBreaker) (c : call) : bool :=
  match c with
  | Allow _ => true
  | Success g | Failure _ g => stale g b
  end.

Definition is_allow (c : call) : bool := match c with Allow _ => true | _ => false end.

(** A single probe: an open breaker whose recovery time has passed admits
    one caller, and from then on refuses every other caller and ignores the
    outcomes of every other epoch until the outcome of the probe arrives;
    that outcome either closes the circuit or opens it again, and in both
    cases releases the probe. *)
Theorem single_probe b now o cs now' :
  breaker_inv b → opened_at b = Some o → probing b = false → 
  flt (fsub now o) (recovery_seconds b) = false →
  let '(admitted, b1) := allow now b in
  admitted = true ∧ probe_out b1 ∧
  (forallb (not_the_probe b1) cs = true →
   (run cs b1).2 = b1 ∧ Forall2 (λ c r, is_allow c = true → r = false) cs (run cs b1).1) ∧
  opened_at (success (Some (generation b1)) b1) = None ∧
  opened_at (failure now' (Some (generation b1)) b1) = Some now' ∧
  probing (success (Some (generation b1)) b1) = false ∧
  probing (failure now' (Some (generation b1)) b1) = false.
Proof.
  intros Hi Ho Hp Hr. unfold allow. rewrite Ho, Hr, Hp. cbn [orb].
  set (b1 := with_state _ _ _ _ b). split; [done|].
  assert (probe_out b1) as Hpo by (split; [by eexists|done]). split; [done|]. split.
  - intros Hc. induction cs as [|c cs IH]; [by repeat constructor|].
    cbn [forallb] in Hc. apply andb_true_iff in Hc as [Hc Hcs].
    assert (step c b1 = (negb (is_allow c), b1)) as Hs.
    { destruct c as [n|g|n g]; cbn [step is_allow negb not_the_probe] in Hc |- *.
      - unfold allow. cbn. by rewrite orb_true_r.
      - unfold success. by rewrite Hc.
      - unfold failure. by rewrite Hc. }
    cbn [run]. rewrite Hs. destruct (IH Hcs) as [H1 H2]. destruct (run cs b1) as [rs b2].
    cbn [fst snd] in *. split; [done|]. constructor; [by intros ->|done].
  - unfold breaker_inv in Hi. rewrite Ho in Hi. destruct Hi as [H0 Ht].
    unfold success, failure, stale. rewrite Z.eqb_refl. cbn [negb].
    replace (failure_threshold b1 <=? failures b1 + 1) with true by (symmetry; apply Z.leb_le; simpl; lia).
    done.
Qed.

(** ** Concrete histories *)

Definition three_failures : list call := [Failure f0 (Some 0); Failure f0 (Some 0); Failure f0 (Some 0)].

Lemma single_probe_witness :
  let b := (run three_failures new_breaker).2 in
  let b1 := (allow (of_Z 15) b).2 in
  (allow (of_Z 15) b).1 = true ∧ (run [Allow (of_Z 100); Success (Some 0)] b1).2 = b1.
Proof.
  intros b b1. unfold b1. assert (breaker_inv b) as Hi by (unfold breaker_inv; vm_compute; done).
  pose proof (single_probe b (of_Z 15) f0 [Allow (of_Z 100); Success (Some 0)] f0 Hi) as H.
  destruct (allow (of_Z 15) b) as [r b2] eqn:E. cbn [fst snd].
  destruct H as (H1 & _ & H3 & _); [vm_compute; reflexivity..|]. split; [exact H1|]. apply H3.
  vm_compute in E. injection E as _ <-. reflexivity.
Defined.

(** A success of the first epoch does not close the circuit opened after it. *)
Example late_success_ignored :
  opened_at (success (Some 0) (run three_failures new_breaker).2) = Some f0.
Proof. vm_compute. reflexivity. Qed.
