(* ===== verification/Spend.v ===== *)
(** * The spend ledgers of the model router

    [SpendGovernor] and [DurableSpendLedger] of
    [kernel/sidecar/melious_router.py].  Both run each call under a lock or a
    [BEGIN IMMEDIATE] transaction, so a concurrent history, of threads or of
    replicas, is a sequence of calls.  The SQLite table is a map from the
    primary key; fresh UUIDs and clock readings are arguments. *)

From S2P Require Import Prelude PyStr PyFloat.

Definition ROUTER_ERROR : string := "RouterError".
Definition CEILING_ERROR : string := "SpendCeilingError".

Definition ceiling_message (ceiling committed reserved requested : Z) : string :=
  "spend ceiling " +:+ pretty ceiling +:+ " would be exceeded: committed=" +:+ pretty committed
  +:+ " reserved=" +:+ pretty reserved +:+ " requested=" +:+ pretty requested.

(** [ceiling is not None and committed + reserved + tokens > ceiling] *)
Definition over_ceiling (ceiling : option Z) (total : Z) : bool :=
  match ceiling with Some c => c <? total | None => false end.

(** ** The process-local governor *)

Record SpendGovernor := { ceiling : option Z; reserved : Z; committed : Z; refused : Z }.

Definition new_governor (c : option Z) : result SpendGovernor :=
  if match c with Some c => c <? 1 | None => false end
  then raise ROUTER_ERROR "spend ceiling must be a positive integer or None"
  else Ok {| ceiling := c; reserved := 0; committed := 0; refused := 0 |}.

Definition reserve (tokens : Z) (g : SpendGovernor) : result Z * SpendGovernor :=
  if tokens <? 0 then (raise ROUTER_ERROR "reservation must be a non-negative integer", g) else
  if over_ceiling (ceiling g) (committed g + reserved g + tokens)
  then (raise CEILING_ERROR (ceiling_message (default 0 (ceiling g)) (committed g) (reserved g) tokens),
        {| ceiling := ceiling g; reserved := reserved g; committed := committed g; refused := refused g + 1 |})
  else (Ok tokens, {| ceiling := ceiling g; reserved := reserved g + tokens; committed := committed g;
                      refused := refused g |}).

Definition settle (reservation actual : Z) (g : SpendGovernor) : SpendGovernor :=
  {| ceiling := ceiling g; reserved := Z.max 0 (reserved g - reservation);
     committed := committed g + Z.max 0 actual; refused := refused g |}.

Definition release (reservation : Z) : SpendGovernor → SpendGovernor := settle reservation 0.

(** [snapshot]: ceiling, reserved, committed and refused. *)
Definition snapshot (g : SpendGovernor) : list (string * Z) :=
  [("spend_ceiling", default 0 (ceiling g)); ("spend_reserved", reserved g);
   ("spend_committed", committed g); ("spend_refused", refused g)].

(** *** The callers: who reserves settles each reservation once *)

Inductive governor_call :=
| Reserve (tokens : Z)
| Settle (i : nat) (actual : Z).   (** the [i]-th reservation outstanding *)

Record callers := { outstanding : list Z; governor : SpendGovernor; overshoot : Z }.

Definition call_governor (w : callers) (c : governor_call) : callers :=
  match c with
  | Reserve t =>
      match reserve t (governor w) with
      | (Ok r, g) => {| outstanding := outstanding w ++ [r]; governor := g; overshoot := overshoot w |}
      | (Raise _, g) => {| outstanding := outstanding w; governor := g; overshoot := overshoot w |}
      end
  | Settle i a =>
      match outstanding w !! i with
      | Some r => {| outstanding := delete i (outstanding w); governor := settle r a (governor w);
                     overshoot := overshoot w + Z.max 0 (Z.max 0 a - r) |}
      | None => w
      end
  end.

Definition sum_Z (l : list Z) : Z := foldr Z.add 0 l.

Lemma sum_Z_app l k : sum_Z (l ++ k) = sum_Z l + sum_Z k.
Proof. unfold sum_Z. induction l; simpl; lia. Qed.

Lemma sum_Z_delete l i r : l !! i = Some r → sum_Z l = r + sum_Z (delete i l).
Proof.
  revert i. induction l as [|x l IH]; intros [|i]; [done|done|by intros [= ->]|].
  intros H. apply IH in H. change (sum_Z (x :: l)) with (x + sum_Z l).
  change (sum_Z (delete (S i) (x :: l))) with (x + sum_Z (delete i l)). lia.
Qed.

Lemma Forall_delete {A} (P : A → Prop) l i : Forall P l → Forall P (delete i l).
Proof. revert i. induction l as [|x l IH]; intros [|i] H; inversion H; subst; cbn; auto. Qed.

(** [reserved] is the sum of what is outstanding, and the ceiling bounds the
    exposure up to what upstream billed beyond the reservations. *)
Definition governor_inv (c : Z) (w : callers) : Prop :=
  ceiling (governor w) = Some c ∧ Forall (λ r, 0 <= r) (outstanding w) ∧
  reserved (governor w) = sum_Z (outstanding w) ∧ 0 <= overshoot w ∧
  committed (governor w) + reserved (governor w) <= c + overshoot w.

Lemma sum_Z_nonneg l : Forall (λ r, 0 <= r) l → 0 <= sum_Z l.
Proof. unfold sum_Z. induction 1; simpl; lia. Qed.

Lemma call_governor_inv c w k : governor_inv c w → governor_inv c (call_governor w k).
Proof.
  intros (Hc & Hf & Hr & Ho & Hb). destruct k as [t|i a]; cbn [call_governor].
  - unfold reserve. destruct (Z.ltb_spec t 0); [by split_and!|]. rewrite Hc. unfold over_ceiling.
    destruct (Z.ltb_spec c (committed (governor w) + reserved (governor w) + t)); [by split_and!|].
    unfold governor_inv. cbn. split_and!; try lia; [done|by apply Forall_app; repeat constructor|].
    rewrite sum_Z_app. cbn. lia.
  - destruct (outstanding w !! i) as [r|] eqn:E; [|by split_and!].
    pose proof (sum_Z_delete _ _ _ E) as Hs. pose proof (Forall_delete _ _ i Hf) as Hf'.
    pose proof (sum_Z_nonneg _ Hf') as H0. unfold governor_inv, settle.
    cbn [governor ceiling reserved committed outstanding overshoot]. split_and!; try done; lia.
Qed.

Lemma calls_governor_inv c ks w : governor_inv c w → governor_inv c (fold_left call_governor ks w).
Proof. intros H. by apply (fold_left_inv (governor_inv c)); [|intros; apply call_governor_inv]. Qed.

(** ** The durable ledger *)

Inductive attempt_state := Reserved | Settled.
#[global] Instance attempt_state_eq_dec : EqDecision attempt_state.
Proof. solve_decision. Defined.

(** A row of [spend_attempts]. *)
Record attempt := {
  a_reserved : Z; a_actual : option Z; a_state : attempt_state; created_at : f64; settled_at : option f64 }.

Abbreviation table := (gmap string attempt).

(** A process with the file open. *)
Record replica := { r_ceiling : option Z; stale_after : f64; r_refused : Z }.

(** The two [CASE] expressions of [_totals] and their [SUM]. *)
Definition pending (a : attempt) : Z := match a_state a with Reserved => a_reserved a | Settled => 0 end.
Definition spent (a : attempt) : Z :=
  match a_state a with Settled => default 0 (a_actual a) | Reserved => 0 end.

Definition sum_rows (f : attempt → Z) (db : table) : Z := map_fold (λ _ a acc, f a + acc) 0 db.

Definition totals (db : table) : Z * Z := (sum_rows pending db, sum_rows spent db).

Definition ledger_reserve (tokens : Z) (attempt_id : option string) (uuid : string) (now : f64)
    (r : replica) (db : table) : result string * replica * table :=
  if tokens <? 0 then (raise ROUTER_ERROR "reservation must be a non-negative integer", r, db) else
  let id := or_str (default "" attempt_id) uuid in
  match db !! id with
  | Some _ => (Ok id, r, db)
  | None =>
      let '(res, com) := totals db in
      if over_ceiling (r_ceiling r) (com + res + tokens)
      then (raise CEILING_ERROR (ceiling_message (default 0 (r_ceiling r)) com res tokens),
            {| r_ceiling := r_ceiling r; stale_after := stale_after r; r_refused := r_refused r + 1 |}, db)
      else (Ok id, r, <[id := {| a_reserved := tokens; a_actual := None; a_state := Reserved;
                                 created_at := now; settled_at := None |}]> db)
  end.

Definition settled_row (actual : Z) (now : f64) (a : attempt) : attempt :=
  {| a_reserved := a_reserved a; a_actual := Some actual; a_state := Settled;
     created_at := created_at a; settled_at := Some now |}.

(** [UPDATE ... WHERE attempt_id=? AND state='reserved'] *)
Definition ledger_settle (id : string) (actual : Z) (now : f64) (db : table) : table :=
  match db !! id with
  | Some a => match a_state a with
              | Reserved => <[id := settled_row (Z.max 0 actual) now a]> db
              | Settled => db
              end
  | None => db
  end.

(** [state='reserved' AND created_at < now - stale_after] *)
Definition expired (now stale : f64) (a : attempt) : bool :=
  bool_decide (a_state a = Reserved) && flt (created_at a) (fsub now stale).

Definition expire (now stale : f64) (a : attempt) : attempt :=
  if expired now stale a then settled_row (a_reserved a) now a else a.

Definition reconcile (now : f64) (r : replica) (db : table) : Z * table :=
  (Z.of_nat (size (filter (λ p, expired now (stale_after r) p.2 = true) db)),
   expire now (stale_after r) <$> db).

(** [snapshot] of a replica, with the path of the file. *)
Definition ledger_snapshot (path : string) (r : replica) (db : table) : list (string * Z) * string :=
  let '(res, com) := totals db in
  ([("spend_ceiling", default 0 (r_ceiling r)); ("spend_reserved", res); ("spend_committed", com);
    ("spend_refused", r_refused r)], path).

(** *** Replicas sharing the file *)

Inductive ledger_call :=
| LReserve (tokens : Z) (attempt_id : option string) (uuid : string) (now : f64)
| LSettle (id : string) (actual : Z) (now : f64)
| LReconcile (now : f64).

Record world := { replicas : list replica; db : table; billed_over : Z }.

(** What a settlement bills beyond its reservation. *)
Definition over_billed (id : string) (actual : Z) (d : table) : Z :=
  match d !! id with Some a => Z.max 0 (Z.max 0 actual - pending a) | None => 0 end.

Definition call_ledger (w : world) (c : nat * ledger_call) : world :=
  let '(i, k) := c in
  match replicas w !! i with
  | None => w
  | Some r =>
      match k with
      | LReserve t id u now =>
          let '(_, r', d) := ledger_reserve t id u now r (db w) in
          {| replicas := <[i := r']> (replicas w); db := d; billed_over := billed_over w |}
      | LSettle id a now =>
          {| replicas := replicas w; db := ledger_settle id a now (db w);
             billed_over := billed_over w +
               (if bool_decide ((a_state <$> db w !! id) = Some Reserved) then over_billed id a (db w) else 0) |}
      | LReconcile now => {| replicas := replicas w; db := (reconcile now r (db w)).2; billed_over := billed_over w |}
      end
  end.

Definition run_ledger (cs : list (nat * ledger_call)) (w : world) : world := fold_left call_ledger cs w.

(** ** Sums over the table *)

Lemma sum_rows_insert f (d : table) id a : d !! id = None → sum_rows f (<[id := a]> d) = f a + sum_rows f d.
Proof.
  intros H. unfold sum_rows.
  apply (map_fold_insert_L (M := gmap string) (λ _ b acc, f b + acc) 0 id a d); [intros; lia|done].
Qed.

Lemma sum_rows_update f (d : table) id a a' : d !! id = Some a →
  sum_rows f (<[id := a']> d) = sum_rows f d - f a + f a'.
Proof.
  intros H. rewrite <-(insert_id d id a H) at 2.
  rewrite <-(insert_delete_eq d id a'), <-(insert_delete_eq d id a), !sum_rows_insert by apply lookup_delete_eq.
  lia.
Qed.

Lemma sum_rows_fmap f (g : attempt → attempt) (d : table) :
  sum_rows f (g <$> d) = sum_rows (λ a, f (g a)) d.
Proof. unfold sum_rows. by rewrite map_fold_fmap. Qed.

Lemma sum_rows_ext f g (d : table) : (∀ id a, d !! id = Some a → f a = g a) → sum_rows f d = sum_rows g d.
Proof.
  induction d as [|id a d Hn IH] using map_ind; [done|]. intros H.
  rewrite !sum_rows_insert by done. rewrite IH; [|intros id' a' Hd].
  - by rewrite (H id a) by apply lookup_insert_eq.
  - apply (H id'). rewrite lookup_insert_ne; congruence.
Qed.

Lemma sum_rows_add f g (d : table) : sum_rows (λ a, f a + g a) d = sum_rows f d + sum_rows g d.
Proof.
  induction d as [|id a d Hn IH] using map_ind; [done|]. rewrite !sum_rows_insert by done. lia.
Qed.

(** What the attempts may cost: [committed + reserved]. *)
Definition exposure (d : table) : Z := (totals d).1 + (totals d).2.

Lemma exposure_rows d : exposure d = sum_rows (λ a, pending a + spent a) d.
Proof. unfold exposure, totals. cbn. by rewrite sum_rows_add. Qed.

(** Reconciliation charges stale attempts in full. *)
Lemma reconcile_exposure now r d : exposure (reconcile now r d).2 = exposure d.
Proof.
  rewrite !exposure_rows. unfold reconcile. cbn [snd]. rewrite sum_rows_fmap. apply sum_rows_ext.
  intros id a _. unfold expire, expired. destruct (flt _ _); [|by rewrite andb_false_r].
  rewrite andb_true_r. case_bool_decide as E; [|done]. unfold pending, spent. rewrite E. simpl. lia.
Qed.

Lemma settle_exposure id actual now d :
  exposure (ledger_settle id actual now d) <=
  exposure d + (if bool_decide ((a_state <$> d !! id) = Some Reserved) then over_billed id actual d else 0).
Proof.
  unfold ledger_settle, over_billed. destruct (d !! id) as [a|] eqn:E; cbn [fmap option_fmap option_map]; [|simpl; lia].
  destruct (a_state a) eqn:Es; simpl; [|lia].
  rewrite !exposure_rows, (sum_rows_update _ _ _ _ _ E). unfold pending, spent. rewrite Es. simpl. lia.
Qed.

Lemma reserve_exposure c t id u now r d out r' d' :
  r_ceiling r = Some c → ledger_reserve t id u now r d = (out, r', d') →
  r_ceiling r' = r_ceiling r ∧ exposure d' <= Z.max c (exposure d).
Proof.
  unfold ledger_reserve. intros Hc. destruct (t <? 0); [intros [= <- <- <-]; split; [done|lia]|].
  destruct (d !! _) eqn:E; [intros [= <- <- <-]; split; [done|lia]|].
  destruct (totals d) as [res com] eqn:Et. rewrite Hc. unfold over_ceiling.
  destruct (Z.ltb_spec c (com + res + t)); intros [= <- <- <-]; (split; [by rewrite ?Hc|]); [lia|].
  assert (exposure d = res + com) as Hx by (unfold exposure; by rewrite Et).
  rewrite exposure_rows, sum_rows_insert, <-exposure_rows by done. unfold pending, spent. simpl. lia.
Qed.

(** ** The properties of the ledgers *)

(** The process-local ceiling, under every interleaving of callers that
    settle each of their reservations once: [reserved] is the sum of the
    reservations still outstanding, and committed plus reserved tokens exceed
    the ceiling by no more than what upstream billed beyond the
    reservations. *)
Theorem governor_ceiling c g ks :
  new_governor (Some c) = Ok g →
  let w := fold_left call_governor ks {| outstanding := []; governor := g; overshoot := 0 |} in
  reserved (governor w) = sum_Z (outstanding w) ∧
  committed (governor w) + reserved (governor w) <= c + overshoot w.
Proof.
  unfold new_governor. destruct (Z.ltb_spec c 1); [done|]. cbv zeta. intros [= <-].
  destruct (calls_governor_inv c ks
    {| outstanding := []; governor := {| ceiling := Some c; reserved := 0; committed := 0; refused := 0 |};
       overshoot := 0 |}) as (_ & _ & H1 & _ & H2); [|by split].
  unfold governor_inv. cbn. split_and!; try done; lia.
Qed.

Lemma call_ledger_exposure c w k :
  Forall (λ r, r_ceiling r = Some c) (replicas w) → exposure (db w) <= c + billed_over w → 0 <= billed_over w →
  Forall (λ r, r_ceiling r = Some c) (replicas (call_ledger w k)) ∧
  exposure (db (call_ledger w k)) <= c + billed_over (call_ledger w k) ∧
  0 <= billed_over (call_ledger w k).
Proof.
  intros Hc He Ho. destruct k as [i k]. cbn [call_ledger].
  destruct (replicas w !! i) as [r|] eqn:Hi; [|done].
  assert (r_ceiling r = Some c) as Hr by exact (Forall_lookup_1 _ _ _ _ Hc Hi).
  destruct k as [t id u now|id a now|now].
  - destruct (ledger_reserve t id u now r (db w)) as [[out r'] d'] eqn:E.
    apply (reserve_exposure c) in E as [Hr' Hd]; [|done]. cbn. split; [|split; [lia|done]].
    apply Forall_insert; [done|congruence].
  - pose proof (settle_exposure id a now (db w)) as Hs. cbn. unfold over_billed in *. split; [done|].
    destruct (bool_decide _); [|lia]. destruct (db w !! id); lia.
  - cbn [replicas db billed_over]. rewrite reconcile_exposure. done.
Qed.

(** C40.  The shared ceiling: however many replicas with the ceiling [c]
    reserve, settle and reconcile on one ledger file, in any interleaving,
    with restarts and lost attempts, the committed and reserved tokens of the
    file exceed [c] by no more than what upstream billed beyond the
    reservations it settled. *)
Theorem ledger_ceiling c rs cs :
  0 <= c → Forall (λ r, r_ceiling r = Some c) rs →
  let w := run_ledger cs {| replicas := rs; db := ∅; billed_over := 0 |} in
  exposure (db w) <= c + billed_over w.
Proof.
  intros H0 Hc w. 
  assert (Forall (λ r, r_ceiling r = Some c) (replicas w) ∧
          exposure (db w) <= c + billed_over w ∧ 0 <= billed_over w) as (_ & H & _); [|done].
  unfold w, run_ledger. apply (fold_left_inv (λ w, Forall (λ r, r_ceiling r = Some c) (replicas w) ∧
    exposure (db w) <= c + billed_over w ∧ 0 <= billed_over w)).
  - cbn. split; [done|]. unfold exposure, totals, sum_rows. rewrite !map_fold_empty. cbn. lia.
  - intros w' k _ (H1 & H2 & H3). by apply call_ledger_exposure.
Qed.

(** What happens to one row in one call. *)
Lemma call_ledger_row w k id a : db w !! id = Some a →
  db (call_ledger w k) !! id = Some a ∨
  a_state a = Reserved ∧ ∃ actual now,
    db (call_ledger w k) !! id = Some (settled_row actual now a).
Proof.
  intros Hid. destruct k as [i k]. cbn [call_ledger]. destruct (replicas w !! i) as [r|]; [|by left].
  destruct k as [t oid u now|sid act now|now].
  - left. destruct (ledger_reserve t oid u now r (db w)) as [[out r'] d'] eqn:E. cbn [db].
    unfold ledger_reserve in E. destruct (t <? 0); [by simplify_eq|].
    destruct (db w !! or_str _ _) eqn:Eo; [by simplify_eq|]. destruct (totals (db w)).
    destruct (over_ceiling _ _); [by simplify_eq|]. simplify_eq.
    rewrite lookup_insert_ne; [done|]. intros He. congruence.
  - cbn [db]. unfold ledger_settle. destruct (db w !! sid) as [b|] eqn:Es; [|by left].
    destruct (a_state b) eqn:Eb; [|by left]. destruct (decide (sid = id)) as [->|Hne].
    + right. assert (b = a) as -> by congruence. split; [done|]. by exists (Z.max 0 act), now; rewrite lookup_insert_eq.
    + left. by rewrite lookup_insert_ne.
  - cbn [db reconcile snd]. rewrite lookup_fmap, Hid. cbn [fmap option_fmap option_map].
    unfold expire, expired. case_bool_decide as E; [|by left]. simpl. destruct (flt _ _); [|by left].
    right. split; [done|]. by exists (a_reserved a), now.
Qed.

(** Every attempt is charged once.  Through any history of calls of any
    replicas a row is never lost and keeps the tokens it reserved; a settled
    row never changes again; and a row still reserved at the end is the row as
    it was. *)
Theorem attempt_charged_once cs w id a :
  db w !! id = Some a →
  ∃ a', db (run_ledger cs w) !! id = Some a' ∧ a_reserved a' = a_reserved a ∧
    (a_state a = Settled → a' = a) ∧ (a_state a' = Reserved → a' = a).
Proof.
  intros H. unfold run_ledger.
  apply (fold_left_inv (λ w, ∃ a', db w !! id = Some a' ∧ a_reserved a' = a_reserved a ∧
    (a_state a = Settled → a' = a) ∧ (a_state a' = Reserved → a' = a))).
  - exists a. by split_and!.
  - intros w' k _ (a' & H1 & H2 & H3 & H4).
    destruct (call_ledger_row w' k id a' H1) as [Hs|(Hr & act & now & Hs)].
    + exists a'. by split_and!.
    + exists (settled_row act now a'). cbn. split_and!; try done.
      intros Hst. specialize (H3 Hst). congruence.
Qed.

Lemma expire_idem now stl a : expire now stl (expire now stl a) = expire now stl a.
Proof. unfold expire. destruct (expired now stl a) eqn:E; [done|by rewrite E]. Qed.

Lemma expired_expire now stl a : expired now stl (expire now stl a) = false.
Proof. unfold expire. destruct (expired now stl a) eqn:E; [done|exact E]. Qed.

Lemma no_expired now stl (d : table) : 
  filter (λ p, expired now stl p.2 = true) (expire now stl <$> d) = ∅.
Proof.
  apply map_empty_filter_2. intros id a Ha. rewrite lookup_fmap in Ha.
  apply fmap_Some in Ha as (b & _ & ->). cbn. by rewrite expired_expire.
Qed.

Lemma settle_settled id x n (d : table) :
  (∀ b, d !! id = Some b → a_state b = Settled) → ledger_settle id x n d = d.
Proof. unfold ledger_settle. intros H. destruct (d !! id) as [b|]; [|done]. by rewrite (H b). Qed.

(** Replays do nothing: reserving a known attempt answers with its id
    and changes neither the file nor the replica; a second settlement, also
    with another amount, changes nothing; and after a reconciliation, which
    leaves the exposure as it was, a second one finds nothing to expire and
    late settlements of the expired attempts change nothing. *)
Theorem ledger_replays_ignored (d : table) r t id u now x m y n a :
  0 <= t → id ≠ "" → d !! id = Some a →
  ledger_reserve t (Some id) u now r d = (Ok id, r, d) ∧
  ledger_settle id x n (ledger_settle id y m d) = ledger_settle id y m d ∧
  exposure (reconcile now r d).2 = exposure d ∧
  reconcile now r (reconcile now r d).2 = (0, (reconcile now r d).2) ∧
  (expired now (stale_after r) a = true →
   ledger_settle id x n (reconcile now r d).2 = (reconcile now r d).2).
Proof.
  intros Ht Hid Ha. split_and!.
  - unfold ledger_reserve. cbv zeta. replace (t <? 0) with false by (symmetry; apply Z.ltb_ge; lia).
    cbn [from_option Datatypes.id]. unfold or_str. rewrite bool_decide_false by done. by rewrite Ha.
  - apply settle_settled. unfold ledger_settle. rewrite Ha.
    destruct (a_state a) eqn:E; intros b; [rewrite lookup_insert_eq; by intros [= <-]|congruence].
  - apply reconcile_exposure.
  - unfold reconcile. cbn [snd]. rewrite no_expired, map_size_empty. f_equal.
    rewrite <-map_fmap_compose. apply map_fmap_ext. intros i b _. apply expire_idem.
  - intros He. apply settle_settled. unfold reconcile. cbn [snd]. rewrite lookup_fmap, Ha.
    cbn [fmap option_fmap option_map]. unfold expire. rewrite He. by intros b [= <-].
Qed.

(** ** Concrete histories *)

Definition demo_replica : replica := {| r_ceiling := Some 100; stale_after := of_Z 900; r_refused := 0 |}.

(** Two replicas: the second is refused, and admitted once the first settled. *)
Definition demo_history : list (nat * ledger_call) :=
  [(0%nat, LReserve 80 (Some "a") "" f0); (1%nat, LReserve 30 (Some "b") "" f0);
   (0%nat, LSettle "a" 60 f1); (1%nat, LReserve 30 (Some "b") "" f1); (0%nat, LSettle "a" 5 f1)].

Definition demo_world : world := run_ledger demo_history
  {| replicas := [demo_replica; demo_replica]; db := ∅; billed_over := 0 |}.

Lemma governor_ceiling_witness :
  let w := fold_left call_governor [Reserve 5; Reserve 7; Settle 0 6]
    {| outstanding := []; governor := {| ceiling := Some 10; reserved := 0; committed := 0; refused := 0 |};
       overshoot := 0 |} in
  refused (governor w) = 1 ∧ committed (governor w) + reserved (governor w) <= 10 + overshoot w.
Proof. intros w. split; [reflexivity|]. apply (governor_ceiling 10 _ _ eq_refl). Defined.

Lemma ledger_ceiling_witness :
  exposure (db demo_world) <= 100 + billed_over demo_world ∧ exposure (db demo_world) = 90.
Proof.
  split; [|vm_compute; reflexivity].
  apply (ledger_ceiling 100 [demo_replica; demo_replica] demo_history); [lia|by repeat constructor].
Defined.

Definition demo_attempt : attempt :=
  {| a_reserved := 80; a_actual := Some 60; a_state := Settled; created_at := f0; settled_at := Some f1 |}.

Lemma attempt_charged_once_witness :
  ∃ a', db (run_ledger demo_history demo_world) !! "a" = Some a' ∧ a' = demo_attempt.
Proof.
  destruct (attempt_charged_once demo_history demo_world "a" demo_attempt) as (a' & H1 & _ & H2 & _);
    [vm_compute; reflexivity|]. exists a'. split; [exact H1|by apply H2].
Defined.

Lemma ledger_replays_ignored_witness :
  ledger_settle "a" 5 f1 (ledger_settle "a" 7 f1 (db demo_world)) = ledger_settle "a" 7 f1 (db demo_world).
Proof.
  destruct (ledger_replays_ignored (db demo_world) demo_replica 5 "a" "" f0 5 f1 7 f1 demo_attempt)
    as (_ & H & _); [lia|done|vm_compute; reflexivity|exact H].
Defined.
