(* ===== verification/CompletionRouter.v ===== *)
(** * The completion router

    [MeliousModelRouter.complete] of [kernel/sidecar/melious_router.py]: the
    admission of a request, the fallback chain over the models, the retries on
    one model, and the bookkeeping of breakers, cooldowns, spend and metrics.
    Everything the call reads from outside is an argument: the readings of the
    monotonic clock, whether a timed acquisition of the lock succeeds, what
    other threads did to the shared state before each acquisition, the random
    numbers, and the answers of the transport. *)

From S2P Require Import Prelude PyStr PyFloat PyDict Json Breaker Spend.

(** ** Exceptions *)

(** What is raised: its class, its message, the attributes [status] and
    [retry_after] when they are set, and whether it is a [BaseException]
    outside [Exception] (a cancellation). *)
Record error := {
  err_class : string; err_msg : string; err_status : option Z; err_retry_after : f64; err_base : bool }.

Definition router_error (msg : string) : error :=
  {| err_class := ROUTER_ERROR; err_msg := msg; err_status := None; err_retry_after := f0; err_base := false |}.

Definition BUDGET_EXHAUSTED : string := "BudgetExhaustedError".

Definition budget_exhausted : error :=
  {| err_class := BUDGET_EXHAUSTED;
     err_msg := "completion budget consumed before any output text (reasoning tokens); raise max_tokens";
     err_status := None; err_retry_after := f0; err_base := false |}.

(** What one transport call does. *)
Inductive response := Returned (data : json) | Raised (e : error).

(** ** Token counts *)

Record counts := { prompt_tokens : Z; completion_tokens : Z; reasoning_tokens : Z; total_tokens : Z }.

(** [type(value) is int and value >= 0] *)
Definition count_of (v : json) : option Z :=
  match v with JInt z => if z <? 0 then None else Some z | _ => None end.

Definition usage_counts (data : dict) : error + counts :=
  match default (JObj []) (assoc "usage" data) with
  | JObj usage =>
      let details := match assoc "completion_tokens_details" usage with
                     | None | Some JNull => Some []
                     | Some (JObj d) => Some d
                     | Some _ => None end in
      match details with
      | None => inl (router_error "malformed upstream token details")
      | Some d =>
          let at_ k := default (JInt 0) (assoc k usage) in
          let r := match assoc "reasoning_tokens" d with Some v => v | None => at_ "reasoning_tokens" end in
          match count_of (at_ "prompt_tokens"), count_of (at_ "completion_tokens"),
                count_of (at_ "total_tokens"), count_of r with
          | Some p, Some c, Some t, Some r =>
              inr {| prompt_tokens := p; completion_tokens := c; reasoning_tokens := r;
                     total_tokens := Z.max t (p + c) |}
          | _, _, _, _ => inl (router_error "upstream token counts must be non-negative integers")
          end
      end
  | _ => inl (router_error "malformed upstream usage")
  end.

(** ** Requests *)

Definition MAX_MESSAGES : Z := 256.
Definition MAX_COMPLETION_TOKENS : Z := 4096.
Definition MAX_REQUEST_BYTES : Z := 262144.
Definition PROMPT_CHARS_PER_TOKEN : Z := 3.

Definition content_of (m : json) : option string :=
  match get m "content" with Some (JStr s) => Some s | _ => None end.

Definition sum_lengths (l : list string) : Z := foldr (λ s n, len s + n) 0 l.

(** [math.ceil] of a non-negative float *)
Definition ceil_float (x : f64) : Z :=
  match x with
  | S754_finite false m e => if 0 <=? e then Zpos m * 2 ^ e else - ((- Zpos m) / 2 ^ (- e))
  | _ => 0
  end.

Definition reservation_estimate (messages : json) (options : dict) : Z :=
  match messages with
  | JArr ms =>
      let chars := sum_lengths (omap content_of ms) in
      let budget := match assoc "max_completion_tokens" options with
                    | Some v => v
                    | None => default (JInt MAX_COMPLETION_TOKENS) (assoc "max_tokens" options) end in
      let budget := match budget with JInt b => if b <? 1 then MAX_COMPLETION_TOKENS else b
                    | _ => MAX_COMPLETION_TOKENS end in
      ceil_float (lit chars PROMPT_CHARS_PER_TOKEN) + budget
  | _ => 0
  end.

(** [json.dumps(v, ensure_ascii=False)] and its [allow_nan=False] test. *)
Section Dumps.
Context `{FR : FloatRepr}.

Fixpoint dumps (v : json) : string :=
  match v with
  | JArr l =>
      "[" +:+ (fix go l := match l with
        | [] => "]"
        | x :: l' => dumps x +:+ (match l' with [] => "]" | _ => ", " +:+ go l' end)
        end) l
  | JObj l =>
      "{" +:+ (fix go l := match l with
        | [] => "}"
        | (k, x) :: l' => quote false k +:+ ": " +:+ dumps x +:+
            (match l' with [] => "}" | _ => ", " +:+ go l' end)
        end) l
  | _ => print false v
  end.
End Dumps.

Fixpoint finite_json (v : json) : bool :=
  match v with
  | JFloat f => is_finite f
  | JArr l => forallb finite_json l
  | JObj l => forallb (λ p, finite_json p.2) l
  | _ => true
  end.

Definition well_formed_message (m : json) : bool :=
  match get m "role", get m "content" with Some (JStr _), Some (JStr _) => true | _, _ => false end.

Definition budget_key (options : dict) : string :=
  if has_key "max_completion_tokens" options then "max_completion_tokens" else "max_tokens".

(** The checks before any network cost: the payload and its budget. *)
Definition validate `{FR : FloatRepr} (messages : json) (options : dict) : error + (json * Z) :=
  match messages with
  | JArr ms =>
      if (length ms =? 0)%nat || (MAX_MESSAGES <? Z.of_nat (length ms))
      then inl (router_error "messages must be a non-empty list of at most 256 items") else
      if negb (forallb well_formed_message ms)
      then inl (router_error "each message needs string 'role' and 'content'") else
      if MAX_REQUEST_BYTES <? sum_lengths (omap content_of ms)
      then inl (router_error "prompt exceeds byte budget") else
      if has_key "model" options
      then inl (router_error "model is chosen by the router; do not pass it") else
      if has_key "max_tokens" options && has_key "max_completion_tokens" options
      then inl (router_error "provide exactly one completion budget") else
      match default (JInt MAX_COMPLETION_TOKENS) (assoc (budget_key options) options) with
      | JInt budget =>
          if negb ((1 <=? budget) && (budget <=? MAX_COMPLETION_TOKENS))
          then inl (router_error "completion budget must be an integer in 1..4096") else
          if match assoc "stream" options with Some v => truthy_json v | None => false end
          then inl (router_error "streaming is not supported by the JSON completion router") else
          if negb (py_eq (default (JInt 1) (assoc "n" options)) (JInt 1))
          then inl (router_error "only one completion is supported per budget") else
          let payload := JObj (dict_set (budget_key options) (JInt budget) (("messages", messages) :: options)) in
          if negb (finite_json payload) then inl (router_error "payload must be finite JSON") else
          if MAX_REQUEST_BYTES <? len (utf8 (dumps payload))
          then inl (router_error "payload exceeds byte budget") else inr (payload, budget)
      | _ => inl (router_error "completion budget must be an integer in 1..4096")
      end
  | _ => inl (router_error "messages must be a non-empty list of at most 256 items")
  end.

(** ** The router and what it reads *)

Record Router := {
  models : list string; timeout : f64; max_retries : nat; probe_timeout : f64; total_timeout : f64;
  model_timeouts : list (string * f64) }.

(** What the lock protects. *)
Record shared := {
  breakers : gmap string CircuitBreaker; cooldown_until : gmap string f64; metrics : gmap string Z }.

Record environment := {
  clock : nat → f64;                          (** the readings of [time.monotonic()] *)
  lock_acquired : nat → bool;                 (** the timed acquisitions of the lock *)
  others : nat → shared → shared;             (** other threads, before each acquisition *)
  random : nat → f64;
  transport : nat → string → json → f64 → response }.

(** The state of a call: the shared state, [spent], [trace], the calls made to
    the transport, and how much of the environment has been read. *)
Record st := {
  sh : shared; spent : Z; trace : list json; calls : list (string * response);
  n_clock : nat; n_try : nat; n_lock : nat; n_random : nat }.

Definition breaker_of (m : string) (s : shared) : CircuitBreaker := default new_breaker (breakers s !! m).
Definition cooldown_of (m : string) (s : shared) : f64 := default f0 (cooldown_until s !! m).

Definition set_breaker (m : string) (b : CircuitBreaker) (s : shared) : shared :=
  {| breakers := <[m := b]> (breakers s); cooldown_until := cooldown_until s; metrics := metrics s |}.
Definition set_cooldown (m : string) (t : f64) (s : shared) : shared :=
  {| breakers := breakers s; cooldown_until := <[m := t]> (cooldown_until s); metrics := metrics s |}.
Definition add_metric (k : string) (n : Z) (s : shared) : shared :=
  {| breakers := breakers s; cooldown_until := cooldown_until s;
     metrics := <[k := default 0 (metrics s !! k) + n]> (metrics s) |}.

(** *** Programs that may raise *)

Definition M (A : Type) : Type := st → (error + A) * st.

#[global] Instance M_ret : MRet M := λ A a s, (inr a, s).
#[global] Instance M_bind : MBind M := λ A B f m s,
  match m s with (inr a, s') => f a s' | (inl e, s') => (inl e, s') end.

Definition throw {A} (e : error) : M A := λ s, (inl e, s).
Definition lift {A} (r : error + A) : M A := λ s, (r, s).
Definition modify (f : shared → shared) : M () := λ s,
  (inr (), {| sh := f (sh s); spent := spent s; trace := trace s; calls := calls s; n_clock := n_clock s;
              n_try := n_try s; n_lock := n_lock s; n_random := n_random s |}).
Definition read {A} (f : shared → A) : M A := λ s, (inr (f (sh s)), s).
Definition append_trace (v : json) : M () := λ s,
  (inr (), {| sh := sh s; spent := spent s; trace := trace s ++ [v]; calls := calls s; n_clock := n_clock s;
              n_try := n_try s; n_lock := n_lock s; n_random := n_random s |}).
Definition add_spent (n : Z) : M () := λ s,
  (inr (), {| sh := sh s; spent := spent s + n; trace := trace s; calls := calls s; n_clock := n_clock s;
              n_try := n_try s; n_lock := n_lock s; n_random := n_random s |}).

(** [try: m except ...: h], [try: m finally: f] *)
Definition catch {A} (m : M A) (h : error → M A) : M A := λ s,
  match m s with (inr a, s') => (inr a, s') | (inl e, s') => h e s' end.
Definition finally {A} (m : M A) (f : M ()) : M A := λ s,
  let '(r, s') := m s in
  match f s' with (inr _, s'') => (r, s'') | (inl e, s'') => (inl e, s'') end.

Section Effects.
Context (env : environment).

Definition monotonic : M f64 := λ s,
  (inr (clock env (n_clock s)),
   {| sh := sh s; spent := spent s; trace := trace s; calls := calls s; n_clock := S (n_clock s);
      n_try := n_try s; n_lock := n_lock s; n_random := n_random s |}).

(** [with self._lock:] from its acquisition on. *)
Definition lock : M () := λ s,
  (inr (), {| sh := others env (n_lock s) (sh s); spent := spent s; trace := trace s; calls := calls s;
              n_clock := n_clock s; n_try := n_try s; n_lock := S (n_lock s); n_random := n_random s |}).

(** [self._lock.acquire(timeout=...)] *)
Definition try_lock : M bool := λ s,
  let got := lock_acquired env (n_try s) in
  (inr got, {| sh := if got then others env (n_lock s) (sh s) else sh s; spent := spent s; trace := trace s;
               calls := calls s; n_clock := n_clock s; n_try := S (n_try s);
               n_lock := if got then S (n_lock s) else n_lock s; n_random := n_random s |}).

Definition random_float : M f64 := λ s,
  (inr (random env (n_random s)),
   {| sh := sh s; spent := spent s; trace := trace s; calls := calls s; n_clock := n_clock s;
      n_try := n_try s; n_lock := n_lock s; n_random := S (n_random s) |}).

Definition call_transport (model : string) (payload : json) (t : f64) : M json := λ s,
  let r := transport env (length (calls s)) model payload t in
  (match r with Returned v => inr v | Raised e => inl e end,
   {| sh := sh s; spent := spent s; trace := trace s; calls := calls s ++ [(model, r)]; n_clock := n_clock s;
      n_try := n_try s; n_lock := n_lock s; n_random := n_random s |}).

(** ** One attempt *)

Context (R : Router).

(** The events of the fallback chain. *)
Definition trace_simple (model result : string) : json :=
  JObj [("model", JStr model); ("result", JStr result)].
Definition trace_error (model result err detail : string) (status : option Z) : json :=
  JObj [("model", JStr model); ("result", JStr result); ("error", JStr err); ("detail", JStr detail);
        ("status", match status with Some z => JInt z | None => JNull end)].

(** [dict.items()] of the counts *)
Definition add_counts (c : counts) (s : shared) : shared :=
  add_metric "reasoning_tokens" (reasoning_tokens c)
    (add_metric "total_tokens" (total_tokens c)
       (add_metric "completion_tokens" (completion_tokens c)
          (add_metric "prompt_tokens" (prompt_tokens c) s))).

(** One choice of a response. *)
Definition check_choice (choice : json) : error + () :=
  match get choice "message" with
  | Some (JObj message) =>
      let text := match assoc "content" message with Some (JStr s) => strip s | _ => "" end in
      if truthy text then inr ()
      else if is_str "length" (get choice "finish_reason") then inl budget_exhausted
      else inl (router_error "upstream text completion content must be a non-empty string")
  | _ => inl (router_error "malformed upstream choice")
  end.

Fixpoint check_choices (l : list json) : error + () :=
  match l with
  | [] => inr ()
  | c :: l' => match check_choice c with inr _ => check_choices l' | inl e => inl e end
  end.

Definition check_output (data : dict) (c : counts) (budget : Z) : error + () :=
  match assoc "choices" data with
  | Some (JArr ((_ :: _) as choices)) =>
      match check_choices choices with
      | inl e => inl e
      | inr _ =>
          if negb (length choices =? 1)%nat then inl (router_error "unexpected multiple completions")
          else if budget <? completion_tokens c then inl (router_error "upstream exceeded completion budget")
          else inr ()
      end
  | _ => inl (router_error "malformed upstream response")
  end.

(** The deadline of one call of the transport. *)
Definition base_timeout (model : string) (is_probe : bool) : f64 :=
  if is_probe then probe_timeout R else default (timeout R) (assoc model (model_timeouts R)).

Definition remaining_time (deadline : f64) : M f64 :=
  now ← monotonic; mret (fmin (fsub deadline now) (total_timeout R)).

(** [data["router"] = ...] *)
Definition routed (model : string) (data : dict) : M json := λ s,
  (inr (JObj (dict_set "router"
          (JObj [("selected_model", JStr model);
                 ("fallback_chain", JArr (trace s ++ [trace_simple model "success"]))]) data)), s).

(** The body of the [try]: call the transport, account, validate, commit. *)
Definition attempt (model : string) (payload : json) (budget : Z) (deadline : f64) (is_probe : bool)
    (gen : Z) : M json :=
  remaining ← remaining_time deadline;
  if fle remaining f0 then throw (router_error "router total deadline exhausted") else
  data ← call_transport model payload (fmin remaining (base_timeout model is_probe));
  match data with
  | JObj data =>
      c ← lift (usage_counts data);
      _ ← add_spent (total_tokens c);
      _ ← lock; _ ← modify (add_counts c);
      _ ← lift (check_output data c budget);
      got ← try_lock;
      if negb got then throw (router_error "router saturated: lock not acquired") else
      _ ← modify (λ s, add_metric "successes" 1 (set_breaker model (success (Some gen) (breaker_of model s)) s));
      routed model data
  | _ => throw (router_error "malformed upstream response")
  end.

(** What the retry loop does next. *)
Inductive flow := Break | Continue | Return (data : json).

(** [_retry_after] of a number *)
Definition retry_after (seconds : f64) : f64 := if is_finite seconds then fmax f0 seconds else f0.

(** [_retry_after] of a header: a number of seconds, or a date, by the two
    parsers; anything else is no delay. *)
Definition header_retry_after (float_of date_of : string → option f64) (now : f64) (value : option string) : f64 :=
  match value with
  | None => f0
  | Some v => match float_of v with
              | Some seconds => retry_after seconds
              | None => match date_of v with Some t => retry_after (fsub t now) | None => f0 end
              end
  end.

Definition server_error (status : Z) : bool := (500 <=? status) && (status <? 600).

(** [except BudgetExhaustedError] *)
Definition on_budget_exhausted {A} (model : string) (gen : Z) (e : error) : M A :=
  _ ← append_trace (trace_error model "budget_exhausted" BUDGET_EXHAUSTED
                      "completion budget consumed by reasoning tokens" None);
  got ← try_lock;
  _ ← (if got : bool then modify (λ s, add_metric "budget_exhausted" 1 (add_metric "failures" 1
         (set_breaker model (success (Some gen) (breaker_of model s)) s))) else mret ());
  throw e.

(** The bookkeeping of a failed attempt, under the lock. *)
Definition record_failure (model : string) (gen : Z) (e : error) : M () :=
  got ← try_lock;
  if negb got then mret () else
  now ← monotonic;
  _ ← modify (λ s, set_breaker model (failure now (Some gen) (breaker_of model s)) s);
  if bool_decide (err_status e = Some 429) then
    now ← monotonic;
    modify (λ s, set_cooldown model (fmax (cooldown_of model s) (fadd now (retry_after (err_retry_after e)))) s)
  else mret ().

(** [retry_after or .1*(2**attempt)+random()*.05], then the sleep unless the
    deadline comes first. *)
Definition back_off (attempt : nat) (deadline : f64) (e : error) : M bool :=
  let ra := retry_after (err_retry_after e) in
  delay ← (if feq ra f0 then
             r ← random_float;
             mret (fadd (fmul (lit 1 10) (of_Z (2 ^ Z.of_nat attempt))) (fmul r (lit 5 100)))
           else mret ra);
  now ← monotonic;
  mret (negb (fle (fsub deadline now) delay)).

(** [except Exception]: the answer says whether to try the model again. *)
Definition on_failure (index attempt : nat) (model : string) (deadline : f64) (is_probe : bool) (gen : Z)
    (e : error) : M bool :=
  _ ← append_trace (trace_error model "failure" (err_class e)
        (match err_status e with Some z => "upstream HTTP " +:+ pretty z | None => "upstream request failed" end)
        (err_status e));
  _ ← record_failure model gen e;
  if match err_status e with
     | Some z => (z =? 429) || (server_error z && (S index <? length (models R))%nat)
     | None => false end then mret false else
  if is_probe || match err_status e with Some z => negb (server_error z) | None => false end then mret false else
  _ ← lock;
  opened ← read (λ s, opened_at (breaker_of model s));
  match opened with
  | Some _ => mret false
  | None => if (attempt <? max_retries R)%nat then back_off attempt deadline e else mret true
  end.

(** The admission of a retry: false ([break]) unless the circuit is as it was. *)
Definition retry_admission (model : string) (deadline : f64) (gen : Z) : M bool :=
  remaining ← remaining_time deadline;
  if fle remaining f0 then mret false else
  got ← try_lock;
  if negb got then throw (router_error "router saturated during retry admission") else
  b ← read (breaker_of model);
  c ← read (cooldown_of model);
  late ← (if negb (generation b =? gen) || match opened_at b with Some _ => true | None => false end
          then mret true else now ← monotonic; mret (flt now c));
  if late : bool then _ ← append_trace (trace_simple model "circuit_open"); mret false else mret true.

(** The two [except] clauses around an attempt; [last] is the last failure. *)
Definition guarded_attempt (index attempt_no : nat) (model : string) (payload : json) (budget : Z)
    (deadline : f64) (is_probe : bool) (gen : Z) : M (flow * option error) :=
  catch (data ← attempt model payload budget deadline is_probe gen; mret (Return data, None))
    (λ e, if err_base e then throw e
          else if bool_decide (err_class e = BUDGET_EXHAUSTED)
          then on_budget_exhausted model gen e
          else again ← on_failure index attempt_no model deadline is_probe gen e;
               mret (if again : bool then Continue else Break, Some e)).

(** [for attempt in range(self.max_retries + 1)], from [attempt_no] on. *)
Fixpoint attempts (n : nat) (index attempt_no : nat) (model : string) (payload : json) (budget : Z)
    (deadline : f64) (is_probe : bool) (gen : Z) (last : option error) : M (option json * option error) :=
  match n with
  | O => mret (None, last)
  | S n' =>
      go ← (if (attempt_no =? 0)%nat then mret true else retry_admission model deadline gen);
      if negb go then mret (None, last) else
      r ← guarded_attempt index attempt_no model payload budget deadline is_probe gen;
      let last' := match r.2 with Some e => Some e | None => last end in
      match r.1 with
      | Return data => mret (Some data, last')
      | Break => mret (None, last')
      | Continue => attempts n' index (S attempt_no) model payload budget deadline is_probe gen last'
      end
  end.

(** The [finally] of the retry loop: give the probe back. *)
Definition release_probe (model : string) (is_probe : bool) (gen : Z) : M () :=
  if is_probe then
    _ ← lock;
    b ← read (breaker_of model);
    if (generation b =? gen) && probing b
    then now ← monotonic; modify (λ s, set_breaker model (failure now (Some gen) (breaker_of model s)) s)
    else mret ()
  else mret ().

(** The admission of a model: allowed, whether as the probe, and the epoch. *)
Definition admission (model : string) (now : f64) : M (bool * bool * Z) :=
  got ← try_lock;
  if negb got then throw (router_error "router saturated: lock not acquired") else
  c ← read (cooldown_of model);
  b ← read (breaker_of model);
  let '(allowed, b') := if fle c now then allow now b else (false, b) in
  _ ← modify (set_breaker model b');
  mret (allowed, allowed && probing b', generation b').

(** The [for index, model in enumerate(self.models)] loop. *)
Fixpoint fallback (ms : list string) (index : nat) (payload : json) (budget : Z) (deadline : f64)
    (last : option error) : M (option json * option error) :=
  match ms with
  | [] => mret (None, last)
  | model :: ms' =>
      now ← monotonic;
      if fle deadline now then mret (None, last) else
      a ← admission model now;
      let '(allowed, is_probe, gen) := a in
      if negb allowed then
        _ ← append_trace (trace_simple model "circuit_open");
        fallback ms' (S index) payload budget deadline last
      else
        _ ← (if (index =? 0)%nat then mret () else
             got ← try_lock; if got : bool then modify (add_metric "fallbacks" 1) else mret ());
        r ← finally (attempts (S (max_retries R)) index 0 model payload budget deadline is_probe gen last)
                    (release_probe model is_probe gen);
        match r.1 with
        | Some data => mret (Some data, r.2)
        | None => fallback ms' (S index) payload budget deadline r.2
        end
  end.

(** Every route failed: the error keeps the last upstream status. *)
Definition all_failed (last : option error) : error :=
  {| err_class := ROUTER_ERROR; err_msg := "all model routes failed";
     err_status := match last with Some e => err_status e | None => None end;
     err_retry_after := f0; err_base := false |}.

Definition all_routes_failed {A} (last : option error) : M A :=
  got ← try_lock;
  _ ← (if got : bool then modify (add_metric "failures" 1) else mret ());
  throw (all_failed last).

(** A validated request. *)
Definition dispatch (payload : json) (budget : Z) (deadline : f64) : M json :=
  got ← try_lock;
  if negb got then throw (router_error "router saturated: lock not acquired") else
  _ ← modify (add_metric "requests" 1);
  r ← fallback (models R) 0 payload budget deadline None;
  match r.1 with Some data => mret data | None => all_routes_failed r.2 end.

(** [_complete] *)
Definition complete_ `{FR : FloatRepr} (messages : json) (options : dict) (deadline : f64) : M json :=
  p ← lift (validate messages options); dispatch p.1 p.2 deadline.

(** [complete]: one inflight slot and one reservation around [_complete].  The
    desk is the semaphore and the spend ledger, of either kind. *)
Record desk (L : Type) := Desk { slots : Z; ledger : L }.
#[global] Arguments slots {L} _.
#[global] Arguments ledger {L} _.
#[global] Arguments Desk {L} _ _.

(** [spent = [0]] and [trace = []] *)
Definition fresh (s : st) : st :=
  {| sh := sh s; spent := 0; trace := []; calls := calls s; n_clock := n_clock s; n_try := n_try s;
     n_lock := n_lock s; n_random := n_random s |}.

Definition complete `{FR : FloatRepr} {L Res : Type} (reserve_ : Z → L → result Res * L)
    (settle_ : Res → Z → L → L) (messages : json) (options : dict) (d : desk L) (s : st) :
    (error + json) * desk L * st :=
  if slots d <=? 0 then (inl (router_error "router saturated: inflight capacity exhausted"), d, s) else
  let taken := slots d - 1 in
  match reserve_ (reservation_estimate messages options) (ledger d) with
  | (Raise e, l) =>
      (inl {| err_class := exn_class e; err_msg := exn_msg e; err_status := None; err_retry_after := f0;
              err_base := false |}, Desk (taken + 1) l, s)
  | (Ok r, l) =>
      let '(out, s') :=
        (now ← monotonic; complete_ messages options (fadd now (total_timeout R))) (fresh s) in
      (out, Desk (taken + 1) (settle_ r (spent s') l), s')
  end.

(** ** Invariants of programs *)

Definition preserves {A} (P : st → Prop) (m : M A) : Prop := ∀ s, P s → P (m s).2.

Section Preserves.
Context (P : st → Prop).

Lemma pres_ret {A} (a : A) : preserves P (mret a).
Proof. by intros s. Qed.
Lemma pres_throw {A} e : preserves P (@throw A e).
Proof. by intros s. Qed.
Lemma pres_lift {A} (r : error + A) : preserves P (lift r).
Proof. by intros s. Qed.
Lemma pres_read {A} (f : shared → A) : preserves P (read f).
Proof. by intros s. Qed.
Lemma pres_routed model data : preserves P (routed model data).
Proof. by intros s. Qed.

Lemma pres_bind {A B} (m : M A) (f : A → M B) :
  preserves P m → (∀ a, preserves P (f a)) → preserves P (m ≫= f).
Proof.
  intros Hm Hf s Hs. unfold mbind, M_bind. specialize (Hm s Hs).
  destruct (m s) as [[e|a] s1]; [done|by apply Hf].
Qed.

Lemma pres_catch {A} (m : M A) h : preserves P m → (∀ e, preserves P (h e)) → preserves P (catch m h).
Proof.
  intros Hm Hh s Hs. unfold catch. specialize (Hm s Hs). destruct (m s) as [[e|a] s1]; [by apply Hh|done].
Qed.

Lemma pres_finally {A} (m : M A) f : preserves P m → preserves P f → preserves P (finally m f).
Proof.
  intros Hm Hf s Hs. unfold finally. specialize (Hm s Hs). destruct (m s) as [r s1].
  specialize (Hf s1 Hm). by destruct (f s1) as [[e|u] s2].
Qed.
End Preserves.

(** Decompose a program into its primitive effects. *)
Ltac pres_step :=
  lazymatch goal with
  | |- preserves _ (_ ≫= _) => apply pres_bind; [|intros ?]
  | |- preserves _ (mret _) => apply pres_ret
  | |- preserves _ (throw _) => apply pres_throw
  | |- preserves _ (lift _) => apply pres_lift
  | |- preserves _ (read _) => apply pres_read
  | |- preserves _ (routed _ _) => apply pres_routed
  | |- preserves _ (catch _ _) => apply pres_catch; [|intros ?]
  | |- preserves _ (finally _ _) => apply pres_finally
  | |- preserves _ (match ?x with _ => _ end) => destruct x
  | |- preserves _ (let _ := _ in _) => cbv zeta
  end.
Ltac pres := repeat (pres_step || solve [eauto with axg]).

(** ** What a program bills and whom it calls *)

(** Programs that neither call the transport nor bill. *)
Definition untouched (x : Z) (l : list (string * response)) (s : st) : Prop := spent s = x ∧ calls s = l.
Definition silent {A} (m : M A) : Prop := ∀ x l, preserves (untouched x l) m.

Lemma silent_modify f x l : preserves (untouched x l) (modify f).
Proof. by intros s. Qed.
Lemma silent_append_trace v x l : preserves (untouched x l) (append_trace v).
Proof. by intros s. Qed.
Lemma silent_monotonic x l : preserves (untouched x l) monotonic.
Proof. by intros s. Qed.
Lemma silent_lock x l : preserves (untouched x l) lock.
Proof. by intros s. Qed.
Lemma silent_try_lock x l : preserves (untouched x l) try_lock.
Proof. by intros s. Qed.
Lemma silent_random x l : preserves (untouched x l) random_float.
Proof. by intros s. Qed.
#[local] Hint Resolve silent_modify silent_append_trace silent_monotonic silent_lock silent_try_lock silent_random : axg.

Lemma silent_on_budget_exhausted model gen e : silent (@on_budget_exhausted (flow * option error) model gen e).
Proof. intros x l. unfold on_budget_exhausted. pres. Qed.

Lemma silent_on_failure i n model dl p gen e : silent (on_failure i n model dl p gen e).
Proof. intros x l. unfold on_failure, record_failure, back_off. pres. Qed.

Lemma silent_retry_admission model dl gen : silent (retry_admission model dl gen).
Proof. intros x l. unfold retry_admission, remaining_time. pres. Qed.

Lemma silent_release_probe model p gen : silent (release_probe model p gen).
Proof. intros x l. unfold release_probe. pres. Qed.

Lemma silent_admission model now : silent (admission model now).
Proof. intros x l. unfold admission. pres. Qed.

(** What a response costs. *)
Definition billed (r : response) : Z :=
  match r with
  | Returned (JObj data) => match usage_counts data with inr c => total_tokens c | inl _ => 0 end
  | _ => 0
  end.
Definition bill (l : list (string * response)) : Z := sum_Z (map (λ c, billed c.2) l).

Lemma bill_app l k : bill (l ++ k) = bill l + bill k.
Proof. unfold bill. by rewrite map_app, sum_Z_app. Qed.

(** From [s] to [s'] at most [k] new calls, all to models of [ms], each billed once. *)
Definition grows (k : nat) (ms : list string) (s s' : st) : Prop :=
  ∃ new, calls s' = calls s ++ new ∧ (length new ≤ k)%nat ∧ spent s' = spent s + bill new ∧
    Forall (λ c, c.1 ∈ ms) new.

Lemma grows_silent {A} k ms (m : M A) s : silent m → grows k ms s (m s).2.
Proof.
  intros H. destruct (H (spent s) (calls s) s) as [H1 H2]; [done|].
  exists []. rewrite app_nil_r, H1, H2. unfold bill, sum_Z. simpl. split_and!; [done|lia|lia|constructor].
Qed.

Lemma grows_trans k1 k2 ms s1 s2 s3 : grows k1 ms s1 s2 → grows k2 ms s2 s3 → grows (k1 + k2) ms s1 s3.
Proof.
  intros (n1 & C1 & L1 & S1 & F1) (n2 & C2 & L2 & S2 & F2). exists (n1 ++ n2).
  rewrite C2, C1, app_assoc, length_app, bill_app. split_and!; [done|lia|lia|by apply Forall_app].
Qed.

Lemma grows_weaken k1 k2 ms1 ms2 s s' : (k1 ≤ k2)%nat → ms1 ⊆ ms2 → grows k1 ms1 s s' → grows k2 ms2 s s'.
Proof.
  intros Hk Hms (n & C & L & S & F). exists n. split_and!; [done|lia|done|].
  eapply Forall_impl; [exact F|]. intros c. apply Hms.
Qed.

(** A completion the router may return. *)
Definition valid_output (budget : Z) (out : json) (made : list (string * response)) : Prop :=
  ∃ model data c choice message text chain,
    (model, Returned (JObj data)) ∈ made ∧ usage_counts data = inr c ∧ completion_tokens c <= budget ∧
    assoc "choices" data = Some (JArr [choice]) ∧ get choice "message" = Some (JObj message) ∧
    assoc "content" message = Some (JStr text) ∧ strip text ≠ "" ∧
    out = JObj (dict_set "router" (JObj [("selected_model", JStr model); ("fallback_chain", JArr chain)]) data).

(** The completion budget of a request: the one it names, under either key but
    not both, or the greatest. *)
Definition asked_budget (options : dict) (budget : Z) : Prop :=
  1 <= budget <= MAX_COMPLETION_TOKENS ∧
  match assoc "max_completion_tokens" options, assoc "max_tokens" options with
  | Some v, None | None, Some v => v = JInt budget
  | None, None => budget = MAX_COMPLETION_TOKENS
  | Some _, Some _ => False
  end.

Lemma validate_budget `{FR : FloatRepr} messages options payload budget :
  validate messages options = inr (payload, budget) → asked_budget options budget.
Proof.
  unfold validate, budget_key, has_key. intros H. destruct messages; try discriminate H. do 4 (case_match; [discriminate H|]).
  unfold asked_budget. destruct (assoc "max_tokens" options) as [v|] eqn:E1, (assoc "max_completion_tokens" options) as [v'|] eqn:E2;
    cbn [andb] in H; try discriminate H; rewrite ?E1, ?E2 in H; cbn [default from_option id] in H;
    repeat (case_match; try discriminate H); injection H as _ <-; simplify_eq; (split; [bool_prop; lia|done]).
Qed.

Lemma check_output_valid data c budget : check_output data c budget = inr () →
  completion_tokens c <= budget ∧ ∃ choice message text,
    assoc "choices" data = Some (JArr [choice]) ∧ get choice "message" = Some (JObj message) ∧
    assoc "content" message = Some (JStr text) ∧ strip text ≠ "".
Proof.
  unfold check_output. destruct (assoc "choices" data) as [[]|]; try done. destruct l as [|choice l]; [done|].
  destruct (check_choices (choice :: l)) as [e|[]] eqn:E; [done|].
  destruct l as [|? l]; [|done]. cbn [length Nat.eqb negb]. destruct (Z.ltb_spec budget (completion_tokens c)); [done|].
  intros _. split; [done|]. cbn [check_choices] in E. destruct (check_choice choice) as [e|[]] eqn:Ec; [done|].
  unfold check_choice in Ec. destruct (get choice "message") as [[]|] eqn:Em; try done.
  exists choice, l. destruct (assoc "content" l) as [[]|] eqn:Et; try (by destruct (is_str _ _)).
  destruct (truthy (strip s)) eqn:Es; [|by destruct (is_str _ _)].
  exists s. split_and!; try done. by apply truthy_spec.
Qed.

(** The calls made between two states. *)
Definition made (s s' : st) : list (string * response) := drop (length (calls s)) (calls s').

Lemma made_app s s' new : calls s' = calls s ++ new → made s s' = new.
Proof. unfold made. intros ->. apply drop_app_length. Qed.

Lemma valid_output_weaken budget out l1 l2 : l1 ⊆ l2 → valid_output budget out l1 → valid_output budget out l2.
Proof.
  intros Hs (m & d & c & ch & msg & tx & chain & H & Hr). exists m, d, c, ch, msg, tx, chain.
  split; [by apply Hs|done].
Qed.

(** The specification of a program: how it grows, and what it returns. *)
Definition meets {A} (k : nat) (ms : list string) (Q : A → list (string * response) → Prop) (m : M A) : Prop :=
  ∀ s, grows k ms s (m s).2 ∧ ∀ a, (m s).1 = inr a → Q a (made s (m s).2).

Lemma meets_silent {A} k ms (m : M A) : silent m → meets k ms (λ _ _, True) m.
Proof. intros H s. split; [by apply grows_silent|done]. Qed.

Lemma made_trans s1 s2 s3 k1 k2 ms : grows k1 ms s1 s2 → grows k2 ms s2 s3 →
  made s1 s3 = made s1 s2 ++ made s2 s3.
Proof.
  intros (n1 & C1 & _) (n2 & C2 & _). rewrite (made_app _ _ _ C1), (made_app _ _ _ C2).
  apply made_app. by rewrite C2, C1, app_assoc.
Qed.

Lemma meets_bind {A B} k1 k2 ms Q1 Q2 (m : M A) (f : A → M B) :
  meets k1 ms Q1 m → (∀ a, meets k2 ms Q2 (f a)) →
  (∀ b l1 l2, Q2 b l2 → Q2 b (l1 ++ l2)) → meets (k1 + k2) ms Q2 (m ≫= f).
Proof.
  intros Hm Hf Hq s. destruct (Hm s) as [G1 _]. unfold mbind, M_bind.
  destruct (m s) as [[e|a] s1]; cbn [fst snd] in *.
  - split; [|done]. eapply grows_weaken; [| |exact G1]; [lia|done].
  - destruct (Hf a s1) as [G2 H2]. split; [by eapply grows_trans|].
    intros b Hb. rewrite (made_trans _ _ _ _ _ _ G1 G2). apply Hq. by apply H2.
Qed.

Lemma meets_weaken {A} k1 k2 ms1 ms2 (Q1 Q2 : A → _ → Prop) (m : M A) :
  (k1 ≤ k2)%nat → ms1 ⊆ ms2 → (∀ a l, Q1 a l → Q2 a l) → meets k1 ms1 Q1 m → meets k2 ms2 Q2 m.
Proof.
  intros Hk Hms HQ H s. destruct (H s) as [G HQ1]. split; [by eapply grows_weaken|]. intros a Ha. by apply HQ, HQ1.
Qed.

Lemma meets_ret {A} ms (Q : A → _ → Prop) (a : A) : Q a [] → meets 0 ms Q (mret a).
Proof.
  intros H s. split; [by apply (grows_silent 0 ms (mret a) s); intros x l; apply pres_ret|].
  intros b [= <-]. unfold made. cbn [snd mret M_ret]. by rewrite drop_all.
Qed.

Lemma meets_throw {A} k ms (Q : A → _ → Prop) e : meets k ms Q (throw e).
Proof. intros s. split; [by apply (grows_silent k ms (@throw A e) s); intros x l; apply pres_throw|done]. Qed.

(** A silent start does not matter. *)
Lemma meets_after {A B} k ms (Q : B → _ → Prop) (m : M A) (f : A → M B) :
  silent m → (∀ a, meets k ms Q (f a)) → (∀ b l1 l2, Q b l2 → Q b (l1 ++ l2)) → meets k ms Q (m ≫= f).
Proof.
  intros Hm Hf HQ. apply (meets_bind 0 k ms (λ _ _, True)); [by apply meets_silent|done|done].
Qed.

Lemma meets_finally {A} k ms (Q : A → _ → Prop) (m : M A) f :
  meets k ms Q m → silent f → meets k ms Q (finally m f).
Proof.
  intros Hm Hf s. destruct (Hm s) as [G HQ]. unfold finally.
  destruct (m s) as [r s1]. cbn [fst snd] in *. pose proof (grows_silent 0 ms f s1 Hf) as G2.
  destruct (Hf (spent s1) (calls s1) s1) as [_ Hc]; [done|].
  destruct (f s1) as [[e|u] s2]; cbn [fst snd] in *.
  - split; [|done]. replace k with (k + 0)%nat by lia. by eapply grows_trans.
  - split; [replace k with (k + 0)%nat by lia; by eapply grows_trans|].
    intros a Ha. unfold made. rewrite Hc. by apply HQ.
Qed.

(** One attempt calls the transport at most once and bills the answer. *)
Lemma attempt_meets model payload budget dl p gen :
  meets 1 [model] (valid_output budget) (attempt model payload budget dl p gen).
Proof.
  assert (∀ b l1 l2, valid_output budget b l2 → valid_output budget b (l1 ++ l2)) as Hq
    by (intros b l1 l2; apply valid_output_weaken; set_solver).
  apply meets_after; [|intros remaining|exact Hq].
  { intros x l. unfold remaining_time. pres. }
  destruct (fle remaining f0); [apply meets_throw|]. intros s.
  unfold mbind, M_bind, call_transport. set (r := transport _ _ _ _ _).
  set (s1 := {| sh := sh s |}).
  assert (∀ s2, calls s2 = calls s1 → spent s2 = spent s1 + billed r → grows 1 [model] s s2) as HG.
  { intros s2 HC HS. exists [(model, r)]. split_and!; [done|simpl; lia| |repeat constructor].
    rewrite HS. unfold bill, sum_Z. simpl. lia. }
  assert (∀ s2, calls s2 = calls s1 → made s s2 = [(model, r)]) as Hmade
    by (intros s2 HC; by apply made_app; rewrite HC).
  destruct r as [data|e] eqn:Hr.
  2: { split; [|done]. apply HG; [done|]. simpl. lia. }
  destruct data as [| | | | | |data]; try (split; [|done]; apply HG; [done|]; simpl; lia).
  cbn [lift]. destruct (usage_counts data) as [e|c] eqn:Hu.
  { split; [|done]. apply HG; [done|]. cbn [snd billed]. rewrite Hu. lia. }
  cbn [add_spent lock modify lift].
  match goal with |- context [check_output data c budget] => idtac end.
  destruct (check_output data c budget) as [e|[]] eqn:Ho; cbn [fst snd].
  { split; [|done]. apply HG; [done|]. cbn [spent billed]. by rewrite Hu. }
  cbn [try_lock]. destruct (lock_acquired env _); cbn [negb throw modify routed fst snd].
  2: { split; [|done]. apply HG; [done|]. cbn [spent billed]. by rewrite Hu. }
  split; [apply HG; [done|]; cbn [spent billed]; by rewrite Hu|].
  intros out [= <-]. rewrite Hmade by done.
  destruct (check_output_valid _ _ _ Ho) as (Hb & ch & msg & tx & H1 & H2 & H3 & H4).
  eexists model, data, c, ch, msg, tx, _. split_and!; try done. by left.
Qed.

Lemma meets_catch {A} k ms (Q : A → _ → Prop) (m : M A) h :
  meets k ms Q m → (∀ e, meets 0 ms Q (h e)) → (∀ b l1 l2, Q b l2 → Q b (l1 ++ l2)) →
  meets k ms Q (catch m h).
Proof.
  intros Hm Hh Hq s. destruct (Hm s) as [G HQ]. unfold catch.
  destruct (m s) as [[e|a] s1]; cbn [fst snd] in *; [|done].
  destruct (Hh e s1) as [G2 HQ2]. split.
  - replace k with (k + 0)%nat by lia. by eapply grows_trans.
  - intros b Hb. rewrite (made_trans _ _ _ _ _ _ G G2). by apply Hq, HQ2.
Qed.

Definition returns_valid {B} (budget : Z) (r : option json * B) (l : list (string * response)) : Prop :=
  match r.1 with Some out => valid_output budget out l | None => True end.

Lemma returns_valid_app {B} budget (r : option json * B) l1 l2 :
  returns_valid budget r l2 → returns_valid budget r (l1 ++ l2).
Proof.
  unfold returns_valid. destruct r.1; [|done]. apply valid_output_weaken. set_solver.
Qed.

Definition flow_valid (budget : Z) (r : flow * option error) (l : list (string * response)) : Prop :=
  match r.1 with Return out => valid_output budget out l | _ => True end.

Lemma flow_valid_app budget r l1 l2 : flow_valid budget r l2 → flow_valid budget r (l1 ++ l2).
Proof. unfold flow_valid. destruct r.1; try done. apply valid_output_weaken. set_solver. Qed.

Lemma guarded_attempt_meets i n model payload budget dl p gen :
  meets 1 [model] (flow_valid budget) (guarded_attempt i n model payload budget dl p gen).
Proof.
  unfold guarded_attempt. apply meets_catch; [| |apply flow_valid_app].
  - intros s. destruct (attempt_meets model payload budget dl p gen s) as [G HQ].
    unfold mbind, M_bind. destruct (attempt _ _ _ _ _ _ s) as [[e|out] s1]; [done|].
    split; [exact G|]. intros r [= <-]. by apply HQ.
  - intros e. destruct (err_base e); [apply meets_throw|].
    destruct (bool_decide _).
    + apply meets_after; [|intros u|apply flow_valid_app].
      * intros x l. pres.
      * apply meets_after; [|intros got|apply flow_valid_app]; [intros x l; pres|].
        apply meets_after; [|intros u'|apply flow_valid_app]; [intros x l; pres|apply meets_throw].
    + apply meets_after; [apply silent_on_failure|intros again|apply flow_valid_app].
      apply meets_ret. by destruct again.
Qed.

Lemma attempts_meets n i k model payload budget dl p gen last :
  meets n [model] (returns_valid budget) (attempts n i k model payload budget dl p gen last).
Proof.
  revert k last. induction n as [|n IH]; intros k last; cbn [attempts]; [by apply meets_ret|].
  apply meets_after; [|intros go|apply returns_valid_app].
  { intros x l. destruct (k =? 0)%nat; [apply pres_ret|apply silent_retry_admission]. }
  destruct go; cbn [negb];
    [|by eapply meets_weaken; [| | |apply meets_ret]; [lia|reflexivity|intros a l H; exact H|]].
  intros s. destruct (guarded_attempt_meets i k model payload budget dl p gen s) as [G HQ].
  unfold mbind, M_bind. destruct (guarded_attempt _ _ _ _ _ _ _ _ s) as [[e|[f e]] s1]; cbn [fst snd] in *.
  - split; [|done]. eapply grows_weaken; [| |exact G]; [lia|done].
  - destruct f as [| |out].
    + split; [|by intros r [= <-]]. eapply grows_weaken; [| |exact G]; [lia|done].
    + destruct (IH (S k) (match e with Some e0 => Some e0 | None => last end) s1) as [G2 HQ2].
      split; [change (S n) with (1 + n)%nat; by eapply grows_trans|].
      intros r Hr. rewrite (made_trans _ _ _ _ _ _ G G2). by apply returns_valid_app, HQ2.
    + split; [eapply grows_weaken; [| |exact G]; [lia|done]|].
      intros r [= <-]. exact (HQ _ eq_refl).
Qed.

Lemma fallback_meets ms i payload budget dl last :
  meets (length ms * S (max_retries R)) ms (returns_valid budget) (fallback ms i payload budget dl last).
Proof.
  revert i last. induction ms as [|model ms IH]; intros i last; cbn [fallback]; [by apply meets_ret|].
  assert (∀ i' last', meets (length (model :: ms) * S (max_retries R)) (model :: ms) (returns_valid budget)
    (fallback ms i' payload budget dl last')) as IH'.
  { intros i' last'. eapply meets_weaken; [| | |apply IH]; [simpl; lia|set_solver|done]. }
  apply meets_after; [intros x l; pres|intros now|apply returns_valid_app].
  destruct (fle dl now).
  { apply (meets_weaken 0 _ [] _ (returns_valid budget)); [lia|set_solver|done|by apply meets_ret]. }
  apply meets_after; [apply silent_admission|intros [[allowed p] gen]|apply returns_valid_app].
  destruct allowed; cbn [negb];
    [|apply meets_after; [intros x l; pres|intros _; apply IH'|apply returns_valid_app]].
  apply meets_after; [intros x l; pres|intros _|apply returns_valid_app].
  intros s. pose proof (meets_finally _ _ _ _ _ (attempts_meets (S (max_retries R)) i 0 model payload budget dl p gen last)
    (silent_release_probe model p gen) s) as [G HQ].
  unfold mbind, M_bind. destruct (finally _ _ s) as [[e|[out last']] s1]; cbn [fst snd] in *.
  - split; [|done]. eapply grows_weaken; [| |exact G]; [simpl; lia|set_solver].
  - destruct out as [out|].
    + split; [eapply grows_weaken; [| |exact G]; [simpl; lia|set_solver]|].
      intros r [= <-]. exact (HQ _ eq_refl).
    + destruct (IH (S i) last' s1) as [G2 HQ2].
      assert (grows (S (max_retries R)) (model :: ms) s s1) as G'
        by (eapply grows_weaken; [| |exact G]; [lia|set_solver]).
      assert (grows (length ms * S (max_retries R)) (model :: ms) s1
        (fallback ms (S i) payload budget dl last' s1).2) as G2'
        by (eapply grows_weaken; [| |exact G2]; [lia|set_solver]).
      split; [exact (grows_trans (S (max_retries R)) (length ms * S (max_retries R)) _ _ _ _ G' G2')|].
      intros r Hr. rewrite (made_trans _ _ _ _ _ _ G' G2'). by apply returns_valid_app, HQ2.
Qed.

Lemma meets_all_routes_failed {A} k ms (Q : A → _ → Prop) last :
  (∀ b l1 l2, Q b l2 → Q b (l1 ++ l2)) → meets k ms Q (all_routes_failed last).
Proof.
  intros Hq. apply meets_after; [intros x l; pres|intros got|exact Hq].
  apply meets_after; [intros x l; pres|intros u; apply meets_throw|exact Hq].
Qed.

Lemma dispatch_meets payload budget dl :
  meets (length (models R) * S (max_retries R)) (models R) (valid_output budget) (dispatch payload budget dl).
Proof.
  assert (∀ out l1 l2, valid_output budget out l2 → valid_output budget out (l1 ++ l2)) as Hq
    by (intros out l1 l2; apply valid_output_weaken; set_solver).
  apply meets_after; [intros x l; pres|intros got|exact Hq].
  destruct got; cbn [negb]; [|apply meets_throw].
  apply meets_after; [intros x l; pres|intros _|exact Hq].
  intros s. destruct (fallback_meets (models R) 0 payload budget dl None s) as [G HQ].
  unfold mbind, M_bind. destruct (fallback _ _ _ _ _ _ s) as [[e|[[out|] last]] s1]; cbn [fst snd] in *.
  - split; [exact G|done].
  - split; [exact G|]. intros a [= <-]. exact (HQ _ eq_refl).
  - destruct (meets_all_routes_failed 0 (models R) (valid_output budget) last Hq s1) as [G2 HQ2].
    split.
    + replace (length (models R) * S (max_retries R))%nat
        with (length (models R) * S (max_retries R) + 0)%nat by lia.
      exact (grows_trans _ _ _ _ _ _ G G2).
    + intros a Ha. rewrite (made_trans _ _ _ _ _ _ G G2). by apply Hq, HQ2.
Qed.

(** The state in which [_complete] leaves a call of [complete]. *)
Definition whole `{FR : FloatRepr} (messages : json) (options : dict) : M json :=
  now ← monotonic; complete_ messages options (fadd now (total_timeout R)).

Lemma whole_meets `{FR : FloatRepr} messages options :
  meets (length (models R) * S (max_retries R)) (models R)
    (λ out l, ∃ budget, asked_budget options budget ∧ valid_output budget out l)
    (whole messages options).
Proof.
  assert (∀ (out : json) (l1 l2 : list (string * response)),
    (∃ budget, asked_budget options budget ∧ valid_output budget out l2) →
    ∃ budget, asked_budget options budget ∧ valid_output budget out (l1 ++ l2)) as Hq.
  { intros out l1 l2 (b & Hb & H). exists b. split; [done|]. eapply valid_output_weaken; [|exact H]. set_solver. }
  apply meets_after; [intros x l; pres|intros now|exact Hq]. unfold complete_.
  destruct (validate messages options) as [e|[payload budget]] eqn:Hv.
  { intros s. split; [exact (proj1 (meets_throw _ _ (λ _ _, True) e s))|done]. }
  apply validate_budget in Hv as Hb.
  intros s. destruct (dispatch_meets payload budget (fadd now (total_timeout R)) s) as [G HQ].
  split; [exact G|]. intros out Hout. exists budget. split; [done|]. by apply HQ.
Qed.

(** ** The probe lease *)

Lemma breaker_of_set m m' b s :
  breaker_of m' (set_breaker m b s) = if decide (m = m') then b else breaker_of m' s.
Proof.
  unfold breaker_of. cbn [set_breaker breakers]. case_decide as E.
  - subst. by rewrite lookup_insert_eq.
  - by rewrite lookup_insert_ne.
Qed.

Lemma probing_success g b : probing (success g b) = false ∨ success g b = b.
Proof. unfold success. destruct (stale g b); [by right|by left]. Qed.

Lemma probing_failure now g b : probing (failure now g b) = false ∨ failure now g b = b.
Proof. unfold failure. cbv zeta. destruct (stale g b); [by right|left]. by destruct (_ <=? _). Qed.

(** No breaker has its probe out; or only this model's, in this epoch. *)
Definition free (s : shared) : Prop := ∀ m, probing (breaker_of m s) = false.
Definition held (model : string) (gen : Z) (s : shared) : Prop :=
  ∀ m, probing (breaker_of m s) = true → m = model ∧ generation (breaker_of m s) = gen.

(** Both are kept by everything an attempt writes. *)
Definition settled (Q : shared → Prop) : Prop :=
  (∀ s m b, Q s → probing b = false ∨ b = breaker_of m s → Q (set_breaker m b s)) ∧
  (∀ s s', breakers s = breakers s' → Q s → Q s').

Lemma free_settled : settled free.
Proof.
  split.
  - intros s m b H Hb m'. rewrite breaker_of_set. case_decide as E; [|apply H].
    destruct Hb as [Hb| ->]; [done|apply H].
  - intros s s' E H m. specialize (H m). unfold breaker_of in *. by rewrite <-E.
Qed.

Lemma held_settled model gen : settled (held model gen).
Proof.
  split.
  - intros s m b H Hb m'. rewrite breaker_of_set. case_decide as E; [|apply H].
    subst m'. destruct Hb as [Hb| ->]; [congruence|apply H].
  - intros s s' E H m. specialize (H m). unfold breaker_of in *. by rewrite <-E.
Qed.

Section Quiet.
Context (quiet : ∀ n s, others env n s = s) (Q : shared → Prop) (HQ : settled Q).
Abbreviation keeps := (preserves (λ s, Q (sh s))).

Lemma keeps_monotonic : keeps monotonic. Proof. by intros s. Qed.
Lemma keeps_random : keeps random_float. Proof. by intros s. Qed.
Lemma keeps_append_trace v : keeps (append_trace v). Proof. by intros s. Qed.
Lemma keeps_add_spent n : keeps (add_spent n). Proof. by intros s. Qed.
Lemma keeps_call m p t : keeps (call_transport m p t). Proof. by intros s. Qed.
Lemma keeps_lock : keeps lock. Proof. intros s H. cbn. by rewrite quiet. Qed.
Lemma keeps_try_lock : keeps try_lock.
Proof. intros s H. cbn. destruct (lock_acquired _ _); [by rewrite quiet|done]. Qed.
Lemma keeps_modify f : (∀ s, Q s → Q (f s)) → keeps (modify f). Proof. intros Hf s H. by apply Hf. Qed.

Lemma keeps_metric k n s : Q s → Q (add_metric k n s).
Proof. by apply (proj2 HQ). Qed.
Lemma keeps_counts c s : Q s → Q (add_counts c s).
Proof. by apply HQ. Qed.
Lemma keeps_cooldown m t s : Q s → Q (set_cooldown m t s).
Proof. by apply HQ. Qed.
Lemma keeps_success m g s : Q s → Q (set_breaker m (success g (breaker_of m s)) s).
Proof. intros H. apply HQ; [done|apply probing_success]. Qed.
Lemma keeps_failure m now g s : Q s → Q (set_breaker m (failure now g (breaker_of m s)) s).
Proof. intros H. apply HQ; [done|apply probing_failure]. Qed.
#[local] Hint Resolve keeps_monotonic keeps_random keeps_append_trace keeps_add_spent keeps_call keeps_lock
  keeps_try_lock keeps_modify keeps_metric keeps_counts keeps_cooldown keeps_success keeps_failure : axg.

Lemma keeps_attempt model payload budget dl p gen : keeps (attempt model payload budget dl p gen).
Proof. unfold attempt, remaining_time. pres. Qed.

Lemma keeps_guarded i n model payload budget dl p gen : keeps (guarded_attempt i n model payload budget dl p gen).
Proof.
  unfold guarded_attempt, on_budget_exhausted, on_failure, record_failure, back_off.
  pose proof (keeps_attempt model payload budget dl p gen). pres.
Qed.

Lemma keeps_attempts n i k model payload budget dl p gen last :
  keeps (attempts n i k model payload budget dl p gen last).
Proof.
  revert k last. induction n as [|n IH]; intros k last; cbn [attempts]; [apply pres_ret|].
  pose proof (keeps_guarded i k model payload budget dl p gen). unfold retry_admission, remaining_time.
  repeat (pres_step || solve [eauto with axg] || apply IH).
Qed.
End Quiet.

Section Lease.
Context (quiet : ∀ n s, others env n s = s).
Abbreviation keeps_free := (preserves (λ s, free (sh s))).

(** What an admitted request may hold. *)
Definition leased (model : string) (is_probe : bool) (gen : Z) : shared → Prop :=
  if is_probe then held model gen else free.

Lemma leased_settled model p gen : settled (leased model p gen).
Proof. destruct p; [apply held_settled|apply free_settled]. Qed.

Lemma admission_leases model now s : free (sh s) →
  match admission model now s with
  | (inr (allowed, p, gen), s') => leased model p gen (sh s') ∧ (allowed = false → p = false)
  | (inl _, s') => free (sh s')
  end.
Proof.
  intros H. unfold admission, mbind, M_bind. cbn [try_lock]. destruct (lock_acquired _ _); cbn [negb throw read fst snd]; [|done].
  cbn [sh]. rewrite !quiet. set (b := breaker_of model (sh s)).
  assert (probing b = false) as Hb by apply H.
  destruct (if fle (cooldown_of model (sh s)) now then allow now b else (false, b)) as [allowed b'] eqn:E.
  cbn [modify mret M_ret sh].
  assert (free (set_breaker model b (sh s))) as Hfree.
  { apply free_settled; [done|by right]. }
  split; [|by intros ->].
  destruct (fle _ now); [|injection E as <- <-; done].
  unfold allow in E. destruct (opened_at b) as [o|]; [|injection E as <- <-; by rewrite Hb].
  destruct (flt _ _ || probing b); injection E as <- <-; [done|].
  cbn [andb with_state probing leased]. intros m. rewrite breaker_of_set.
  case_decide as Em; [by subst|]. intros Hm. rewrite H in Hm. done.
Qed.

Lemma release_frees model p gen s : leased model p gen (sh s) → free (sh (release_probe model p gen s).2).
Proof.
  unfold release_probe, leased. destruct p; [|done]. intros H.
  unfold mbind, M_bind. cbn [lock read]. cbn [sh]. rewrite quiet.
  set (b := breaker_of model (sh s)).
  destruct ((generation b =? gen) && probing b) eqn:E; cbn [modify monotonic mret M_ret snd sh].
  - bool_prop. intros m. rewrite breaker_of_set. case_decide as Em.
    + unfold failure, stale. fold b. replace (generation b =? gen) with true by lia.
      rewrite Z.eqb_sym. replace (generation b =? gen) with true by lia. cbn [negb]. cbv zeta.
      by destruct (_ <=? _).
    + destruct (probing (breaker_of m (sh s))) eqn:Hm; [|done]. by destruct (H m Hm).
  - intros m. destruct (probing (breaker_of m (sh s))) eqn:Hm; [|done].
    destruct (H m Hm) as [-> Hg]. fold b in Hg, Hm. rewrite Hg, Z.eqb_refl, Hm in E. done.
Qed.

(** Counting a fallback never fails. *)
Lemma count_fallback (i : nat) Q s : settled Q → Q (sh s) →
  ∃ s', (if (i =? 0)%nat then mret () else
         got ← try_lock; if got : bool then modify (add_metric "fallbacks" 1) else mret ()) s = (inr (), s') ∧
        Q (sh s').
Proof.
  intros HQ H. destruct (i =? 0)%nat; [by exists s|].
  unfold mbind, M_bind. cbn [try_lock]. destruct (lock_acquired _ _).
  - eexists. split; [done|]. cbn [sh]. rewrite quiet. by apply (proj2 HQ (sh s)).
  - by eexists.
Qed.

Lemma attempts_release n i k model payload budget dl p gen last s : leased model p gen (sh s) →
  free (sh (finally (attempts n i k model payload budget dl p gen last) (release_probe model p gen) s).2).
Proof.
  intros H. unfold finally.
  pose proof (keeps_attempts quiet _ (leased_settled model p gen) n i k model payload budget dl p gen last s H) as H1.
  destruct (attempts _ _ _ _ _ _ _ _ _ _ s) as [r s1]. cbn [snd] in H1.
  pose proof (release_frees model p gen s1 H1) as H2. by destruct (release_probe model p gen s1) as [[e|u] s2].
Qed.

Lemma keeps_free_fallback ms i payload budget dl last : keeps_free (fallback ms i payload budget dl last).
Proof.
  revert i last. induction ms as [|model ms IH]; intros i last; cbn [fallback]; [apply pres_ret|].
  apply pres_bind; [apply keeps_monotonic|intros now]. destruct (fle dl now); [apply pres_ret|].
  intros s H. pose proof (admission_leases model now s H) as Ha. unfold mbind at 1, M_bind at 1.
  destruct (admission model now s) as [[e|[[allowed p] gen]] s1]; cbn [snd]; [done|].
  destruct Ha as [Ha Hp]. destruct allowed; cbn [negb].
  2: { rewrite (Hp eq_refl) in Ha. revert Ha.
       apply (pres_bind _ _ _ (keeps_append_trace free _) (λ _, IH _ _)). }
  destruct (count_fallback i _ s1 (leased_settled model p gen) Ha) as (s2 & E & H2).
  unfold mbind at 1, M_bind at 1. rewrite E. unfold mbind at 1, M_bind at 1.
  pose proof (attempts_release (S (max_retries R)) i 0 model payload budget dl p gen last s2 H2) as H3.
  destruct (finally _ _ s2) as [[e|[[out|] last']] s3]; cbn [fst snd] in *; [done..|]. by apply IH.
Qed.

Lemma keeps_free_whole `{FR : FloatRepr} messages options : keeps_free (whole messages options).
Proof.
  pose proof keeps_monotonic. pose proof (keeps_try_lock quiet free). pose proof free_settled as HS.
  assert (∀ k n, keeps_free (modify (add_metric k n))) by (intros k n s; by apply keeps_metric).
  pose proof keeps_free_fallback. unfold whole, complete_, dispatch, all_routes_failed. pres.
Qed.
End Lease.
End Effects.

(** ** The properties of [complete] *)

Section Properties.
Context `{FR : FloatRepr} (env : environment) (R : Router).
Context {L Res : Type} (reserve_ : Z → L → result Res * L) (settle_ : Res → Z → L → L).

Lemma complete_cases messages options d s out d' s' :
  complete env R reserve_ settle_ messages options d s = (out, d', s') →
  slots d' = slots d ∧
  ((slots d <= 0 ∧ ledger d' = ledger d ∧ s' = s ∧ is_Some (match out with inl e => Some e | inr _ => None end)) ∨
   (0 < slots d ∧
    ((∃ e l, reserve_ (reservation_estimate messages options) (ledger d) = (Raise e, l) ∧ ledger d' = l ∧
             s' = s ∧ is_Some (match out with inl e => Some e | inr _ => None end)) ∨
     (∃ r l, reserve_ (reservation_estimate messages options) (ledger d) = (Ok r, l) ∧
             whole env R messages options (fresh s) = (out, s') ∧ ledger d' = settle_ r (spent s') l)))).
Proof.
  unfold complete. destruct (Z.leb_spec (slots d) 0) as [H|H].
  - intros [= <- <- <-]. split; [done|]. left. by repeat split.
  - destruct (reserve_ _ (ledger d)) as [[r|e] l] eqn:E.
    + fold (whole env R messages options). destruct (whole env R messages options (fresh s)) as [o s1] eqn:Ew.
      intros [= <- <- <-]. cbn [slots ledger]. split; [lia|]. right. split; [done|]. right. by exists r, l.
    + intros [= <- <- <-]. cbn [slots ledger]. split; [lia|]. right. split; [done|]. left. exists e, l. by repeat split.
Qed.

Lemma made_none s : made s s = [].
Proof. unfold made. apply drop_all. Qed.

(** What a call of [_complete] adds to the fresh state. *)
Lemma whole_grows messages options s out s' :
  whole env R messages options (fresh s) = (out, s') →
  (length (made s s') ≤ length (models R) * S (max_retries R))%nat ∧
  spent s' = bill (made s s') ∧ Forall (λ c, c.1 ∈ models R) (made s s') ∧
  ∀ data, out = inr data → ∃ budget, asked_budget options budget ∧ valid_output budget data (made s s').
Proof.
  intros E. destruct (whole_meets env R messages options (fresh s)) as [(new & C & Hl & S & F) HQ].
  rewrite E in *. cbn [fst snd] in *. rewrite (made_app (fresh s) s' new C) in HQ.
  assert (made s s' = new) as -> by exact (made_app s s' new C).
  split; [done|]. split; [exact S|]. split; [done|]. intros data ->. by apply HQ.
Qed.

(** C30.  A completion that [complete] returns is valid: it is the answer of one
    of the configured models, made during this call, with valid token counts,
    exactly one choice whose text is not blank, and no more completion tokens
    than the budget the caller asked for under one of its two keys (4096 when
    it asked for none), which is between 1 and 4096; the router only adds its
    own entry to it. *)
Theorem completion_valid messages options d s data d' s' :
  complete env R reserve_ settle_ messages options d s = (inr data, d', s') →
  (∃ budget, asked_budget options budget ∧ valid_output budget data (made s s')) ∧
  Forall (λ c, c.1 ∈ models R) (made s s').
Proof.
  intros H. apply complete_cases in H as (_ & [(_ & _ & _ & [? [=]])|(_ & [(? & ? & _ & _ & _ & [? [=]])|(r & l & _ & E & _)])]).
  destruct (whole_grows _ _ _ _ _ E) as (_ & _ & HF & HQ). by split; [apply HQ|].
Qed.

(** C29.  Accounting, whatever the outcome (a completion, any error, a
    cancellation): the inflight slot is returned; at most
    |models| * (max_retries + 1) calls reach the transport; a request refused
    at the desk makes none and leaves the ledger as the refusal left it; and an
    admitted one settles its reservation once, with the sum of the token totals
    of every answer the transport gave, rejected answers included. *)
Theorem complete_accounts messages options d s out d' s' :
  complete env R reserve_ settle_ messages options d s = (out, d', s') →
  slots d' = slots d ∧
  (length (made s s') ≤ length (models R) * S (max_retries R))%nat ∧
  (slots d <= 0 → ledger d' = ledger d ∧ made s s' = []) ∧
  (0 < slots d →
   match reserve_ (reservation_estimate messages options) (ledger d) with
   | (Ok r, l) => ledger d' = settle_ r (bill (made s s')) l
   | (Raise _, l) => ledger d' = l ∧ made s s' = []
   end).
Proof.
  intros H. apply complete_cases in H as (Hs & [(H0 & HL & -> & _)|(H0 & H)]).
  - rewrite made_none. split_and!; [done|simpl; lia|done|lia].
  - destruct H as [(e & l & E & HL & -> & _)|(r & l & E & Ew & HL)]; rewrite E.
    + rewrite made_none. split_and!; [done|simpl; lia|lia|done].
    + destruct (whole_grows _ _ _ _ _ Ew) as (Hl & HS & _). split_and!; [done|done|lia|].
      intros _. by rewrite <-HS.
Qed.

(** C39.  No probe is stranded: when no other thread interferes and no breaker
    has its probe out, none has after a call of [complete], whatever the
    transport did, cancellations included. *)
Theorem probes_released messages options d s out d' s' :
  (∀ n x, others env n x = x) → free (sh s) →
  complete env R reserve_ settle_ messages options d s = (out, d', s') → free (sh s').
Proof.
  intros Hq Hf H. apply complete_cases in H as (_ & [(_ & _ & -> & _)|(_ & [(? & ? & _ & _ & -> & _)|(r & l & _ & E & _)])]);
    [done..|].
  pose proof (keeps_free_whole env R Hq messages options (fresh s) Hf) as H. by rewrite E in H.
Qed.
End Properties.

(** *** The router over the process-local governor *)

Section Governed.
Context `{FR : FloatRepr} (env : environment) (R : Router).

(** Requests served one after the other, with what they billed beyond their
    estimates. *)
Fixpoint serve (requests : list (json * dict)) (d : desk SpendGovernor) (s : st) (over : Z) :
    desk SpendGovernor * st * Z :=
  match requests with
  | [] => (d, s, over)
  | (messages, options) :: rest =>
      let '(_, d', s') := complete env R reserve settle messages options d s in
      serve rest d' s'
        (over + Z.max 0 (Z.max 0 (bill (made s s')) - reservation_estimate messages options))
  end.

Definition idle_within (c over : Z) (g : SpendGovernor) : Prop :=
  ceiling g = Some c ∧ reserved g = 0 ∧ 0 <= over ∧ committed g <= c + over.

Lemma complete_idle c over messages options d s out d' s' :
  idle_within c over (ledger d) → complete env R reserve settle messages options d s = (out, d', s') →
  idle_within c (over + Z.max 0 (Z.max 0 (bill (made s s')) - reservation_estimate messages options)) (ledger d').
Proof.
  intros (Hc & Hr & Ho & Hb) H. apply complete_accounts in H as (_ & _ & H0 & H1).
  destruct (Z.le_gt_cases (slots d) 0) as [Hs|Hs].
  - destruct (H0 Hs) as [-> _]. unfold idle_within. split_and!; done || lia.
  - specialize (H1 Hs). set (est := reservation_estimate messages options) in *.
    unfold reserve in H1. destruct (Z.ltb_spec est 0).
    { destruct H1 as [-> _]. unfold idle_within. split_and!; done || lia. }
    rewrite Hc in H1. unfold over_ceiling in H1.
    destruct (Z.ltb_spec c (committed (ledger d) + reserved (ledger d) + est)).
    + destruct H1 as [-> _]. unfold idle_within. cbn. split_and!; done || lia.
    + rewrite H1. unfold idle_within, settle. cbn. split_and!; done || lia.
Qed.

Lemma serve_idle c over requests d s : idle_within c over (ledger d) →
  let '(d', _, over') := serve requests d s over in idle_within c over' (ledger d').
Proof.
  revert over d s. induction requests as [|[messages options] rest IH]; intros over d s Hi; cbn [serve]; [done|].
  destruct (complete env R reserve settle messages options d s) as [[out d'] s'] eqn:E.
  apply IH. exact (complete_idle _ _ _ _ _ _ _ _ _ Hi E).
Qed.

(** Spend of a router behind its governor: after any sequence of requests
    nothing stays reserved, and the committed tokens exceed the ceiling by no
    more than what the requests billed beyond their estimates. *)
Theorem governed_spend c g n requests s :
  new_governor (Some c) = Ok g →
  let '(d, _, over) := serve requests (Desk n g) s 0 in
  reserved (ledger d) = 0 ∧ committed (ledger d) <= c + over.
Proof.
  unfold new_governor. destruct (Z.ltb_spec c 1); [done|]. intros [= <-].
  pose proof (serve_idle c 0 requests
    (Desk n {| ceiling := Some c; reserved := 0; committed := 0; refused := 0 |}) s) as H1.
  destruct (serve _ _ _ _) as [[d s'] over]. destruct H1 as (_ & H1 & _ & H2); [|done].
  unfold idle_within. cbn. split_and!; done || lia.
Qed.
End Governed.

(** ** A concrete request: the first model answers 503, the second completes *)

Section Witnesses.
#[local] Existing Instance exact_float_repr.

Definition demo_completion : json :=
  JObj [("choices", JArr [JObj [("message", JObj [("content", JStr "hello")])]]);
        ("usage", JObj [("prompt_tokens", JInt 7); ("completion_tokens", JInt 3)])].

Definition unavailable : error :=
  {| err_class := ROUTER_ERROR; err_msg := "upstream HTTP 503"; err_status := Some 503;
     err_retry_after := f0; err_base := false |}.

Definition demo_env : environment :=
  {| clock := λ _, f1; lock_acquired := λ _, true; others := λ _ s, s; random := λ _, f0;
     transport := λ _ m _ _, if bool_decide (m = "a") then Raised unavailable else Returned demo_completion |}.

Definition demo_router : Router :=
  {| models := ["a"; "b"]; timeout := of_Z 10; max_retries := 1; probe_timeout := of_Z 5;
     total_timeout := of_Z 30; model_timeouts := [] |}.

Definition demo_start : st :=
  {| sh := {| breakers := ∅; cooldown_until := ∅; metrics := ∅ |}; spent := 0; trace := []; calls := [];
     n_clock := 0; n_try := 0; n_lock := 0; n_random := 0 |}.

Definition demo_messages : json := JArr [JObj [("role", JStr "user"); ("content", JStr "hi there")]].
Definition demo_governor : SpendGovernor :=
  {| ceiling := Some 10000; reserved := 0; committed := 0; refused := 0 |}.

Definition demo_outcome : (error + json) * desk SpendGovernor * st :=
  complete demo_env demo_router reserve settle demo_messages [] (Desk 4 demo_governor) demo_start.

Definition demo_data : json := match demo_outcome.1.1 with inr v => v | inl _ => JNull end.

Lemma demo_completes :
  complete demo_env demo_router reserve settle demo_messages [] (Desk 4 demo_governor) demo_start =
  (inr demo_data, demo_outcome.1.2, demo_outcome.2).
Proof. vm_compute. reflexivity. Qed.

Lemma demo_free : free (sh demo_start).
Proof. intros m. unfold breaker_of. cbn. by rewrite lookup_empty. Qed.

Lemma completion_valid_witness :
  ∃ budget, asked_budget [] budget ∧ valid_output budget demo_data (made demo_start demo_outcome.2).
Proof. apply (completion_valid _ _ _ _ _ _ _ _ _ _ _ demo_completes). Defined.

Lemma complete_accounts_witness :
  slots demo_outcome.1.2 = 4 ∧ (length (made demo_start demo_outcome.2) ≤ 4)%nat ∧
  committed (ledger demo_outcome.1.2) = 10.
Proof.
  destruct (complete_accounts _ _ _ _ _ _ _ _ _ _ _ demo_completes) as (H1 & H2 & _).
  split; [exact H1|]. split; [exact H2|vm_compute; reflexivity].
Defined.

Lemma probes_released_witness : free (sh demo_outcome.2).
Proof.
  apply (probes_released demo_env demo_router reserve settle demo_messages [] (Desk 4 demo_governor)
    demo_start (inr demo_data) demo_outcome.1.2); [reflexivity|exact demo_free|exact demo_completes].
Defined.

Lemma governed_spend_witness :
  let '(d, _, over) :=
    serve demo_env demo_router [(demo_messages, []); (demo_messages, [])] (Desk 4 demo_governor) demo_start 0 in
  reserved (ledger d) = 0 ∧ committed (ledger d) <= 10000 + over.
Proof. apply (governed_spend demo_env demo_router 10000 demo_governor 4). reflexivity. Defined.
End Witnesses.
