(* ===== verification/RouterConfig.v ===== *)
(** * The configuration of the model router

    The constructor of [MeliousModelRouter] of
    [kernel/sidecar/melious_router.py]: arguments, environment variables and
    their validation.  [float(raw)] on a string is an argument. *)

From S2P Require Import Prelude PyStr PyFloat PyDict Breaker Spend CompletionRouter.

Definition comma : ascii := ascii_of_N 44.
Definition equals : ascii := ascii_of_N 61.

Definition DEFAULT_MODELS : list string := ["glm-5.3"; "glm-5.3-flash"; "kimi-k3"; "qwen3.8-27b"].

(** The keyword arguments of the constructor. *)
Record arguments := {
  arg_models : list string; arg_timeout : f64; arg_max_retries : Z; arg_acquire_timeout : f64;
  arg_probe_timeout : option f64; arg_max_inflight : Z; arg_total_timeout : f64;
  arg_spend_ceiling : option Z }.

(** The environment variables, "" when unset. *)
Record variables := {
  MELIOUS_MODELS : string; MELIOUS_MODEL_TIMEOUTS : string; MELIOUS_TOKEN_CEILING : string;
  MELIOUS_SPEND_LEDGER : string }.

(** Which ledger the router opens. *)
Inductive spend_choice := Governor (g : SpendGovernor) | LedgerFile (path : string) (ceiling : option Z).

Section Config.
Context (float_of : string → option f64).

Definition env_models (v : variables) : list string :=
  List.filter truthy (map strip (split_char comma (MELIOUS_MODELS v))).

(** [tuple(models or env_models or self.DEFAULT_MODELS)] *)
Definition choose_models (a : arguments) (v : variables) : list string :=
  match arg_models a with
  | [] => match env_models v with [] => DEFAULT_MODELS | l => l end
  | l => l
  end.

Definition positive (x : f64) : bool := is_finite x && negb (fle x f0).

(** One [model=seconds] pair. *)
Definition parse_timeout (models : list string) (pair : string) (acc : list (string * f64)) :
    result (list (string * f64)) :=
  let pair := strip pair in
  if negb (truthy pair) then Ok acc else
  match partition_char equals pair with
  | None => raise ROUTER_ERROR "MELIOUS_MODEL_TIMEOUTS entry must be model=seconds"
  | Some (name, raw) =>
      let name := strip name in
      if negb (bool_decide (name ∈ models)) then raise ROUTER_ERROR "MELIOUS_MODEL_TIMEOUTS names unknown model" else
      match float_of raw with
      | None => raise ROUTER_ERROR "MELIOUS_MODEL_TIMEOUTS value must be a number"
      | Some value =>
          if negb (positive value) then raise ROUTER_ERROR "MELIOUS_MODEL_TIMEOUTS value must be finite and positive"
          else Ok (dict_set name value acc)
      end
  end.

Fixpoint parse_timeouts (models : list string) (pairs : list string) (acc : list (string * f64)) :
    result (list (string * f64)) :=
  match pairs with
  | [] => Ok acc
  | p :: ps => acc' ← parse_timeout models p acc; parse_timeouts models ps acc'
  end.

(** [str.isdigit]: also the superscripts one, two and three. *)
Definition is_numeral (c : ascii) : bool := is_digit c || bool_decide (code c ∈ [178; 179; 185]%N).

(** The ceiling of the arguments or of the environment. *)
Definition choose_ceiling (a : arguments) (v : variables) : result (option Z) :=
  match arg_spend_ceiling a with
  | Some c => Ok (Some c)
  | None =>
      let s := strip (MELIOUS_TOKEN_CEILING v) in
      if negb (truthy s) then Ok None
      else if forall_str is_digit s then Ok (Some (int_of_digits s))
      else if forall_str is_numeral s then raise "ValueError" "invalid literal for int()"
      else raise ROUTER_ERROR "MELIOUS_TOKEN_CEILING must be a positive integer"
  end.

Definition choose_spend (a : arguments) (v : variables) : result spend_choice :=
  c ← choose_ceiling a v;
  g ← new_governor c;
  let path := strip (MELIOUS_SPEND_LEDGER v) in
  Ok (if truthy path then LedgerFile path c else Governor g).

Definition new_router (a : arguments) (v : variables) : result (Router * Z * spend_choice) :=
  let models := choose_models a v in
  let probe := match arg_probe_timeout a with Some p => p | None => fmax f1 (fdiv (arg_timeout a) (of_Z 2)) end in
  _ ← ensure (0 <? arg_max_inflight a) ROUTER_ERROR "max_inflight must be a positive integer";
  _ ← ensure (forallb positive [arg_timeout a; arg_acquire_timeout a; probe; arg_total_timeout a])
        ROUTER_ERROR "timeouts must be finite and positive";
  timeouts ← (let s := strip (MELIOUS_MODEL_TIMEOUTS v) in
              if truthy s then parse_timeouts models (split_char comma s) [] else Ok []);
  spend ← choose_spend a v;
  Ok ({| models := models; timeout := arg_timeout a; max_retries := Z.to_nat (arg_max_retries a);
         probe_timeout := probe; total_timeout := arg_total_timeout a; model_timeouts := timeouts |},
      arg_max_inflight a, spend).

(** ** A configuration that is accepted *)

Lemma choose_models_nonempty a v : choose_models a v ≠ [].
Proof. unfold choose_models. destruct (arg_models a); [|done]. by destruct (env_models v). Qed.

Definition timeout_ok (ms : list string) (p : string * f64) : Prop := p.1 ∈ ms ∧ positive p.2 = true.

Lemma parse_timeout_ok ms p acc acc' :
  Forall (timeout_ok ms) acc → parse_timeout ms p acc = Ok acc' → Forall (timeout_ok ms) acc'.
Proof.
  intros Ha. unfold parse_timeout. destruct (truthy (strip p)); [|by intros [= <-]].
  cbn [negb]. destruct (partition_char _ _) as [[name raw]|]; [|done].
  destruct (bool_decide (strip name ∈ ms)) eqn:Hn; [|done]. destruct (float_of raw) as [value|]; [|done].
  destruct (positive value) eqn:Hp; [|done]. intros [= <-]. apply Forall_dict_set; [done|].
  split; [by bool_prop|done].
Qed.

Lemma parse_timeouts_ok ms ps acc acc' :
  Forall (timeout_ok ms) acc → parse_timeouts ms ps acc = Ok acc' → Forall (timeout_ok ms) acc'.
Proof.
  revert acc. induction ps as [|p ps IH]; intros acc Ha; cbn [parse_timeouts]; [by intros [= <-]|].
  intros (acc1 & H1 & H2)%bind_Ok. eapply IH; [|exact H2]. by eapply parse_timeout_ok.
Qed.

Definition spend_ceiling_of (s : spend_choice) : option Z :=
  match s with Governor g => ceiling g | LedgerFile _ c => c end.

Lemma choose_spend_ceiling a v s : choose_spend a v = Ok s →
  match spend_ceiling_of s with Some c => 1 <= c | None => True end.
Proof.
  unfold choose_spend. intros (c & _ & H)%bind_Ok. apply bind_Ok in H as (g & Hg & [= <-]).
  assert (match c with Some c => 1 <= c | None => True end ∧ ceiling g = c) as [Hc Hgc].
  { unfold new_governor in Hg. destruct c as [c|]; [|by injection Hg as <-].
    destruct (Z.ltb_spec c 1); [done|]. injection Hg as <-. done. }
  destruct (truthy _); cbn [spend_ceiling_of]; by rewrite ?Hgc.
Qed.

(** The constructor fails closed: a router it accepts has at least one
    model, an inflight limit of at least one, finite and positive deadlines,
    per-model deadlines that are finite and positive and only for its own
    models, and a token ceiling, if any, of at least one. *)
Theorem new_router_valid a v r inflight spend :
  new_router a v = Ok (r, inflight, spend) →
  models r ≠ [] ∧ 1 <= inflight ∧
  positive (timeout r) = true ∧ positive (probe_timeout r) = true ∧ positive (total_timeout r) = true ∧
  Forall (timeout_ok (models r)) (model_timeouts r) ∧
  match spend_ceiling_of spend with Some c => 1 <= c | None => True end.
Proof.
  unfold new_router. intros ([] & Hi & H)%bind_Ok. apply bind_Ok in H as ([] & Ht & H).
  apply bind_Ok in H as (ts & Hts & H). apply bind_Ok in H as (s & Hs & [= <- <- <-]).
  apply ensure_Ok in Hi, Ht. cbn [forallb] in Ht. bool_prop. cbn [models timeout probe_timeout total_timeout model_timeouts].
  split_and!; try done; [apply choose_models_nonempty|lia| |by eapply choose_spend_ceiling].
  destruct (truthy _); [|injection Hts as <-; constructor].
  by eapply parse_timeouts_ok; [|exact Hts].
Qed.
End Config.

(** ** A concrete configuration *)

Definition demo_arguments : arguments :=
  {| arg_models := []; arg_timeout := of_Z 10; arg_max_retries := 1; arg_acquire_timeout := of_Z 5;
     arg_probe_timeout := None; arg_max_inflight := 32; arg_total_timeout := of_Z 30; arg_spend_ceiling := None |}.

Definition demo_variables : variables :=
  {| MELIOUS_MODELS := " a, b ,"; MELIOUS_MODEL_TIMEOUTS := "a=1"; MELIOUS_TOKEN_CEILING := "5000";
     MELIOUS_SPEND_LEDGER := "" |}.

Definition one_second (s : string) : option f64 := if bool_decide (s = "1") then Some f1 else None.

Definition demo_configured : Router * Z * spend_choice :=
  match new_router one_second demo_arguments demo_variables with
  | Ok r => r
  | Raise _ => (demo_router, 0, LedgerFile "" None)
  end.

Lemma new_router_valid_witness :
  models demo_configured.1.1 = ["a"; "b"] ∧ 1 <= demo_configured.1.2 ∧
  spend_ceiling_of demo_configured.2 = Some 5000.
Proof.
  split; [vm_compute; reflexivity|]. split; [|vm_compute; reflexivity].
  destruct (new_router_valid one_second demo_arguments demo_variables demo_configured.1.1 demo_configured.1.2
    demo_configured.2) as (_ & H & _); [vm_compute; reflexivity|exact H].
Defined.
