(* ===== verification/TrackedChanges.v ===== *)
(** * Tracked changes: the OOXML writer and its read-back oracle

    [_python_docx_tracked_fallback] of
    [kairo-sidecar/sidecar/parsers/adeu_bridge.py] writes redline edits as
    [w:del] and [w:ins] elements, and [kairo/oracles/docx_tracked_changes.py]
    reads them back.  A document is the XML tree of its body, which both files
    build and walk by hand; [Paragraph.text] and [add_run] of python-docx are
    a class with their documented behaviour.  Shown here: the oracle accepts
    exactly the intended revisions; the writer implements replacement on plain
    paragraphs, so that rejecting restores the text as long as no paragraph is
    revised twice, and a second edit of a paragraph destroys the first. *)

From S2P Require Import Prelude PyStr PyDict.

(** ** XML *)

(** An element: its tag in Clark notation, attributes, text and children. *)
#[warnings="-register-all"]
Inductive xml := Elem (tag : string) (attrs : list (string * string)) (text : string) (children : list xml).

Definition x_tag (e : xml) : string := let '(Elem t _ _ _) := e in t.
Definition x_attrs (e : xml) : list (string * string) := let '(Elem _ a _ _) := e in a.
Definition x_text (e : xml) : string := let '(Elem _ _ s _) := e in s.
Definition x_children (e : xml) : list xml := let '(Elem _ _ _ c) := e in c.

Definition W_NS : string := "http://schemas.openxmlformats.org/wordprocessingml/2006/main".

(** [_q] and python-docx's [qn("w:...")] *)
Definition q (tag : string) : string := "{" +:+ W_NS +:+ "}" +:+ tag.

(** [_local] *)
Definition local (tag : string) : string :=
  match partition_char "}"%char tag with Some (_, name) => name | None => tag end.

(** [elem.iter()]: the element and its descendants in document order. *)
Fixpoint iter (e : xml) : list xml := e :: List.flat_map iter (x_children e).

Definition has_tag (tag : string) (e : xml) : bool := bool_decide (x_tag e = tag).

(** [re.sub(r"\s+", " ", s)] *)
Fixpoint squeeze (after_space : bool) (s : string) : string :=
  match s with
  | "" => ""
  | String c s' =>
      if is_space c then if after_space then squeeze true s' else String " " (squeeze true s')
      else String c (squeeze false s')
  end.

(** [_norm]; NFC is the identity on the code points of the model. *)
Definition norm (s : string) : string := strip (squeeze false s).

(** ** The read-back oracle *)

Inductive revision_kind := Ins | Del.
#[global] Instance revision_kind_eq_dec : EqDecision revision_kind.
Proof. solve_decision. Defined.

Record Revision := { kind : revision_kind; r_text : string; r_author : option string; r_date : option string }.

(** ["".join(t.text or "" for t in elem.iter(tag))] *)
Definition texts_of (tag : string) (e : xml) : string :=
  join "" (map x_text (List.filter (has_tag tag) (iter e))).

Definition revision_of (e : xml) : option Revision :=
  let rev k tag := Some {| kind := k; r_text := texts_of (q tag) e;
                           r_author := assoc (q "author") (x_attrs e);
                           r_date := assoc (q "date") (x_attrs e) |} in
  if bool_decide (local (x_tag e) = "ins") then rev Ins "t"
  else if bool_decide (local (x_tag e) = "del") then rev Del "delText"
  else None.

Definition extract_revisions (body : xml) : list Revision := omap revision_of (iter body).

(** The two streams [orig] and [fin] of [_walk]. *)
Definition both (a b : string * string) : string * string := (a.1 +:+ b.1, a.2 +:+ b.2).

(** One iteration of the loop of [_walk]. *)
Fixpoint walk_child (in_ins in_del : bool) (e : xml) : string * string :=
  let '(Elem tag _ text cs) := e in
  let walk i d := foldr (λ c acc, both (walk_child i d c) acc) ("", "") cs in
  let name := local tag in
  if bool_decide (name = "ins") then walk true in_del
  else if bool_decide (name = "del") then walk in_ins true
  else if bool_decide (name = "t")
  then (if in_ins || in_del then "" else text, if in_del then "" else text)
  else if bool_decide (name = "delText") then (text, "")
  else walk in_ins in_del.

Definition walk (cs : list xml) : string * string :=
  foldr (λ c acc, both (walk_child false false c) acc) ("", "") cs.

(** The texts [("".join(o), "".join(f))] of the paragraphs. *)
Definition paragraph_streams (body : xml) : list (string * string) :=
  map (λ p, walk (x_children p)) (List.filter (has_tag (q "p")) (iter body)).

Definition newline : string := String "010" "".

Definition reconstruct_original_and_final (body : xml) : string * string :=
  (norm (join newline (paragraph_streams body).*1), norm (join newline (paragraph_streams body).*2)).

Record change := { old : string; new : string; ch_author : option string }.

(** [s and s.strip()] *)
Definition nonblank (s : option string) : bool := truthy (strip (default "" s)).

(** [_match]: the pool without the revision found. *)
Fixpoint match_revision (require_author require_date : bool) (pool : list Revision) (want : string)
    (author : option string) : result (list Revision) :=
  match pool with
  | [] => raise "AssertionError" "expected tracked revision not found"
  | r :: pool' =>
      let next := rest ← match_revision require_author require_date pool' want author; Ok (r :: rest) in
      if negb (bool_decide (norm (r_text r) = norm want)) then next
      else if require_author && negb (nonblank (r_author r))
      then raise "AssertionError" "revision is missing a w:author attribute"
      else if match author with
              | Some a => negb (bool_decide (norm (default "" (r_author r)) = norm a))
              | None => false end then next
      else if require_date && negb (nonblank (r_date r))
      then raise "AssertionError" "revision is missing a w:date attribute"
      else Ok pool'
  end.

Definition is_kind (k : revision_kind) (r : Revision) : bool := bool_decide (kind r = k).

(** The loop over the expected changes, with the pools ([del_pool], [ins_pool]). *)
Fixpoint match_changes (require_author require_date : bool) (chs : list change)
    (pools : list Revision * list Revision) : result (list Revision * list Revision) :=
  match chs with
  | [] => Ok pools
  | ch :: chs' =>
      _ ← ensure (truthy (old ch) || truthy (new ch)) "AssertionError" "change specifies neither 'old' nor 'new'";
      del_pool ← (if truthy (old ch)
                  then match_revision require_author require_date pools.1 (old ch) (ch_author ch)
                  else Ok pools.1);
      ins_pool ← (if truthy (new ch)
                  then match_revision require_author require_date pools.2 (new ch) (ch_author ch)
                  else Ok pools.2);
      match_changes require_author require_date chs' (del_pool, ins_pool)
  end.

Definition verify_docx_tracked_changes (body : xml) (expected_changes : list change)
    (require_author require_date forbid_extra : bool) (original_text final_text : option string) : result bool :=
  _ ← ensure (negb (length expected_changes =? 0)%nat) "AssertionError"
        "expected_changes must be a non-empty list of changes";
  let revs := extract_revisions body in
  pools ← match_changes require_author require_date expected_changes
            (List.filter (is_kind Del) revs, List.filter (is_kind Ins) revs);
  _ ← ensure (negb (forbid_extra && negb ((length pools.1 =? 0)%nat && (length pools.2 =? 0)%nat)))
        "AssertionError" "unintended tracked revisions present";
  let '(recovered_original, recovered_final) := reconstruct_original_and_final body in
  _ ← ensure (match original_text with Some t => bool_decide (recovered_original = norm t) | None => true end)
        "AssertionError" "rejecting changes did not recover the original text";
  _ ← ensure (match final_text with Some t => bool_decide (recovered_final = norm t) | None => true end)
        "AssertionError" "accepting changes did not produce the expected final text";
  Ok true.

(** ** The writer *)

(** Printable text: what a run holds as it is, without tabs and breaks. *)
Definition plain_char (c : ascii) : bool := between 32 126 (code c) || between 160 255 (code c).
Definition plain (s : string) : bool := forall_str plain_char s.

(** A [w:r] that holds nothing but [w:t] leaves. *)
Definition text_leaf (e : xml) : bool :=
  has_tag (q "t") e && bool_decide (length (x_children e) = 0%nat).
Definition text_run (e : xml) : bool := has_tag (q "r") e && forallb text_leaf (x_children e).
Definition run_text (e : xml) : string := join "" (map x_text (x_children e)).

(** [Paragraph.text], its setter and [Paragraph.add_run] of python-docx on
    the children of a [w:p]: the text is that of its runs, assigning to it
    replaces all the content but the [w:pPr] by one run, and [add_run] appends
    a run. *)
Class ParagraphApi := {
  get_text : list xml → string;
  set_text : string → list xml → list xml;
  add_run : string → list xml → list xml;
  run_of : string → xml;
  get_text_app l1 l2 : get_text (l1 ++ l2) = get_text l1 +:+ get_text l2;
  get_text_run r : text_run r = true → plain (run_text r) = true → get_text [r] = run_text r;
  get_text_other e : x_tag e ∈ [q "pPr"; q "ins"; q "del"] → get_text [e] = "";
  set_text_spec s l : set_text s l = List.filter (has_tag (q "pPr")) l ++ [run_of s];
  add_run_spec s l : add_run s l = l ++ [run_of s];
  run_of_spec s : plain s = true → text_run (run_of s) = true ∧ run_text (run_of s) = s
}.

Record edit := { target_text : string; new_text : string }.

Section Writer.
Context `{ParagraphApi}.
Variables (author timestamp : string).

Definition revision_attrs (id : Z) : list (string * string) :=
  [(q "author", author); (q "date", timestamp); (q "id", pretty id)].

Definition del_element (id : Z) (s : string) : xml :=
  Elem (q "del") (revision_attrs id) "" [Elem (q "r") [] "" [Elem (q "delText") [] s []]].
Definition ins_element (id : Z) (s : string) : xml :=
  Elem (q "ins") (revision_attrs id) "" [Elem (q "r") [] "" [Elem (q "t") [] s []]].

(** The paragraph of one further line of the replacement. *)
Definition line_paragraph (n : Z) (idx : nat) (line : string) : xml :=
  Elem (q "p") [] "" [ins_element (n * 1000 + Z.of_nat idx) line].

(** The edit of a paragraph whose text contains [target]: the paragraph and
    the ones added after it. *)
Definition revise_paragraph (n : Z) (target new : string) (p : xml) : list xml :=
  let text := get_text (x_children p) in
  let start := default 0%nat (find target text) in
  let '(before, after) := (take_str start text, drop_str (start + String.length target) text) in
  let lines := split_char "010"%char new in
  let first := default "" (head lines) in
  let cs := set_text "" (x_children p) in
  let cs := if truthy before then add_run before cs else cs in
  let cs := cs ++ [del_element (n * 2) target] in
  let cs := if truthy first then cs ++ [ins_element (n * 2 + 1) first] else cs in
  let cs := if truthy after then add_run after cs else cs in
  Elem (x_tag p) (x_attrs p) (x_text p) cs :: imap (line_paragraph n) (tail lines).

(** [for p in doc.paragraphs: if target in p.text: ...; break] over the
    children of the body. *)
Fixpoint revise (n : Z) (target new : string) (body : list xml) : option (list xml) :=
  match body with
  | [] => None
  | p :: body' =>
      if has_tag (q "p") p && contains target (get_text (x_children p))
      then Some (revise_paragraph n target new p ++ body')
      else cons p <$> revise n target new body'
  end.

Definition write_edit (st : Z * list xml) (e : edit) : Z * list xml :=
  let target := strip (target_text e) in
  if truthy target then
    match revise st.1 target (new_text e) st.2 with Some body => (st.1 + 1, body) | None => st end
  else st.

(** [_python_docx_tracked_fallback]: [applied_count] and the saved body. *)
Definition write_edits (edits : list edit) (body : list xml) : Z * list xml :=
  fold_left write_edit edits (0, body).
End Writer.

(** ** What the oracle accepts *)

Definition wanted (f : change → string) (chs : list change) : list string :=
  map (λ ch, norm (f ch)) (List.filter (λ ch, truthy (f ch)) chs).

Definition norm_text (r : Revision) : string := norm (r_text r).
Definition signed_revision (r : Revision) : Prop := nonblank (r_author r) = true ∧ nonblank (r_date r) = true.

Lemma match_revision_spec ra rd pool want author rest :
  match_revision ra rd pool want author = Ok rest →
  ∃ r, pool ≡ₚ r :: rest ∧ norm_text r = norm want ∧
       (ra = true → nonblank (r_author r) = true) ∧ (rd = true → nonblank (r_date r) = true) ∧
       match author with Some a => norm (default "" (r_author r)) = norm a | None => True end.
Proof.
  assert (∀ (m : result (list Revision)) x out, (ys ← m; Ok (x :: ys)) = Ok out → ∃ ys, m = Ok ys ∧ out = x :: ys) as Hn.
  { intros m x out H. apply bind_Ok in H as (ys & -> & [= <-]). eauto. }
  revert rest. induction pool as [|x pool IH]; intros rest; cbn [match_revision]; [done|].
  assert (∀ m, m = match_revision ra rd pool want author → (ys ← m; Ok (x :: ys)) = Ok rest →
    ∃ r, x :: pool ≡ₚ r :: rest ∧ norm_text r = norm want ∧
       (ra = true → nonblank (r_author r) = true) ∧ (rd = true → nonblank (r_date r) = true) ∧
       match author with Some a => norm (default "" (r_author r)) = norm a | None => True end) as Hskip.
  { intros m -> H. apply Hn in H as (ys & H & ->). apply IH in H as (r & Hp & H). exists r. split; [|done].
    rewrite Hp. constructor. }
  destruct (bool_decide (norm (r_text x) = norm want)) eqn:E1; cbn [negb]; [|by apply Hskip].
  destruct (ra && negb (nonblank (r_author x))) eqn:E2; [done|].
  destruct (match author with Some a => _ | None => false end) eqn:E3; [by apply Hskip|].
  destruct (rd && negb (nonblank (r_date x))) eqn:E4; [done|]. intros [= <-].
  exists x. bool_prop. split_and!; [done|done|by intros ->; bool_prop; destruct (nonblank (r_author x))| |].
  - intros ->. by destruct (nonblank (r_date x)).
  - destruct author as [a|]; [by bool_prop|done].
Qed.

Lemma match_changes_spec chs pools rest :
  match_changes true true chs pools = Ok rest →
  ∃ dels inss, pools.1 ≡ₚ dels ++ rest.1 ∧ pools.2 ≡ₚ inss ++ rest.2 ∧
    map norm_text dels = wanted old chs ∧ map norm_text inss = wanted new chs ∧
    Forall signed_revision (dels ++ inss).
Proof.
  revert pools. induction chs as [|ch chs IH]; intros pools; cbn [match_changes].
  { intros [= <-]. exists [], []. by repeat split. }
  intros ([] & _ & H)%bind_Ok. apply bind_Ok in H as (dp & Hd & H). apply bind_Ok in H as (ip & Hi & H).
  apply IH in H as (dels & inss & Hp1 & Hp2 & Hm1 & Hm2 & Hs). cbn [fst snd] in *.
  unfold wanted in *. cbn [List.filter].
  assert (∃ ds, pools.1 ≡ₚ ds ++ dp ∧ map norm_text ds = (if truthy (old ch) then [norm (old ch)] else []) ∧
    Forall signed_revision ds) as (ds & Ed & Md & Sd).
  { destruct (truthy (old ch)).
    - apply match_revision_spec in Hd as (r & Hr & Hn & Ha & Hdt & _). exists [r].
      split; [done|]. split; [simpl; by rewrite Hn|]. repeat constructor; auto.
    - injection Hd as <-. by exists []. }
  assert (∃ js, pools.2 ≡ₚ js ++ ip ∧ map norm_text js = (if truthy (new ch) then [norm (new ch)] else []) ∧
    Forall signed_revision js) as (js & Ei & Mi & Si).
  { destruct (truthy (new ch)).
    - apply match_revision_spec in Hi as (r & Hr & Hn & Ha & Hdt & _). exists [r].
      split; [done|]. split; [simpl; by rewrite Hn|]. repeat constructor; auto.
    - injection Hi as <-. by exists []. }
  exists (ds ++ dels), (js ++ inss). rewrite Ed, Ei, Hp1, Hp2, <-!app_assoc, !map_app, Md, Mi, Hm1, Hm2.
  apply Forall_app in Hs as [Hs1 Hs2].
  split_and!; [done|done|by destruct (truthy (old ch))|by destruct (truthy (new ch))|].
  repeat (apply Forall_app; split); done.
Qed.

(** The read-back oracle accepts exactly the intended revisions: when it
    passes with extra revisions forbidden, the deletions of the document are,
    up to order and white space, the expected old texts, its insertions the
    expected new ones, and each carries an author and a date. *)
Theorem readback_exact body chs orig fin :
  verify_docx_tracked_changes body chs true true true orig fin = Ok true →
  map norm_text (List.filter (is_kind Del) (extract_revisions body)) ≡ₚ wanted old chs ∧
  map norm_text (List.filter (is_kind Ins) (extract_revisions body)) ≡ₚ wanted new chs ∧
  Forall signed_revision (extract_revisions body).
Proof.
  unfold verify_docx_tracked_changes. intros ([] & _ & H)%bind_Ok. apply bind_Ok in H as (pools & Hm & H).
  apply bind_Ok in H as ([] & He & _). apply ensure_Ok in He.
  apply match_changes_spec in Hm as (dels & inss & Hp1 & Hp2 & Hm1 & Hm2 & Hs). cbn [fst snd] in *.
  destruct pools as [[|] [|]]; try done. cbn in Hp1, Hp2. rewrite app_nil_r in Hp1, Hp2.
  split; [by rewrite Hp1, Hm1|]. split; [by rewrite Hp2, Hm2|].
  rewrite <-Hp1, <-Hp2 in Hs. apply Forall_app in Hs as [Hd Hi].
  apply Forall_forall. intros r Hr. rewrite Forall_forall in Hd, Hi.
  destruct (kind r) eqn:E; [apply Hi|apply Hd]; apply list_elem_of_In, filter_In; split; try by apply list_elem_of_In.
  - unfold is_kind. by rewrite E.
  - unfold is_kind. by rewrite E.
Qed.

(** ** What the writer means: paragraphs as text *)

(** A paragraph is plain, or holds one revision between two texts. *)
Inductive paragraph :=
| Plain (s : string)
| Revised (before deleted inserted after : string).

(** The text python-docx shows, and the texts after rejecting and accepting. *)
Definition visible (p : paragraph) : string :=
  match p with Plain s => s | Revised b _ _ a => b +:+ a end.
Definition rejected (p : paragraph) : string :=
  match p with Plain s => s | Revised b d _ a => b +:+ d +:+ a end.
Definition accepted (p : paragraph) : string :=
  match p with Plain s => s | Revised b _ i a => b +:+ i +:+ a end.
Definition is_plain (p : paragraph) : bool := match p with Plain _ => true | _ => false end.

(** Replacing the first occurrence of [target] in the visible text. *)
Definition abs_replace (target new : string) (p : paragraph) : paragraph :=
  let start := default 0%nat (find target (visible p)) in
  Revised (take_str start (visible p)) target new (drop_str (start + String.length target) (visible p)).

Fixpoint abs_revise (target new : string) (ps : list paragraph) : option (list paragraph) :=
  match ps with
  | [] => None
  | p :: ps' => if contains target (visible p) then Some (abs_replace target new p :: ps')
                else cons p <$> abs_revise target new ps'
  end.

Definition abs_edit (st : Z * list paragraph) (e : edit) : Z * list paragraph :=
  let target := strip (target_text e) in
  if truthy target then
    match abs_revise target (new_text e) st.2 with Some ps => (st.1 + 1, ps) | None => st end
  else st.

Definition abs_write (edits : list edit) (ps : list paragraph) : Z * list paragraph :=
  fold_left abs_edit edits (0, ps).

(** ** XML lemmas *)

Lemma join_nil_cons x l : join "" (x :: l) = x +:+ join "" l.
Proof. destruct l; simpl; [by rewrite app_nil_r_str|done]. Qed.

Lemma join_nil_app l k : join "" (l ++ k) = join "" l +:+ join "" k.
Proof.
  induction l as [|x l IH]; [done|]. cbn [app]. by rewrite !join_nil_cons, IH, app_assoc_str.
Qed.

Lemma local_q tag : local (q tag) = tag.
Proof. reflexivity. Qed.

Lemma q_inj a b : q a = q b → a = b.
Proof. intros H. apply (f_equal local) in H. by rewrite !local_q in H. Qed.

Lemma both_nil_r a : both a ("", "") = a.
Proof. destruct a. unfold both. simpl. by rewrite !app_nil_r_str. Qed.
Lemma both_nil_l a : both ("", "") a = a.
Proof. by destruct a. Qed.
Lemma both_assoc a b c : both a (both b c) = both (both a b) c.
Proof. unfold both. simpl. by rewrite !app_assoc_str. Qed.

Lemma walk_cons c l : walk (c :: l) = both (walk_child false false c) (walk l).
Proof. done. Qed.
Lemma walk_app l1 l2 : walk (l1 ++ l2) = both (walk l1) (walk l2).
Proof.
  induction l1 as [|c l1 IH]; [by rewrite app_nil_l, both_nil_l|]. cbn [app]. rewrite !walk_cons, IH. apply both_assoc.
Qed.

Section xml_ind.
Variable P : xml → Prop.
Hypothesis HE : ∀ tag attrs text cs, Forall P cs → P (Elem tag attrs text cs).

Fixpoint xml_ind' (e : xml) : P e :=
  match e with
  | Elem tag attrs text cs =>
      HE tag attrs text cs
        ((fix go l : Forall P l :=
            match l with [] => Forall_nil_2 _ | x :: l' => Forall_cons_2 _ _ _ (xml_ind' x) (go l') end) cs)
  end.
End xml_ind.

Lemma revisions_skip e l : revision_of e = None → omap revision_of (e :: l) = omap revision_of l.
Proof. intros H. csimpl. by rewrite H. Qed.

Lemma not_revision tag attrs text cs :
  local tag ≠ "ins" → local tag ≠ "del" → revision_of (Elem tag attrs text cs) = None.
Proof. intros H1 H2. unfold revision_of. cbn [x_tag]. by rewrite !bool_decide_false. Qed.

(** Elements without text, revisions or paragraphs, such as a [w:pPr]. *)
Definition inert (e : xml) : bool :=
  forallb (λ x, negb (bool_decide (local (x_tag x) ∈ ["ins"; "del"; "t"; "delText"; "p"]))) (iter e).

(** What an element contributes: its text streams, revisions and paragraphs. *)
Definition contributes (e : xml) (streams : string * string) (revs : list Revision) : Prop :=
  walk_child false false e = streams ∧ omap revision_of (iter e) = revs ∧
  List.filter (has_tag (q "p")) (iter e) = [].

Lemma inert_contributes e : inert e = true → contributes e ("", "") [].
Proof.
  unfold contributes. induction e as [tag attrs text cs IH] using xml_ind'. unfold inert. cbn [iter x_children forallb x_tag].
  rewrite andb_true_iff, negb_true_iff, bool_decide_eq_false. intros [Ht Hc].
  assert (∀ c, c ∈ cs → inert c = true) as Hi.
  { intros c Hin. unfold inert. apply forallb_forall. intros x Hx. rewrite forallb_forall in Hc. apply Hc.
    apply in_flat_map. exists c. split; [by apply list_elem_of_In|done]. }
  assert (local tag ≠ "ins" ∧ local tag ≠ "del" ∧ local tag ≠ "t" ∧ local tag ≠ "delText" ∧ local tag ≠ "p")
    as (H1 & H2 & H3 & H4 & H5) by (repeat split; intros E; rewrite E in Ht; set_solver).
  cbn [walk_child List.filter]. rewrite revisions_skip by by apply not_revision.
  rewrite !bool_decide_false by done.
  assert (has_tag (q "p") (Elem tag attrs text cs) = false) as ->.
  { unfold has_tag. cbn. apply bool_decide_eq_false. intros ->. by rewrite local_q in H5. }
  clear Ht Hc H1 H2 H3 H4 H5. induction cs as [|c cs IHl]; [done|]. apply Forall_cons in IH as [IHc IHcs].
  destruct (IHc (Hi c ltac:(left))) as (E1 & E2 & E3).
  destruct IHl as (F1 & F2 & F3); [done|intros; apply Hi; by right|].
  cbn [foldr List.flat_map]. by rewrite E1, F1, omap_app, E2, F2, List.filter_app, E3, F3.
Qed.

Lemma leaf_children e : text_leaf e = true → has_tag (q "t") e = true ∧ x_children e = [].
Proof. unfold text_leaf. intros [? Hl]%andb_true_iff. bool_prop. by destruct (x_children e). Qed.

(** A run of text leaves. *)
Lemma text_run_contributes r : text_run r = true → contributes r (run_text r, run_text r) [].
Proof.
  destruct r as [tag attrs text cs]. unfold text_run, contributes. cbn [has_tag x_tag x_children]. unfold has_tag at 1. cbn [x_tag].
  intros [Ht Hc]%andb_true_iff. bool_prop. subst tag. unfold run_text. cbn [walk_child x_children iter List.filter].
  rewrite revisions_skip by by apply not_revision. rewrite local_q, !bool_decide_false by done.
  assert (has_tag (q "p") (Elem (q "r") attrs text cs) = false) as -> by (unfold has_tag; by apply bool_decide_eq_false).
  induction cs as [|c cs IH]; [done|]. cbn [forallb] in Hc. apply andb_true_iff in Hc as [Hl Hc].
  destruct (IH Hc) as (F1 & F2 & F3). destruct c as [ct ca cx cc]. apply leaf_children in Hl as [Hl E]. cbn in E. subst cc.
  unfold has_tag in Hl. cbn [x_tag] in Hl. bool_prop. subst ct.
  cbn [foldr List.flat_map map]. rewrite join_nil_cons, F1, omap_app, F2, List.filter_app, F3.
  cbn [walk_child]. rewrite local_q, !bool_decide_false, bool_decide_true by done. split_and!; [done|done|].
  cbn. unfold has_tag. by rewrite bool_decide_false.
Qed.

(** ** Contributions of lists of elements *)

(** Decide the comparisons of local names. *)
Ltac tags :=
  repeat (rewrite local_q || rewrite bool_decide_false by done || rewrite bool_decide_true by done).

Definition contribute (cs : list xml) (streams : string * string) (revs : list Revision) : Prop :=
  walk cs = streams ∧ omap revision_of (List.flat_map iter cs) = revs ∧
  List.filter (has_tag (q "p")) (List.flat_map iter cs) = [].

Lemma contribute_one e st rv : contributes e st rv → contribute [e] st rv.
Proof.
  intros (H1 & H2 & H3). unfold contribute. rewrite walk_cons, H1, both_nil_r. cbn [List.flat_map].
  by rewrite app_nil_r.
Qed.

Lemma contribute_app l1 l2 st1 st2 rv1 rv2 :
  contribute l1 st1 rv1 → contribute l2 st2 rv2 → contribute (l1 ++ l2) (both st1 st2) (rv1 ++ rv2).
Proof.
  intros (H1 & H2 & H3) (K1 & K2 & K3). unfold contribute.
  by rewrite walk_app, H1, K1, flat_map_app, omap_app, H2, K2, List.filter_app, H3, K3.
Qed.

Lemma contribute_nil : contribute [] ("", "") [].
Proof. done. Qed.

(** The formatting element of a paragraph. *)
Definition formatting (e : xml) : Prop := has_tag (q "pPr") e = true ∧ inert e = true.

Definition runs_of (rs : list xml) (s : string) : Prop :=
  Forall (λ r, text_run r = true ∧ plain (run_text r) = true) rs ∧ join "" (map run_text rs) = s.

Lemma contribute_formatting pp : Forall formatting pp → contribute pp ("", "") [].
Proof.
  induction 1 as [|e pp [_ He] _ IH]; [apply contribute_nil|].
  apply (contribute_app [e] pp ("", "") ("", "") [] []); [|done]. by apply contribute_one, inert_contributes.
Qed.

Lemma runs_of_cons r rs s : runs_of (r :: rs) s →
  text_run r = true ∧ plain (run_text r) = true ∧ ∃ s', s = run_text r +:+ s' ∧ runs_of rs s'.
Proof.
  intros [[[Ht Hp] Hf]%Forall_cons <-]. cbn [map]. rewrite join_nil_cons. split; [done|]. split; [done|].
  by eexists.
Qed.

Lemma contribute_runs rs s : runs_of rs s → contribute rs (s, s) [].
Proof.
  revert s. induction rs as [|r rs IH]; intros s; [intros [_ <-]; apply contribute_nil|].
  intros (Ht & _ & s' & -> & H)%runs_of_cons.
  apply (contribute_app [r] rs (run_text r, run_text r) (s', s') [] []); [|by apply IH].
  by apply contribute_one, text_run_contributes.
Qed.

Section Refinement.
Context `{PA : ParagraphApi}.
Variables (author timestamp : string).

Definition revision (k : revision_kind) (s : string) : Revision :=
  {| kind := k; r_text := s; r_author := Some author; r_date := Some timestamp |}.

Definition revisions_of (p : paragraph) : list Revision :=
  match p with
  | Plain _ => []
  | Revised _ d i _ => revision Del d :: (if truthy i then [revision Ins i] else [])
  end.

Abbreviation del := (del_element author timestamp).
Abbreviation ins := (ins_element author timestamp).

(** The children of a paragraph of the document that holds [p]. *)
Definition content (cs : list xml) (p : paragraph) : Prop :=
  match p with
  | Plain s => ∃ pp rs, cs = pp ++ rs ∧ Forall formatting pp ∧ runs_of rs s
  | Revised b d i a => ∃ pp rb ra id1 id2,
      cs = pp ++ rb ++ del id1 d :: (if truthy i then [ins id2 i] else []) ++ ra ∧
      Forall formatting pp ∧ runs_of rb b ∧ runs_of ra a
  end.

Definition represents (e : xml) (p : paragraph) : Prop :=
  has_tag (q "p") e = true ∧ content (x_children e) p.

Lemma contribute_del id s : contribute [del id s] (s, "") [revision Del s].
Proof.
  apply contribute_one. unfold contributes, del_element, revision. split; [|split; [|reflexivity]].
  - cbn [walk_child foldr]. tags. by rewrite !both_nil_r.
  - cbn [iter List.flat_map x_children app]. unfold revision_of. csimpl.
    tags. csimpl.
    unfold texts_of. cbn. by rewrite ?app_nil_r_str.
Qed.

Lemma contribute_ins id s : contribute [ins id s] ("", s) [revision Ins s].
Proof.
  apply contribute_one. unfold contributes, ins_element, revision. split; [|split; [|reflexivity]].
  - cbn [walk_child foldr]. tags. by rewrite !both_nil_r.
  - cbn [iter List.flat_map x_children app]. unfold revision_of. csimpl.
    tags. csimpl.
    unfold texts_of. cbn. by rewrite ?app_nil_r_str.
Qed.

Lemma contribute_inserted id i :
  contribute (if truthy i then [ins id i] else []) ("", i) (if truthy i then [revision Ins i] else []).
Proof.
  destruct (truthy i) eqn:E; [apply contribute_ins|]. unfold truthy in E. bool_prop. subst i. apply contribute_nil.
Qed.

(** What the read-back sees of a represented paragraph. *)
Lemma content_contributes cs p : content cs p → contribute cs (rejected p, accepted p) (revisions_of p).
Proof.
  destruct p as [s|b d i a].
  - intros (pp & rs & -> & Hp & Hr).
    exact (contribute_app _ _ _ _ _ _ (contribute_formatting _ Hp) (contribute_runs _ _ Hr)).
  - intros (pp & rb & ra & id1 & id2 & -> & Hp & Hb & Ha).
    pose proof (contribute_app _ _ _ _ _ _ (contribute_formatting _ Hp)
      (contribute_app _ _ _ _ _ _ (contribute_runs _ _ Hb)
        (contribute_app _ _ _ _ _ _ (contribute_del id1 d)
          (contribute_app _ _ _ _ _ _ (contribute_inserted id2 i) (contribute_runs _ _ Ha))))) as H.
    cbn [app] in H. rewrite app_nil_r in H. exact H.
Qed.

Lemma get_text_nil : get_text [] = "".
Proof.
  pose proof (get_text_app [] []) as H. cbn [app] in H. apply (f_equal String.length) in H.
  rewrite length_app_str in H. destruct (get_text []); [done|]. simpl in H. lia.
Qed.

Lemma get_text_formatting pp : Forall formatting pp → get_text pp = "".
Proof.
  induction 1 as [|e pp [Ht _] _ IH]; [apply get_text_nil|].
  change (e :: pp) with ([e] ++ pp). rewrite get_text_app, IH, app_nil_r_str. apply get_text_other.
  unfold has_tag in Ht. bool_prop. rewrite Ht. left.
Qed.

Lemma get_text_runs rs s : runs_of rs s → get_text rs = s.
Proof.
  revert s. induction rs as [|r rs IH]; intros s; [intros [_ <-]; apply get_text_nil|].
  intros (Ht & Hp & s' & -> & H)%runs_of_cons. change (r :: rs) with ([r] ++ rs).
  by rewrite get_text_app, get_text_run, (IH _ H).
Qed.

Lemma get_text_inserted id i : get_text (if truthy i then [ins id i] else []) = "".
Proof. destruct (truthy i); [|apply get_text_nil]. apply get_text_other. right. left. Qed.

Lemma content_text cs p : content cs p → get_text cs = visible p.
Proof.
  destruct p as [s|b d i a].
  - intros (pp & rs & -> & Hp & Hr). by rewrite get_text_app, get_text_formatting, (get_text_runs _ _ Hr).
  - intros (pp & rb & ra & id1 & id2 & -> & Hp & Hb & Ha).
    change (del id1 d :: ?l ++ ra) with ([del id1 d] ++ l ++ ra).
    rewrite !get_text_app, get_text_formatting, get_text_inserted, (get_text_runs _ _ Hb), (get_text_runs _ _ Ha) by done.
    rewrite (get_text_other (del id1 d)) by (do 2 right; left). done.
Qed.

Lemma runs_plain rs s : runs_of rs s → plain s = true.
Proof.
  revert s. induction rs as [|r rs IH]; intros s; [by intros [_ <-]|].
  intros (_ & Hp & s' & -> & H)%runs_of_cons. unfold plain in *. by rewrite forall_str_app, Hp, (IH _ H).
Qed.

Lemma content_plain cs p : content cs p → plain (visible p) = true.
Proof.
  destruct p; simpl.
  - intros (pp & rs & -> & _ & H). by eapply runs_plain.
  - intros (pp & rb & ra & id1 & id2 & -> & _ & Hb & Ha). unfold plain. rewrite forall_str_app.
    apply runs_plain in Hb, Ha. unfold plain in *. by rewrite Hb, Ha.
Qed.

Lemma runs_of_one s : plain s = true → runs_of [run_of s] s.
Proof.
  intros H. destruct (run_of_spec s H) as [H1 H2]. split; [repeat constructor; by rewrite ?H2|].
  cbn [map]. by rewrite join_nil_cons, H2, app_nil_r_str.
Qed.

(** The content a paragraph keeps when its text is replaced. *)
Lemma filter_formatting pp : Forall formatting pp → List.filter (has_tag (q "pPr")) pp = pp.
Proof. induction 1 as [|e pp [He _] _ IH]; [done|]. cbn [List.filter]. by rewrite He, IH. Qed.

Lemma filter_runs rs s : runs_of rs s → List.filter (has_tag (q "pPr")) rs = [].
Proof.
  revert s. induction rs as [|r rs IH]; intros s; [done|].
  intros (Ht & _ & s' & _ & H)%runs_of_cons. cbn [List.filter].
  apply andb_true_iff in Ht as [Ht _]. unfold has_tag in *. bool_prop. rewrite Ht, bool_decide_false by done. by eapply IH.
Qed.

Lemma content_formatting cs p : content cs p →
  ∃ pp, Forall formatting pp ∧ List.filter (has_tag (q "pPr")) cs = pp.
Proof.
  destruct p as [s|b d i a].
  - intros (pp & rs & -> & Hp & Hr). exists pp. split; [done|].
    by rewrite List.filter_app, filter_formatting, (filter_runs _ _ Hr), app_nil_r.
  - intros (pp & rb & ra & id1 & id2 & -> & Hp & Hb & Ha). exists pp. split; [done|].
    change (del id1 d :: ?l ++ ra) with ([del id1 d] ++ l ++ ra).
    rewrite !List.filter_app, filter_formatting, (filter_runs _ _ Hb), (filter_runs _ _ Ha) by done.
    destruct (truthy i); by rewrite app_nil_r.
Qed.

(** *** One edit *)

Definition single_line (s : string) : bool := forall_str (λ c, negb (bool_decide (c = "010"%char))) s.

Lemma runs_of_snoc rs s t : runs_of rs s → plain t = true →
  runs_of (rs ++ (if truthy t then [run_of t] else [])) (s +:+ t).
Proof.
  intros [Hf <-] Ht. destruct (truthy t) eqn:E.
  - destruct (runs_of_one t Ht) as [H1 H2]. split; [by apply Forall_app|].
    by rewrite map_app, join_nil_app, H2.
  - unfold truthy in E. bool_prop. subst t. by rewrite app_nil_r, app_nil_r_str.
Qed.

Lemma runs_of_nil : runs_of [] "".
Proof. done. Qed.

Lemma add_run_if s l : (if truthy s then add_run s l else l) = l ++ (if truthy s then [run_of s] else []).
Proof. destruct (truthy s); [apply add_run_spec|by rewrite app_nil_r]. Qed.

Lemma revise_paragraph_spec n target new e p :
  represents e p → single_line new = true →
  ∃ e', revise_paragraph author timestamp n target new e = [e'] ∧ represents e' (abs_replace target new p).
Proof.
  intros [Ht Hc] Hn. unfold revise_paragraph. rewrite (content_text _ _ Hc), (split_char_absent _ _ Hn).
  cbn [head tail imap default from_option Datatypes.id]. eexists. split; [reflexivity|].
  split; [exact Ht|]. cbn [x_children]. destruct (content_formatting _ _ Hc) as (pp & Hp & Hf).
  unfold abs_replace. cbv zeta. set (start := default 0%nat (find target (visible p))).
  set (b := take_str start (visible p)). set (a := drop_str (start + String.length target) (visible p)).
  assert (plain b = true ∧ plain a = true) as [Hb Ha].
  { apply content_plain in Hc. by split; [apply (forall_str_take plain_char)|apply (forall_str_drop plain_char)]. }
  rewrite !add_run_if, set_text_spec, Hf. cbn [content].
  exists pp, ([run_of ""] ++ (if truthy b then [run_of b] else [])), (if truthy a then [run_of a] else []), (n * 2), (n * 2 + 1).
  split; [|split; [done|split]].
  - destruct (truthy new); cbn [app]; by rewrite <-!app_assoc.
  - exact (runs_of_snoc _ "" b (runs_of_one "" eq_refl) Hb).
  - exact (runs_of_snoc _ "" a runs_of_nil Ha).
Qed.

(** The body: paragraphs, and elements that hold no text such as [w:sectPr]. *)
Inductive document : list xml → list paragraph → Prop :=
| doc_nil : document [] []
| doc_paragraph e body p ps : represents e p → document body ps → document (e :: body) (p :: ps)
| doc_other e body ps : has_tag (q "p") e = false → inert e = true → document body ps → document (e :: body) ps.

Lemma revise_spec n target new body ps :
  document body ps → single_line new = true →
  match revise author timestamp n target new body, abs_revise target new ps with
  | Some body', Some ps' => document body' ps'
  | None, None => True
  | _, _ => False
  end.
Proof.
  intros Hd Hn. induction Hd as [|e body p ps Hr Hd IH|e body ps Ht Hi Hd IH]; cbn [revise abs_revise]; [done|..].
  - pose proof Hr as [Ht Hc]. rewrite Ht, (content_text _ _ Hc). cbn [andb].
    destruct (contains target (visible p)).
    + destruct (revise_paragraph_spec n target new e p Hr Hn) as (e' & -> & Hr'). by constructor.
    + destruct (revise _ _ _ _ _ body), (abs_revise target new ps); cbn; try done. by constructor.
  - rewrite Ht. cbn [andb]. destruct (revise _ _ _ _ _ body), (abs_revise target new ps); cbn; try done. by constructor.
Qed.

(** The writer implements replacement on paragraphs. *)
Lemma write_edits_spec edits body ps n :
  document body ps → forallb (λ e, single_line (new_text e)) edits = true →
  let r := fold_left (write_edit author timestamp) edits (n, body) in
  let s := fold_left abs_edit edits (n, ps) in
  r.1 = s.1 ∧ document r.2 s.2.
Proof.
  revert body ps n. induction edits as [|e edits IH]; intros body ps n Hd; cbn [fold_left forallb]; [done|].
  intros [He Hs]%andb_true_iff.
  assert ((write_edit author timestamp (n, body) e).1 = (abs_edit (n, ps) e).1 ∧
          document (write_edit author timestamp (n, body) e).2 (abs_edit (n, ps) e).2) as [H1 H2].
  { unfold write_edit, abs_edit. cbn [fst snd]. destruct (truthy _); [|done].
    pose proof (revise_spec n (strip (target_text e)) _ _ _ Hd He) as H.
    destruct (revise _ _ _ _ _ body), (abs_revise _ _ ps); done. }
  destruct (write_edit _ _ _ _) as [m b'], (abs_edit _ _) as [m' ps']. cbn [fst snd] in *. subst m'. by apply IH.
Qed.

Lemma document_contributes body ps : document body ps →
  List.filter (has_tag (q "p")) (List.flat_map iter body) = List.filter (has_tag (q "p")) body ∧
  map (λ p, walk (x_children p)) (List.filter (has_tag (q "p")) body) = map (λ p, (rejected p, accepted p)) ps ∧
  omap revision_of (List.flat_map iter body) = List.flat_map revisions_of ps.
Proof.
  induction 1 as [|e body p ps [Ht Hc] Hd (H1 & H2 & H3)|e body ps Ht Hi Hd (H1 & H2 & H3)]; [done|..].
  - destruct (content_contributes _ _ Hc) as (K1 & K2 & K3). destruct e as [tag attrs text cs].
    cbn [x_children] in *. cbn [List.flat_map iter x_children app List.filter map]. rewrite Ht.
    rewrite List.filter_app, H1, K3. cbn [map x_children app]. rewrite K1, H2. split_and!; [done|done|].
    rewrite revisions_skip; [by rewrite omap_app, K2, H3|].
    unfold has_tag in Ht. cbn in Ht. bool_prop. subst tag. by apply not_revision.
  - destruct (inert_contributes e Hi) as (_ & K2 & K3). cbn [List.flat_map List.filter]. rewrite Ht.
    by rewrite List.filter_app, omap_app, K2, K3, H1, H2, H3.
Qed.

(** What the oracle reads from a document. *)
Lemma document_readback attrs text body ps : document body ps →
  let doc := Elem (q "body") attrs text body in
  paragraph_streams doc = map (λ p, (rejected p, accepted p)) ps ∧
  extract_revisions doc = List.flat_map revisions_of ps.
Proof.
  intros (H1 & H2 & H3)%document_contributes. unfold paragraph_streams, extract_revisions.
  cbn [iter x_children List.filter]. split.
  - unfold has_tag at 1. cbn [x_tag]. rewrite bool_decide_false by done. by rewrite H1, H2.
  - rewrite revisions_skip by by apply not_revision. exact H3.
Qed.
End Refinement.

(** ** Edits that do not share a paragraph *)

(** The edit lands in a paragraph that has not been revised (or nowhere). *)
Fixpoint lands_plain (target : string) (ps : list paragraph) : bool :=
  match ps with
  | [] => true
  | p :: ps' => if contains target (visible p) then is_plain p else lands_plain target ps'
  end.

Fixpoint once (edits : list edit) (ps : list paragraph) : bool :=
  match edits with
  | [] => true
  | e :: edits' =>
      (negb (truthy (strip (target_text e))) || lands_plain (strip (target_text e)) ps)
      && once edits' (abs_edit (0, ps) e).2
  end.

Lemma abs_edit_count n ps e :
  abs_edit (n, ps) e = (n + (abs_edit (0, ps) e).1, (abs_edit (0, ps) e).2).
Proof.
  unfold abs_edit. cbn [fst snd]. destruct (truthy _); [|by rewrite Z.add_0_r].
  destruct (abs_revise _ _ _); cbn; f_equal; lia.
Qed.

Lemma replace_rejected target new s :
  contains target s = true → rejected (abs_replace target new (Plain s)) = s.
Proof.
  unfold contains, abs_replace. cbn [visible rejected]. destruct (find target s) as [n|] eqn:E; [|done].
  intros _. cbn. symmetry. by apply find_split.
Qed.

(** The revisions of a list of paragraphs, as (deleted, inserted). *)
Definition revised (ps : list paragraph) : list (string * string) :=
  omap (λ p, match p with Plain _ => None | Revised _ d i _ => Some (d, i) end) ps.

Lemma abs_revise_plain target new ps ps' :
  lands_plain target ps = true → abs_revise target new ps = Some ps' →
  map rejected ps' = map rejected ps ∧ revised ps' ≡ₚ (target, new) :: revised ps.
Proof.
  revert ps'. induction ps as [|p ps IH]; intros ps'; cbn [lands_plain abs_revise]; [done|].
  destruct (contains target (visible p)) eqn:E.
  - destruct p as [s|]; [|done]. intros _ [= <-]. cbn [map]. by rewrite replace_rejected.
  - intros Hl. rewrite fmap_Some. intros (qs & Hq & ->). destruct (IH _ Hl Hq) as [H1 H2].
    split; [cbn [map]; by rewrite H1|]. unfold revised in *. csimpl. destruct p; [done|].
    rewrite H2. constructor.
Qed.

(** The pair a change of the oracle and an edit of the writer agree on. *)
Definition edit_pair (e : edit) : string * string := (strip (target_text e), new_text e).

Lemma abs_write_once edits ps n :
  once edits ps = true →
  let s := fold_left abs_edit edits (n, ps) in
  map rejected s.2 = map rejected ps ∧ n <= s.1 <= n + Z.of_nat (length edits) ∧
  (s.1 = n + Z.of_nat (length edits) → revised s.2 ≡ₚ map edit_pair edits ++ revised ps).
Proof.
  revert ps n. induction edits as [|e edits IH]; intros ps n; cbn [once fold_left length]; [intros _; cbn; split_and!; (done || lia)|].
  intros [Hl Ho]%andb_true_iff. rewrite abs_edit_count. cbv zeta.
  destruct (IH _ (n + (abs_edit (0, ps) e).1) Ho) as (H1 & H2 & H3). rewrite H1.
  assert (map rejected (abs_edit (0, ps) e).2 = map rejected ps ∧ 0 <= (abs_edit (0, ps) e).1 <= 1 ∧
    ((abs_edit (0, ps) e).1 = 1 → revised (abs_edit (0, ps) e).2 ≡ₚ edit_pair e :: revised ps)) as (K1 & K2 & K3).
  { unfold abs_edit. cbn [fst snd]. destruct (truthy _); [|done]. cbn [negb orb] in Hl.
    destruct (abs_revise _ _ ps) as [ps'|] eqn:E; [|done]. destruct (abs_revise_plain _ _ _ _ Hl E) as [? ?].
    split_and!; done || lia. }
  split; [by rewrite K1|]. split; [lia|]. intros Hn. rewrite H3, K3 by lia. cbn [map app].
  symmetry. apply Permutation_middle.
Qed.

(** ** The properties of the writer *)

Section Properties.
Context `{PA : ParagraphApi}.
Variables (author timestamp : string).

(** The document of the given paragraphs. *)
Definition plain_document (body : list xml) (ts : list string) : Prop :=
  document author timestamp body (map Plain ts).

Lemma fst_pairs {A B C} (f : A → B) (g : A → C) l : (map (λ x, (f x, g x)) l).*1 = map f l.
Proof. induction l as [|x l IH]; [done|]. exact (f_equal (cons _) IH). Qed.
Lemma snd_pairs {A B C} (f : A → B) (g : A → C) l : (map (λ x, (f x, g x)) l).*2 = map g l.
Proof. induction l as [|x l IH]; [done|]. exact (f_equal (cons _) IH). Qed.

Lemma rejected_plain ts : map rejected (map Plain ts) = ts.
Proof. rewrite map_map. apply map_id. Qed.
Lemma revised_plain ts : revised (map Plain ts) = [].
Proof. by induction ts. Qed.

(** C21.  The writer is reversible.  On a document of plain paragraphs, with
    replacements of one line: what the read-back reconstructs is what replacing
    the first occurrence in the visible text gives, paragraph by paragraph; and
    when no edit lands in a paragraph that an earlier one revised, rejecting
    the changes restores the text of every paragraph. *)
Theorem tracked_reversible attrs text body ts edits :
  plain_document body ts → forallb (λ e, single_line (new_text e)) edits = true →
  let '(n, body') := write_edits author timestamp edits body in
  let '(m, ps) := abs_write edits (map Plain ts) in
  n = m ∧ (paragraph_streams (Elem (q "body") attrs text body')).*1 = map rejected ps ∧
  (paragraph_streams (Elem (q "body") attrs text body')).*2 = map accepted ps ∧
  (once edits (map Plain ts) = true → map rejected ps = ts).
Proof.
  intros Hd Hs. pose proof (write_edits_spec author timestamp edits body _ 0 Hd Hs) as [H1 H2].
  pose proof (abs_write_once edits (map Plain ts) 0) as H3. unfold write_edits, abs_write.
  destruct (fold_left (write_edit _ _) _ _) as [n body'], (fold_left abs_edit _ _) as [m ps]. cbn [fst snd] in *.
  destruct (document_readback _ _ attrs text _ _ H2) as [-> _].
  split_and!; [done|apply fst_pairs|apply snd_pairs|].
  intros Ho. destruct (H3 Ho) as [-> _]. apply rejected_plain.
Qed.

Lemma match_revision_complete pool want :
  truthy (strip author) = true → truthy (strip timestamp) = true →
  Forall (λ r, ∃ k s, r = revision author timestamp k s) pool →
  norm want ∈ map norm_text pool →
  ∃ rest, match_revision true true pool want (Some author) = Ok rest.
Proof.
  intros Ha Ht Hu. induction Hu as [|r pool (k & s & ->) _ IH]; [by intros ?%not_elem_of_nil|].
  cbn [map match_revision]. intros Hin. case_bool_decide as E; cbn [negb andb].
  - unfold nonblank. cbn [r_author r_date revision default from_option Datatypes.id].
    rewrite Ha, Ht, bool_decide_true by done. cbn [negb]. eauto.
  - apply elem_of_cons in Hin as [Hin|Hin]; [by destruct E|].
    destruct (IH Hin) as [rest ->]. cbn. eauto.
Qed.

Definition uniform (pool : list Revision) : Prop := Forall (λ r, ∃ k s, r = revision author timestamp k s) pool.

(** The change the transaction expects for an edit. *)
Definition change_of (e : edit) : change :=
  {| old := strip (target_text e); new := new_text e; ch_author := Some author |}.

Lemma match_one_complete pool (want : string) k :
  truthy (strip author) = true → truthy (strip timestamp) = true → uniform pool →
  map norm_text pool ≡ₚ (if truthy want then [norm want] else []) ++ k →
  ∃ rest, (if truthy want then match_revision true true pool want (Some author) else Ok pool) = Ok rest ∧
    uniform rest ∧ map norm_text rest ≡ₚ k.
Proof.
  intros Ha Ht Hu Hp. destruct (truthy want); [|by exists pool].
  destruct (match_revision_complete pool want Ha Ht Hu) as [rest Hr]; [rewrite Hp; left|].
  exists rest. split; [done|]. apply match_revision_spec in Hr as (r & Hpr & Hn & _). unfold uniform in *.
  rewrite Hpr in Hu. apply Forall_cons in Hu as [_ Hu]. split; [done|].
  rewrite Hpr in Hp. cbn [map app] in Hp. rewrite Hn in Hp. by apply Permutation.Permutation_cons_inv in Hp.
Qed.

Lemma match_changes_complete edits pools :
  truthy (strip author) = true → truthy (strip timestamp) = true →
  forallb (λ e, truthy (strip (target_text e))) edits = true →
  uniform pools.1 → uniform pools.2 →
  map norm_text pools.1 ≡ₚ wanted old (map change_of edits) →
  map norm_text pools.2 ≡ₚ wanted new (map change_of edits) →
  match_changes true true (map change_of edits) pools = Ok ([], []).
Proof.
  intros Ha Ht. revert pools. induction edits as [|e edits IH]; intros [dp ip]; cbn [fst snd map match_changes].
  - intros _ _ _ Hd Hi. symmetry in Hd, Hi. apply Permutation_nil_l in Hd, Hi.
    by destruct dp, ip.
  - cbn [forallb]. intros [He Hs]%andb_true_iff Hud Hui Hd Hi. unfold wanted in Hd, Hi. cbn [List.filter] in Hd, Hi.
    destruct (match_one_complete dp (strip (target_text e)) (wanted old (map change_of edits)) Ha Ht Hud) as (dp' & E1 & U1 & P1).
    { rewrite Hd. cbn [old change_of]. by destruct (truthy (strip (target_text e))). }
    destruct (match_one_complete ip (new_text e) (wanted new (map change_of edits)) Ha Ht Hui) as (ip' & E2 & U2 & P2).
    { rewrite Hi. cbn [new change_of]. by destruct (truthy (new_text e)). }
    cbn [old new ch_author change_of]. rewrite He in *. cbn [orb]. unfold ensure. cbn [mbind result_bind].
    rewrite E1. cbn [mbind result_bind]. rewrite E2. cbn [mbind result_bind]. by apply IH.
Qed.

(** The deletions and insertions of written paragraphs. *)
Lemma revisions_of_kinds ps :
  List.filter (is_kind Del) (List.flat_map (revisions_of author timestamp) ps) =
    map (λ p, revision author timestamp Del p.1) (revised ps) ∧
  List.filter (is_kind Ins) (List.flat_map (revisions_of author timestamp) ps) =
    map (λ p, revision author timestamp Ins p.2) (List.filter (λ p, truthy p.2) (revised ps)).
Proof.
  unfold revised. induction ps as [|[s|b d i a] ps [IH1 IH2]]; [done|done|]. csimpl.
  cbn [List.flat_map revisions_of]. rewrite !List.filter_app, IH1, IH2.
  cbn [List.filter]. by destruct (truthy i).
Qed.

Lemma uniform_revisions ps : uniform (List.flat_map (revisions_of author timestamp) ps).
Proof.
  induction ps as [|[s|b d i a] ps IH]; [constructor|done|]. cbn [List.flat_map revisions_of].
  constructor; [eauto|]. destruct (truthy i); [constructor; eauto|done].
Qed.

Lemma uniform_filter p l : uniform l → uniform (List.filter p l).
Proof. intros H. induction H as [|r l Hr _ IH]; cbn; [constructor|]. destruct (p r); [by constructor|done]. Qed.

Lemma wanted_perm (f : string * string → string) (g : change → string) k edits l :
  (∀ e, g (change_of e) = f (edit_pair e)) → l ≡ₚ map edit_pair edits →
  map norm_text (map (λ p, revision author timestamp k (f p)) (List.filter (λ p, truthy (f p)) l)) ≡ₚ
  wanted g (map change_of edits).
Proof.
  intros Hg Hl. unfold wanted.
  assert (List.filter (λ p, truthy (f p)) l ≡ₚ List.filter (λ p, truthy (f p)) (map edit_pair edits)) as Hf.
  { clear Hg. induction Hl as [|x l l' _ IH|x y l|]; cbn; [done|..].
    - destruct (truthy (f x)); by rewrite IH.
    - destruct (truthy (f x)), (truthy (f y)); try done. constructor.
    - etrans; eassumption. }
  rewrite Hf. clear Hf Hl. induction edits as [|e edits IH]; [done|]. cbn [map List.filter].
  rewrite Hg. destruct (truthy _); [|done]. cbn [map]. by rewrite IH, Hg.
Qed.

(** What the writer writes the oracle accepts: when every edit has a target,
    lands, and lands in a paragraph of its own, the written document passes the
    read-back with extra revisions forbidden. *)
Theorem written_passes_readback attrs text body ts edits :
  truthy (strip author) = true → truthy (strip timestamp) = true →
  plain_document body ts → edits ≠ [] →
  forallb (λ e, single_line (new_text e) && truthy (strip (target_text e))) edits = true →
  once edits (map Plain ts) = true →
  (write_edits author timestamp edits body).1 = Z.of_nat (length edits) →
  verify_docx_tracked_changes (Elem (q "body") attrs text (write_edits author timestamp edits body).2)
    (map change_of edits) true true true None None = Ok true.
Proof.
  intros Ha Ht Hd Hne He Ho Hn.
  assert (forallb (λ e, single_line (new_text e)) edits = true ∧
          forallb (λ e, truthy (strip (target_text e))) edits = true) as [Hs Htg].
  { apply forallb_and. exact He. }
  pose proof (write_edits_spec author timestamp edits body _ 0 Hd Hs) as [H1 H2].
  destruct (abs_write_once edits (map Plain ts) 0 Ho) as (_ & _ & Hr). unfold write_edits in *.
  set (w := fold_left (write_edit author timestamp) edits (0, body)) in *.
  set (s := fold_left abs_edit edits (0, map Plain ts)) in *.
  specialize (Hr ltac:(lia)). rewrite revised_plain, app_nil_r in Hr.
  destruct (document_readback _ _ attrs text _ _ H2) as [_ Hx].
  unfold verify_docx_tracked_changes. rewrite Hx. destruct (revisions_of_kinds s.2) as [Hk1 Hk2].
  rewrite length_map. destruct edits as [|e0 edits0]; [done|]. cbn [length Nat.eqb negb]. 
  set (edits := e0 :: edits0) in *. unfold ensure at 1. cbn [mbind result_bind].
  rewrite match_changes_complete; [reflexivity|done|done|done|apply uniform_filter, uniform_revisions..| |]; cbn [fst snd].
  - rewrite Hk1. rewrite <-(wanted_perm fst old Del edits (revised s.2)) by done.
    assert (List.filter (λ p : string * string, truthy p.1) (revised s.2) = revised s.2) as ->; [|done].
    assert (Forall (λ p, truthy p.1 = true) (revised s.2)) as Hf.
    { rewrite Hr. apply Forall_map, Forall_forall. intros e Hin. rewrite forallb_forall in Htg.
      apply Htg. by apply list_elem_of_In. }
    clear -Hf. induction Hf as [|p l Hp _ IH]; [done|]. cbn. by rewrite Hp, IH.
  - rewrite Hk2. by apply wanted_perm.
Qed.

Lemma replace_rejected_visible target new p :
  contains target (visible p) = true → rejected (abs_replace target new p) = visible p.
Proof.
  unfold contains, abs_replace. destruct (find target (visible p)) as [n|] eqn:E; [|done].
  intros _. cbn [rejected default from_option Datatypes.id]. symmetry. by apply find_split.
Qed.

(** A second edit of a paragraph erases the first.  When an edit lands in a
    paragraph that already holds a revision, the text that revision deleted
    is in no revision any more, and rejecting the changes gives the paragraph
    without it. *)
Theorem second_edit_erases_first attrs text e b d i a ed :
  represents author timestamp e (Revised b d i a) → single_line (new_text ed) = true →
  truthy (strip (target_text ed)) = true → contains (strip (target_text ed)) (b +:+ a) = true →
  let doc := Elem (q "body") attrs text (write_edits author timestamp [ed] [e]).2 in
  (paragraph_streams doc).*1 = [b +:+ a] ∧
  extract_revisions doc = revision author timestamp Del (strip (target_text ed)) ::
    (if truthy (new_text ed) then [revision author timestamp Ins (new_text ed)] else []).
Proof.
  intros Hr Hs Ht Hc.
  assert (document author timestamp [e] [Revised b d i a]) as Hd by (apply doc_paragraph; [exact Hr|apply doc_nil]).
  pose proof (write_edits_spec author timestamp [ed] [e] _ 0 Hd ltac:(cbn; by rewrite Hs)) as [_ H2].
  unfold write_edits. cbv zeta. cbn [fold_left] in H2 |- *. unfold abs_edit in H2. cbn [fst snd abs_revise] in H2.
  rewrite Ht in H2. cbn [visible] in H2. rewrite Hc in H2. cbn [snd] in H2.
  destruct (document_readback _ _ attrs text _ _ H2) as [-> ->]. split.
  - rewrite fst_pairs. cbn [map]. by rewrite replace_rejected_visible.
  - cbn [List.flat_map abs_replace revisions_of]. by rewrite app_nil_r.
Qed.
End Properties.

(** ** An implementation of the paragraph interface *)

Definition child_text (e : xml) : string := if has_tag (q "r") e then run_text e else "".
Definition demo_run (s : string) : xml := Elem (q "r") [] "" [Elem (q "t") [] s []].

Lemma demo_get_text_app l1 l2 :
  join "" (map child_text (l1 ++ l2)) = join "" (map child_text l1) +:+ join "" (map child_text l2).
Proof. by rewrite map_app, join_nil_app. Qed.

Definition demo_api : ParagraphApi.
Proof.
  refine {| get_text l := join "" (map child_text l);
            set_text s l := List.filter (has_tag (q "pPr")) l ++ [demo_run s];
            add_run s l := l ++ [demo_run s]; run_of := demo_run |}.
  - exact demo_get_text_app.
  - intros r [Ht _]%andb_true_iff _. cbn [map join]. unfold child_text. by rewrite Ht.
  - intros e He. cbn [map join]. unfold child_text, has_tag. case_bool_decide as E; [|done].
    rewrite E in He. apply list_elem_of_In in He. cbn in He. naive_solver.
  - done.
  - done.
  - intros s _. split; [done|]. unfold run_text. cbn. done.
Defined.

Definition demo_paragraph (s : string) : xml := Elem (q "p") [] "" [demo_run s].
Definition demo_body : list xml :=
  [demo_paragraph "Laws of Delaware apply."; demo_paragraph "Notice: 30 days."; Elem (q "sectPr") [] "" []].
Definition demo_edits : list edit :=
  [{| target_text := "30 days"; new_text := "60 days" |}; {| target_text := " Delaware "; new_text := "New York" |}].
Definition stamp : string := "2026-01-01T00:00:00Z".
Definition demo_written : xml :=
  Elem (q "body") [] "" (@write_edits demo_api "Kairo" stamp demo_edits demo_body).2.

Lemma demo_plain s : plain s = true → represents "Kairo" stamp (demo_paragraph s) (Plain s).
Proof.
  intros H. split; [done|]. exists [], [demo_run s]. split; [done|]. split; [done|].
  split; [|cbn; done]. constructor; [|done]. by split.
Qed.

Lemma demo_document : plain_document "Kairo" stamp demo_body ["Laws of Delaware apply."; "Notice: 30 days."].
Proof. repeat (apply doc_paragraph; [by apply demo_plain|]). by repeat constructor. Qed.

Lemma readback_exact_witness :
  verify_docx_tracked_changes demo_written (map (change_of "Kairo") demo_edits) true true true None None = Ok true ∧
  map norm_text (List.filter (is_kind Del) (extract_revisions demo_written)) ≡ₚ wanted old (map (change_of "Kairo") demo_edits) ∧
  map norm_text (List.filter (is_kind Ins) (extract_revisions demo_written)) ≡ₚ wanted new (map (change_of "Kairo") demo_edits) ∧
  Forall signed_revision (extract_revisions demo_written).
Proof.
  assert (verify_docx_tracked_changes demo_written (map (change_of "Kairo") demo_edits) true true true None None = Ok true)
    as H by (vm_compute; reflexivity).
  split; [exact H|]. exact (readback_exact _ _ _ _ H).
Defined.

Lemma tracked_reversible_witness :
  once demo_edits (map Plain ["Laws of Delaware apply."; "Notice: 30 days."]) = true ∧
  let '(n, body') := @write_edits demo_api "Kairo" stamp demo_edits demo_body in
  let '(m, ps) := abs_write demo_edits (map Plain ["Laws of Delaware apply."; "Notice: 30 days."]) in
  n = m ∧ (paragraph_streams (Elem (q "body") [] "" body')).*1 = map rejected ps ∧
  (paragraph_streams (Elem (q "body") [] "" body')).*2 = map accepted ps ∧
  (once demo_edits (map Plain ["Laws of Delaware apply."; "Notice: 30 days."]) = true →
   map rejected ps = ["Laws of Delaware apply."; "Notice: 30 days."]).
Proof.
  split; [vm_compute; reflexivity|].
  exact (@tracked_reversible demo_api "Kairo" stamp [] "" demo_body _ demo_edits demo_document eq_refl).
Defined.

Lemma written_passes_readback_witness :
  verify_docx_tracked_changes demo_written (map (change_of "Kairo") demo_edits) true true true None None = Ok true.
Proof.
  apply (@written_passes_readback demo_api "Kairo" stamp [] "" demo_body ["Laws of Delaware apply."; "Notice: 30 days."]);
    [by vm_compute|by vm_compute|exact demo_document|discriminate|by vm_compute|by vm_compute|by vm_compute].
Defined.

Lemma demo_revised : represents "Kairo" stamp
  (Elem (q "p") [] "" [demo_run "Pay in "; del_element "Kairo" stamp 0 "30"; ins_element "Kairo" stamp 1 "60"; demo_run " days by wire"])
  (Revised "Pay in " "30" "60" " days by wire").
Proof.
  split; [done|]. exists [], [demo_run "Pay in "], [demo_run " days by wire"], 0, 1. split; [done|]. split; [done|].
  split; (split; [by repeat constructor|done]).
Qed.

Lemma second_edit_erases_first_witness :
  let doc := Elem (q "body") [] "" (@write_edits demo_api "Kairo" stamp [{| target_text := "wire"; new_text := "cheque" |}]
    [Elem (q "p") [] "" [demo_run "Pay in "; del_element "Kairo" stamp 0 "30"; ins_element "Kairo" stamp 1 "60"; demo_run " days by wire"]]).2 in
  (paragraph_streams doc).*1 = ["Pay in  days by wire"] ∧
  extract_revisions doc = [revision "Kairo" stamp Del "wire"; revision "Kairo" stamp Ins "cheque"].
Proof.
  exact (@second_edit_erases_first demo_api "Kairo" stamp [] "" _ "Pay in " "30" "60" " days by wire"
    {| target_text := "wire"; new_text := "cheque" |} demo_revised eq_refl eq_refl eq_refl).
Defined.
