(* ===== verification/EditLog.v ===== *)
(** * The signed edit log of the redline pipeline

    [kairo/oracles/ed25519_audit_log.py], its oracle
    [kairo/oracles/audit_log_integrity.py] and the zero-egress report of
    [kairo/oracles/zero_egress_report.py].  Entries carry the SHA-256 hash of
    their content and of the previous hash, and an Ed25519 signature.  A fresh
    UUID and the current time are arguments of the calls; a private key is its
    seed, a public key its bytes. *)

From S2P Require Import Prelude PyStr PyFloat PyDict Json Sha256 Ed25519 HashChain.

Record AuditEntry := {
  entry_id : string; timestamp : string; action : string; doc_hash : string;
  edit_summary : dict; prev_hash : string; entry_hash : string; signature : string }.

(** [prelim_payload] *)
Definition prelim_payload (e : AuditEntry) : dict :=
  [("entry_id", JStr (entry_id e)); ("timestamp", JStr (timestamp e)); ("action", JStr (action e));
   ("doc_hash", JStr (doc_hash e)); ("edit_summary", JObj (edit_summary e)); ("prev_hash", JStr (prev_hash e))].

Record Ed25519AuditLog := { private_key : bytes; entries : list AuditEntry; last_hash : string }.

Definition new_log (key : bytes) : Ed25519AuditLog := {| private_key := key; entries := []; last_hash := "" |}.

Section EditLog.
Context `{FR : FloatRepr} `{ED : Ed25519}.

Definition prelim_bytes (e : AuditEntry) : bytes := canonical true (JObj (prelim_payload e)).

(** [content_bytes]: what is signed. *)
Definition content_bytes (e : AuditEntry) : bytes :=
  canonical true (JObj (prelim_payload e ++ [("entry_hash", JStr (entry_hash e))])).

Definition with_hash (h : string) (e : AuditEntry) : AuditEntry :=
  {| entry_id := entry_id e; timestamp := timestamp e; action := action e; doc_hash := doc_hash e;
     edit_summary := edit_summary e; prev_hash := prev_hash e; entry_hash := h; signature := signature e |}.
Definition with_signature (s : string) (e : AuditEntry) : AuditEntry :=
  {| entry_id := entry_id e; timestamp := timestamp e; action := action e; doc_hash := doc_hash e;
     edit_summary := edit_summary e; prev_hash := prev_hash e; entry_hash := entry_hash e; signature := s |}.

(** [_make_entry] *)
Definition make_entry (uuid now action doc_hash : string) (edit_summary : dict) (log : Ed25519AuditLog) :
    AuditEntry * Ed25519AuditLog :=
  let e := {| entry_id := uuid; timestamp := now; action := action; doc_hash := doc_hash;
              edit_summary := edit_summary; prev_hash := last_hash log; entry_hash := ""; signature := "" |} in
  let e := with_hash (sha256_hex (prelim_bytes e)) e in
  let e := with_signature (hex (ed_sign (private_key log) (content_bytes e))) e in
  (e, {| private_key := private_key log; entries := entries log ++ [e]; last_hash := entry_hash e |}).

Definition log_run_started (uuid now doc_hash playbook_id : string) : Ed25519AuditLog → AuditEntry * Ed25519AuditLog :=
  make_entry uuid now "run_started" doc_hash [("playbook_id", JStr playbook_id)].

Definition log_edit (uuid now doc_hash clause_id clause_label old_text new_text citation rationale : string) :
    Ed25519AuditLog → AuditEntry * Ed25519AuditLog :=
  make_entry uuid now "edit_applied" doc_hash
    [("clause_id", JStr clause_id); ("clause_label", JStr clause_label); ("old_text", JStr old_text);
     ("new_text", JStr new_text); ("citation", JStr citation); ("rationale", JStr rationale)].

Definition log_flag (uuid now doc_hash clause_id clause_label reason : string) :
    Ed25519AuditLog → AuditEntry * Ed25519AuditLog :=
  make_entry uuid now "clause_flagged" doc_hash
    [("clause_id", JStr clause_id); ("clause_label", JStr clause_label); ("reason", JStr reason)].

Definition log_run_completed (uuid now doc_hash : string) (total_edits total_flagged : Z) (injection_detected : bool) :
    Ed25519AuditLog → AuditEntry * Ed25519AuditLog :=
  make_entry uuid now "run_completed" doc_hash
    [("total_edits", JInt total_edits); ("total_flagged", JInt total_flagged);
     ("injection_detected", JBool injection_detected)].

Definition verify_entry (pub : bytes) (e : AuditEntry) : bool := verify_hex pub (signature e) (content_bytes e).

Definition entry_json (e : AuditEntry) : json :=
  JObj (prelim_payload e ++ [("entry_hash", JStr (entry_hash e)); ("signature", JStr (signature e))]).

Definition to_json (log : Ed25519AuditLog) : string :=
  print_indent true 0 (JObj [("entries", JArr (map entry_json (entries log)))]).

(** The loop of [verify_chain]. *)
Fixpoint verify_from (pub : bytes) (expected_prev_hash : string) (l : list AuditEntry) : bool :=
  match l with
  | [] => true
  | e :: l' =>
      if negb (verify_entry pub e) then false
      else if negb (bool_decide (prev_hash e = expected_prev_hash)) then false
      else if negb (bool_decide (entry_hash e = sha256_hex (prelim_bytes e))) then false
      else verify_from pub (entry_hash e) l'
  end.

Definition verify_chain (l : list AuditEntry) (pub : bytes) : bool := verify_from pub "" l.

Definition verify_audit_log_integrity (l : list AuditEntry) (pub : bytes) : result bool :=
  _ ← ensure (negb (length l =? 0)%nat) "AssertionError" "audit_log_integrity FAILED: entries list is empty";
  _ ← ensure (verify_chain l pub) "AssertionError" "audit_log_integrity FAILED: chain verification failed";
  Ok true.

(** ** The edit log as a hash chain *)

Definition wf_edit (e : AuditEntry) : bool := wf_json (JObj (prelim_payload e)).

(** Same content: every hashed field, the summary up to the order of keys. *)
Definition same_edit (e1 e2 : AuditEntry) : Prop :=
  entry_id e1 = entry_id e2 ∧ timestamp e1 = timestamp e2 ∧ action e1 = action e2 ∧ doc_hash e1 = doc_hash e2 ∧
  canon (JObj (edit_summary e1)) = canon (JObj (edit_summary e2)) ∧ prev_hash e1 = prev_hash e2.

Lemma prelim_same e1 e2 :
  wf_edit e1 = true → wf_edit e2 = true → prelim_bytes e1 = prelim_bytes e2 → same_edit e1 e2.
Proof.
  intros W1 W2 H. apply canonical_inj in H; [|done..]. destruct e1, e2. unfold same_edit, prelim_payload in *.
  cbn [entry_id timestamp action doc_hash edit_summary prev_hash] in *.
  canon_field H "entry_id". canon_field H "timestamp". canon_field H "action". canon_field H "doc_hash".
  canon_field H "prev_hash". split_and!; try congruence. canon_member H "edit_summary" G. congruence.
Qed.

Lemma same_edit_prev e1 e2 : same_edit e1 e2 → prev_hash e1 = prev_hash e2.
Proof. unfold same_edit. naive_solver. Qed.

Lemma hash_nonempty x : sha256_hex x ≠ "".
Proof. intros H. apply (f_equal String.length) in H. by rewrite length_sha256_hex in H. Qed.

#[local] Instance edit_chain : ChainEntry AuditEntry := {
  tag := entry_hash; prev := prev_hash; genesis := "";
  preimage := prelim_bytes; tag_of := sha256_hex; witness_pair := pair;
  wf_entry := wf_edit; same_content := same_edit;
  tag_of_collision := sha256_hex_eq; tag_of_genesis := hash_nonempty;
  preimage_content := prelim_same; same_content_prev := same_edit_prev }.

(** [verify_chain] accepts the hash chains whose signatures verify. *)
Lemma verify_edits_chain pub p l :
  verify_from pub p l = forallb (verify_entry pub) l && chain_ok (CE := edit_chain) p l.
Proof.
  revert p. induction l as [|e l IH]; intros p; [done|]. cbn [verify_from forallb chain_ok]. rewrite IH.
  unfold entry_ok. cbn [tag prev preimage tag_of edit_chain].
  generalize (verify_entry pub e) (bool_decide (prev_hash e = p))
    (bool_decide (entry_hash e = sha256_hex (prelim_bytes e)))
    (forallb (verify_entry pub) l) (chain_ok (CE := edit_chain) (entry_hash e) l).
  by intros [] [] [] [] [].
Qed.

(** A log of a 32-byte key: it verifies and ends in [last_hash]. *)
Definition log_inv (log : Ed25519AuditLog) : Prop :=
  String.length (private_key log) = 32%nat ∧ verify_chain (entries log) (ed_public (private_key log)) = true ∧
  last_hash log = head_tag (CE := edit_chain) (entries log).

Lemma new_edit_log_inv key : String.length key = 32%nat → log_inv (new_log key).
Proof. by repeat split. Qed.

Lemma make_entry_inv u t a h s log : log_inv log → log_inv (make_entry u t a h s log).2.
Proof.
  intros (Hk & Hv & Hl). unfold make_entry. cbv zeta. cbn [snd].
  set (e0 := with_hash _ _). set (e := with_signature _ e0). unfold log_inv. cbn [private_key entries last_hash].
  split; [done|]. split; [|by rewrite (head_tag_snoc (CE := edit_chain))].
  unfold verify_chain in *. rewrite verify_edits_chain in *. apply andb_true_iff in Hv as [Hf Hc].
  rewrite forallb_app, Hf. cbn [forallb andb]. rewrite andb_true_r. apply andb_true_iff. split.
  - unfold verify_entry. change (content_bytes e) with (content_bytes e0). subst e.
    unfold with_signature. cbn [signature]. by apply verify_hex_sign.
  - apply (chain_ok_extend (CE := edit_chain)); [done|exact Hl|reflexivity].
Qed.

Lemma make_entry_length u t a h s log :
  length (entries (make_entry u t a h s log).2) = S (length (entries log)).
Proof. unfold make_entry. cbv zeta. cbn [snd entries]. rewrite length_app. cbn [length]. lia. Qed.

Lemma make_entry_key u t a h s log : private_key (make_entry u t a h s log).2 = private_key log.
Proof. reflexivity. Qed.

(** Every call of the logger. *)
Inductive edit_call :=
| RunStarted (uuid now doc_hash playbook_id : string)
| Edit (uuid now doc_hash clause_id clause_label old_text new_text citation rationale : string)
| Flag (uuid now doc_hash clause_id clause_label reason : string)
| RunCompleted (uuid now doc_hash : string) (total_edits total_flagged : Z) (injection_detected : bool).

Definition run_edit_call (log : Ed25519AuditLog) (c : edit_call) : Ed25519AuditLog :=
  match c with
  | RunStarted u t h p => (log_run_started u t h p log).2
  | Edit u t h c l o n ci r => (log_edit u t h c l o n ci r log).2
  | Flag u t h c l r => (log_flag u t h c l r log).2
  | RunCompleted u t h e f i => (log_run_completed u t h e f i log).2
  end.

Definition run_edit_calls (cs : list edit_call) (key : bytes) : Ed25519AuditLog :=
  fold_left run_edit_call cs (new_log key).

Lemma run_edit_calls_inv cs key : String.length key = 32%nat →
  log_inv (run_edit_calls cs key) ∧ private_key (run_edit_calls cs key) = key ∧
  length (entries (run_edit_calls cs key)) = length cs.
Proof.
  intros Hk. unfold run_edit_calls. induction cs as [|c cs IH] using rev_ind; [split; [by apply new_edit_log_inv|done]|].
  rewrite fold_left_app_snoc, length_app. set (log := fold_left _ _ _) in *. destruct IH as (I & P & L).
  destruct c; cbn [run_edit_call]; unfold log_run_started, log_edit, log_flag, log_run_completed.
  all: rewrite make_entry_key, make_entry_length, L; cbn [length].
  all: split; [apply make_entry_inv; exact I|].
  all: split; [exact P|].
  all: lia.
Qed.

(** What the entry of a call records. *)
Definition call_content (c : edit_call) : string * dict :=
  match c with
  | RunStarted _ _ _ p => ("run_started", [("playbook_id", JStr p)])
  | Edit _ _ _ c l o n ci r =>
      ("edit_applied", [("clause_id", JStr c); ("clause_label", JStr l); ("old_text", JStr o);
                        ("new_text", JStr n); ("citation", JStr ci); ("rationale", JStr r)])
  | Flag _ _ _ c l r => ("clause_flagged", [("clause_id", JStr c); ("clause_label", JStr l); ("reason", JStr r)])
  | RunCompleted _ _ _ e f i =>
      ("run_completed", [("total_edits", JInt e); ("total_flagged", JInt f); ("injection_detected", JBool i)])
  end.

Definition content (e : AuditEntry) : string * dict := (action e, edit_summary e).

Lemma make_entry_content u t a h s log :
  map content (entries (make_entry u t a h s log).2) = map content (entries log) ++ [(a, s)].
Proof. unfold make_entry. cbv zeta. cbn [snd entries]. rewrite map_app. reflexivity. Qed.

Lemma run_edit_calls_content cs key : map content (entries (run_edit_calls cs key)) = map call_content cs.
Proof.
  unfold run_edit_calls. induction cs as [|c cs IH] using rev_ind; [reflexivity|].
  rewrite fold_left_app_snoc, map_app, <-IH.
  destruct c; cbn [run_edit_call]; unfold log_run_started, log_edit, log_flag, log_run_completed;
    rewrite make_entry_content; reflexivity.
Qed.

(** *** Properties *)

(** Every log the four logging calls build under a 32-byte key, in any order
    and from any inputs, holds one entry per call and passes the integrity
    oracle under the public key, unless it is empty. *)
Theorem edit_log_verifies cs key :
  String.length key = 32%nat → cs ≠ [] →
  length (entries (run_edit_calls cs key)) = length cs ∧
  verify_audit_log_integrity (entries (run_edit_calls cs key)) (ed_public key) = Ok true.
Proof.
  intros Hk Hne. destruct (run_edit_calls_inv cs key Hk) as ((_ & Hv & _) & Hp & Hl). split; [exact Hl|].
  rewrite Hp in Hv. unfold verify_audit_log_integrity. rewrite Hl, Hv. by destruct cs.
Qed.

(** Tamper evidence: two entry lists that both verify, under any public keys,
    and end in the same hash agree entry by entry on every field but the
    signature; otherwise [chain_collision] computes a SHA-256 collision. *)
Theorem edit_log_commits pub1 pub2 l1 l2 :
  verify_chain l1 pub1 = true → verify_chain l2 pub2 = true →
  forallb wf_edit l1 = true → forallb wf_edit l2 = true →
  head_tag (CE := edit_chain) l1 = head_tag (CE := edit_chain) l2 →
  Forall2 (λ e1 e2, same_edit e1 e2 ∧ entry_hash e1 = entry_hash e2) l1 l2 ∨
  collision (chain_collision (CE := edit_chain) l1 l2).
Proof.
  unfold verify_chain. rewrite !verify_edits_chain. intros [_ C1]%andb_true_iff [_ C2]%andb_true_iff W1 W2 H.
  exact (head_commits (CE := edit_chain) l1 l2 C1 C2 W1 W2 H).
Qed.
End EditLog.

(** ** Concrete logs *)

Section Witnesses.
#[local] Existing Instance exact_float_repr.
#[local] Existing Instance plain_signatures.

Definition demo_key : bytes := "0123456789abcdef0123456789abcdef".
Definition demo_calls : list edit_call :=
  [RunStarted "u1" "t1" "doc" "firm_v1"; Flag "u2" "t2" "doc" "cap" "Cap" "not found"].

Lemma edit_log_verifies_witness :
  length (entries (run_edit_calls demo_calls demo_key)) = length demo_calls ∧
  verify_audit_log_integrity (entries (run_edit_calls demo_calls demo_key)) (ed_public demo_key) = Ok true.
Proof. exact (edit_log_verifies demo_calls demo_key eq_refl ltac:(discriminate)). Defined.

Definition demo_entries : list AuditEntry := entries (run_edit_calls demo_calls demo_key).

Lemma demo_entries_ok : verify_chain demo_entries demo_key = true ∧ forallb wf_edit demo_entries = true.
Proof. vm_compute. by split. Qed.

Lemma edit_log_commits_witness :
  Forall2 (λ e1 e2, same_edit e1 e2 ∧ entry_hash e1 = entry_hash e2) demo_entries demo_entries ∨
  collision (chain_collision (CE := edit_chain) demo_entries demo_entries).
Proof.
  destruct demo_entries_ok as [V W].
  exact (edit_log_commits demo_key demo_key demo_entries demo_entries V V W W eq_refl).
Defined.
End Witnesses.
