(* ===== verification/EgressReport.v ===== *)
(** * The zero-egress report

    [kairo/oracles/zero_egress_report.py]: a report of a redline run that
    carries the hash of the run's audit log, its own hash and an Ed25519
    signature.  The current time is an argument. *)

From S2P Require Import Prelude PyStr PyFloat PyDict Json Sha256 Ed25519.

Record ZeroEgressReport := {
  timestamp : string; doc_hash : string; playbook_id : string; total_edits : Z; total_flagged : Z;
  injection_detected : bool; audit_log_hash : string; offline_attestation : string;
  report_hash : string; signature : string }.

Definition OFFLINE_ATTESTATION : string :=
  "This redline run executed fully on-device with no LLM calls, no HTTP requests, " +:+
  "no DNS lookups, and no network connections of any kind. The pipeline code path " +:+
  "contains no network client code. This attestation is reproducible by inspecting " +:+
  "the source and re-running the pipeline offline.".

(** [prelim_payload] *)
Definition prelim_payload (r : ZeroEgressReport) : dict :=
  [("timestamp", JStr (timestamp r)); ("doc_hash", JStr (doc_hash r)); ("playbook_id", JStr (playbook_id r));
   ("total_edits", JInt (total_edits r)); ("total_flagged", JInt (total_flagged r));
   ("injection_detected", JBool (injection_detected r)); ("audit_log_hash", JStr (audit_log_hash r));
   ("offline_attestation", JStr (offline_attestation r))].

Section Report.
Context `{FR : FloatRepr} `{ED : Ed25519}.

Definition content_bytes (r : ZeroEgressReport) : bytes :=
  canonical true (JObj (prelim_payload r ++ [("report_hash", JStr (report_hash r))])).

Definition with_hash (h s : string) (r : ZeroEgressReport) : ZeroEgressReport :=
  {| timestamp := timestamp r; doc_hash := doc_hash r; playbook_id := playbook_id r;
     total_edits := total_edits r; total_flagged := total_flagged r; injection_detected := injection_detected r;
     audit_log_hash := audit_log_hash r; offline_attestation := offline_attestation r;
     report_hash := h; signature := s |}.

Definition generate_zero_egress_report (now doc_hash playbook_id : string) (total_edits total_flagged : Z)
    (injection_detected : bool) (audit_log_json : string) (private_key : bytes) : ZeroEgressReport :=
  let r := {| timestamp := now; doc_hash := doc_hash; playbook_id := playbook_id; total_edits := total_edits;
              total_flagged := total_flagged; injection_detected := injection_detected;
              audit_log_hash := sha256_hex (utf8 audit_log_json);
              offline_attestation := OFFLINE_ATTESTATION; report_hash := ""; signature := "" |} in
  let h := sha256_hex (canonical true (JObj (prelim_payload r))) in
  let r := with_hash h "" r in
  with_hash h (hex (ed_sign private_key (content_bytes r))) r.

Definition verify_zero_egress_report (r : ZeroEgressReport) (pub : bytes) : bool :=
  verify_hex pub (signature r) (content_bytes r).

(** [to_json] *)
Definition to_json (r : ZeroEgressReport) : string :=
  print_indent true 0 (JObj (prelim_payload r ++
    [("report_hash", JStr (report_hash r)); ("signature", JStr (signature r))])).

Lemma content_fields r1 r2 : content_bytes r1 = content_bytes r2 →
  doc_hash r1 = doc_hash r2 ∧ playbook_id r1 = playbook_id r2 ∧ total_edits r1 = total_edits r2 ∧
  total_flagged r1 = total_flagged r2 ∧ injection_detected r1 = injection_detected r2 ∧
  audit_log_hash r1 = audit_log_hash r2 ∧ timestamp r1 = timestamp r2.
Proof.
  intros H. apply canonical_inj in H; [|done..]. destruct r1, r2. unfold prelim_payload in *.
  cbn [timestamp doc_hash playbook_id total_edits total_flagged injection_detected audit_log_hash
       offline_attestation report_hash app] in *.
  canon_field H "timestamp". canon_field H "doc_hash". canon_field H "playbook_id". canon_field H "total_edits".
  canon_field H "total_flagged". canon_field H "injection_detected". canon_field H "audit_log_hash".
  by split_and!.
Qed.

(** A generated report verifies under the public key, and what is signed
    commits to the run: two generated reports with the same signed bytes are
    of the same time, document, playbook, totals and scan result, and of the
    same audit log, or the two logs are a SHA-256 collision. *)
Theorem egress_report_commits t1 t2 d1 d2 p1 p2 e1 e2 f1 f2 i1 i2 log1 log2 key :
  String.length key = 32%nat →
  let r1 := generate_zero_egress_report t1 d1 p1 e1 f1 i1 log1 key in
  let r2 := generate_zero_egress_report t2 d2 p2 e2 f2 i2 log2 key in
  verify_zero_egress_report r1 (ed_public key) = true ∧
  (content_bytes r1 = content_bytes r2 →
   (t1, d1, p1, e1, f1, i1) = (t2, d2, p2, e2, f2, i2) ∧
   (log1 = log2 ∨ collision (utf8 log1, utf8 log2))).
Proof.
  intros Hk. cbv zeta. split.
  - unfold verify_zero_egress_report, generate_zero_egress_report. cbv zeta. by apply verify_hex_sign.
  - intros H. apply content_fields in H as (H1 & H2 & H3 & H4 & H5 & H6 & H7).
    unfold generate_zero_egress_report in *. cbv zeta in *.
    cbn [with_hash timestamp doc_hash playbook_id total_edits total_flagged injection_detected audit_log_hash] in *.
    split; [congruence|]. destruct (sha256_hex_eq _ _ H6) as [E|E]; [left; exact (inj utf8 _ _ E)|by right].
Qed.
End Report.

Section Witnesses.
#[local] Existing Instance exact_float_repr.
#[local] Existing Instance plain_signatures.

Lemma egress_report_commits_witness :
  let r := generate_zero_egress_report "t" "d" "p" 1 0 false "{}" "0123456789abcdef0123456789abcdef" in
  verify_zero_egress_report r (ed_public "0123456789abcdef0123456789abcdef") = true.
Proof.
  exact (proj1 (egress_report_commits "t" "t" "d" "d" "p" "p" 1 1 0 0 false false "{}" "{}"
    "0123456789abcdef0123456789abcdef" eq_refl)).
Defined.
End Witnesses.
