(* ===== verification/Redline.v ===== *)
(** * The legal redline pipeline and its oracles

    [kairo/oracles/legal_redline_pipeline.py] with the oracles
    [clause_coverage.py] and [no_hallucinated_citation.py].  A playbook clause
    is a dict of strings, as the schema of [_load_playbook] has it; a contract
    is the body of its document.  The tracked-changes writer is that of
    [TrackedChanges]; the injection scan is an argument, as nothing but the
    report depends on it; fresh UUIDs and times are arguments. *)

From S2P Require Import Prelude PyStr PyFloat PyDict Json Sha256 Ed25519 TrackedChanges EditLog EgressReport.

(** [clause.get(k, d)] *)
Abbreviation clause := (list (string * string)).
Definition member (k d : string) (c : clause) : string := default d (assoc k c).
Definition clause_id (c : clause) : string := member "clause_id" "" c.

Record AppliedEdit := {
  ae_clause_id : string; clause_label : string; old_text : string; ae_new_text : string;
  citation : string; rationale : string }.

Record FlaggedClause := { fc_clause_id : string; fc_clause_label : string; reason : string }.

Record RedlineResult := {
  ok : bool; output_path : string; applied_edits : list AppliedEdit; flagged_clauses : list FlaggedClause;
  rr_injection_detected : bool; injection_score : f64; injection_patterns : list string; error : string;
  audit_log_json : string; egress_report_json : string; rr_doc_hash : string }.

(** The decoded playbook: its [clauses] list and [playbook_id], when present. *)
Record playbook := { pb_clauses : option (list clause); pb_id : option string }.

Definition load_playbook (p : playbook) : result (list clause) :=
  match pb_clauses p with
  | Some cs => Ok cs
  | None => raise "ValueError" "playbook must contain a 'clauses' list"
  end.

Definition find_clause_in_text (contract_text match_text : string) : option string :=
  if negb (truthy match_text) then None
  else if contains (norm match_text) (norm contract_text) then Some match_text else None.

Definition not_found (match_text : string) : string :=
  "Target text not found in contract: '" +:+ take_str 60 match_text +:+ "...'".

Definition applied_edit (c : clause) : AppliedEdit :=
  {| ae_clause_id := clause_id c; clause_label := member "clause_label" (clause_id c) c;
     old_text := member "match_text" "" c; ae_new_text := member "replacement_text" "" c;
     citation := member "citation" "" c; rationale := member "rationale" "" c |}.

Definition flag_missing (c : clause) : FlaggedClause :=
  {| fc_clause_id := clause_id c; fc_clause_label := member "clause_label" (clause_id c) c;
     reason := not_found (member "match_text" "" c) |}.

(** Step 4: the clauses found in the contract, and the flags of the others. *)
Definition found (contract_text : string) (c : clause) : bool :=
  match find_clause_in_text contract_text (member "match_text" "" c) with Some _ => true | None => false end.

Definition plan (contract_text : string) (clauses : list clause) : list AppliedEdit * list FlaggedClause :=
  (map applied_edit (List.filter (found contract_text) clauses),
   map flag_missing (List.filter (λ c, negb (found contract_text c)) clauses)).

Definition edit_of (a : AppliedEdit) : edit := {| target_text := old_text a; new_text := ae_new_text a |}.

(** The flags for the edits that were not applied: [playbook["clauses"][i]]. *)
Definition flag_skipped (clauses : list clause) (applied_count total : nat) : list FlaggedClause :=
  map (λ i, let c := default [] (clauses !! i) in
            {| fc_clause_id := clause_id c; fc_clause_label := member "clause_label" "" c;
               reason := "Writer could not locate target text in document paragraphs" |})
      (seq applied_count (total - applied_count)).

(** The log of step 7. *)
Definition redline_calls (doc_hash playbook_id : string) (applied : list AppliedEdit)
    (flagged : list FlaggedClause) (applied_count : Z) (injection_detected : bool)
    (stamps : nat → string * string) : list edit_call :=
  imap (λ i f, f (stamps i).1 (stamps i).2)
    ((λ u t, RunStarted u t doc_hash playbook_id) ::
     map (λ a u t, Edit u t doc_hash (ae_clause_id a) (clause_label a) (old_text a) (ae_new_text a)
                        (citation a) (rationale a)) applied ++
     map (λ f u t, Flag u t doc_hash (fc_clause_id f) (fc_clause_label f) (reason f)) flagged ++
     [λ u t, RunCompleted u t doc_hash applied_count (Z.of_nat (length flagged)) injection_detected]).

Definition failed (msg : string) (flagged : list FlaggedClause) (scan : bool * f64 * list string) : RedlineResult :=
  {| ok := false; output_path := ""; applied_edits := []; flagged_clauses := flagged;
     rr_injection_detected := scan.1.1; injection_score := scan.1.2; injection_patterns := scan.2;
     error := msg; audit_log_json := ""; egress_report_json := ""; rr_doc_hash := "" |}.

Section Pipeline.
Context `{FR : FloatRepr} `{ED : Ed25519} `{PA : ParagraphApi}.
Variable scan : string → bool * f64 * list string.

(** [_extract_docx_text] *)
Definition extract_docx_text (body : list xml) : string :=
  join newline (map (λ p, get_text (x_children p)) (List.filter (has_tag (q "p")) body)).

(** [redline_contract] on files that are absent or hold a document and a
    playbook; the second component is the document saved at [output]. *)
Definition redline_contract (contract : option (list xml)) (pb : option playbook) (output author timestamp : string)
    (private_key : option bytes) (stamps : nat → string * string) (report_time : string) :
    result (RedlineResult * option (list xml)) :=
  match contract, pb with
  | None, _ => Ok (failed "Contract not found" [] (false, f0, []), None)
  | Some _, None => Ok (failed "Playbook not found" [] (false, f0, []), None)
  | Some body, Some pb =>
      clauses ← load_playbook pb;
      let contract_text := extract_docx_text body in
      let doc_hash := sha256_hex (utf8 contract_text) in
      let s := scan contract_text in
      let '(applied, flagged) := plan contract_text clauses in
      match applied with
      | [] => Ok (failed "No playbook clauses matched the contract text" flagged s, None)
      | _ =>
          let '(n, body') := write_edits author timestamp (map edit_of applied) body in
          let applied_count := Z.to_nat n in
          let flagged := flagged ++ flag_skipped clauses applied_count (length applied) in
          let applied := take applied_count applied in
          let id := default "unknown" (pb_id pb) in
          let reports := match private_key with
            | None => ("", "")
            | Some key =>
                let log := EditLog.to_json (run_edit_calls (redline_calls doc_hash id applied flagged n s.1.1 stamps) key) in
                (log, EgressReport.to_json (generate_zero_egress_report report_time doc_hash id n
                        (Z.of_nat (length flagged)) s.1.1 log key))
            end in
          Ok ({| ok := true; output_path := output; applied_edits := applied; flagged_clauses := flagged;
                 rr_injection_detected := s.1.1; injection_score := s.1.2; injection_patterns := s.2;
                 error := ""; audit_log_json := reports.1; egress_report_json := reports.2;
                 rr_doc_hash := doc_hash |}, Some body')
      end
  end.
End Pipeline.

(** ** The oracles *)

Definition assertion {A} (msg : string) : result A := raise "AssertionError" msg.

(** [verify_clause_coverage] *)
Fixpoint missing_clauses (edited flagged : list string) (clauses : list clause) : result (list string) :=
  match clauses with
  | [] => Ok []
  | c :: clauses' =>
      let cid := clause_id c in
      _ ← ensure (truthy cid) "AssertionError" "playbook clause missing clause_id";
      rest ← missing_clauses edited flagged clauses';
      Ok (if bool_decide (cid ∈ edited) || bool_decide (cid ∈ flagged) then rest else cid :: rest)
  end.

Definition verify_clause_coverage (r : RedlineResult) (clauses : list clause) : result bool :=
  _ ← ensure (negb (length clauses =? 0)%nat) "AssertionError" "playbook_clauses must be a non-empty list";
  missing ← missing_clauses (map ae_clause_id (applied_edits r)) (map fc_clause_id (flagged_clauses r)) clauses;
  match missing with [] => Ok true | _ => assertion "clause_coverage FAILED" end.

(** [verify_no_hallucinated_citation] *)
Definition valid_citations (clauses : list clause) : list string :=
  map (λ c, strip (member "citation" "" c)) (List.filter (λ c, truthy (member "citation" "" c)) clauses).

Definition fake_citations (r : RedlineResult) (clauses : list clause) : list (string * string) :=
  omap (λ e, let c := strip (citation e) in
             if truthy c && negb (bool_decide (c ∈ valid_citations clauses)) then Some (ae_clause_id e, c) else None)
       (applied_edits r).

Definition verify_no_hallucinated_citation (r : RedlineResult) (clauses : list clause) : result bool :=
  _ ← ensure (negb (length clauses =? 0)%nat) "AssertionError" "playbook_clauses must be a non-empty list";
  match fake_citations r clauses with [] => Ok true | _ => assertion "no_hallucinated_citation FAILED" end.

(** ** Lemmas *)

Section Lemmas.
Context `{FR : FloatRepr} `{ED : Ed25519} `{PA : ParagraphApi}.
Variable scan : string → bool * f64 * list string.
Abbreviation redline := (redline_contract scan).

(** The planned edits, what the writer made of them, and the flags. *)
Definition planned (body : list xml) (clauses : list clause) : list AppliedEdit :=
  (plan (extract_docx_text body) clauses).1.
Definition written (author timestamp : string) (body : list xml) (clauses : list clause) : Z * list xml :=
  write_edits author timestamp (map edit_of (planned body clauses)) body.

(** A run that returns a document. *)
Lemma redline_inv contract pb out author t key stamps rt r body' :
  redline contract pb out author t key stamps rt = Ok (r, Some body') →
  ∃ body p clauses, contract = Some body ∧ pb = Some p ∧ load_playbook p = Ok clauses ∧
    planned body clauses ≠ [] ∧ ok r = true ∧ body' = (written author t body clauses).2 ∧
    applied_edits r = take (Z.to_nat (written author t body clauses).1) (planned body clauses) ∧
    flagged_clauses r = (plan (extract_docx_text body) clauses).2 ++
      flag_skipped clauses (Z.to_nat (written author t body clauses).1) (length (planned body clauses)) ∧
    match key with
    | None => audit_log_json r = ""
    | Some k => ∃ log, log = run_edit_calls (redline_calls (rr_doc_hash r) (default "unknown" (pb_id p))
          (applied_edits r) (flagged_clauses r) (written author t body clauses).1 (rr_injection_detected r) stamps) k ∧
        audit_log_json r = EditLog.to_json log ∧
        egress_report_json r = EgressReport.to_json (generate_zero_egress_report rt (rr_doc_hash r)
          (default "unknown" (pb_id p)) (written author t body clauses).1 (Z.of_nat (length (flagged_clauses r)))
          (rr_injection_detected r) (audit_log_json r) k)
    end.
Proof.
  unfold redline_contract. destruct contract as [body|]; [|done]. destruct pb as [p|]; [|done].
  intros (clauses & Hc & H)%bind_Ok. exists body, p, clauses. split; [done|]. split; [done|]. split; [done|].
  unfold written, planned. destruct (plan (extract_docx_text body) clauses) as [applied flagged]. cbn [fst snd] in *.
  destruct applied as [|a applied]; [done|]. split; [done|]. revert H. generalize (a :: applied). clear a applied.
  intros l. destruct (write_edits author t (map edit_of l) body) as [n b'].
  intros H. injection H as <- <-. cbn [fst snd ok applied_edits flagged_clauses audit_log_json egress_report_json
    rr_doc_hash rr_injection_detected]. do 4 (split; [done|]). destruct key as [k|]; [|done].
  eexists. split; [reflexivity|]. by split.
Qed.

(** *** Plans *)

Lemma planned_spec body clauses a : a ∈ planned body clauses →
  ∃ c, c ∈ clauses ∧ found (extract_docx_text body) c = true ∧ a = applied_edit c.
Proof.
  unfold planned, plan. cbn [fst]. intros (c & -> & Hc)%list_elem_of_fmap.
  apply list_elem_of_In, filter_In in Hc as [Hc Hf]. exists c. split; [by apply list_elem_of_In|done].
Qed.

Lemma flagged_missing_spec text clauses f : f ∈ (plan text clauses).2 →
  ∃ c, c ∈ clauses ∧ found text c = false ∧ f = flag_missing c.
Proof.
  unfold plan. cbn [snd]. intros (c & -> & Hc)%list_elem_of_fmap.
  apply list_elem_of_In, filter_In in Hc as [Hc Hf]. exists c. split; [by apply list_elem_of_In|].
  split; [by destruct (found text c)|done].
Qed.

Lemma length_planned body clauses : (length (planned body clauses) ≤ length clauses)%nat.
Proof.
  unfold planned, plan. cbn [fst]. rewrite length_map. generalize (found (extract_docx_text body)). intros f.
  induction clauses as [|c cs IH]; cbn [List.filter length]; [lia|]. destruct (f c); cbn [length]; lia.
Qed.

(** Every skipped edit is reported on a clause of the playbook. *)
Lemma flag_skipped_spec body clauses n f :
  f ∈ flag_skipped clauses n (length (planned body clauses)) →
  ∃ c, c ∈ clauses ∧ fc_clause_id f = clause_id c ∧ reason f ≠ "".
Proof.
  unfold flag_skipped. intros (i & -> & Hi)%list_elem_of_fmap. apply elem_of_seq in Hi.
  pose proof (length_planned body clauses) as Hl.
  destruct (lookup_lt_is_Some_2 clauses i) as [c Hc]; [lia|]. rewrite Hc.
  exists c. split; [by eapply list_elem_of_lookup_2|done].
Qed.

Lemma fake_citations_nil r clauses :
  (∀ a, a ∈ applied_edits r → ∃ c, c ∈ clauses ∧ citation a = member "citation" "" c) →
  fake_citations r clauses = [].
Proof.
  unfold fake_citations. generalize (applied_edits r). intros l H.
  induction l as [|a l IH]; [done|]. csimpl. rewrite IH by (intros b Hb; apply H; by right).
  destruct (H a ltac:(left)) as (c & Hc & ->). case_bool_decide as E; [by rewrite andb_false_r|].
  destruct (truthy (strip (member "citation" "" c))) eqn:Et; [|done].
  destruct E. unfold valid_citations. apply list_elem_of_fmap. exists c. split; [done|].
  apply list_elem_of_In, filter_In. split; [by apply list_elem_of_In|].
  unfold truthy in *. bool_prop. apply negb_true_iff, bool_decide_eq_false. intros E'. by rewrite E' in Et.
Qed.

(** *** Properties of the pipeline *)

(** Nothing is invented: in a result with a document, every applied edit is
    that of a clause of the playbook found in the contract, member by member;
    every flag is on a clause of the playbook; and the citation oracle
    passes. *)
Theorem redline_invents_nothing body p clauses out author t key stamps rt r body' :
  load_playbook p = Ok clauses →
  redline (Some body) (Some p) out author t key stamps rt = Ok (r, Some body') →
  (∀ a, a ∈ applied_edits r →
     ∃ c, c ∈ clauses ∧ found (extract_docx_text body) c = true ∧ a = applied_edit c) ∧
  (∀ f, f ∈ flagged_clauses r → ∃ c, c ∈ clauses ∧ fc_clause_id f = clause_id c) ∧
  verify_no_hallucinated_citation r clauses = Ok true.
Proof.
  intros Hc H. apply redline_inv in H as (b & p' & cs & [= <-] & [= <-] & Hc' & Hne & _ & _ & Ha & Hf & _).
  rewrite Hc in Hc'. injection Hc' as <-.
  assert (∀ a, a ∈ applied_edits r →
     ∃ c, c ∈ clauses ∧ found (extract_docx_text body) c = true ∧ a = applied_edit c) as Hap.
  { intros a Hin. rewrite Ha in Hin. apply planned_spec. by apply elem_of_take in Hin as (i & Hi & _); eapply list_elem_of_lookup_2. }
  split; [exact Hap|]. split.
  - intros f Hin. rewrite Hf in Hin. apply elem_of_app in Hin as [Hin|Hin].
    + apply flagged_missing_spec in Hin as (c & Hin & _ & ->). by exists c.
    + apply flag_skipped_spec in Hin as (c & Hin & Hid & _). by exists c.
  - unfold verify_no_hallucinated_citation. rewrite fake_citations_nil.
    + destruct clauses as [|c cs]; [|done]. by destruct Hne.
    + intros a Hin. apply Hap in Hin as (c & Hin & _ & ->). by exists c.
Qed.


Lemma missing_clauses_nil edited flagged clauses :
  (∀ c, c ∈ clauses → truthy (clause_id c) = true ∧ (clause_id c ∈ edited ∨ clause_id c ∈ flagged)) →
  missing_clauses edited flagged clauses = Ok [].
Proof.
  induction clauses as [|c cs IH]; [done|]. intros H. cbn [missing_clauses].
  destruct (H c ltac:(left)) as [Ht Hin]. rewrite Ht. unfold ensure. cbn [mbind result_bind].
  rewrite IH by (intros; apply H; by right). cbn [mbind result_bind].
  destruct Hin as [Hin|Hin]; rewrite (bool_decide_true _ Hin), ?orb_true_r; done.
Qed.

(** No clause is dropped in silence: when every clause of the playbook has an
    id and the writer applied every planned edit, each clause is edited or
    flagged, so the coverage oracle passes. *)
Theorem redline_covers_playbook body p clauses out author t key stamps rt r body' :
  load_playbook p = Ok clauses →
  redline (Some body) (Some p) out author t key stamps rt = Ok (r, Some body') →
  Forall (λ c, clause_id c ≠ "") clauses →
  (written author t body clauses).1 = Z.of_nat (length (planned body clauses)) →
  verify_clause_coverage r clauses = Ok true.
Proof.
  intros Hc H Hid Hn. apply redline_inv in H as (b & p' & cs & [= <-] & [= <-] & Hc' & Hne & _ & _ & Ha & Hf & _).
  rewrite Hc in Hc'. injection Hc' as <-. rewrite Hn, Nat2Z.id in Ha, Hf.
  rewrite firstn_all in Ha. unfold verify_clause_coverage. rewrite missing_clauses_nil.
  - destruct clauses as [|c cs]; [|done]. by destruct Hne.
  - intros c Hin. rewrite Forall_forall in Hid. split; [apply truthy_spec; by apply Hid|].
    destruct (found (extract_docx_text body) c) eqn:E.
    + left. rewrite Ha. unfold planned, plan. cbn [fst]. rewrite map_map. apply list_elem_of_fmap.
      exists c. split; [done|]. apply list_elem_of_In, filter_In. split; [by apply list_elem_of_In|done].
    + right. rewrite Hf, map_app. apply elem_of_app. left. unfold plan. cbn [snd]. rewrite map_map.
      apply list_elem_of_fmap. exists c. split; [done|]. apply list_elem_of_In, filter_In.
      split; [by apply list_elem_of_In|]. by rewrite E.
Qed.

(** The change that the transaction expects for an applied edit. *)
Definition expected_change (author : string) (a : AppliedEdit) : change :=
  {| old := old_text a; new := ae_new_text a; ch_author := Some author |}.

(** C12.  The document says what the report says: on a contract of plain paragraphs,
    when the playbook's texts have no blanks around them and one line
    replacements, and every planned edit lands in a paragraph of its own, the
    saved document passes the read-back for exactly the reported edits. *)
Theorem redline_output_verified body ts p clauses out author t key stamps rt r body' attrs text :
  load_playbook p = Ok clauses →
  redline (Some body) (Some p) out author t key stamps rt = Ok (r, Some body') →
  plain_document author t body ts → nonblank (Some author) = true → nonblank (Some t) = true →
  Forall (λ a, strip (old_text a) = old_text a ∧ single_line (ae_new_text a) = true) (planned body clauses) →
  once (map edit_of (planned body clauses)) (map Plain ts) = true →
  (written author t body clauses).1 = Z.of_nat (length (planned body clauses)) →
  verify_docx_tracked_changes (Elem (q "body") attrs text body') (map (expected_change author) (applied_edits r))
    true true true None None = Ok true.
Proof.
  intros Hc H Hd Hau Ht Hs Ho Hn.
  apply redline_inv in H as (b & p' & cs & [= <-] & [= <-] & Hc' & Hne & _ & Hb & Ha & _ & _).
  rewrite Hc in Hc'. injection Hc' as <-. rewrite Hn, Nat2Z.id, firstn_all in Ha. rewrite Ha, Hb.
  assert (map (expected_change author) (planned body clauses) =
          map (change_of author) (map edit_of (planned body clauses))) as ->.
  { rewrite map_map. apply map_ext_in. intros a Hin. rewrite Forall_forall in Hs.
    destruct (Hs a) as [E _]; [by apply list_elem_of_In|]. unfold change_of, expected_change. cbn [edit_of target_text new_text].
    by rewrite E. }
  apply (written_passes_readback author t attrs text body ts); [done|done|done| | |done|].
  - intros E. apply Hne. by destruct (planned body clauses).
  - rewrite forallb_forall. intros e (a & <- & Hin)%in_map_iff. rewrite Forall_forall in Hs.
    apply list_elem_of_In in Hin as Hin'. destruct (Hs a Hin') as [E1 E2]. cbn [edit_of target_text new_text].
    rewrite E1, E2. cbn [andb]. apply planned_spec in Hin' as (c & _ & Hf & ->). cbn [applied_edit old_text].
    unfold found, find_clause_in_text in Hf. by destruct (truthy (member "match_text" "" c)).
  - by rewrite length_map.
Qed.

(** The contents the log of a run should have, given its report. *)
Definition edit_content (a : AppliedEdit) : string * dict :=
  ("edit_applied", [("clause_id", JStr (ae_clause_id a)); ("clause_label", JStr (clause_label a));
                    ("old_text", JStr (old_text a)); ("new_text", JStr (ae_new_text a));
                    ("citation", JStr (citation a)); ("rationale", JStr (rationale a))]).
Definition flag_content (f : FlaggedClause) : string * dict :=
  ("clause_flagged", [("clause_id", JStr (fc_clause_id f)); ("clause_label", JStr (fc_clause_label f));
                      ("reason", JStr (reason f))]).

Lemma redline_calls_content h id applied flagged n inj stamps :
  map call_content (redline_calls h id applied flagged n inj stamps) =
  ("run_started", [("playbook_id", JStr id)]) :: map edit_content applied ++ map flag_content flagged ++
  [("run_completed", [("total_edits", JInt n); ("total_flagged", JInt (Z.of_nat (length flagged)));
                      ("injection_detected", JBool inj)])].
Proof.
  unfold redline_calls. generalize stamps. clear stamps.
  assert (∀ (l : list (string → string → edit_call)) (c : (string → string → edit_call) → string * dict) st,
    (∀ f, f ∈ l → ∀ u t, call_content (f u t) = c f) →
    map call_content (imap (λ i f, f (st i).1 (st i).2 : edit_call) l) = map c l) as HI.
  { clear. intros l. induction l as [|f l IH]; intros c st H; [done|]. rewrite imap_cons. cbn [map].
    rewrite (H f ltac:(left)). f_equal. apply (IH c (st ∘ S)). intros g Hg. apply H. by right. }
  intros stamps. rewrite (HI _ (λ f, call_content (f "" "")) stamps).
  - cbn [map]. rewrite !map_app, !map_map. reflexivity.
  - intros f Hf u t. apply elem_of_cons in Hf as [->|Hf]; [done|]. apply elem_of_app in Hf as [Hf|Hf].
    { apply list_elem_of_fmap in Hf as (a & -> & _). done. }
    apply elem_of_app in Hf as [Hf|Hf].
    { apply list_elem_of_fmap in Hf as (a & -> & _). done. }
    apply list_elem_of_singleton in Hf as ->. done.
Qed.

(** A signed run: the audit log in the result passes the integrity oracle
    under the public key and records, in order, the start, exactly the reported
    edits and flags, and the totals; and the egress report verifies and carries
    the hash of that log. *)
Theorem redline_log_exact contract pb out author t key stamps rt r body' :
  redline contract pb out author t (Some key) stamps rt = Ok (r, Some body') →
  String.length key = 32%nat →
  ∃ log rep id n,
    audit_log_json r = EditLog.to_json log ∧
    verify_audit_log_integrity (entries log) (ed_public key) = Ok true ∧
    map content (entries log) =
      ("run_started", [("playbook_id", JStr id)]) :: map edit_content (applied_edits r) ++
      map flag_content (flagged_clauses r) ++
      [("run_completed", [("total_edits", JInt n); ("total_flagged", JInt (Z.of_nat (length (flagged_clauses r))));
                          ("injection_detected", JBool (rr_injection_detected r))])] ∧
    egress_report_json r = EgressReport.to_json rep ∧
    verify_zero_egress_report rep (ed_public key) = true ∧
    audit_log_hash rep = sha256_hex (utf8 (audit_log_json r)).
Proof.
  intros H Hk. apply redline_inv in H as (b & p & cs & -> & -> & Hc & _ & _ & _ & _ & _ & log & -> & Hl & He).
  set (n := (written author t b cs).1) in *. set (id := default "unknown" (pb_id p)) in *.
  set (calls := redline_calls _ _ _ _ _ _ _) in *.
  eexists (run_edit_calls calls key), _, id, n. split; [exact Hl|].
  split; [apply edit_log_verifies; [exact Hk|discriminate]|].
  split; [rewrite run_edit_calls_content; apply redline_calls_content|]. split; [exact He|]. split.
  - unfold verify_zero_egress_report, generate_zero_egress_report. cbv zeta. by apply verify_hex_sign.
  - reflexivity.
Qed.
End Lemmas.

(** ** Concrete runs *)

Section Witnesses.
#[local] Existing Instance exact_float_repr.
#[local] Existing Instance plain_signatures.
#[local] Existing Instance demo_api.

Definition no_injection (text : string) : bool * f64 * list string := (false, f0, []).
Definition demo_clause (id match_text replacement : string) : clause :=
  [("clause_id", id); ("match_text", match_text); ("replacement_text", replacement); ("citation", "Firm " +:+ id)].
Definition law : clause := demo_clause "governing_law" "laws of Delaware" "laws of New York".
Definition notice : clause := demo_clause "notice" "30 days" "60 days".
Definition cap : clause := demo_clause "cap" "unlimited liability" "capped liability".
Definition book (cs : list clause) : playbook := {| pb_clauses := Some cs; pb_id := Some "firm_v1" |}.
Definition demo_stamps (i : nat) : string * string := (pretty i, "t").

Abbreviation demo_redline texts cs :=
  (redline_contract no_injection (Some (map demo_paragraph texts)) (Some (book cs)) "out.docx" "Kairo" stamp
    (Some demo_key) demo_stamps "t9").

Definition result_of (x : result (RedlineResult * option (list xml))) : RedlineResult * list xml :=
  match x with Ok (r, Some b) => (r, b) | _ => (failed "" [] (false, f0, []), []) end.

(** A contract with each text in one paragraph, and one that breaks the first. *)
Definition whole : list string := ["The laws of Delaware govern."; "Notice: 30 days."].
Definition broken : list string := ["The laws of"; "Delaware govern. Notice: 30 days."].

Definition good := result_of (demo_redline whole [law; cap; notice]).
Lemma good_run : demo_redline whole [law; cap; notice] = Ok (good.1, Some good.2).
Proof. vm_compute. reflexivity. Qed.

Definition bad := result_of (demo_redline broken [law; notice]).
Lemma bad_run : demo_redline broken [law; notice] = Ok (bad.1, Some bad.2).
Proof. vm_compute. reflexivity. Qed.

(** A skipped edit is reported as applied.  The text of the first clause runs
    over a paragraph break: the plan finds it, the writer does not, and the
    second clause is written; the result reports the first clause as applied
    and flags the second, and the read-back of the report fails. *)
Theorem skipped_edit_misreported :
  ∃ r body', demo_redline broken [law; notice] = Ok (r, Some body') ∧
    map ae_clause_id (applied_edits r) = ["governing_law"] ∧
    map fc_clause_id (flagged_clauses r) = ["notice"] ∧
    map r_text (extract_revisions (Elem (q "body") [] "" body')) = ["30 days"; "60 days"] ∧
    is_ok (verify_docx_tracked_changes (Elem (q "body") [] "" body')
      (map (expected_change "Kairo") (applied_edits r)) true true true None None) = false.
Proof. exists bad.1, bad.2. split; [exact bad_run|]. by vm_compute. Qed.

Definition dropped := result_of (demo_redline ["The laws of"; "Delaware govern."] [cap; law]).
Lemma dropped_run : demo_redline ["The laws of"; "Delaware govern."] [cap; law] = Ok (dropped.1, Some dropped.2).
Proof. vm_compute. reflexivity. Qed.

(** A clause is dropped in silence.  The skipped edit is the first edit but
    the second clause; the pipeline flags the first clause twice, returns [ok],
    and the coverage oracle rejects the result. *)
Theorem skipped_clause_dropped :
  ∃ r body', demo_redline ["The laws of"; "Delaware govern."] [cap; law] = Ok (r, Some body') ∧
    ok r = true ∧ applied_edits r = [] ∧ map fc_clause_id (flagged_clauses r) = ["cap"; "cap"] ∧
    is_ok (verify_clause_coverage r [cap; law]) = false.
Proof. exists dropped.1, dropped.2. split; [exact dropped_run|]. by vm_compute. Qed.

Lemma redline_invents_nothing_witness :
  (∀ a, a ∈ applied_edits good.1 →
     ∃ c, c ∈ [law; cap; notice] ∧ found (extract_docx_text (map demo_paragraph whole)) c = true ∧ a = applied_edit c) ∧
  verify_no_hallucinated_citation good.1 [law; cap; notice] = Ok true.
Proof.
  destruct (redline_invents_nothing no_injection _ (book [law; cap; notice]) [law; cap; notice] _ _ _ _ _ _ _ _ eq_refl good_run)
    as (H1 & _ & H2). split; [exact H1|exact H2].
Defined.

Lemma redline_covers_playbook_witness : verify_clause_coverage good.1 [law; cap; notice] = Ok true.
Proof.
  apply (redline_covers_playbook no_injection (map demo_paragraph whole) (book [law; cap; notice]) _ _ _ _ _ _ _ _ _ eq_refl good_run).
  - repeat (constructor; [discriminate|]). constructor.
  - vm_compute. reflexivity.
Defined.

Lemma demo_whole : plain_document "Kairo" stamp (map demo_paragraph whole) whole.
Proof. repeat (apply doc_paragraph; [by apply demo_plain|]). constructor. Qed.

Lemma redline_output_verified_witness :
  verify_docx_tracked_changes (Elem (q "body") [] "" good.2) (map (expected_change "Kairo") (applied_edits good.1))
    true true true None None = Ok true.
Proof.
  apply (redline_output_verified no_injection (map demo_paragraph whole) whole (book [law; cap; notice])
    [law; cap; notice] _ _ _ _ _ _ _ _ [] "" eq_refl good_run demo_whole); [by vm_compute|by vm_compute| |by vm_compute|by vm_compute].
  apply (bool_decide_unpack _). vm_compute. exact I.
Defined.

Lemma redline_log_exact_witness :
  ∃ log, audit_log_json good.1 = EditLog.to_json log ∧ verify_audit_log_integrity (entries log) (ed_public demo_key) = Ok true.
Proof.
  destruct (redline_log_exact no_injection _ _ _ _ _ _ _ _ _ _ good_run eq_refl) as (log & rep & id & n & H1 & H2 & _).
  exists log. split; [exact H1|exact H2].
Defined.
End Witnesses.
