(* ===== verification/LegalV3.v ===== *)
(** * Governed legal transactions: propose, approve, execute, verify

    [kairo/legal_v3/transaction.py] on top of the redline pipeline.  JSON
    objects are [dict]s; expiry times are integers, as [propose] writes them.
    The file system is a map from resolved paths to files.  [Path.resolve],
    [json.loads], the docx reader and writer, fresh identifiers and the clock
    are arguments. *)

From S2P Require Import Prelude PyStr PyFloat PyDict Json Sha256 Base64 Ed25519 HashChain.
From S2P Require Import TrackedChanges EditLog EgressReport Redline.

Definition PROFILE : string := "kairo-legal-v3".
Definition ACTION : string := "mutual_nda.redline".
Definition MAX_BYTES : Z := 25 * 1024 * 1024.
Definition EVENTS : list string :=
  ["INPUT_OBSERVED"; "TRUST_CLASSIFIED"; "POLICY_DECISION"; "ACTION_INTENT"; "APPROVAL_BOUND"; "ACTION_ATTEMPT";
   "ARTIFACT_READBACK"; "RUN_CLOSED"].
Definition ALLOWED_CLAUSES : list string :=
  ["governing_law"; "liability_cap"; "termination_notice"; "confidentiality_survival"; "indemnification_cap"].

Definition legal_error {A} (msg : string) : result A := raise "LegalV3Error" msg.

(** ** Canonical bytes, keys and signatures *)

(** The inner function [walk], on an object whose keys are sorted. *)
Fixpoint walk (v : json) : result () :=
  match v with
  | JFloat _ => legal_error "floats forbidden in signed objects"
  | JInt z => if 9007199254740991 <? Z.abs z then legal_error "unsafe integer" else Ok ()
  | JArr l => (fix go l := match l with [] => Ok () | x :: l' => _ ← walk x; go l' end) l
  | JObj l => (fix go l := match l with [] => Ok () | (_, x) :: l' => _ ← walk x; go l' end) l
  | _ => Ok ()
  end.

(** A file system: what each resolved path holds. *)
Inductive file_kind := Regular | Symlink | OtherFile.
Record file := { f_kind : file_kind; f_bytes : bytes }.
Abbreviation files := (gmap (list string) file).

Section Canonical.
Context `{FR : FloatRepr} `{ED : Ed25519}.

Definition canonical (v : json) : result bytes := _ ← walk (canon v); Ok (Json.canonical false v).

Definition sha (data : bytes) : string := sha256_hex data.

Record keypair := { role : string; key_id : string; k_private : string; k_public : string }.

(** [generate_keypair], from the seed that was drawn. *)
Definition generate_keypair (role : string) (seed : bytes) : result keypair :=
  if bool_decide (role ∈ ["producer"; "approver"; "observer"]) then
    Ok {| role := role; key_id := take_str 16 (sha (ed_public seed)); k_private := b64encode seed;
          k_public := b64encode (ed_public seed) |}
  else legal_error "invalid role".

(** [Ed25519PrivateKey.from_private_bytes], [Ed25519PublicKey.from_public_bytes] *)
Definition key_bytes (b : bytes) : result bytes :=
  if (String.length b =? 32)%nat then Ok b else raise "ValueError" "An Ed25519 key is 32 bytes long".

Definition sign (obj : dict) (key : keypair) : result string :=
  raw ← b64decode (k_private key); sk ← key_bytes raw; c ← canonical (JObj obj);
  Ok (b64encode (ed_sign sk c)).

Definition verify_sig (obj : dict) (sig : json) (pub_b64 : string) : bool :=
  match (raw ← b64decode pub_b64; pub ← key_bytes raw;
         s ← match sig with JStr s => b64decode s | _ => raise "TypeError" "a bytes-like object is required" end;
         c ← canonical (JObj obj);
         Ok (ed_verify pub s c)) with
  | Ok b => b
  | Raise _ => false
  end.

(** ** Dicts *)

(** [{k: v for k, v in d.items() if k not in ks}] *)
Definition without (ks : list string) (d : dict) : dict := List.filter (λ p, negb (bool_decide (p.1 ∈ ks))) d.

(** [d.get(k)]; an absent member reads as [None]. *)
Definition get_none (k : string) (d : dict) : json := default JNull (assoc k d).

Definition str_item (k : string) (d : dict) : result string :=
  v ← item k d; match v with JStr s => Ok s | _ => raise "TypeError" "str expected" end.
Definition int_item (k : string) (d : dict) : result Z :=
  v ← item k d; match v with JInt z => Ok z | _ => raise "TypeError" "int expected" end.

(** Looking up [keys[v]] for a member [v] of a JSON object: lists and dicts
    are not hashable, and no other value than a string is a key. *)
Definition lookup_key (v : json) (keys : list (string * string)) : result (option string) :=
  match v with
  | JStr s => Ok (assoc s keys)
  | JArr _ | JObj _ => raise "TypeError" "unhashable type"
  | _ => Ok None
  end.

(** ** Files *)

Definition read_regular (path : list string) (fs : files) : result bytes :=
  match fs !! path with
  | None => raise "FileNotFoundError" (join "/" path)
  | Some f =>
      match f_kind f with
      | Regular => if MAX_BYTES <? len (f_bytes f) then legal_error "file too large" else Ok (f_bytes f)
      | _ => legal_error "regular non-symlink file required"
      end
  end.

Definition write_file (path : list string) (b : bytes) : files → files := <[path := {| f_kind := Regular; f_bytes := b |}]>.

(** [root in path.parents], [path.parent] *)
Definition strictly_under (root path : list string) : bool :=
  bool_decide (take (length root) path = root) && (length root <? length path)%nat.
Definition parent (path : list string) : list string := take (length path - 1) path.

(** [_allowed_playbook] *)
Fixpoint require_fields (fields : list string) (clause : dict) : result () :=
  match fields with
  | [] => Ok ()
  | f :: fields' =>
      _ ← match assoc f clause with
          | Some (JStr s) => ensure (truthy (strip s)) "LegalV3Error" ("missing " +:+ f)
          | _ => legal_error ("missing " +:+ f)
          end;
      require_fields fields' clause
  end.

Definition allowed_clause (v : json) : result () :=
  match v with
  | JObj clause =>
      _ ← match get_none "clause_id" clause with
          | JStr s => ensure (bool_decide (s ∈ ALLOWED_CLAUSES)) "LegalV3Error" "outside mutual-NDA operation set"
          | JArr _ | JObj _ => raise "TypeError" "unhashable type"
          | _ => legal_error "outside mutual-NDA operation set"
          end;
      require_fields ["match_text"; "replacement_text"; "citation"; "rationale"] clause
  | _ => legal_error "invalid clause"
  end.

Definition allowed_playbook (playbook : dict) : result (list json) :=
  match assoc "clauses" playbook with
  | Some (JArr ((_ :: _) as l)) => _ ← mapM_result allowed_clause l; Ok l
  | _ => legal_error "clauses required"
  end.

Section Transaction.
(** [(root / relative).resolve()] and [json.loads(data.decode("utf-8"))]. *)
Variable resolve : list string → string → list string.
Variable loads : bytes → result json.

Definition load_json_bytes (data : bytes) : result dict :=
  match loads data with
  | Raise _ => legal_error "invalid UTF-8 JSON"
  | Ok (JObj d) => Ok d
  | Ok _ => legal_error "JSON object required"
  end.

Definition resolve_under_root (root : list string) (relative : string) : result (list string) :=
  let candidate := resolve root relative in
  if bool_decide (candidate = root) || strictly_under root candidate then Ok candidate
  else legal_error "path escape".

(** ** Propose and approve *)

Definition propose (root : list string) (source playbook output : string) (producer_key : keypair) (ttl : Z)
    (now : Z) (uuid : string) (fs : files) : result dict :=
  _ ← ensure (bool_decide (role producer_key = "producer")) "LegalV3Error" "producer key required";
  source_path ← resolve_under_root root source;
  playbook_path ← resolve_under_root root playbook;
  source_bytes ← read_regular source_path fs;
  playbook_bytes ← read_regular playbook_path fs;
  data ← load_json_bytes playbook_bytes;
  clauses ← allowed_playbook data;
  let unsigned : dict :=
    [("profile", JStr PROFILE); ("proposal_id", JStr uuid); ("action", JStr ACTION); ("source", JStr source);
     ("playbook", JStr playbook); ("output", JStr output); ("source_sha256", JStr (sha source_bytes));
     ("playbook_sha256", JStr (sha playbook_bytes)); ("clauses", JArr clauses); ("issued_at", JInt now);
     ("expires_at", JInt (now + ttl)); ("producer_key_id", JStr (key_id producer_key))] in
  c ← canonical (JObj unsigned);
  let proposal := unsigned ++ [("intent_sha256", JStr (sha c))] in
  s ← sign (without ["signature"] proposal) producer_key;
  Ok (proposal ++ [("signature", JStr s)]).

Definition approve (proposal : dict) (approver_key : keypair) (ttl : Z) (now : Z) (uuid nonce : string) : result dict :=
  _ ← ensure (bool_decide (role approver_key = "approver")) "LegalV3Error" "approver key required";
  intent ← item "intent_sha256" proposal;
  source ← item "source_sha256" proposal;
  playbook ← item "playbook_sha256" proposal;
  expires ← int_item "expires_at" proposal;
  let unsigned : dict :=
    [("profile", JStr PROFILE); ("approval_id", JStr uuid); ("decision", JStr "approve"); ("intent_sha256", intent);
     ("source_sha256", source); ("playbook_sha256", playbook); ("principal", JStr (key_id approver_key));
     ("issued_at", JInt now); ("expires_at", JInt (Z.min (now + ttl) expires)); ("nonce", JStr nonce)] in
  s ← sign unsigned approver_key;
  Ok (unsigned ++ [("signature", JStr s)]).

Definition BOUND_FIELDS : list string := ["intent_sha256"; "source_sha256"; "playbook_sha256"].

(** A signed object whose signer is the member [who]. *)
Definition signed_by (who : string) (obj : dict) (keys : list (string * string)) : result bool :=
  k ← lookup_key (get_none who obj) keys;
  Ok (match k with
      | Some pub => verify_sig (without ["signature"] obj) (default (JStr "") (assoc "signature" obj)) pub
      | None => false
      end).

Definition verify_approval (proposal approval : dict) (keys : list (string * string)) (now : Z) : result () :=
  c ← canonical (JObj (without ["signature"; "intent_sha256"] proposal));
  _ ← ensure (py_eq (JStr (sha c)) (get_none "intent_sha256" proposal)) "LegalV3Error" "proposal digest mismatch";
  ok ← signed_by "producer_key_id" proposal keys;
  _ ← ensure ok "LegalV3Error" "invalid proposal signature";
  _ ← ensure (py_eq (get_none "decision" approval) (JStr "approve")) "LegalV3Error" "approval expired/denied";
  issued ← int_item "issued_at" approval;
  _ ← ensure (issued <=? now) "LegalV3Error" "approval expired/denied";
  expires ← int_item "expires_at" approval;
  _ ← ensure (now <? expires) "LegalV3Error" "approval expired/denied";
  p_expires ← int_item "expires_at" proposal;
  _ ← ensure (now <? p_expires) "LegalV3Error" "approval expired/denied";
  _ ← ensure (forallb (λ f, py_eq (get_none f approval) (get_none f proposal)) BOUND_FIELDS)
        "LegalV3Error" "approval substitution";
  ok ← signed_by "principal" approval keys;
  ensure ok "LegalV3Error" "invalid approval signature".

(** ** Execution *)

Record manifest := {
  run_id : string; m_files : list (string * string); m_proposal : dict; m_approval : dict;
  public_keys : list (string * string); observer_key_id : string; m_events : list dict }.

Definition event_of (sequence : Z) (event_type : string) (previous : json) (payload : dict) (observer : keypair) :
    result dict :=
  let unsigned : dict :=
    [("sequence", JInt sequence); ("event_type", JStr event_type); ("previous_event_sha256", previous);
     ("payload", JObj payload); ("observer_key_id", JStr (key_id observer))] in
  c ← canonical (JObj unsigned);
  s ← sign unsigned observer;
  Ok (unsigned ++ [("event_sha256", JStr (sha c)); ("signature", JStr s)]).

(** The loop over [enumerate(EVENTS)]. *)
Definition status_of (event_type : string) : string :=
  if bool_decide (event_type = "RUN_CLOSED") then "success" else "recorded".

Fixpoint build_events (types : list string) (index : Z) (previous : json) (base_payload : dict) (observer : keypair) :
    result (list dict) :=
  match types with
  | [] => Ok []
  | t :: types' =>
      e ← event_of index t previous (base_payload ++ [("status", JStr (status_of t))]) observer;
      h ← item "event_sha256" e;
      es ← build_events types' (index + 1) h base_payload observer;
      Ok (e :: es)
  end.

Definition edit_json (author : string) (a : AppliedEdit) : json :=
  JObj [("old", JStr (old_text a)); ("new", JStr (ae_new_text a)); ("author", JStr author)].
Definition flag_json (f : FlaggedClause) : json :=
  JObj [("clause_id", JStr (fc_clause_id f)); ("clause_label", JStr (fc_clause_label f)); ("reason", JStr (reason f))].

Definition AUTHOR : string := "Kairo Legal v3".

(** The documents: [docx.Document], [Document.save] and the playbook that
    [_load_playbook] decodes. *)
Context `{PA : ParagraphApi}.
Variable parse_docx : bytes → result (list xml).
Variable save_docx : list xml → bytes.
Variable parse_playbook : bytes → result playbook.
Variable scan : string → bool * f64 * list string.

Definition SOURCE_NAME : string := "source.docx".
Definition PLAYBOOK_NAME : string := "playbook.json".
Definition OUTPUT_NAME : string := "output.docx".

(** The redline of step two: its result and the document it saved. *)
Definition redline_files (source_bytes playbook_bytes : bytes) (timestamp : string) :
    result (RedlineResult * list xml) :=
  body ← parse_docx source_bytes;
  pb ← parse_playbook playbook_bytes;
  res ← redline_contract scan (Some body) (Some pb) "" AUTHOR timestamp None (λ _, ("", "")) "";
  match res with
  | (r, Some saved) => Ok (r, saved)
  | (r, None) => legal_error (error r)
  end.

(** A run that raises returns no files: what it had written by then is not part
    of the model. *)
Definition execute (root : list string) (proposal approval : dict) (keys : list (string * string))
    (observer_key : keypair) (bundle : list string) (now : Z) (timestamp uuid : string) (fs : files) :
    result (manifest * files) :=
  _ ← ensure (bool_decide (role observer_key = "observer")
              && negb (py_eq (JStr (key_id observer_key)) (get_none "producer_key_id" proposal))
              && negb (py_eq (JStr (key_id observer_key)) (get_none "principal" approval)))
        "LegalV3Error" "independent observer identity required";
  source ← str_item "source" proposal;
  source_path ← resolve_under_root root source;
  playbook ← str_item "playbook" proposal;
  playbook_path ← resolve_under_root root playbook;
  output ← str_item "output" proposal;
  output_path ← resolve_under_root root output;
  _ ← ensure (strictly_under root (parent output_path) || bool_decide (parent output_path = root))
        "LegalV3Error" "path escape";
  _ ← ensure (match fs !! output_path with Some {| f_kind := Symlink |} => false | _ => true end)
        "LegalV3Error" "symlink output";
  source_bytes ← read_regular source_path fs;
  playbook_bytes ← read_regular playbook_path fs;
  source_sha ← item "source_sha256" proposal;
  _ ← ensure (py_eq (JStr (sha source_bytes)) source_sha) "LegalV3Error" "source/playbook substitution";
  playbook_sha ← item "playbook_sha256" proposal;
  _ ← ensure (py_eq (JStr (sha playbook_bytes)) playbook_sha) "LegalV3Error" "source/playbook substitution";
  _ ← verify_approval proposal approval keys now;
  out ← redline_files source_bytes playbook_bytes timestamp;
  let '(r, saved) := out in
  _ ← verify_docx_tracked_changes (Elem (q "body") [] "" saved)
        (map (expected_change AUTHOR) (applied_edits r)) true true true None None;
  let fs := write_file output_path (save_docx saved) fs in
  output_bytes ← read_regular output_path fs;
  copy ← read_regular source_path fs;
  let fs := write_file (bundle ++ [SOURCE_NAME]) copy fs in
  copy ← read_regular playbook_path fs;
  let fs := write_file (bundle ++ [PLAYBOOK_NAME]) copy fs in
  copy ← read_regular output_path fs;
  let fs := write_file (bundle ++ [OUTPUT_NAME]) copy fs in
  intent ← item "intent_sha256" proposal;
  approval_id ← item "approval_id" approval;
  let base_payload : dict :=
    [("source_sha256", JStr (sha source_bytes)); ("playbook_sha256", JStr (sha playbook_bytes));
     ("intent_sha256", intent); ("approval_id", approval_id); ("output_sha256", JStr (sha output_bytes));
     ("applied_edits", JArr (map (edit_json AUTHOR) (applied_edits r)));
     ("flagged", JArr (map flag_json (flagged_clauses r)))] in
  events ← build_events EVENTS 0 JNull base_payload observer_key;
  Ok ({| run_id := uuid;
         m_files := [("source", SOURCE_NAME); ("playbook", PLAYBOOK_NAME); ("output", OUTPUT_NAME)];
         m_proposal := proposal; m_approval := approval;
         public_keys := dict_set (key_id observer_key) (k_public observer_key) keys;
         observer_key_id := key_id observer_key; m_events := events |}, fs).

(** ** Verification *)

Abbreviation checks := (list (bool * string)).

(** [events[-1]["payload"][key]] *)
Definition last_payload (key : string) (m : manifest) : result json :=
  match last (m_events m) with
  | None => raise "IndexError" "list index out of range"
  | Some e => p ← item "payload" e; match p with JObj d => item key d | _ => raise "TypeError" "string indices" end
  end.

Definition check_file (bundle : list string) (m : manifest) (fs : files) (entry : string * string) : result checks :=
  let file_path := resolve bundle entry.2 in
  let confined := strictly_under bundle file_path in
  let is_file := match fs !! file_path with Some {| f_kind := Regular |} => true | _ => false end in
  expected ← last_payload (entry.1 +:+ "_sha256") m;
  hash_ok ← (if confined then b ← read_regular file_path fs; Ok (py_eq (JStr (sha b)) expected) else Ok false);
  Ok [(confined && is_file, entry.1 +:+ " path confinement"); (hash_ok, entry.1 +:+ " hash")].

Definition check_event (m : manifest) (index : Z) (previous : json) (event : dict) : result (json * checks) :=
  let unsigned := without ["event_sha256"; "signature"] event in
  seq ← item "sequence" event;
  linked ← (if py_eq seq (JInt index)
            then p ← item "previous_event_sha256" event; Ok (py_eq p previous) else Ok false);
  c ← canonical (JObj unsigned);
  h ← item "event_sha256" event;
  sig ← item "signature" event;
  observer ← item "observer_key_id" event;
  k ← lookup_key observer (public_keys m);
  pub ← match k with Some pub => Ok pub | None => raise "KeyError" "public_keys" end;
  Ok (h, [(linked, "sequence/parent"); (py_eq (JStr (sha c)) h, "event digest");
          (verify_sig unsigned sig pub, "event signature")]).

Fixpoint check_events (m : manifest) (index : Z) (previous : json) (events : list dict) : result checks :=
  match events with
  | [] => Ok []
  | e :: events' =>
      r ← check_event m index previous e;
      rest ← check_events m (index + 1) r.1 events';
      Ok (r.2 ++ rest)
  end.

(** A check by a key of the bundle; an unknown signer has the key [""]. *)
Definition check_signer (who : string) (obj : dict) (m : manifest) : result bool :=
  k ← lookup_key (get_none who obj) (public_keys m);
  Ok (verify_sig (without ["signature"] obj) (default (JStr "") (assoc "signature" obj)) (default "" k)).

Fixpoint concat_results {A} (l : list (result (list A))) : result (list A) :=
  match l with [] => Ok [] | r :: l' => x ← r; rest ← concat_results l'; Ok (x ++ rest) end.

Definition bundle_checks (bundle : list string) (m : manifest) (fs : files) : result checks :=
  file_checks ← concat_results (map (check_file bundle m fs) (m_files m));
  c ← canonical (JObj (without ["signature"; "intent_sha256"] (m_proposal m)));
  p_sig ← check_signer "producer_key_id" (m_proposal m) m;
  a_sig ← check_signer "principal" (m_approval m) m;
  producer ← item "producer_key_id" (m_proposal m);
  principal ← item "principal" (m_approval m);
  event_checks ← check_events m 0 JNull (m_events m);
  types ← mapM_result (item "event_type") (m_events m);
  Ok (file_checks ++
      [(py_eq (JStr (sha c)) (get_none "intent_sha256" (m_proposal m)), "proposal digest");
       (p_sig, "proposal signature");
       (forallb (λ f, py_eq (get_none f (m_approval m)) (get_none f (m_proposal m))) BOUND_FIELDS, "approval binding");
       (a_sig, "approval signature");
       (negb (py_eq (JStr (observer_key_id m)) producer) && negb (py_eq (JStr (observer_key_id m)) principal),
        "observer independence")] ++
      event_checks ++
      [((length types =? length EVENTS)%nat && forallb (λ p, py_eq p.1 (JStr p.2)) (zip types EVENTS),
        "mandatory state machine")]).

(** [verify_bundle]: [ok] and the checks. *)
Definition verify_bundle (bundle : list string) (m : manifest) (fs : files) : result (bool * checks) :=
  cs ← bundle_checks bundle m fs; Ok (forallb fst cs, cs).
End Transaction.
End Canonical.

(** ** Signatures and events *)

Section Events.
Context `{FR : FloatRepr} `{ED : Ed25519}.

(** A key pair as [generate_keypair] makes it. *)
Definition wf_key (key : keypair) : Prop :=
  ∃ seed, String.length seed = 32%nat ∧ k_private key = b64encode seed ∧ k_public key = b64encode (ed_public seed).

Lemma generate_wf role seed key : String.length seed = 32%nat → generate_keypair role seed = Ok key → wf_key key.
Proof. unfold generate_keypair. intros Hl. destruct (bool_decide _); [|done]. intros [= <-]. by exists seed. Qed.

Lemma key_bytes_32 b : String.length b = 32%nat → key_bytes b = Ok b.
Proof. intros H. unfold key_bytes. by rewrite H. Qed.

Lemma sign_Ok obj key s : wf_key key → sign obj key = Ok s →
  ∃ c, canonical (JObj obj) = Ok c ∧ verify_sig obj (JStr s) (k_public key) = true.
Proof.
  intros (seed & Hl & Hp & Hu). unfold sign. rewrite Hp, b64decode_encode. cbn [mbind result_bind].
  rewrite key_bytes_32 by done. cbn [mbind result_bind]. intros (c & Hc & [= <-])%bind_Ok. exists c. split; [done|].
  unfold verify_sig. rewrite Hu, !b64decode_encode. cbn [mbind result_bind].
  rewrite key_bytes_32 by (by apply length_ed_public). cbn [mbind result_bind].
  rewrite Hc. cbn [mbind result_bind]. by apply ed_verify_sign.
Qed.

Lemma py_eq_str s v : py_eq (JStr s) v = true ↔ v = JStr s.
Proof. destruct v; cbn; split; try discriminate; [|intros [= ->]; by rewrite bool_decide_true]. intros H. by bool_prop; subst. Qed.

Lemma py_eq_str_r s v : py_eq v (JStr s) = true ↔ v = JStr s.
Proof. destruct v; cbn; split; try discriminate; [|intros [= ->]; by rewrite bool_decide_true]. intros H. by bool_prop; subst. Qed.

(** The previous hash of an event: none, or that of its predecessor. *)
Definition link (prev : json) : Prop := prev = JNull ∨ ∃ h, prev = JStr h.

Lemma link_eq prev : link prev → py_eq prev prev = true.
Proof. intros [->|[h ->]]; [done|]. by apply py_eq_str. Qed.

(** An event that [_event] builds passes its three checks. *)
Lemma event_checks m i t prev payload key e :
  wf_key key → link prev → assoc (key_id key) (public_keys m) = Some (k_public key) →
  event_of i t prev payload key = Ok e →
  ∃ h, item "event_sha256" e = Ok (JStr h) ∧ item "event_type" e = Ok (JStr t) ∧ item "payload" e = Ok (JObj payload) ∧
    check_event m i prev e = Ok (JStr h, [(true, "sequence/parent"); (true, "event digest"); (true, "event signature")]).
Proof.
  intros Hw Hlink Hk. unfold event_of. intros (c & Hc & H)%bind_Ok. apply bind_Ok in H as (s & Hs & H).
  set (u := [("sequence", JInt i); ("event_type", JStr t); ("previous_event_sha256", prev); ("payload", JObj payload);
             ("observer_key_id", JStr (key_id key))]) in *.
  destruct (sign_Ok u key s Hw Hs) as (c' & Hc' & Hv). remember (sha c) as h eqn:Hh in H.
  injection H as <-. exists h. split; [reflexivity|]. split; [reflexivity|]. split; [reflexivity|].
  unfold check_event. change (without _ _) with u.
  change (item "sequence" _) with (Ok (JInt i)). cbn [mbind result_bind].
  assert (py_eq (JInt i) (JInt i) = true) as -> by (cbn; apply Z.eqb_refl).
  change (item "previous_event_sha256" _) with (Ok prev). cbn [mbind result_bind].
  rewrite (link_eq _ Hlink), Hc. cbn [mbind result_bind].
  change (item "event_sha256" _) with (Ok (JStr h)). cbn [mbind result_bind].
  change (item "signature" _) with (Ok (JStr s)). cbn [mbind result_bind].
  change (item "observer_key_id" _) with (Ok (JStr (key_id key))). cbn [mbind result_bind lookup_key].
  rewrite Hk. cbn [mbind result_bind]. rewrite Hv. do 2 f_equal.
  assert (py_eq (JStr (sha c)) (JStr h) = true) as -> by (apply py_eq_str; by rewrite Hh). reflexivity.
Qed.

Lemma build_events_checks m types i prev payload key es :
  wf_key key → link prev → assoc (key_id key) (public_keys m) = Some (k_public key) →
  build_events types i prev payload key = Ok es →
  ∃ cs, check_events m i prev es = Ok cs ∧ forallb fst cs = true ∧
    mapM_result (item "event_type") es = Ok (map JStr types) ∧
    (types ≠ [] → ∃ e t, last es = Some e ∧ item "payload" e = Ok (JObj (payload ++ [("status", JStr t)]))).
Proof.
  intros Hw Hlink Hk. revert i prev es Hlink. induction types as [|t types IH]; intros i prev es Hlink; cbn [build_events].
  { intros [= <-]. exists []. by split_and!. }
  intros (e & He & H)%bind_Ok. apply bind_Ok in H as (h & Hh & H). apply bind_Ok in H as (es' & Hes & [= <-]).
  destruct (event_checks m _ _ _ _ _ _ Hw Hlink Hk He) as (h' & Hh' & Ht & Hp & Hc).
  rewrite Hh in Hh'. injection Hh' as ->.
  destruct (IH (i + 1) (JStr h') es') as (cs & Hcs & Hall & Hts & Hlast); [right; by exists h'|done|].
  eexists. split; [cbn [check_events]; rewrite Hc; cbn [mbind result_bind fst snd]; rewrite Hcs; reflexivity|].
  split; [cbn; exact Hall|]. split.
  { cbn [mapM_result map]. rewrite Ht. cbn [mbind result_bind]. rewrite Hts. reflexivity. }
  intros _. destruct types as [|t' types].
  - cbn in Hes. injection Hes as <-. exists e, (status_of t). split; [reflexivity|]. exact Hp.
  - destruct Hlast as (e' & t'' & Hl & Hp'); [done|]. exists e', t''. rewrite last_cons, Hl. by split.
Qed.
End Events.

(** ** What an execution has checked *)

Section Execution.
Context `{FR : FloatRepr} `{ED : Ed25519} `{PA : ParagraphApi}.
Variable resolve : list string → string → list string.
Variable parse_docx : bytes → result (list xml).
Variable save_docx : list xml → bytes.
Variable parse_playbook : bytes → result playbook.
Variable scan : string → bool * f64 * list string.
Abbreviation run := (execute resolve parse_docx save_docx parse_playbook scan).

(** The approval of a proposal, as [_verify_approval] accepts it at [now]. *)
Definition approved (proposal approval : dict) (keys : list (string * string)) (now : Z) : Prop :=
  (∃ c, canonical (JObj (without ["signature"; "intent_sha256"] proposal)) = Ok c ∧
        get_none "intent_sha256" proposal = JStr (sha c)) ∧
  signed_by "producer_key_id" proposal keys = Ok true ∧ signed_by "principal" approval keys = Ok true ∧
  get_none "decision" approval = JStr "approve" ∧
  (∃ i e p, int_item "issued_at" approval = Ok i ∧ int_item "expires_at" approval = Ok e ∧
            int_item "expires_at" proposal = Ok p ∧ i <= now < e ∧ now < p) ∧
  forallb (λ f, py_eq (get_none f approval) (get_none f proposal)) BOUND_FIELDS = true.

Lemma verify_approval_spec proposal approval keys now :
  verify_approval proposal approval keys now = Ok () → approved proposal approval keys now.
Proof.
  unfold verify_approval. intros (c & Hc & H)%bind_Ok.
  apply bind_Ok in H as ([] & H1%ensure_Ok%py_eq_str & H). apply bind_Ok in H as (b1 & Hb1 & H).
  apply bind_Ok in H as ([] & ->%ensure_Ok & H). apply bind_Ok in H as ([] & H2%ensure_Ok%py_eq_str_r & H).
  apply bind_Ok in H as (i & Hi & H). apply bind_Ok in H as ([] & Hle%ensure_Ok & H).
  apply bind_Ok in H as (e & He & H). apply bind_Ok in H as ([] & Hlt%ensure_Ok & H).
  apply bind_Ok in H as (p & Hp & H). apply bind_Ok in H as ([] & Hpt%ensure_Ok & H).
  apply bind_Ok in H as ([] & H3%ensure_Ok & H). apply bind_Ok in H as (b2 & Hb2 & ->%ensure_Ok).
  bool_prop. split; [by exists c|]. do 3 (split; [done|]). split; [|exact H3].
  exists i, e, p. split_and!; try done.
Qed.

Lemma resolve_inside root rel path : resolve_under_root resolve root rel = Ok path →
  path = resolve root rel ∧ (path = root ∨ strictly_under root path = true).
Proof.
  unfold resolve_under_root. destruct (bool_decide _) eqn:E; cbn [orb].
  - intros [= <-]. bool_prop. by split; [|left].
  - destruct (strictly_under root (resolve root rel)) eqn:E'; [|done]. intros [= <-]. by split; [|right].
Qed.

(** The run that an execution accepted: paths, bytes, redline, and the files
    and manifest it left. *)
Lemma execute_inv root proposal approval keys ob bundle now ts uuid fs m fs' :
  run root proposal approval keys ob bundle now ts uuid fs = Ok (m, fs') →
  ∃ source playbook output sb pb r saved out es c1 c2 c3 intent aid,
    let sp := resolve root source in let pp := resolve root playbook in let op := resolve root output in
    role ob = "observer" ∧ py_eq (JStr (key_id ob)) (get_none "producer_key_id" proposal) = false ∧
    py_eq (JStr (key_id ob)) (get_none "principal" approval) = false ∧
    (sp = root ∨ strictly_under root sp = true) ∧ (pp = root ∨ strictly_under root pp = true) ∧
    (op = root ∨ strictly_under root op = true) ∧
    read_regular sp fs = Ok sb ∧ read_regular pp fs = Ok pb ∧
    item "source_sha256" proposal = Ok (JStr (sha sb)) ∧ item "playbook_sha256" proposal = Ok (JStr (sha pb)) ∧
    approved proposal approval keys now ∧
    redline_files parse_docx parse_playbook scan sb pb ts = Ok (r, saved) ∧
    verify_docx_tracked_changes (Elem (q "body") [] "" saved) (map (expected_change AUTHOR) (applied_edits r))
      true true true None None = Ok true ∧
    str_item "source" proposal = Ok source ∧ str_item "playbook" proposal = Ok playbook ∧
    str_item "output" proposal = Ok output ∧
    let fs0 := write_file op (save_docx saved) fs in
    let fs1 := write_file (bundle ++ [SOURCE_NAME]) c1 fs0 in
    let fs2 := write_file (bundle ++ [PLAYBOOK_NAME]) c2 fs1 in
    read_regular op fs0 = Ok out ∧ read_regular sp fs0 = Ok c1 ∧ read_regular pp fs1 = Ok c2 ∧ read_regular op fs2 = Ok c3 ∧
    fs' = write_file (bundle ++ [OUTPUT_NAME]) c3 fs2 ∧
    build_events EVENTS 0 JNull
      [("source_sha256", JStr (sha sb)); ("playbook_sha256", JStr (sha pb)); ("intent_sha256", intent);
       ("approval_id", aid); ("output_sha256", JStr (sha out));
       ("applied_edits", JArr (map (edit_json AUTHOR) (applied_edits r)));
       ("flagged", JArr (map flag_json (flagged_clauses r)))] ob = Ok es ∧
    m = {| run_id := uuid;
           m_files := [("source", SOURCE_NAME); ("playbook", PLAYBOOK_NAME); ("output", OUTPUT_NAME)];
           m_proposal := proposal; m_approval := approval; public_keys := dict_set (key_id ob) (k_public ob) keys;
           observer_key_id := key_id ob; m_events := es |}.
Proof.
  unfold execute. intros ([] & H0%ensure_Ok & H)%bind_Ok.
  apply bind_Ok in H as (source & Hs & H). apply bind_Ok in H as (sp & [-> Hsi]%resolve_inside & H).
  apply bind_Ok in H as (playbook & Hp & H). apply bind_Ok in H as (pp & [-> Hpi]%resolve_inside & H).
  apply bind_Ok in H as (output & Ho & H). apply bind_Ok in H as (op & [-> Hoi]%resolve_inside & H).
  apply bind_Ok in H as ([] & _ & H). apply bind_Ok in H as ([] & _ & H).
  apply bind_Ok in H as (sb & Hsb & H). apply bind_Ok in H as (pb & Hpb & H).
  apply bind_Ok in H as (v1 & Hv1 & H). apply bind_Ok in H as ([] & E1%ensure_Ok%py_eq_str & H).
  apply bind_Ok in H as (v2 & Hv2 & H). apply bind_Ok in H as ([] & E2%ensure_Ok%py_eq_str & H). subst v1 v2.
  apply bind_Ok in H as ([] & Ha%verify_approval_spec & H). apply bind_Ok in H as ([r saved] & Hr & H).
  apply bind_Ok in H as (b & Hv & H). apply bind_Ok in H as (out & Hout & H).
  apply bind_Ok in H as (c1 & Hc1 & H). apply bind_Ok in H as (c2 & Hc2 & H). apply bind_Ok in H as (c3 & Hc3 & H).
  apply bind_Ok in H as (intent & _ & H). apply bind_Ok in H as (aid & _ & H). apply bind_Ok in H as (es & He & H).
  injection H as <- <-. apply andb_true_iff in H0 as [[H01 H02]%andb_true_iff H03]. apply negb_true_iff in H02, H03.
  bool_prop. exists source, playbook, output, sb, pb, r, saved, out, es, c1, c2, c3, intent, aid. cbv zeta.
  split_and!; try assumption; try reflexivity.
  unfold verify_docx_tracked_changes in *. apply bind_Ok in Hv as (? & Hv0 & Hv). rewrite Hv0. cbn [mbind result_bind].
  apply bind_Ok in Hv as (pools & Hpo & Hv). rewrite Hpo. cbn [mbind result_bind].
  apply bind_Ok in Hv as (? & Hv1' & Hv). rewrite Hv1'. cbn [mbind result_bind].
  destruct (reconstruct_original_and_final _). reflexivity.
Qed.

(** C22.  Nothing is executed without authority: a run that returns was started by an
    independent observer, under a proposal whose digest and signature verify
    and an unexpired approval of exactly that proposal, signed by its
    principal, for the very bytes of the source and playbook read from inside
    the root; and the document it saved passed the read-back. *)
Theorem execute_authorized root proposal approval keys ob bundle now ts uuid fs m fs' :
  run root proposal approval keys ob bundle now ts uuid fs = Ok (m, fs') →
  role ob = "observer" ∧ get_none "producer_key_id" proposal ≠ JStr (key_id ob) ∧
  get_none "principal" approval ≠ JStr (key_id ob) ∧ approved proposal approval keys now ∧
  ∃ source playbook sb pb r saved,
    str_item "source" proposal = Ok source ∧ str_item "playbook" proposal = Ok playbook ∧
    (resolve root source = root ∨ strictly_under root (resolve root source) = true) ∧
    (resolve root playbook = root ∨ strictly_under root (resolve root playbook) = true) ∧
    read_regular (resolve root source) fs = Ok sb ∧ read_regular (resolve root playbook) fs = Ok pb ∧
    item "source_sha256" proposal = Ok (JStr (sha sb)) ∧ item "playbook_sha256" proposal = Ok (JStr (sha pb)) ∧
    redline_files parse_docx parse_playbook scan sb pb ts = Ok (r, saved) ∧
    verify_docx_tracked_changes (Elem (q "body") [] "" saved) (map (expected_change AUTHOR) (applied_edits r))
      true true true None None = Ok true.
Proof.
  intros H. apply execute_inv in H as (source & playbook & output & sb & pb & r & saved & out & es & c1 & c2 & c3 & intent & aid &
    H1 & H2 & H3 & H4 & H5 & _ & H6 & H7 & H8 & H9 & H10 & H11 & H12 & H13 & H14 & _).
  split; [exact H1|]. split; [intros E; apply py_eq_str in E; congruence|].
  split; [intros E; apply py_eq_str in E; congruence|]. split; [exact H10|].
  exists source, playbook, sb, pb, r, saved. by split_and!.
Qed.

(** *** Reading back what was written *)

Lemma read_write_ne p p' b fs : p ≠ p' → read_regular p (write_file p' b fs) = read_regular p fs.
Proof. intros H. unfold read_regular, write_file. by rewrite lookup_insert_ne. Qed.

Lemma read_regular_len p fs b : read_regular p fs = Ok b → (MAX_BYTES <? len b) = false.
Proof.
  unfold read_regular. destruct (fs !! p) as [[[] c]|]; try done. cbn.
  destruct (MAX_BYTES <? len c) eqn:E; [done|]. by intros [= <-].
Qed.

Lemma read_write_eq p b fs : (MAX_BYTES <? len b) = false → read_regular p (write_file p b fs) = Ok b.
Proof. intros H. unfold read_regular, write_file. rewrite lookup_insert_eq. cbn [f_kind f_bytes]. by rewrite H. Qed.

Lemma read_is_file p fs b : read_regular p fs = Ok b → ∃ f, fs !! p = Some f ∧ f_kind f = Regular.
Proof. unfold read_regular. destruct (fs !! p) as [[[] c]|]; try done. by eexists. Qed.

Lemma under_bundle bundle name : strictly_under bundle (bundle ++ [name]) = true.
Proof.
  unfold strictly_under. rewrite take_app_length, bool_decide_true, length_app by done. cbn [andb length].
  apply Nat.ltb_lt. lia.
Qed.

(** A file of the bundle passes its two checks. *)
Lemma check_file_ok bundle m fs key name b :
  resolve bundle name = bundle ++ [name] → read_regular (bundle ++ [name]) fs = Ok b →
  last_payload (key +:+ "_sha256") m = Ok (JStr (sha b)) →
  check_file resolve bundle m fs (key, name) = Ok [(true, key +:+ " path confinement"); (true, key +:+ " hash")].
Proof.
  intros Hr Hb Hp. unfold check_file. cbn [fst snd]. rewrite Hr, Hp, under_bundle. cbn [mbind result_bind].
  rewrite Hb. cbn [mbind result_bind]. destruct (read_is_file _ _ _ Hb) as ([k c] & -> & E). cbn in E. subst k.
  assert (py_eq (JStr (sha b)) (JStr (sha b)) = true) as -> by (by apply py_eq_str). reflexivity.
Qed.

(** A signer other than the observer verifies against the bundle's keys. *)
Lemma signed_by_bundle who obj keys ob m :
  signed_by who obj keys = Ok true → py_eq (JStr (key_id ob)) (get_none who obj) = false →
  public_keys m = dict_set (key_id ob) (k_public ob) keys →
  check_signer who obj m = Ok true ∧ ∃ s, item who obj = Ok (JStr s) ∧ s ≠ key_id ob.
Proof.
  unfold signed_by, check_signer. intros Hs Hne Hm. apply bind_Ok in Hs as (k & Hk & Hv).
  destruct k as [pub|]; [|done]. destruct (get_none who obj) as [| | | |s| |] eqn:E; try discriminate Hk.
  cbn [lookup_key] in *. injection Hk as Hk. assert (s ≠ key_id ob) as Hn.
  { intros ->. rewrite (proj2 (py_eq_str _ _) eq_refl) in Hne. done. }
  rewrite Hm, assoc_set_ne, Hk by congruence. cbn [mbind result_bind default from_option Datatypes.id].
  split; [exact Hv|]. exists s. split; [|done]. unfold get_none in E. unfold item.
  destruct (assoc who obj) as [v|]; cbn in E; [by subst|done].
Qed.

(** Where a run writes and what it reads do not overlap: the output is neither
    the source nor the playbook, and none of them lies in the bundle, whose
    names resolve to themselves. *)
Definition disjoint_paths (root bundle : list string) (proposal : dict) : Prop :=
  ∃ source playbook output,
    str_item "source" proposal = Ok source ∧ str_item "playbook" proposal = Ok playbook ∧
    str_item "output" proposal = Ok output ∧
    resolve root output ≠ resolve root source ∧ resolve root output ≠ resolve root playbook ∧
    Forall (λ n, resolve bundle n = bundle ++ [n] ∧ resolve root playbook ≠ bundle ++ [n] ∧
                 resolve root output ≠ bundle ++ [n]) [SOURCE_NAME; PLAYBOOK_NAME; OUTPUT_NAME].

(** The three copies in the bundle are the source, playbook and output. *)
Lemma bundle_files root bundle source playbook output fs saved sb pb out c1 c2 c3 :
  let op := resolve root output in
  let fs0 := write_file op (save_docx saved) fs in
  let fs1 := write_file (bundle ++ [SOURCE_NAME]) c1 fs0 in
  let fs2 := write_file (bundle ++ [PLAYBOOK_NAME]) c2 fs1 in
  let fs' := write_file (bundle ++ [OUTPUT_NAME]) c3 fs2 in
  op ≠ resolve root source → op ≠ resolve root playbook →
  Forall (λ n, resolve bundle n = bundle ++ [n] ∧ resolve root playbook ≠ bundle ++ [n] ∧ op ≠ bundle ++ [n])
    [SOURCE_NAME; PLAYBOOK_NAME; OUTPUT_NAME] →
  read_regular (resolve root source) fs = Ok sb → read_regular (resolve root playbook) fs = Ok pb →
  read_regular op fs0 = Ok out → read_regular (resolve root source) fs0 = Ok c1 →
  read_regular (resolve root playbook) fs1 = Ok c2 → read_regular op fs2 = Ok c3 →
  read_regular (bundle ++ [SOURCE_NAME]) fs' = Ok sb ∧ read_regular (bundle ++ [PLAYBOOK_NAME]) fs' = Ok pb ∧
  read_regular (bundle ++ [OUTPUT_NAME]) fs' = Ok out.
Proof.
  intros op fs0 fs1 fs2 fs' Hos Hop Hb Hs Hp Ho H1 H2 H3. subst fs' fs2 fs1 fs0.
  apply Forall_cons in Hb as [(_ & Hps & Hosn) Hb]. apply Forall_cons in Hb as [(_ & Hpp & Hopn) _].
  assert (∀ a b, a ≠ b → bundle ++ [a] ≠ bundle ++ [b]) as Hn by (intros a b Hab [= E]%app_inv_head; done).
  rewrite read_write_ne in H1 by done. rewrite Hs in H1. injection H1 as <-.
  rewrite !read_write_ne in H2 by done. rewrite Hp in H2. injection H2 as <-.
  rewrite !(read_write_ne op) in H3 by done. rewrite Ho in H3. injection H3 as <-.
  apply read_regular_len in Hs, Hp, Ho. split; [|split].
  - rewrite !(read_write_ne (bundle ++ [SOURCE_NAME])) by (by apply Hn). by apply read_write_eq.
  - rewrite (read_write_ne (bundle ++ [PLAYBOOK_NAME])) by (by apply Hn). by apply read_write_eq.
  - by apply read_write_eq.
Qed.

(** An executed transaction verifies: the bundle that a run leaves, with an
    observer key as [generate_keypair] makes it and paths that do not overlap,
    passes every check of [verify_bundle], 36 of them. *)
Theorem executed_bundle_verifies root proposal approval keys ob bundle now ts uuid fs m fs' :
  run root proposal approval keys ob bundle now ts uuid fs = Ok (m, fs') →
  wf_key ob → disjoint_paths root bundle proposal →
  ∃ checks, verify_bundle resolve bundle m fs' = Ok (true, checks).
Proof.
  intros H Hw (source' & playbook' & output' & Ds & Dp & Do & Dos & Dop & Db).
  apply execute_inv in H as (source & playbook & output & sb & pb & r & saved & out & es & c1 & c2 & c3 & intent & aid &
    _ & Hob1 & Hob2 & _ & _ & _ & Hsb & Hpb & _ & _ & Ha & _ & _ & Es & Ep & Eo & Hout & Hc1 & Hc2 & Hc3 & -> & Hes & ->).
  rewrite Ds in Es. rewrite Dp in Ep. rewrite Do in Eo. injection Es as ->. injection Ep as ->. injection Eo as ->.
  destruct (bundle_files root bundle source playbook output fs saved sb pb out c1 c2 c3 Dos Dop Db Hsb Hpb Hout Hc1 Hc2 Hc3)
    as (F1 & F2 & F3).
  apply Forall_cons in Db as [(R1 & _) Db]. apply Forall_cons in Db as [(R2 & _) Db]. apply Forall_cons in Db as [(R3 & _) _].
  set (m := {| run_id := uuid |}). set (fs' := write_file (bundle ++ [OUTPUT_NAME]) _ _) in *.
  destruct Ha as ((c & Hc & Hd) & Hp & Hpr & _ & _ & Hbind).
  destruct (signed_by_bundle "producer_key_id" proposal keys ob m Hp Hob1 eq_refl) as (Hcp & p & Hip & Hnp).
  destruct (signed_by_bundle "principal" approval keys ob m Hpr Hob2 eq_refl) as (Hca & a & Hia & Hna).
  destruct (build_events_checks m EVENTS 0 JNull _ ob es Hw (or_introl eq_refl) (assoc_set_eq _ _ _) Hes)
    as (ecs & Hec & Heall & Hty & Hlast).
  destruct Hlast as (e & t & Hl & Hpay); [done|].
  assert (∀ k v, assoc k [("source_sha256", JStr (sha sb)); ("playbook_sha256", JStr (sha pb)); ("intent_sha256", intent);
      ("approval_id", aid); ("output_sha256", JStr (sha out));
      ("applied_edits", JArr (map (edit_json AUTHOR) (applied_edits r)));
      ("flagged", JArr (map flag_json (flagged_clauses r)))] = Some v → last_payload k m = Ok v) as Hlp.
  { intros k v Hk. unfold last_payload. cbn [m_events m]. rewrite Hl, Hpay. cbn [mbind result_bind].
    unfold item. by rewrite (assoc_app_l _ _ _ _ Hk). }
  unfold verify_bundle, bundle_checks. cbn [m_files m map concat_results].
  rewrite (check_file_ok bundle m fs' "source" SOURCE_NAME sb R1 F1 (Hlp "source_sha256" _ eq_refl)).
  rewrite (check_file_ok bundle m fs' "playbook" PLAYBOOK_NAME pb R2 F2 (Hlp "playbook_sha256" _ eq_refl)).
  rewrite (check_file_ok bundle m fs' "output" OUTPUT_NAME out R3 F3 (Hlp "output_sha256" _ eq_refl)).
  cbn [mbind result_bind app]. cbn [m_proposal m_approval m_events m observer_key_id]. rewrite Hc. cbn [mbind result_bind].
  rewrite Hcp. cbn [mbind result_bind]. rewrite Hca. cbn [mbind result_bind]. rewrite Hip. cbn [mbind result_bind].
  rewrite Hia. cbn [mbind result_bind]. rewrite Hec. cbn [mbind result_bind]. rewrite Hty. cbn [mbind result_bind].
  rewrite Hbind, (proj2 (py_eq_str _ _) Hd).
  assert (∀ x, x ≠ key_id ob → py_eq (JStr (key_id ob)) (JStr x) = false) as Hne.
  { intros x Hx. cbn. apply bool_decide_eq_false. congruence. }
  rewrite (Hne p Hnp), (Hne a Hna). eexists. cbn [forallb fst app andb negb]. rewrite forallb_app, Heall. reflexivity.
Qed.

(** *** What the verification does not tie together *)

(** The checks on the authority of a bundle: digest, signatures by keys of the
    bundle, binding and independence of the observer. *)
Definition authority (m : manifest) (proposal approval : dict) : Prop :=
  (∃ c, canonical (JObj (without ["signature"; "intent_sha256"] proposal)) = Ok c ∧
        py_eq (JStr (sha c)) (get_none "intent_sha256" proposal) = true) ∧
  check_signer "producer_key_id" proposal m = Ok true ∧ check_signer "principal" approval m = Ok true ∧
  forallb (λ f, py_eq (get_none f approval) (get_none f proposal)) BOUND_FIELDS = true ∧
  ∃ p a, item "producer_key_id" proposal = Ok p ∧ item "principal" approval = Ok a ∧
    py_eq (JStr (observer_key_id m)) p = false ∧ py_eq (JStr (observer_key_id m)) a = false.

Definition with_authority (proposal approval : dict) (m : manifest) : manifest :=
  {| run_id := run_id m; m_files := m_files m; m_proposal := proposal; m_approval := approval;
     public_keys := public_keys m; observer_key_id := observer_key_id m; m_events := m_events m |}.

Lemma check_events_authority p a m es : ∀ i prev,
  check_events (with_authority p a m) i prev es = check_events m i prev es.
Proof.
  induction es as [|e es IH]; intros i prev; cbn [check_events]; [done|].
  change (check_event (with_authority p a m) i prev e) with (check_event m i prev e).
  destruct (check_event m i prev e) as [r|]; cbn [mbind result_bind]; [by rewrite IH|done].
Qed.

(** What a bundle passes is its files, its authority and its events. *)
Lemma verify_bundle_parts bundle m fs :
  (∃ cs, verify_bundle resolve bundle m fs = Ok (true, cs)) ↔
  (∃ fc, concat_results (map (check_file resolve bundle m fs) (m_files m)) = Ok fc ∧ forallb fst fc = true) ∧
  authority m (m_proposal m) (m_approval m) ∧
  (∃ ec, check_events m 0 JNull (m_events m) = Ok ec ∧ forallb fst ec = true) ∧
  (∃ types, mapM_result (item "event_type") (m_events m) = Ok types ∧
     (length types =? length EVENTS)%nat && forallb (λ p, py_eq p.1 (JStr p.2)) (zip types EVENTS) = true).
Proof.
  unfold verify_bundle, bundle_checks, authority. set (bound := forallb _ BOUND_FIELDS). split.
  - intros (cs & H). apply bind_Ok in H as (cs' & H & [= Hall ->]).
    apply bind_Ok in H as (fc & Hfc & H). apply bind_Ok in H as (c & Hc & H). apply bind_Ok in H as (ps & Hps & H).
    apply bind_Ok in H as (as' & Has & H). apply bind_Ok in H as (p & Hp & H). apply bind_Ok in H as (a & Ha & H).
    apply bind_Ok in H as (ec & Hec & H). apply bind_Ok in H as (ty & Hty & [= <-]).
    rewrite !forallb_app in Hall. cbn [forallb fst app] in Hall. rewrite forallb_app in Hall. cbn [forallb fst] in Hall.
    rewrite !andb_true_iff, !negb_true_iff in Hall.
    destruct Hall as (H1 & H2 & H3 & H4 & H5 & (H6 & H7) & H8 & (H9 & H10) & _). subst ps as'.
    split; [by exists fc|]. split; [|split; [by exists ec|]].
    + split; [by exists c|]. do 3 (split; [assumption|]). exists p, a. by split_and!.
    + exists ty. split; [done|]. apply andb_true_iff. by split.
  - intros ((fc & Hfc & H1) & ((c & Hc & H2) & Hps & Has & H3 & p & a & Hp & Ha & H4 & H5) & (ec & Hec & H6) & ty & Hty & H7).
    rewrite Hfc. cbn [mbind result_bind]. rewrite Hc. cbn [mbind result_bind]. rewrite Hps. cbn [mbind result_bind].
    rewrite Has. cbn [mbind result_bind]. rewrite Hp. cbn [mbind result_bind]. rewrite Ha. cbn [mbind result_bind].
    rewrite Hec. cbn [mbind result_bind]. rewrite Hty. cbn [mbind result_bind]. eexists. f_equal. f_equal.
    rewrite !forallb_app. cbn [forallb fst]. rewrite ?forallb_app. cbn [forallb fst]. by rewrite H1, H2, H3, H4, H5, H6, H7.
Qed.

(** The bundle's events are not tied to its authority: replace the proposal
    and the approval of a bundle that verifies by any others that its keys
    signed, for another source and another playbook, and the bundle still
    verifies. *)
Theorem authority_not_linked bundle m fs proposal approval :
  (∃ cs, verify_bundle resolve bundle m fs = Ok (true, cs)) → authority m proposal approval →
  ∃ cs, verify_bundle resolve bundle (with_authority proposal approval m) fs = Ok (true, cs).
Proof.
  rewrite !verify_bundle_parts. intros (H1 & _ & H2 & H3) Ha. split; [exact H1|]. split; [exact Ha|].
  split; [|exact H3]. destruct H2 as (ec & Hec & Hall). exists ec. split; [|done].
  rewrite <-Hec. apply check_events_authority.
Qed.
End Execution.

(** ** A concrete transaction *)

Section Witnesses.
#[local] Existing Instance exact_float_repr.
#[local] Existing Instance plain_signatures.
#[local] Existing Instance demo_api.

(** A root with two contracts and a playbook; a document is the text of its one
    paragraph and names resolve to themselves. *)
Definition plain_resolve (base : list string) (name : string) : list string := base ++ [name].
Definition text_document (b : bytes) : result (list xml) := Ok [demo_paragraph b].
Definition document_text (body : list xml) : bytes := extract_docx_text body.
Definition demo_playbook (b : bytes) : result playbook := Ok (book [law]).
Definition demo_loads (b : bytes) : result json :=
  Ok (JObj [("clauses", JArr [JObj (map (λ p, (p.1, JStr p.2)) (law ++ [("rationale", "Firm policy")]))])]).

Definition demo_root : list string := ["r"].
Definition demo_bundle : list string := ["b"].
Definition regular (b : bytes) : file := {| f_kind := Regular; f_bytes := b |}.
Definition demo_files : files :=
  <[["r"; "nda.docx"] := regular "The laws of Delaware govern."]>
  (<[["r"; "other.docx"] := regular "Another agreement, under the laws of Delaware."]>
  (<[["r"; "book.json"] := regular "{}"]> ∅)).

Definition some_key (role : string) (seed : bytes) : keypair :=
  match generate_keypair role seed with Ok k => k | Raise _ => {| role := ""; key_id := ""; k_private := ""; k_public := "" |} end.
Definition producer : keypair := some_key "producer" "pppppppppppppppppppppppppppppppp".
Definition approver : keypair := some_key "approver" "aaaaaaaaaaaaaaaaaaaaaaaaaaaaaaaa".
Definition observer : keypair := some_key "observer" "oooooooooooooooooooooooooooooooo".
Definition demo_keys : list (string * string) := [(key_id producer, k_public producer); (key_id approver, k_public approver)].

Definition get_dict (x : result dict) : dict := match x with Ok d => d | Raise _ => [] end.
Definition proposed (source : string) : dict :=
  get_dict (propose plain_resolve demo_loads demo_root source "book.json" "out.docx" producer 900 1000 "p1" demo_files).
Definition approved_by (proposal : dict) : dict := get_dict (approve proposal approver 600 1010 "a1" "n1").

Definition nda : dict := proposed "nda.docx".
Definition nda_ok : dict := approved_by nda.
Definition other : dict := proposed "other.docx".
Definition other_ok : dict := approved_by other.

Abbreviation demo_run :=
  (execute plain_resolve text_document document_text demo_playbook no_injection demo_root nda nda_ok demo_keys observer
     demo_bundle 1020 stamp "r1" demo_files).
Definition no_run : manifest * files :=
  ({| run_id := ""; m_files := []; m_proposal := []; m_approval := []; public_keys := []; observer_key_id := "";
      m_events := [] |}, ∅).
Definition finished (x : result (manifest * files)) : manifest * files := match x with Ok y => y | Raise _ => no_run end.
Definition ran : manifest * files := finished demo_run.

Lemma is_ok_finished (x : result (manifest * files)) : is_ok x = true → x = Ok ((finished x).1, (finished x).2).
Proof. by destruct x as [[m fs]|e]. Qed.

Lemma demo_ran : demo_run = Ok (ran.1, ran.2).
Proof. apply is_ok_finished. vm_compute. reflexivity. Qed.

Lemma demo_disjoint : disjoint_paths plain_resolve demo_root demo_bundle nda.
Proof.
  exists "nda.docx", "book.json", "out.docx". do 3 (split; [vm_compute; reflexivity|]). do 2 (split; [discriminate|]).
  repeat constructor; discriminate.
Qed.

Lemma observer_wf : wf_key observer.
Proof. exists "oooooooooooooooooooooooooooooooo". by vm_compute. Qed.

(** A proposal whose approval a bundle's keys verify, as a boolean. *)
Definition authorityb (m : manifest) (proposal approval : dict) : bool :=
  match canonical (JObj (without ["signature"; "intent_sha256"] proposal)),
        check_signer "producer_key_id" proposal m, check_signer "principal" approval m,
        item "producer_key_id" proposal, item "principal" approval with
  | Ok c, Ok true, Ok true, Ok p, Ok a =>
      py_eq (JStr (sha c)) (get_none "intent_sha256" proposal) &&
      forallb (λ f, py_eq (get_none f approval) (get_none f proposal)) BOUND_FIELDS &&
      negb (py_eq (JStr (observer_key_id m)) p) && negb (py_eq (JStr (observer_key_id m)) a)
  | _, _, _, _, _ => false
  end.

Lemma authorityb_spec m p a : authorityb m p a = true → authority m p a.
Proof.
  unfold authorityb, authority. destruct (canonical _) as [c|]; [|done].
  destruct (check_signer "producer_key_id" p m) as [[]|]; try done.
  destruct (check_signer "principal" a m) as [[]|]; try done.
  destruct (item "producer_key_id" p) as [x|]; [|done]. destruct (item "principal" a) as [y|]; [|done].
  rewrite !andb_true_iff, !negb_true_iff. intros [[[H1 H2] H3] H4]. split; [by exists c|]. do 3 (split; [done|]).
  by exists x, y.
Qed.

Definition verified (x : result (bool * list (bool * string))) : bool := match x with Ok (b, _) => b | Raise _ => false end.

Lemma verified_Ok x : verified x = true → ∃ cs, x = Ok (true, cs).
Proof. destruct x as [[[] cs]|e]; try done. by exists cs. Qed.

Lemma ran_verifies : ∃ cs, verify_bundle plain_resolve demo_bundle ran.1 ran.2 = Ok (true, cs).
Proof. apply verified_Ok. vm_compute. reflexivity. Qed.

Lemma other_authority : authority ran.1 other other_ok.
Proof. apply authorityb_spec. vm_compute. reflexivity. Qed.

Lemma execute_authorized_witness : role observer = "observer" ∧ approved nda nda_ok demo_keys 1020.
Proof.
  destruct (execute_authorized plain_resolve text_document document_text demo_playbook no_injection demo_root nda nda_ok
    demo_keys observer demo_bundle 1020 stamp "r1" demo_files ran.1 ran.2 demo_ran) as (H1 & _ & _ & H2 & _).
  split; [exact H1|exact H2].
Defined.

Lemma executed_bundle_verifies_witness : ∃ checks, verify_bundle plain_resolve demo_bundle ran.1 ran.2 = Ok (true, checks).
Proof.
  exact (executed_bundle_verifies plain_resolve text_document document_text demo_playbook no_injection demo_root nda nda_ok
    demo_keys observer demo_bundle 1020 stamp "r1" demo_files ran.1 ran.2 demo_ran observer_wf demo_disjoint).
Defined.

(** The record of a run on one contract, under the proposal and the approval of
    another. *)
Lemma authority_not_linked_witness :
  get_none "source_sha256" other ≠ get_none "source_sha256" nda ∧
  ∃ cs, verify_bundle plain_resolve demo_bundle (with_authority other other_ok ran.1) ran.2 = Ok (true, cs).
Proof.
  split; [vm_compute; discriminate|].
  refine (authority_not_linked plain_resolve demo_bundle ran.1 ran.2 other other_ok _ other_authority).
  exact ran_verifies.
Defined.
End Witnesses.
