(* ===== verification/Dsse.v ===== *)
(** * DSSE envelopes of legal-v3 bundles

    [kairo/legal_v3/dsse_envelope.py]: the in-toto statement of a bundle, its
    envelope, the strict reader of an envelope and its verification against
    keys trusted from elsewhere.  Public keys of the [cryptography] package
    are their raw bytes ([Ed25519]); a callback is a function that may raise. *)

From S2P Require Import Prelude PyStr PyFloat PyDict Json JsonRead Base64 Ed25519.

Definition PAYLOAD_TYPE : string := "application/vnd.kairo.legal-v3.bundle+json".
Definition STATEMENT_TYPE : string := "https://in-toto.io/Statement/v1".
Definition PREDICATE_TYPE : string := "https://kairo.phantom/legal-v3/v1".

Definition value_error {A} (msg : string) : result A := raise "ValueError" msg.

(** [_b64d]; with [validate=True] the decoder refuses more texts by itself,
    none of which is the encoding of anything. *)
Definition b64d (v : option json) : result bytes :=
  match v with
  | Some (JStr s) =>
      match b64decode s with
      | Ok decoded => if bool_decide (b64encode decoded = s) then Ok decoded
                      else value_error "non-canonical base64 encoding"
      | Raise _ => value_error "invalid base64 encoding"
      end
  | _ => value_error "base64 value must be a string"
  end.

Definition decimal (n : nat) : bytes := pretty (Z.of_nat n).
Definition pae (payload_type : string) (payload : bytes) : bytes :=
  let type_bytes := utf8 payload_type in
  "DSSEv1 " +:+ decimal (String.length type_bytes) +:+ " " +:+ type_bytes +:+ " " +:+
  decimal (String.length payload) +:+ " " +:+ payload.

(** ** Statements *)

(** [v.get(k, default)] of a value that should be a dict *)
Definition get_or (v : json) (k : string) (default : json) : result json :=
  match v with
  | JObj d => Ok (from_option id default (assoc k d))
  | _ => raise "AttributeError" "object has no attribute 'get'"
  end.

(** [for ev in events] *)
Definition iter (v : json) : result (list json) :=
  match v with
  | JArr l => Ok l
  | JObj l => Ok (map (λ p, JStr p.1) l)
  | JStr s => Ok (map (λ c, JStr (String c "")) (chars s))
  | _ => raise "TypeError" "object is not iterable"
  end.

(** The output hash of the first read-back event. *)
Fixpoint readback_sha (events : list json) : result json :=
  match events with
  | [] => Ok (JStr "")
  | ev :: events' =>
      t ← get_or ev "event_type" JNull;
      if is_str "ARTIFACT_READBACK" (Some t)
      then p ← get_or ev "payload" (JObj []); get_or p "output_sha256" (JStr "")
      else readback_sha events'
  end.

Definition subject_of (name sha : json) : list json :=
  if truthy_json sha then [JObj [("name", name); ("digest", JObj [("sha256", sha)])]] else [].

Definition create_statement (bundle : dict) : result dict :=
  let b := JObj bundle in
  proposal ← get_or b "proposal" (JObj []);
  output_name ← get_or proposal "output" (JStr "output.docx");
  events ← get_or b "events" (JArr []);
  l ← iter events;
  output_sha ← readback_sha l;
  source_name ← get_or proposal "source" (JStr "source.docx");
  source_sha ← get_or proposal "source_sha256" (JStr "");
  Ok [("_type", JStr STATEMENT_TYPE);
      ("subject", JArr (subject_of output_name output_sha ++ subject_of source_name source_sha));
      ("predicateType", JStr PREDICATE_TYPE); ("predicate", b)].

(** [allow_nan=False] *)
Fixpoint all_finite (v : json) : bool :=
  match v with
  | JFloat f => is_finite f
  | JArr l => forallb all_finite l
  | JObj l => forallb (λ p, all_finite p.2) l
  | _ => true
  end.

Section Dsse.
Context `{FRd : FloatRead} `{ED : Ed25519}.

Definition create_envelope (bundle : dict) (signatures : list json) : result dict :=
  statement ← create_statement bundle;
  _ ← ensure (all_finite (JObj statement)) "ValueError" "Out of range float values are not JSON compliant";
  Ok [("payload", JStr (b64encode (canonical false (JObj statement)))); ("payloadType", JStr PAYLOAD_TYPE);
      ("signatures", JArr signatures)].

(** [wrap_bundle] between the text of [bundle.json] and that of the envelope. *)
Definition wrap_bundle (text : bytes) (signatures : option (list json)) : result bytes :=
  s ← utf8_decode text;
  v ← loads s;
  signatures ← match signatures with
    | Some l => Ok l
    | None => value_error "supply DSSE PAE signatures, or [] for unsigned serialization"
    end;
  envelope ← match v with JObj bundle => create_envelope bundle signatures
             | _ => raise "AttributeError" "object has no attribute 'get'" end;
  _ ← ensure (all_finite (JObj envelope)) "ValueError" "Out of range float values are not JSON compliant";
  Ok (utf8 (print_indent true 0 (JObj envelope) +:+ String "010" "")).

(** ** Reading an envelope *)

Definition strict_hooks : hooks :=
  {| on_pairs l := if bool_decide (NoDup l.*1) then Ok (JObj l) else value_error "duplicate JSON member";
     on_constant _ := value_error "non-finite JSON constant";
     on_float t := if is_finite (read_float t) then Ok (JFloat (read_float t)) else value_error "non-finite JSON number" |}.

Definition is_text (v : option json) : bool := match v with Some (JStr _) => true | _ => false end.

(** The key id and the signature of an entry. *)
Definition signature_entry (entry : json) : result (string * json) :=
  match entry with
  | JObj d =>
      match assoc "keyid" d with
      | Some (JStr keyid) =>
          if truthy keyid then
            sig ← b64d (assoc "sig" d);
            if truthy sig then Ok (keyid, from_option id JNull (assoc "sig" d))
            else value_error "signature must not be empty"
          else value_error "signature requires a nonempty keyid"
      | _ => value_error "signature requires a nonempty keyid"
      end
  | _ => value_error "signature entry must be an object"
  end.

Definition subject_ok (subject : json) : bool :=
  match subject with
  | JObj d =>
      is_text (assoc "name" d) &&
      match assoc "digest" d with
      | Some (JObj ((_ :: _) as digest)) => forallb (λ p, is_text (Some p.2)) digest
      | _ => false
      end
  | _ => false
  end.

Definition check_statement (v : json) : result dict :=
  match v with
  | JObj st =>
      _ ← ensure (is_str STATEMENT_TYPE (assoc "_type" st)) "ValueError" "unexpected statement type";
      _ ← ensure (is_str PREDICATE_TYPE (assoc "predicateType" st)) "ValueError" "unexpected predicateType";
      _ ← ensure (match assoc "predicate" st with Some (JObj _) => true | _ => false end) "ValueError"
            "statement predicate must be an object";
      match assoc "subject" st with
      | Some (JArr l) => _ ← ensure (forallb subject_ok l) "ValueError" "invalid statement subject"; Ok st
      | _ => value_error "statement subject must be a list"
      end
  | _ => value_error "statement must be an object"
  end.

Definition read_payload (payload : bytes) : result json :=
  match s ← utf8_decode payload; loads_with strict_hooks s with
  | Ok v => Ok v
  | Raise _ => value_error "invalid UTF-8 statement JSON"
  end.

(** [_parse_envelope], with the signature entries it has checked. *)
Definition parse_envelope_ (envelope : json) : result (dict * bytes * list (string * json)) :=
  match envelope with
  | JObj d =>
      _ ← ensure (has_key "payload" d) "ValueError" "DSSE envelope missing 'payload'";
      _ ← ensure (has_key "payloadType" d) "ValueError" "DSSE envelope missing 'payloadType'";
      _ ← ensure (has_key "signatures" d) "ValueError" "DSSE envelope missing 'signatures'";
      _ ← ensure (is_str PAYLOAD_TYPE (assoc "payloadType" d)) "ValueError" "unexpected payloadType";
      signatures ← match assoc "signatures" d with Some (JArr l) => Ok l | _ => value_error "signatures must be a list" end;
      entries ← mapM_result signature_entry signatures;
      payload ← b64d (assoc "payload" d);
      v ← read_payload payload;
      statement ← check_statement v;
      Ok (statement, payload, entries)
  | _ => value_error "DSSE envelope must be an object"
  end.

Definition parse_envelope (envelope : json) : result dict := '(st, _, _) ← parse_envelope_ envelope; Ok st.

(** ** Verification *)

(** A key of [public_keys]: a key object, its raw bytes, or those in base64. *)
Inductive key_arg := KeyObject (raw : bytes) | RawKey (raw : bytes) | TextKey (text : string).

Definition from_public_bytes (raw : bytes) : result bytes :=
  if (String.length raw =? 32)%nat then Ok raw else value_error "An Ed25519 public key is 32 bytes long".

Definition trusted_key (p : string * key_arg) : result (string * bytes) :=
  if truthy p.1 then
    key ← match p.2 with
      | KeyObject raw => Ok raw
      | RawKey raw => from_public_bytes raw
      | TextKey text => raw ← b64d (Some (JStr text)); from_public_bytes raw
      end;
    Ok (p.1, key)
  else value_error "trusted keyid must be a nonempty string".

(** The source of trust: a callback, or a mapping from key ids to keys. *)
Abbreviation callback := (bytes → json → string → result bool).
Inductive trust := Verifier (f : callback) | TrustedKeys (d : list (string * bytes)).

Definition trust_of (verify_signature_fn : option callback) (public_keys : option (list (string * key_arg))) : result trust :=
  match verify_signature_fn, public_keys with
  | Some f, None => Ok (Verifier f)
  | None, Some keys => d ← mapM_result trusted_key keys; Ok (TrustedKeys d)
  | _, _ => value_error "provide exactly one trusted verifier or public_keys"
  end.

(** What one entry adds to the verified identities. *)
Definition verify_one (t : trust) (message : bytes) (entry : string * json) : result (option string) :=
  let '(keyid, sig) := entry in
  match t with
  | Verifier f =>
      match f message sig keyid with
      | Ok valid => Ok (if valid then Some keyid else None)
      | Raise _ => value_error "trusted verifier failed"
      end
  | TrustedKeys d =>
      match assoc keyid d with
      | Some key => s ← b64d (Some sig); Ok (if ed_verify key s message then Some key else None)
      | None => Ok None
      end
  end.

Fixpoint verify_entries (t : trust) (message : bytes) (entries : list (string * json)) (verified : gset string) :
    result (gset string) :=
  match entries with
  | [] => Ok verified
  | e :: entries' =>
      x ← verify_one t message e;
      verify_entries t message entries' (match x with Some i => {[i]} ∪ verified | None => verified end)
  end.

Definition verify_envelope (envelope : json) (verify_signature_fn : option callback)
    (public_keys : option (list (string * key_arg))) (threshold : Z) : result dict :=
  _ ← ensure (1 <=? threshold) "ValueError" "threshold must be a positive integer";
  t ← trust_of verify_signature_fn public_keys;
  '(statement, payload, entries) ← parse_envelope_ envelope;
  _ ← ensure (negb (bool_decide (entries = []))) "ValueError" "authentication requires signatures";
  verified ← verify_entries t (pae PAYLOAD_TYPE payload) entries ∅;
  _ ← ensure (threshold <=? Z.of_nat (size verified)) "ValueError" "signature authentication threshold not met";
  Ok statement.
End Dsse.

(** ** The signed bytes *)

Lemma decimal_inj n m a b : decimal n +:+ " " +:+ a = decimal m +:+ " " +:+ b → n = m ∧ a = b.
Proof.
  intros H. apply token_split in H as [Hn Hr].
  - apply (inj pretty) in Hn. rewrite !app_cons_str, !app_nil_l_str in Hr. injection Hr as ->. split; [lia|done].
  - eapply forall_str_impl; [apply int_char_atom|apply pretty_Z_chars].
  - eapply forall_str_impl; [apply int_char_atom|apply pretty_Z_chars].
  - done.
  - done.
Qed.

(** The pre-authentication encoding is unambiguous: the signed bytes determine
    the payload type and the payload, whatever bytes those hold. *)
Theorem pae_unambiguous t1 p1 t2 p2 : pae t1 p1 = pae t2 p2 ↔ t1 = t2 ∧ p1 = p2.
Proof.
  split; [|by intros [-> ->]]. unfold pae. intros H. apply (inj (String.app "DSSEv1 ")) in H.
  apply decimal_inj in H as [Hl H]. apply app_inj_str in H as [Ht H]; [|done].
  apply (inj utf8) in Ht. apply (inj (String.app " ")) in H. by apply decimal_inj in H as [_ ->].
Qed.

(** ** What an accepted envelope holds *)

Section Envelope.
Context `{FRd : FloatRead} `{ED : Ed25519}.

Definition clean (v : json) : bool := distinct_keys v && all_finite v.

Lemma forallb_Forall {A} (p : A → bool) l : forallb p l = true ↔ Forall (λ x, p x = true) l.
Proof. rewrite Forall_forall, forallb_forall. by setoid_rewrite list_elem_of_In. Qed.

Lemma strict_clean s v : loads_with strict_hooks s = Ok v → clean v = true.
Proof.
  apply (loads_inv strict_hooks (λ v, clean v = true)); unfold clean; cbn; try done.
  - intros l Hl. apply andb_true_iff. rewrite !forallb_Forall, !Forall_forall in *. setoid_rewrite andb_true_iff in Hl. naive_solver.
  - intros t w. destruct (is_finite (read_float t)) eqn:E; [|done]. intros [= <-]. cbn. by rewrite E.
  - intros l w Hl. destruct (bool_decide (NoDup l.*1)) eqn:E; [|done]. intros [= <-]. cbn. rewrite E.
    apply andb_true_iff. cbn. rewrite !forallb_Forall, !Forall_forall in *. setoid_rewrite andb_true_iff in Hl. naive_solver.
Qed.

Lemma read_payload_Ok payload v : read_payload payload = Ok v →
  ∃ s, utf8_decode payload = Ok s ∧ loads_with strict_hooks s = Ok v.
Proof.
  unfold read_payload. destruct (s ← utf8_decode payload; loads_with strict_hooks s) as [w|] eqn:E; [|done].
  intros [= <-]. by apply bind_Ok in E.
Qed.

Lemma check_statement_Ok v st : check_statement v = Ok st → v = JObj st.
Proof.
  destruct v; try done. cbn. intros (_ & _ & H)%bind_Ok. apply bind_Ok in H as (_ & _ & H). apply bind_Ok in H as (_ & _ & H).
  destruct (assoc "subject" l) as [[]|]; try done. by apply bind_Ok in H as (_ & _ & [= ->]).
Qed.

Lemma parse_parts envelope st payload entries : parse_envelope_ envelope = Ok (st, payload, entries) →
  read_payload payload = Ok (JObj st) ∧ check_statement (JObj st) = Ok st ∧
  ∃ d l, envelope = JObj d ∧ b64d (assoc "payload" d) = Ok payload ∧ assoc "signatures" d = Some (JArr l) ∧
    mapM_result signature_entry l = Ok entries.
Proof.
  destruct envelope as [| | | | | |d]; try done. cbn [parse_envelope_]. intros (_ & _ & H)%bind_Ok.
  do 3 apply bind_Ok in H as (_ & _ & H). apply bind_Ok in H as (sigs & Hs & H).
  apply bind_Ok in H as (es & He & H). apply bind_Ok in H as (p & Hp & H). apply bind_Ok in H as (v & Hv & H).
  apply bind_Ok in H as (st' & Hst & [= <- <- <-]). pose proof (check_statement_Ok _ _ Hst) as ->.
  split; [done|]. split; [done|]. exists d, sigs. split; [done|]. split; [done|]. split; [|done].
  destruct (assoc "signatures" d) as [[]|]; try done. by injection Hs as <-.
Qed.

(** A statement that an envelope yields is unambiguous JSON: no object in it
    repeats a key and no number in it is infinite or not a number; and it is a
    statement about a legal-v3 bundle. *)
Theorem statement_unambiguous envelope st : parse_envelope envelope = Ok st →
  distinct_keys (JObj st) = true ∧ all_finite (JObj st) = true ∧
  is_str STATEMENT_TYPE (assoc "_type" st) = true ∧ is_str PREDICATE_TYPE (assoc "predicateType" st) = true.
Proof.
  intros ([[st' payload] entries] & (Hv & Hs & _)%parse_parts & [= ->])%bind_Ok.
  apply read_payload_Ok in Hv as (s & _ & Hs'%strict_clean). unfold clean in Hs'. bool_prop. split; [done|]. split; [done|].
  cbn in Hs. apply bind_Ok in Hs as (_ & ?%ensure_Ok & Hs). by apply bind_Ok in Hs as (_ & ?%ensure_Ok & _).
Qed.

(** ** Authentication *)

(** An entry of the envelope by which a trusted identity signs the message. *)
Definition vouches (t : trust) (message : bytes) (i : string) (e : string * json) : Prop :=
  match t with
  | Verifier f => e.1 = i ∧ f message e.2 e.1 = Ok true
  | TrustedKeys d => assoc e.1 d = Some i ∧ ∃ s, b64d (Some e.2) = Ok s ∧ ed_verify i s message = true
  end.

Lemma verify_one_vouches t message e i : verify_one t message e = Ok (Some i) → vouches t message i e.
Proof.
  destruct e as [keyid sig], t as [f|d]; cbn.
  - destruct (f _ _ _) as [[]|] eqn:E; [|done|done]. by intros [= <-].
  - destruct (assoc keyid d) as [key|] eqn:E; [|done]. intros (s & Hs & H)%bind_Ok.
    destruct (ed_verify key s message) eqn:Ev; [|done]. injection H as <-. split; [done|]. by exists s.
Qed.

Lemma verify_entries_vouched t message entries : ∀ verified ids, verify_entries t message entries verified = Ok ids →
  ∀ i, i ∈ ids → i ∈ verified ∨ ∃ e, e ∈ entries ∧ vouches t message i e.
Proof.
  induction entries as [|e entries IH]; cbn [verify_entries]; intros verified ids; [intros [= <-]; by left|].
  intros (x & Hx & H)%bind_Ok i Hi. destruct (IH _ _ H i Hi) as [Hv|(e' & He & Hv)]; [|right; exists e'; split; [by right|done]].
  destruct x as [j|]; [|by left]. apply elem_of_union in Hv as [->%elem_of_singleton|Hv]; [|by left].
  right. exists e. split; [by left|]. by apply verify_one_vouches.
Qed.

(** C26.  Authentication: an envelope verifies only when at least [threshold]
    different trusted identities (public keys, when keys are given: two ids
    of one key count once) sign, by an entry of the envelope, the encoding of
    the very payload from which the returned statement is read. *)
Theorem verify_authentic envelope f keys threshold st :
  verify_envelope envelope f keys threshold = Ok st →
  ∃ t payload entries (ids : gset string),
    trust_of f keys = Ok t ∧ parse_envelope_ envelope = Ok (st, payload, entries) ∧ read_payload payload = Ok (JObj st) ∧
    1 ≤ threshold ≤ Z.of_nat (size ids) ∧
    ∀ i, i ∈ ids → ∃ e, e ∈ entries ∧ vouches t (pae PAYLOAD_TYPE payload) i e.
Proof.
  intros (_ & Ht%ensure_Ok & H)%bind_Ok. apply bind_Ok in H as (t & Htr & H).
  apply bind_Ok in H as ([[st' payload] entries] & Hp & H). apply bind_Ok in H as (_ & _ & H).
  apply bind_Ok in H as (ids & Hids & H). apply bind_Ok in H as (_ & Hn%ensure_Ok & [= ->]).
  exists t, payload, entries, ids. split; [done|]. split; [done|].
  split; [by apply parse_parts in Hp as (? & _)|]. split; [lia|].
  intros i Hi. destruct (verify_entries_vouched _ _ _ _ _ Hids i Hi) as [Hv|Hv]; [set_solver|done].
Qed.

(** ** An envelope that is signed verifies *)

Lemma b64d_encode b : b64d (Some (JStr (b64encode b))) = Ok b.
Proof. cbn. rewrite b64decode_encode. by rewrite bool_decide_true. Qed.

Lemma canon_statement a b c d :
  canon (JObj [("_type", a); ("subject", b); ("predicateType", c); ("predicate", d)]) =
  JObj [("_type", canon a); ("predicate", canon d); ("predicateType", canon c); ("subject", canon b)].
Proof. reflexivity. Qed.

Lemma subject_of_ok name sha : forallb subject_ok (subject_of name sha) = true →
  subject_of name sha = [] ∨ ∃ n s, subject_of name sha = [JObj [("name", JStr n); ("digest", JObj [("sha256", JStr s)])]].
Proof.
  unfold subject_of. destruct (truthy_json sha); [|by left]. cbn. intros H. right.
  destruct name, sha; try done. by eexists _, _.
Qed.

Lemma strict_reads v : wf_json v = true → distinct_keys v = true → all_finite v = true → reads_back strict_hooks v.
Proof.
  induction v as [| | |f| |l IH|l IH] using json_ind'; cbn [wf_json distinct_keys all_finite reads_back]; try done.
  - intros Hw _ Hf. apply read_float_repr; [done|done|]. cbn. by rewrite read_repr, Hf.
  - induction IH as [|x l Hx _ IH]; cbn; [done|]. intros ???. bool_prop. auto.
  - intros Hw Hd Hf. apply andb_true_iff in Hd as [Hn Hd]. split; [cbn; by rewrite Hn|]. clear Hn.
    induction IH as [|x l Hx _ IH]; cbn in *; [done|]. bool_prop. auto.
Qed.

Lemma finite_canon v : all_finite (canon v) = all_finite v.
Proof.
  induction v as [| | | | |l IH|l IH] using json_ind'; simpl; try done.
  - induction IH as [|x l Hx _ IH]; simpl; [done|]. by rewrite Hx, IH.
  - rewrite (forallb_Permutation _ _ _ (merge_sort_Permutation key_le _)).
    induction IH as [|x l Hx _ IH]; simpl; [done|]. by rewrite Hx, IH.
Qed.

(** The statement of a bundle, with its keys in the order of the payload. *)
Definition sorted_statement (st : dict) : dict := match canon (JObj st) with JObj l => l | _ => [] end.

Lemma create_statement_Ok bundle st : create_statement bundle = Ok st →
  ∃ n1 s1 n2 s2, st = [("_type", JStr STATEMENT_TYPE); ("subject", JArr (subject_of n1 s1 ++ subject_of n2 s2));
    ("predicateType", JStr PREDICATE_TYPE); ("predicate", JObj bundle)].
Proof.
  unfold create_statement. intros (p & _ & H)%bind_Ok. apply bind_Ok in H as (n1 & _ & H). apply bind_Ok in H as (e & _ & H).
  apply bind_Ok in H as (l & _ & H). apply bind_Ok in H as (s1 & _ & H). apply bind_Ok in H as (n2 & _ & H).
  apply bind_Ok in H as (s2 & _ & [= <-]). by exists n1, s1, n2, s2.
Qed.

Lemma check_fields l b :
  let st := [("_type", JStr STATEMENT_TYPE); ("subject", JArr l); ("predicateType", JStr PREDICATE_TYPE); ("predicate", JObj b)] in
  check_statement (JObj st) = (_ ← ensure (forallb subject_ok l) "ValueError" "invalid statement subject"; Ok st).
Proof. reflexivity. Qed.

(** A statement whose subjects have text names and digests is read back. *)
Lemma statement_roundtrip bundle st : create_statement bundle = Ok st → check_statement (JObj st) = Ok st →
  wf_json (JObj bundle) = true → distinct_keys (JObj bundle) = true → all_finite (JObj st) = true →
  read_payload (canonical false (JObj st)) = Ok (JObj (sorted_statement st)) ∧
  check_statement (JObj (sorted_statement st)) = Ok (sorted_statement st).
Proof.
  intros (n1 & s1 & n2 & s2 & ->)%create_statement_Ok Hc Hw Hd Hf.
  assert (forallb subject_ok (subject_of n1 s1 ++ subject_of n2 s2) = true) as Hs.
  { rewrite check_fields in Hc. by apply bind_Ok in Hc as (_ & ?%ensure_Ok & _). }
  assert (wf_json (JArr (subject_of n1 s1 ++ subject_of n2 s2)) = true ∧
    distinct_keys (JArr (subject_of n1 s1 ++ subject_of n2 s2)) = true ∧
    forallb subject_ok (map canon (subject_of n1 s1 ++ subject_of n2 s2)) = true) as (Hsw & Hsd & Hsc).
  { rewrite forallb_app in Hs. apply andb_true_iff in Hs as [H1%subject_of_ok H2%subject_of_ok].
    destruct H1 as [->|(?&?&->)], H2 as [->|(?&?&->)]; done. }
  split.
  - unfold read_payload, canonical. rewrite utf8_decode_utf8. cbn [mbind result_bind]. rewrite loads_print.
    + unfold sorted_statement. by rewrite canon_statement.
    + apply strict_reads; [rewrite wf_canon|rewrite distinct_canon|by rewrite finite_canon].
      * change (true && (wf_json (JArr (subject_of n1 s1 ++ subject_of n2 s2)) && (true && (wf_json (JObj bundle) && true))) = true).
        by rewrite Hsw, Hw.
      * change (bool_decide (NoDup ["_type"; "subject"; "predicateType"; "predicate"]) &&
          (true && (distinct_keys (JArr (subject_of n1 s1 ++ subject_of n2 s2)) && (true && (distinct_keys (JObj bundle) && true)))) = true).
        by rewrite Hsd, Hd.
  - unfold sorted_statement. rewrite canon_statement.
    set (l := [("_type", _); _; _; _]).
    change (check_statement (JObj l)) with
      (_ ← ensure (forallb subject_ok (map canon (subject_of n1 s1 ++ subject_of n2 s2))) "ValueError" "invalid statement subject"; Ok l).
    by rewrite Hsc.
Qed.

Lemma parse_fields p l :
  parse_envelope_ (JObj [("payload", p); ("payloadType", JStr PAYLOAD_TYPE); ("signatures", JArr l)]) =
  (entries ← mapM_result signature_entry l; payload ← b64d (Some p); v ← read_payload payload;
   statement ← check_statement v; Ok (statement, payload, entries)).
Proof. reflexivity. Qed.

(** The signatures of the signers, each with its key id. *)
Definition sign_entry (message : bytes) (p : string * bytes) : json :=
  JObj [("sig", JStr (b64encode (ed_sign p.2 message))); ("keyid", JStr p.1)].

Lemma sign_entries message signers : Forall (λ p, p.1 ≠ "" ∧ ed_sign p.2 message ≠ "") signers →
  mapM_result signature_entry (map (sign_entry message) signers) =
  Ok (map (λ p, (p.1, JStr (b64encode (ed_sign p.2 message)))) signers).
Proof.
  intros H. apply mapM_result_Ok. induction H as [|p l [Hk Hs] _ IH]; [constructor|]. constructor; [|done].
  change (signature_entry (sign_entry message p)) with
    (if truthy p.1 then sig ← b64d (Some (JStr (b64encode (ed_sign p.2 message))));
       if truthy sig then Ok (p.1, JStr (b64encode (ed_sign p.2 message))) else value_error "signature must not be empty"
     else value_error "signature requires a nonempty keyid").
  rewrite b64d_encode. unfold truthy. cbn [mbind result_bind]. by rewrite !bool_decide_false by done.
Qed.

Lemma verify_signers message all signers verified : NoDup all.*1 → signers ⊆ all →
  Forall (λ p, String.length p.2 = 32%nat) signers →
  verify_entries (TrustedKeys (map (λ p, (p.1, ed_public p.2)) all)) message
    (map (λ p, (p.1, JStr (b64encode (ed_sign p.2 message)))) signers) verified =
  Ok (list_to_set (map (λ p, ed_public p.2) signers) ∪ verified).
Proof.
  intros Hn Hs Hl. revert verified. induction Hl as [|p l Hp Hl IH]; intros verified; cbn [map verify_entries].
  { f_equal. set_solver. }
  unfold verify_one at 1. rewrite assoc_fmap, (elem_assoc p.1 p.2 all Hn) by (destruct p; set_solver). cbn [fmap option_fmap option_map].
  rewrite b64d_encode. cbn [mbind result_bind]. rewrite ed_verify_sign by done. cbn [mbind result_bind].
  rewrite IH by set_solver. f_equal. cbn [list_to_set]. set_solver.
Qed.

Lemma create_envelope_Ok bundle st signatures envelope :
  create_statement bundle = Ok st → create_envelope bundle signatures = Ok envelope → all_finite (JObj st) = true ∧
  envelope = [("payload", JStr (b64encode (canonical false (JObj st)))); ("payloadType", JStr PAYLOAD_TYPE);
    ("signatures", JArr signatures)].
Proof.
  unfold create_envelope. intros -> H. cbn [mbind result_bind] in H. apply bind_Ok in H as (_ & Hf%ensure_Ok & H).
  split; [done|congruence].
Qed.

Lemma trust_signers signers : Forall (λ p, p.1 ≠ "") signers →
  trust_of None (Some (map (λ p, (p.1, KeyObject (ed_public p.2))) signers)) =
  Ok (TrustedKeys (map (λ p, (p.1, ed_public p.2)) signers)).
Proof.
  intros Hs. unfold trust_of. assert (mapM_result trusted_key (map (λ p, (p.1, KeyObject (ed_public p.2))) signers) =
    Ok (map (λ p, (p.1, ed_public p.2)) signers)) as ->; [|done].
  apply mapM_result_Ok. induction Hs as [|p l Hk _ IH]; [constructor|]. constructor; [|done].
  unfold trusted_key, truthy. cbn [fst snd]. by rewrite bool_decide_false.
Qed.

(** Signing works: the envelope of a bundle, signed by enough different
    trusted keys over the encoding of its payload, verifies and gives back
    the statement that was signed, the bundle inside it. *)
Theorem signed_envelope_verifies bundle st envelope signers threshold :
  let message := pae PAYLOAD_TYPE (canonical false (JObj st)) in
  create_statement bundle = Ok st → check_statement (JObj st) = Ok st →
  wf_json (JObj bundle) = true → distinct_keys (JObj bundle) = true →
  create_envelope bundle (map (sign_entry message) signers) = Ok envelope →
  Forall (λ p, p.1 ≠ "" ∧ String.length p.2 = 32%nat ∧ ed_sign p.2 message ≠ "") signers →
  NoDup signers.*1 → NoDup (map (λ p, ed_public p.2) signers) → 1 ≤ threshold ≤ Z.of_nat (length signers) →
  verify_envelope (JObj envelope) None (Some (map (λ p, (p.1, KeyObject (ed_public p.2))) signers)) threshold =
    Ok (sorted_statement st) ∧
  assoc "predicate" (sorted_statement st) = Some (canon (JObj bundle)).
Proof.
  intros message Hst Hck Hw Hd He Hs Hids Hkeys Ht. split.
  2: { apply create_statement_Ok in Hst as (n1 & s1 & n2 & s2 & ->). unfold sorted_statement. by rewrite canon_statement. }
  apply (create_envelope_Ok _ _ _ _ Hst) in He as [Hf ->].
  destruct (statement_roundtrip bundle st Hst Hck Hw Hd Hf) as [Hread Hcheck].
  unfold verify_envelope. replace (1 <=? threshold) with true by lia. cbn [ensure mbind result_bind].
  rewrite trust_signers by (eapply Forall_impl; [exact Hs|naive_solver]). cbn [mbind result_bind].
  rewrite parse_fields, sign_entries by (eapply Forall_impl; [exact Hs|naive_solver]). cbn [mbind result_bind].
  rewrite b64d_encode. cbn [mbind result_bind]. rewrite Hread. cbn [mbind result_bind]. rewrite Hcheck. cbn [mbind result_bind].
  destruct signers as [|p signers]; [cbn in Ht; lia|]. rewrite bool_decide_false by done. cbn [ensure negb mbind result_bind].
  rewrite verify_signers by (done || (eapply Forall_impl; [exact Hs|naive_solver])). cbn [mbind result_bind].
  rewrite right_id_L by apply _. rewrite size_list_to_set, length_map by done.
  by replace (threshold <=? _) with true by lia.
Qed.
End Envelope.

(** ** A concrete bundle *)

#[local] Existing Instances plain_signatures decimal_float_repr.
#[local] Existing Instance decimal_float_read.

Definition demo_bundle : dict :=
  [("proposal", JObj [("output", JStr "out.docx"); ("source", JStr "in.docx"); ("source_sha256", JStr "ab")]);
   ("events", JArr [JObj [("event_type", JStr "APPROVED")];
                    JObj [("event_type", JStr "ARTIFACT_READBACK"); ("payload", JObj [("output_sha256", JStr "cd")])]])].
Definition demo_statement : dict :=
  [("_type", JStr STATEMENT_TYPE);
   ("subject", JArr [JObj [("name", JStr "out.docx"); ("digest", JObj [("sha256", JStr "cd")])];
                     JObj [("name", JStr "in.docx"); ("digest", JObj [("sha256", JStr "ab")])]]);
   ("predicateType", JStr PREDICATE_TYPE); ("predicate", JObj demo_bundle)].
Definition demo_message : bytes := pae PAYLOAD_TYPE (canonical false (JObj demo_statement)).
Definition alice : string := "alice-alice-alice-alice-alice-al".
Definition bob : string := "bob-bob-bob-bob-bob-bob-bob-bob-".
Definition demo_signers : list (string * bytes) := [("a", alice); ("b", bob)].
Definition demo_envelope : dict :=
  match create_envelope demo_bundle (map (sign_entry demo_message) demo_signers) with Ok e => e | _ => [] end.
Definition demo_keys : list (string * key_arg) := map (λ p, (p.1, KeyObject (ed_public p.2))) demo_signers.

Lemma envelope_created : create_envelope demo_bundle (map (sign_entry demo_message) demo_signers) = Ok demo_envelope.
Proof. vm_compute. reflexivity. Qed.
Lemma demo_verified : verify_envelope (JObj demo_envelope) None (Some demo_keys) 2 = Ok (sorted_statement demo_statement).
Proof. vm_compute. reflexivity. Qed.
Lemma demo_parsed : parse_envelope (JObj demo_envelope) = Ok (sorted_statement demo_statement).
Proof. vm_compute. reflexivity. Qed.

(** One key under two ids is one signer; an unknown key is none. *)
Lemma alias_example :
  let envelope signers := match create_envelope demo_bundle (map (sign_entry demo_message) signers) with Ok e => e | _ => [] end in
  let keys signers := Some (map (λ p, (p.1, KeyObject (ed_public p.2))) signers) in
  is_ok (verify_envelope (JObj (envelope [("a", alice); ("c", alice)])) None (keys [("a", alice); ("c", alice)]) 2) = false ∧
  is_ok (verify_envelope (JObj demo_envelope) None (keys [("a", alice)]) 2) = false ∧
  is_ok (verify_envelope (JObj (envelope [])) None (keys demo_signers) 1) = false.
Proof. split_and!; vm_compute; reflexivity. Qed.

Lemma statement_unambiguous_witness :
  distinct_keys (JObj (sorted_statement demo_statement)) = true ∧ all_finite (JObj (sorted_statement demo_statement)) = true.
Proof.
  destruct (statement_unambiguous (JObj demo_envelope) (sorted_statement demo_statement) demo_parsed) as (H1 & H2 & _).
  split; [exact H1|exact H2].
Defined.

Lemma verify_authentic_witness : ∃ payload (ids : gset string),
  read_payload payload = Ok (JObj (sorted_statement demo_statement)) ∧ 2 ≤ Z.of_nat (size ids) ∧
  ∀ i, i ∈ ids → ∃ t e, vouches t (pae PAYLOAD_TYPE payload) i e.
Proof.
  destruct (verify_authentic (JObj demo_envelope) None (Some demo_keys) 2 (sorted_statement demo_statement) demo_verified)
    as (t & payload & entries & ids & _ & _ & Hr & Hn & Hi).
  exists payload, ids. split; [exact Hr|]. split; [exact (proj2 Hn)|].
  intros i Hin. destruct (Hi i Hin) as (e & _ & Hv). exists t, e. exact Hv.
Defined.

Lemma signed_envelope_verifies_witness :
  verify_envelope (JObj demo_envelope) None (Some (map (λ p, (p.1, KeyObject (ed_public p.2))) demo_signers)) 2 =
    Ok (sorted_statement demo_statement) ∧
  assoc "predicate" (sorted_statement demo_statement) = Some (canon (JObj demo_bundle)).
Proof.
  apply (signed_envelope_verifies demo_bundle demo_statement demo_envelope demo_signers 2).
  - vm_compute. reflexivity.
  - vm_compute. reflexivity.
  - vm_compute. reflexivity.
  - vm_compute. reflexivity.
  - exact envelope_created.
  - repeat constructor; intros H; discriminate H.
  - apply (bool_decide_unpack _). vm_compute. exact I.
  - apply (bool_decide_unpack _). vm_compute. exact I.
  - split; [lia|]. vm_compute. intros H. discriminate H.
Defined.
