(* ===== verification/TrustPolicy.v ===== *)
(** * The trust policy of the legal verifier

    [kairo/legal_v3/trust_policy.py]: the default policy, the policy file and
    the checks against it.  A file is its bytes, or [None] when there is none. *)

From S2P Require Import LegalV3.
From S2P Require Import Prelude PyStr PyFloat PyDict Json JsonRead.

Definition DEFAULT_POLICY : dict :=
  [("profile", JStr "kairo-legal-v3");
   ("allowed_clauses", JArr (map JStr ["governing_law"; "liability_cap"; "termination_notice"; "confidentiality_survival";
                                       "indemnification_cap"]));
   ("trusted_key_ids", JNull); ("approval_ttl_seconds", JInt 600); ("reject_observer_collision", JBool true);
   ("max_source_bytes", JInt 26214400)].

Definition policy_error {A} (msg : string) : result A := raise "TrustPolicyError" msg.

(** The loop that fills in the defaults. *)
Definition fill_defaults (data : dict) : dict :=
  fold_left (λ d p, if has_key p.1 d then d else dict_set p.1 p.2 d) DEFAULT_POLICY data.

(** [v in l] for a list, a string or a dict. *)
Definition member (k : string) (v : json) : result bool :=
  match v with
  | JArr l => Ok (existsb (λ x, is_str k (Some x)) l)
  | JObj d => Ok (has_key k d)
  | JStr s => Ok (contains k s)
  | _ => raise "TypeError" "argument is not iterable"
  end.

Section Load.
Context `{FRd : FloatRead}.

Definition validate_policy (data : json) : result dict :=
  match data with
  | JObj d =>
      _ ← ensure (has_key "profile" d) "TrustPolicyError" "trust policy missing 'profile' field";
      _ ← ensure (is_str "kairo-legal-v3" (assoc "profile" d)) "TrustPolicyError" "trust policy profile mismatch";
      _ ← ensure (has_key "allowed_clauses" d) "TrustPolicyError" "trust policy missing 'allowed_clauses' field";
      _ ← ensure (match assoc "allowed_clauses" d with Some (JArr _) => true | _ => false end) "TrustPolicyError"
            "'allowed_clauses' must be a list";
      Ok (fill_defaults d)
  | JArr _ | JStr _ =>
      present ← member "profile" data;
      if present : bool then raise "TypeError" "indices must be integers" else policy_error "trust policy missing 'profile' field"
  | _ => raise "TypeError" "argument is not iterable"
  end.

(** [load_policy], of the file the path names. *)
Definition load_policy (path : option (option bytes)) : result dict :=
  match path with
  | None => Ok DEFAULT_POLICY
  | Some None => policy_error "trust policy file not found"
  | Some (Some data) =>
      text ← utf8_decode data;
      match loads text with
      | Ok v => validate_policy v
      | Raise e => if bool_decide (exn_class e = "JSONDecodeError") then policy_error "invalid JSON in trust policy" else Raise e
      end
  end.

(** ** Checks *)

Definition check_clause (policy : dict) (clause : string) : result bool :=
  v ← item "allowed_clauses" policy; member clause v.

Definition check_key_trust (policy : dict) (key_id : string) : result bool :=
  match from_option id JNull (assoc "trusted_key_ids" policy) with
  | JNull => Ok true
  | trusted => member key_id trusted
  end.

(** [n <= v] of a number *)
Definition at_most (n : Z) (v : json) : result bool :=
  match v with
  | JFloat f => Ok (int_le_float n f)
  | _ => match int_of_json v with Some z => Ok (n <=? z) | None => raise "TypeError" "'<=' not supported between instances" end
  end.

Definition check_approval_ttl (policy : dict) (issued_at approved_at : Z) : result bool :=
  at_most (approved_at - issued_at) (from_option id (JInt 600) (assoc "approval_ttl_seconds" policy)).

Definition check_observer_collision (policy : dict) (observer_key_id : string) (other_key_ids : list string) : bool :=
  if negb (truthy_json (from_option id (JBool true) (assoc "reject_observer_collision" policy))) then true
  else negb (bool_decide (observer_key_id ∈ other_key_ids)).

Definition check_source_size (policy : dict) (size_bytes : Z) : result bool :=
  at_most size_bytes (from_option id (JInt 26214400) (assoc "max_source_bytes" policy)).

(** The text that [write_default_policy] writes. *)
Definition default_policy_text : bytes := utf8 (print_indent true 0 (JObj DEFAULT_POLICY) +:+ String "010" "").
End Load.

(** ** Loading *)

Lemma assoc_defaults k l : ∀ d : dict,
  assoc k (fold_left (λ d p, if has_key p.1 d then d else dict_set p.1 p.2 d) l d) =
  match assoc k d with Some v => Some v | None => assoc k l end.
Proof.
  induction l as [|[j v] l IH]; intros d; cbn [fold_left fst snd assoc]; [by destruct (assoc k d)|].
  rewrite IH. unfold has_key. destruct (assoc j d) as [w|] eqn:E.
  - destruct (assoc k d) eqn:Ek; [done|]. rewrite bool_decide_false; [done|]. intros ->. congruence.
  - destruct (decide (j = k)) as [->|Hne]; [by rewrite assoc_set_eq, E, bool_decide_true|].
    rewrite assoc_set_ne by done. rewrite bool_decide_false; [done|]. by intros ->.
Qed.

Section Loading.
Context `{FRd : FloatRead}.

(** A loaded policy is the file's with the defaults for the keys the file does
    not set, and its list of clauses is one: no check of a clause can raise. *)
Theorem loaded_policy data policy : load_policy (Some (Some data)) = Ok policy →
  ∃ text file, utf8_decode data = Ok text ∧ loads text = Ok (JObj file) ∧
    is_str "kairo-legal-v3" (assoc "profile" policy) = true ∧
    (∀ k, assoc k policy = match assoc k file with Some v => Some v | None => assoc k DEFAULT_POLICY end) ∧
    ∀ clause, ∃ b, check_clause policy clause = Ok b.
Proof.
  intros (text & Ht & H)%bind_Ok. destruct (loads text) as [v|e] eqn:Ev; [|by destruct (bool_decide _)].
  destruct v as [| | | |s|l|d]; try done; try (by cbn in H; destruct (bool_decide _); apply bind_Ok in H as ([] & _ & H)).
  - cbn [validate_policy] in H. by apply bind_Ok in H as ([] & _ & H).
  - cbn [validate_policy] in H. by apply bind_Ok in H as ([] & _ & H).
  - cbn [validate_policy] in H. apply bind_Ok in H as (_ & _ & H). apply bind_Ok in H as (_ & Hp%ensure_Ok & H).
    apply bind_Ok in H as (_ & _ & H). apply bind_Ok in H as (_ & Hc%ensure_Ok & [= <-]).
    assert (∀ k, assoc k (fill_defaults d) = match assoc k d with Some v => Some v | None => assoc k DEFAULT_POLICY end) as Ha
      by (intros k; apply assoc_defaults).
    exists text, d. split; [done|]. split; [done|]. split.
    { rewrite Ha. by destruct (assoc "profile" d). }
    split; [exact Ha|]. intros clause. unfold check_clause, item. rewrite Ha.
    destruct (assoc "allowed_clauses" d) as [[]|]; try done. by eexists.
Qed.
End Loading.

Lemma member_strings k l : member k (JArr (map JStr l)) = Ok (bool_decide (k ∈ l)).
Proof.
  cbn. f_equal. induction l as [|x l IH]; [done|]. cbn [map existsb is_str]. rewrite IH.
  destruct (decide (k = x)) as [->|Hne].
  - rewrite (bool_decide_true (x = x)), (bool_decide_true (x ∈ x :: l)) by (done || left). done.
  - rewrite (bool_decide_false (k = x)) by done. cbn. apply bool_decide_ext. rewrite elem_of_cons. naive_solver.
Qed.

(** The default policy is what the transaction hardcodes: the same clauses and
    the same limit on the size of a source. *)
Theorem default_policy_hardcoded clause n :
  check_clause DEFAULT_POLICY clause = Ok (bool_decide (clause ∈ LegalV3.ALLOWED_CLAUSES)) ∧
  check_source_size DEFAULT_POLICY n = Ok (negb (LegalV3.MAX_BYTES <? n)).
Proof.
  split.
  - change (member clause (JArr (map JStr LegalV3.ALLOWED_CLAUSES)) = Ok (bool_decide (clause ∈ LegalV3.ALLOWED_CLAUSES))).
    apply member_strings.
  - change (Ok (n <=? LegalV3.MAX_BYTES) = Ok (negb (LegalV3.MAX_BYTES <? n))). f_equal. lia.
Qed.

(** The time limit has one side: an approval dated before the proposal was
    issued, by however much, is within it. *)
Theorem approval_before_issue policy ttl issued_at approved_at :
  assoc "approval_ttl_seconds" policy = Some (JInt ttl) → 0 ≤ ttl → approved_at ≤ issued_at →
  check_approval_ttl policy issued_at approved_at = Ok true.
Proof. intros Hp Ht Ha. unfold check_approval_ttl. rewrite Hp. cbn. f_equal. lia. Qed.

(** ** Concrete policies *)

#[local] Existing Instance decimal_float_repr.
#[local] Existing Instance decimal_float_read.

Definition small_policy : bytes :=
  "{" +:+ dq "profile" +:+ ": " +:+ dq "kairo-legal-v3" +:+ ", " +:+ dq "allowed_clauses" +:+ ": [" +:+ dq "governing_law" +:+ "]}".
Definition loaded : dict := match load_policy (Some (Some small_policy)) with Ok p => p | _ => [] end.

Lemma small_loads : load_policy (Some (Some small_policy)) = Ok loaded.
Proof. vm_compute. reflexivity. Qed.

(** What [write_default_policy] writes is a policy file of the default policy. *)
Lemma default_roundtrip : load_policy (Some (Some default_policy_text)) = Ok DEFAULT_POLICY.
Proof. vm_compute. reflexivity. Qed.

Lemma loaded_policy_witness : ∃ b, check_clause loaded "liability_cap" = Ok b.
Proof. destruct (loaded_policy small_policy loaded small_loads) as (_ & _ & _ & _ & _ & _ & H). exact (H "liability_cap"). Defined.

Lemma approval_before_issue_witness : check_approval_ttl DEFAULT_POLICY 1000 0 = Ok true.
Proof. apply (approval_before_issue DEFAULT_POLICY 600 1000 0); [reflexivity|lia|lia]. Defined.
