(* ===== verification/Sync.v ===== *)
(** * Synchronisation between devices

    [kairo/sync/sync_manager.py]: manifests of documents, their comparison and
    the merge of extractions.  An extraction in a manifest is the JSON object
    that [build_manifest] writes or a file holds; a field that is not a string
    and confidences that are lists are refused here.  Files are their bytes. *)

From S2P Require Import Prelude PyStr PyFloat PyDict Json JsonRead Sha256 DataModel.

(** [v[k]] of a value that should be a dict *)
Definition entry (k : string) (v : json) : result json :=
  match v with JObj d => item k d | _ => raise "TypeError" "object is not subscriptable by a string" end.
Definition field_of (ext : json) : result string :=
  v ← entry "field" ext; match v with JStr s => Ok s | _ => raise "TypeError" "field is not a string" end.

Definition CASCADE_DEPTH (m : GroundingMethod) : Z :=
  match m with VISUAL => 4 | SEMANTIC => 3 | FUZZY => 2 | EXACT => 1 | BLOCK => 0 end.
Definition depth_of (ext : json) : result Z :=
  v ← entry "method" ext;
  m ← match v with JStr s => GroundingMethod_of s | _ => raise "ValueError" "not a valid GroundingMethod" end;
  Ok (CASCADE_DEPTH m).

(** ** Manifests *)

Record DocumentManifest := {
  doc_id : string; doc_hash : string; doc_type : string; fields_count : Z; file_path : string;
  extractions : list json }.

Definition to_dict (m : DocumentManifest) : json :=
  JObj [("doc_id", JStr (doc_id m)); ("doc_hash", JStr (doc_hash m)); ("doc_type", JStr (doc_type m));
        ("fields_count", JInt (fields_count m)); ("file_path", JStr (file_path m)); ("extractions", JArr (extractions m))].

Abbreviation files := (list (string * bytes)).

Definition compute_doc_hash (path : string) (fs : files) : result string :=
  match assoc path fs with Some b => Ok (sha256_hex b) | None => raise "FileNotFoundError" path end.

Definition ext_dict (e : Extraction) : json :=
  JObj [("field", JStr (e_field_name e)); ("value", JStr (e_value e)); ("confidence", JFloat (e_confidence e));
        ("method", JStr (method_value (e_method e))); ("chunk_id", JStr (e_chunk_id e))].

Definition build_manifest (doc_id file_path doc_type : string) (exts : list Extraction) (fs : files) : result DocumentManifest :=
  doc_hash ← compute_doc_hash file_path fs;
  Ok {| doc_id := doc_id; doc_hash := doc_hash; doc_type := doc_type; fields_count := Z.of_nat (length exts);
        file_path := file_path; extractions := map ext_dict exts |}.

Record comparison := {
  new_remote : list json; new_local : list json; shared : list string; conflicts : list string }.

Definition by_hash (l : list DocumentManifest) : list (string * DocumentManifest) := dict_of (map (λ m, (doc_hash m, m)) l).

Definition same_set (l k : list string) : bool := bool_decide (l ⊆ k) && bool_decide (k ⊆ l).

Definition in_conflict (a b : DocumentManifest) : result bool :=
  if negb (fields_count a =? fields_count b) then Ok true
  else local_fields ← mapM_result field_of (extractions a);
       remote_fields ← mapM_result field_of (extractions b);
       Ok (negb (same_set local_fields remote_fields)).

Fixpoint conflicting (local_map remote_map : list (string * DocumentManifest)) (hashes : list string) : result (list string) :=
  match hashes with
  | [] => Ok []
  | h :: hashes' =>
      c ← match assoc h local_map, assoc h remote_map with Some a, Some b => in_conflict a b | _, _ => Ok false end;
      rest ← conflicting local_map remote_map hashes';
      Ok (if c : bool then h :: rest else rest)
  end.

Definition only_in (a b : list (string * DocumentManifest)) : list (string * DocumentManifest) :=
  filter (λ p, has_key p.1 b = false) a.

Definition compare_manifests (local remote : list DocumentManifest) : result comparison :=
  let local_map := by_hash local in
  let remote_map := by_hash remote in
  let shared_hashes := filter (λ h, has_key h remote_map = true) local_map.*1 in
  conflicts ← conflicting local_map remote_map shared_hashes;
  Ok {| new_remote := map (λ p, to_dict p.2) (only_in remote_map local_map);
        new_local := map (λ p, to_dict p.2) (only_in local_map remote_map);
        shared := shared_hashes; conflicts := conflicts |}.

(** ** The merge *)

Fixpoint add_local (local : list json) (merged : dict) : result dict :=
  match local with
  | [] => Ok merged
  | ext :: local' => field ← field_of ext; add_local local' (dict_set field ext merged)
  end.

(** Whether a remote extraction replaces the one kept so far. *)
Definition replaces (ext existing : json) : result bool :=
  c ← entry "confidence" ext;
  c' ← entry "confidence" existing;
  gt ← json_gt c c';
  if gt : bool then Ok true
  else if py_eq c c' then d ← depth_of ext; d' ← depth_of existing; Ok (d' <? d)
  else Ok false.

Fixpoint add_remote (remote : list json) (merged : dict) : result dict :=
  match remote with
  | [] => Ok merged
  | ext :: remote' =>
      field ← field_of ext;
      merged' ← match assoc field merged with
        | None => Ok (dict_set field ext merged)
        | Some existing => r ← replaces ext existing; Ok (if r : bool then dict_set field ext merged else merged)
        end;
      add_remote remote' merged'
  end.

Definition merge_extractions (local_exts remote_exts : list json) : result (list json) :=
  merged ← add_local local_exts [];
  merged ← add_remote remote_exts merged;
  Ok (map snd merged).

(** ** The manager *)

Record SyncManager := { manifests : list DocumentManifest; connected : bool }.
Definition new_manager : SyncManager := {| manifests := []; connected := false |}.

Definition add_document (doc_id file_path doc_type : string) (exts : list Extraction) (fs : files) (s : SyncManager) :
    result (DocumentManifest * SyncManager) :=
  m ← build_manifest doc_id file_path doc_type exts fs;
  Ok (m, {| manifests := manifests s ++ [m]; connected := connected s |}).

(** No daemon is ever there. *)
Definition connect (s : SyncManager) : bool * SyncManager := (false, {| manifests := manifests s; connected := false |}).

Record sync_result := {
  new_remote_docs : Z; new_local_docs : Z; shared_docs : Z; n_conflicts : Z;
  merged_extractions : list (string * list json); compared : comparison }.

Fixpoint merge_shared (local_map remote_map : list (string * DocumentManifest)) (hashes : list string) :
    result (list (string * list json)) :=
  match hashes with
  | [] => Ok []
  | h :: hashes' =>
      match assoc h local_map, assoc h remote_map with
      | Some a, Some b =>
          m ← merge_extractions (extractions a) (extractions b);
          rest ← merge_shared local_map remote_map hashes'; Ok ((h, m) :: rest)
      | _, _ => merge_shared local_map remote_map hashes'
      end
  end.

Definition count {A} (l : list A) : Z := Z.of_nat (length l).

Definition sync_with_remote (remote : list DocumentManifest) (s : SyncManager) : result sync_result :=
  c ← compare_manifests (manifests s) remote;
  merged ← merge_shared (by_hash (manifests s)) (by_hash remote) (shared c);
  Ok {| new_remote_docs := count (new_remote c); new_local_docs := count (new_local c); shared_docs := count (shared c);
        n_conflicts := count (conflicts c); merged_extractions := merged; compared := c |}.

Section Files.
Context `{FRd : FloatRead}.

(** The bytes of [manifests.json]. *)
Definition save_manifests (s : SyncManager) : bytes := utf8 (print_indent true 0 (JArr (map to_dict (manifests s)))).

Definition text_entry (k : string) (v : json) : result string :=
  x ← entry k v; match x with JStr s => Ok s | _ => raise "TypeError" "not a string" end.

Definition manifest_of (v : json) : result DocumentManifest :=
  i ← text_entry "doc_id" v; h ← text_entry "doc_hash" v; t ← text_entry "doc_type" v;
  n ← entry "fields_count" v; n ← match n with JInt z => Ok z | _ => raise "TypeError" "not an int" end;
  p ← text_entry "file_path" v;
  l ← match get v "extractions" with
      | None => Ok []
      | Some (JArr l) => Ok l
      | Some _ => raise "TypeError" "not a list"
      end;
  Ok {| doc_id := i; doc_hash := h; doc_type := t; fields_count := n; file_path := p; extractions := l |}.

(** [load_manifests], of the file if there is one. *)
Definition load_manifests (file : option bytes) (s : SyncManager) : result SyncManager :=
  match file with
  | None => Ok s
  | Some b =>
      text ← utf8_decode b;
      data ← loads text;
      l ← match data with JArr l => Ok l | _ => raise "TypeError" "not a list" end;
      ms ← mapM_result manifest_of l;
      Ok {| manifests := ms; connected := connected s |}
  end.
End Files.

(** ** The rank of an extraction *)

(** Confidence first, cascade depth on ties. *)
Definition rank := (f64 * Z)%type.
Definition rank_le (a b : rank) : Prop := flt a.1 b.1 = true ∨ (feq a.1 b.1 = true ∧ a.2 ≤ b.2).
Definition rank_eq (a b : rank) : Prop := feq a.1 b.1 = true ∧ a.2 = b.2.

(** A well-formed extraction of a field, and its rank: the confidence is a
    number and the method is one of the cascade's. *)
Definition sound (k : string) (r : rank) (ext : json) : Prop :=
  field_of ext = Ok k ∧ entry "confidence" ext = Ok (JFloat r.1) ∧ is_nan r.1 = false ∧ depth_of ext = Ok r.2.

Lemma feq_key x y : feq x y = true ↔ is_nan x = false ∧ is_nan y = false ∧ fkey x = fkey y.
Proof.
  unfold feq, SFeqb.
  destruct x as [[]|[]| |[] m e], y as [[]|[]| |[] m' e']; simpl;
    try (split; [intros; by repeat split|by intros (? & ? & ?)]);
    destruct (Z.compare_spec e e'); simpl; rewrite <-?Pos.compare_cont_spec; fold (Pos.compare m m');
    try destruct (Pos.compare_spec m m'); simpl; subst;
    (split; [intros; try done; by repeat split|intros (? & ? & HH); try done; simplify_eq; try lia]).
Qed.

Lemma rank_le_key a b : is_nan a.1 = false → is_nan b.1 = false →
  rank_le a b ↔ lex_lt (fkey a.1) (fkey b.1) ∨ (fkey a.1 = fkey b.1 ∧ a.2 ≤ b.2).
Proof. intros Ha Hb. unfold rank_le. rewrite flt_key, feq_key. naive_solver. Qed.

Lemma rank_trans a b c : is_nan a.1 = false → is_nan b.1 = false → is_nan c.1 = false →
  rank_le a b → rank_le b c → rank_le a c.
Proof.
  intros Ha Hb Hc. rewrite !rank_le_key by done. unfold lex_lt.
  destruct (fkey a.1) as [[? ?] ?], (fkey b.1) as [[? ?] ?], (fkey c.1) as [[? ?] ?].
  intros [H1|[H1 ?]] [H2|[H2 ?]]; simplify_eq; try (left; lia). right. split; [done|lia].
Qed.

Lemma rank_refl a : is_nan a.1 = false → rank_le a a.
Proof. intros Ha. rewrite rank_le_key by done. right. split; [done|lia]. Qed.

Lemma rank_antisym a b : is_nan a.1 = false → is_nan b.1 = false → rank_le a b → rank_le b a → rank_eq a b.
Proof.
  intros Ha Hb. rewrite !rank_le_key by done. unfold rank_eq, lex_lt. rewrite feq_key.
  destruct (fkey a.1) as [[? ?] ?], (fkey b.1) as [[? ?] ?].
  intros [H1|[H1 ?]] [H2|[H2 ?]]; simplify_eq; try lia. split; [done|lia].
Qed.

Lemma sound_inj k k' r r' e : sound k r e → sound k' r' e → k = k' ∧ r = r'.
Proof.
  intros (H1 & H2 & _ & H3) (H4 & H5 & _ & H6). rewrite H1 in H4. rewrite H2 in H5. rewrite H3 in H6.
  destruct r as [f d], r' as [f' d']. cbn [fst snd] in *. split; congruence.
Qed.

(** The comparison of the code is the order of ranks. *)
Lemma replaces_rank k r r' e e' : sound k r e → sound k r' e' →
  ∃ b, replaces e e' = Ok b ∧ (b = true → rank_le r' r) ∧ (b = false → rank_le r r').
Proof.
  intros (_ & Hc & Hn & Hd) (_ & Hc' & Hn' & Hd'). unfold replaces. rewrite Hc, Hc'. cbn [mbind result_bind json_gt py_eq].
  destruct (flt r'.1 r.1) eqn:E; [exists true; split; [done|]; split; [intros _; by left|intros H; discriminate H]|].
  destruct (feq r.1 r'.1) eqn:Eq.
  - rewrite Hd, Hd'. cbn [mbind result_bind]. exists (r'.2 <? r.2). split; [done|].
    apply feq_key in Eq as (_ & _ & Eq). rewrite !rank_le_key by done. split; intros H; right; (split; [done|lia]).
  - exists false. split; [done|]. split; [done|]. intros _. apply (flt_nge _ _ Hn' Hn), fle_cases in E as [E|E]; [by left|].
    exfalso. assert (feq r.1 r'.1 = true) as H by (apply feq_key; naive_solver). congruence.
Qed.

(** ** The merge keeps the best *)

(** A merged dict holds, under its field, an extraction of [seen] that no
    extraction of [seen] outranks. *)
Definition best (seen : list json) (merged : dict) : Prop :=
  wf_dict merged ∧
  (∀ k e, assoc k merged = Some e → e ∈ seen ∧ field_of e = Ok k) ∧
  (∀ k r e, e ∈ seen → sound k r e → ∃ e' r', assoc k merged = Some e' ∧ sound k r' e' ∧ rank_le r r').

Definition all_sound (l : list json) : Prop := ∀ e, e ∈ l → ∃ k r, sound k r e.

Lemma best_add seen merged k r e : best seen merged → sound k r e → assoc k merged = None →
  best (seen ++ [e]) (dict_set k e merged).
Proof.
  intros (Hw & Hin & Hb) Hs Hn. split; [by apply wf_dict_set|]. split.
  - intros j x. destruct (decide (k = j)) as [->|Hne].
    + rewrite assoc_set_eq. intros [= <-]. split; [set_solver|apply Hs].
    + rewrite assoc_set_ne by done. intros Hx%Hin. destruct Hx. split; [set_solver|done].
  - intros j q x [Hx| ->%list_elem_of_singleton]%elem_of_app Hq.
    + destruct (Hb j q x Hx Hq) as (e' & r' & H1 & H2 & H3). exists e', r'. split; [|done].
      rewrite assoc_set_ne; [done|]. intros ->. congruence.
    + destruct (sound_inj _ _ _ _ _ Hs Hq) as [<- <-]. exists e, r. split; [apply assoc_set_eq|]. split; [done|].
      apply rank_refl, Hs.
Qed.

Lemma best_step seen merged k r e e' b : all_sound seen → best seen merged → sound k r e → assoc k merged = Some e' →
  replaces e e' = Ok b → best (seen ++ [e]) (if b then dict_set k e merged else merged).
Proof.
  intros Hall (Hw & Hin & Hb) Hs He Hr. destruct (Hin _ _ He) as [Hin' Hf].
  destruct (Hall e' Hin') as (k' & r' & Hs'). assert (k' = k) as -> by (destruct Hs' as [H _]; congruence).
  destruct (replaces_rank _ _ _ _ _ Hs Hs') as (b' & Hr' & Ht & Hff). assert (b' = b) as -> by congruence.
  assert (∀ j q x, x ∈ seen → sound j q x → j = k → rank_le q r') as Hold.
  { intros j q x Hx Hq ->. destruct (Hb k q x Hx Hq) as (y & ry & Hy & Hry & Hle).
    assert (y = e') as -> by congruence. by destruct (sound_inj _ _ _ _ _ Hs' Hry) as [_ ->]. }
  destruct b.
  - split; [by apply wf_dict_set|]. split.
    + intros j x. destruct (decide (k = j)) as [->|Hne].
      * rewrite assoc_set_eq. intros [= <-]. split; [set_solver|apply Hs].
      * rewrite assoc_set_ne by done. intros Hx%Hin. destruct Hx. split; [set_solver|done].
    + intros j q x Hx Hq. destruct (decide (k = j)) as [->|Hne].
      * exists e, r. rewrite assoc_set_eq. split; [done|]. split; [done|].
        apply elem_of_app in Hx as [Hx| ->%list_elem_of_singleton].
        -- apply (rank_trans q r' r); [apply Hq|apply Hs'|apply Hs|by eapply Hold|by apply Ht].
        -- destruct (sound_inj _ _ _ _ _ Hs Hq) as [_ <-]. apply rank_refl, Hs.
      * rewrite assoc_set_ne by done. apply elem_of_app in Hx as [Hx| ->%list_elem_of_singleton]; [by eapply Hb|].
        destruct (sound_inj _ _ _ _ _ Hs Hq) as [-> _]. done.
  - split; [done|]. split; [intros j x Hx%Hin; destruct Hx; split; [set_solver|done]|].
    intros j q x [Hx| ->%list_elem_of_singleton]%elem_of_app Hq; [by eapply Hb|].
    destruct (sound_inj _ _ _ _ _ Hs Hq) as [<- <-]. exists e', r'. split; [done|]. split; [done|]. by apply Hff.
Qed.

Lemma add_remote_best remote : ∀ seen merged, all_sound seen → all_sound remote → best seen merged →
  ∃ out, add_remote remote merged = Ok out ∧ best (seen ++ remote) out.
Proof.
  induction remote as [|e remote IH]; intros seen merged Hs Hr Hb; [exists merged; by rewrite app_nil_r|].
  destruct (Hr e (list_elem_of_here _ _)) as (k & r & He). cbn [add_remote]. rewrite (proj1 He). cbn [mbind result_bind].
  assert (all_sound (seen ++ [e])) as Hs'.
  { intros x [Hx| ->%list_elem_of_singleton]%elem_of_app; [by apply Hs|by exists k, r]. }
  assert (all_sound remote) as Hr' by (intros x Hx; apply Hr; by right).
  replace (seen ++ e :: remote) with ((seen ++ [e]) ++ remote) by (by rewrite <-app_assoc).
  destruct (assoc k merged) as [e'|] eqn:E.
  - destruct Hb as (Hw & Hin & Hb). destruct (Hs e' (proj1 (Hin _ _ E))) as (k' & r' & He').
    assert (k' = k) as -> by (destruct He' as [H _]; destruct (Hin _ _ E); congruence).
    destruct (replaces_rank _ _ _ _ _ He He') as (b & Hrep & _). rewrite Hrep. cbn [mbind result_bind].
    apply IH; [done|done|]. by apply (best_step seen merged k r e e' b).
  - cbn [mbind result_bind]. apply IH; [done|done|]. by apply (best_add _ _ k r).
Qed.

(** The fields of a device's own extractions are different. *)
Definition distinct_fields (l : list json) : Prop := ∃ names, mapM_result field_of l = Ok names ∧ NoDup names.

Lemma add_local_best local : ∀ seen merged, all_sound local → best seen merged → wf_dict merged →
  (∃ names, mapM_result field_of local = Ok names ∧ NoDup (merged.*1 ++ names)) →
  ∃ out, add_local local merged = Ok out ∧ best (seen ++ local) out.
Proof.
  induction local as [|e local IH]; intros seen merged Hl Hb Hw (names & Hn & Hd); [exists merged; by rewrite app_nil_r|].
  destruct (Hl e (list_elem_of_here _ _)) as (k & r & He). cbn [add_local]. rewrite (proj1 He). cbn [mbind result_bind].
  cbn [mapM_result] in Hn. rewrite (proj1 He) in Hn. cbn [mbind result_bind] in Hn.
  apply bind_Ok in Hn as (names' & Hn & [= <-]).
  assert (assoc k merged = None) as Hk.
  { apply assoc_None. intros Hk. apply NoDup_app in Hd as (_ & Hd & _). apply (Hd k Hk). by left. }
  replace (seen ++ e :: local) with ((seen ++ [e]) ++ local) by (by rewrite <-app_assoc).
  apply IH; [intros x Hx; apply Hl; by right|by apply (best_add _ _ k r)|by apply wf_dict_set|].
  exists names'. split; [done|]. rewrite keys_set. unfold has_key. rewrite Hk. by rewrite <-app_assoc.
Qed.

Lemma merge_dict local remote : all_sound local → all_sound remote → distinct_fields local →
  ∃ merged, merge_extractions local remote = Ok (map snd merged) ∧ best (local ++ remote) merged.
Proof.
  intros Hl Hr (names & Hn & Hd). unfold merge_extractions.
  destruct (add_local_best local [] [] Hl) as (m & Hm & Hb).
  { split; [apply wf_dict_nil|]. split; [done|]. by intros ??? ?%not_elem_of_nil. }
  { apply wf_dict_nil. }
  { by exists names. }
  rewrite Hm. cbn [mbind result_bind]. destruct (add_remote_best remote local m Hl Hr Hb) as (out & Ho & Hbo).
  rewrite Ho. cbn [mbind result_bind]. by exists out.
Qed.

Lemma merged_elem (merged : dict) e : e ∈ map snd merged → wf_dict merged → ∃ k, assoc k merged = Some e.
Proof. intros ([k x] & -> & Hin)%list_elem_of_fmap Hw. exists k. by apply elem_assoc. Qed.

(** Merging is total on well-formed extractions and keeps the best: each field
    of either device once, nothing that neither device has, and under a field
    an extraction that none of the two devices outranks (confidence first,
    depth of the grounding cascade on ties). *)
Theorem merge_keeps_best local remote : all_sound local → all_sound remote → distinct_fields local →
  ∃ out, merge_extractions local remote = Ok out ∧ distinct_fields out ∧ (∀ e, e ∈ out → e ∈ local ++ remote) ∧
    ∀ k r e, e ∈ local ++ remote → sound k r e → ∃ e' r', e' ∈ out ∧ sound k r' e' ∧ rank_le r r'.
Proof.
  intros Hl Hr Hd. destruct (merge_dict local remote Hl Hr Hd) as (merged & Hm & Hw & Hin & Hb).
  exists (map snd merged). split; [done|]. split; [|split].
  - exists merged.*1. split; [|done]. apply mapM_result_Ok.
    assert (∀ k e, (k, e) ∈ merged → field_of e = Ok k) as Hf by (intros k e H; apply (Hin k e), elem_assoc; done).
    clear -Hf. induction merged as [|[k e] m IH]; [constructor|]. constructor; [apply Hf; by left|].
    apply IH. intros j x Hx. apply Hf. by right.
  - intros e (k & He)%merged_elem; [|done]. by apply Hin in He as [? _].
  - intros k r e He Hs. destruct (Hb k r e He Hs) as (e' & r' & H1 & H2 & H3). exists e', r'. split; [|done].
    apply assoc_Some_elem in H1. apply list_elem_of_fmap. by exists (k, e').
Qed.

(** Two devices that merge each other's extractions agree, for every field, on
    its confidence and its depth. *)
Theorem merges_agree a b x y : all_sound a → all_sound b → distinct_fields a → distinct_fields b →
  merge_extractions a b = Ok x → merge_extractions b a = Ok y →
  ∀ k r e, e ∈ x → sound k r e → ∃ e' r', e' ∈ y ∧ sound k r' e' ∧ rank_eq r r'.
Proof.
  intros Ha Hb Da Db Hx Hy k r e He Hs.
  destruct (merge_dict a b Ha Hb Da) as (m & Hm & Wm & Im & Bm). destruct (merge_dict b a Hb Ha Db) as (n & Hn & Wn & In_ & Bn).
  assert (x = map snd m) as -> by congruence. assert (y = map snd n) as -> by congruence.
  destruct (merged_elem _ _ He Wm) as [j Hj]. destruct (Im _ _ Hj) as [Hin Hf].
  assert (j = k) as -> by (destruct Hs; congruence).
  destruct (Bn k r e) as (e' & r' & H1 & H2 & H3); [set_solver|done|]. exists e', r'.
  split; [apply assoc_Some_elem in H1; apply list_elem_of_fmap; by exists (k, e')|]. split; [done|].
  apply rank_antisym; [apply Hs|apply H2|done|].
  destruct (In_ _ _ H1) as [Hin' _]. destruct (Bm k r' e') as (e2 & r2 & H4 & H5 & H6); [set_solver|done|].
  assert (e2 = e) as -> by congruence. by destruct (sound_inj _ _ _ _ _ Hs H5) as [_ ->].
Qed.

(** On a tie each device keeps its own value, so two devices that have synced
    can still disagree on it. *)
Definition claim (value : string) : json :=
  JObj [("field", JStr "total"); ("value", JStr value); ("confidence", JFloat (lit 9 10)); ("method", JStr "exact")].
Theorem ties_diverge : ∃ a b x y, merge_extractions [a] [b] = Ok [x] ∧ merge_extractions [b] [a] = Ok [y] ∧
  get x "value" ≠ get y "value".
Proof. exists (claim "1"), (claim "2"), (claim "1"), (claim "2"). split_and!; [vm_compute; reflexivity..|done]. Qed.

(** ** The comparison *)

Lemma has_key_elem {A} k (d : list (string * A)) : has_key k d = true ↔ k ∈ d.*1.
Proof.
  unfold has_key. destruct (assoc k d) eqn:E.
  - split; [|done]. intros _. apply assoc_Some_elem in E. apply list_elem_of_fmap. by exists (k, a).
  - split; [done|]. by apply assoc_None in E.
Qed.

Lemma by_hash_keys l h : h ∈ (by_hash l).*1 ↔ h ∈ map doc_hash l.
Proof.
  unfold by_hash, dict_of.
  assert (∀ d : list (string * DocumentManifest),
    h ∈ (fold_left (λ d p, dict_set p.1 p.2 d) (map (λ m, (doc_hash m, m)) l) d).*1 ↔ h ∈ d.*1 ∨ h ∈ map doc_hash l) as H.
  { induction l as [|m l IH]; intros d; cbn [map fold_left]; [set_solver|]. rewrite IH, keys_set. cbn [fst].
    unfold has_key. destruct (assoc (doc_hash m) d) eqn:E; [|set_solver].
    assert (doc_hash m ∈ d.*1) by (apply assoc_Some_elem in E; apply list_elem_of_fmap; by eexists (_, _)). set_solver. }
  rewrite H. set_solver.
Qed.

Lemma conflicting_sub a b hashes l : conflicting a b hashes = Ok l → l ⊆ hashes.
Proof.
  revert l. induction hashes as [|h hashes IH]; intros l; cbn [conflicting]; [by intros [= <-]|].
  intros (c & _ & H)%bind_Ok. apply bind_Ok in H as (rest & Hr & [= <-]). apply IH in Hr. destruct c; set_solver.
Qed.

Definition shared_keys (a b : list (string * DocumentManifest)) : list string := filter (λ h, has_key h b = true) a.*1.

Lemma split_count a b : (length (only_in a b) + length (shared_keys a b) = length a)%nat.
Proof.
  unfold only_in, shared_keys. induction a as [|[h m] a IH]; [done|]. cbn [fmap list_fmap fst].
  rewrite !filter_cons. cbn [fst]. destruct (has_key h b) eqn:E.
  - rewrite decide_False, decide_True by done. cbn [length]. lia.
  - rewrite decide_True, decide_False by done. cbn [length]. lia.
Qed.

Lemma shared_symm a b : wf_dict a → wf_dict b → length (shared_keys a b) = length (shared_keys b a).
Proof.
  intros Ha Hb. apply Permutation_length, NoDup_Permutation; [by apply NoDup_filter..|].
  intros h. unfold shared_keys. rewrite !list_elem_of_filter, !has_key_elem. tauto.
Qed.

(** The comparison splits the documents by content: the shared hashes are
    those that both devices have, the others of a device are new to the other
    one, none is lost or counted twice, and conflicts are among the shared. *)
Theorem comparison_partitions local remote c : compare_manifests local remote = Ok c →
  (∀ h, h ∈ shared c ↔ h ∈ map doc_hash local ∧ h ∈ map doc_hash remote) ∧ NoDup (shared c) ∧ conflicts c ⊆ shared c ∧
  (length (new_local c) + length (shared c) = length (by_hash local))%nat ∧
  (length (new_remote c) + length (shared c) = length (by_hash remote))%nat.
Proof.
  intros (l & Hl & [= <-])%bind_Ok. cbn [shared new_local new_remote conflicts].
  pose proof (wf_dict_of (map (λ m, (doc_hash m, m)) local)) as Wl. pose proof (wf_dict_of (map (λ m, (doc_hash m, m)) remote)) as Wr.
  change (wf_dict (by_hash local)) in Wl. change (wf_dict (by_hash remote)) in Wr.
  split.
  { intros h. rewrite list_elem_of_filter, has_key_elem, !by_hash_keys. tauto. }
  split; [by apply NoDup_filter|]. split; [by eapply conflicting_sub|].
  rewrite !length_map. split; [apply split_count|]. pose proof (split_count (by_hash remote) (by_hash local)) as H.
  rewrite <-shared_symm in H by done. exact H.
Qed.

(** A conflict is a different number or set of fields: two devices with the
    same document and the same fields are never in conflict, whatever their
    values. *)
Theorem values_never_conflict a b names : doc_hash a = doc_hash b → fields_count a = fields_count b →
  mapM_result field_of (extractions a) = Ok names → mapM_result field_of (extractions b) = Ok names →
  conflicts <$> compare_manifests [a] [b] = Ok [] ∧ shared <$> compare_manifests [a] [b] = Ok [doc_hash a].
Proof.
  intros Hh Hc Ha Hb. unfold compare_manifests, by_hash. cbn [map dict_of fold_left dict_set fst snd].
  change ([(doc_hash a, a)].*1) with [doc_hash a]. unfold has_key. cbn [assoc filter list_filter].
  rewrite bool_decide_true by done. rewrite decide_True by done. cbn [conflicting assoc].
  rewrite (bool_decide_true (doc_hash a = doc_hash a)), bool_decide_true by done. unfold in_conflict. rewrite Hc, Z.eqb_refl.
  cbn [negb]. rewrite Ha, Hb. cbn [mbind result_bind]. unfold same_set. by rewrite !bool_decide_true by done.
Qed.

(** ** Saving and loading *)

Section Persistence.
Context `{FRd : FloatRead}.

Lemma manifest_roundtrip m : manifest_of (to_dict m) = Ok m.
Proof. by destruct m. Qed.

(** Manifests survive the disk: what one manager saves another one loads. *)
Theorem manifests_persist s s' :
  Forall (λ m, forallb wf_json (extractions m) = true ∧ forallb distinct_keys (extractions m) = true) (manifests s) →
  load_manifests (Some (save_manifests s)) s' = Ok {| manifests := manifests s; connected := connected s' |}.
Proof.
  intros Hs. unfold load_manifests, save_manifests. rewrite utf8_decode_utf8. cbn [mbind result_bind].
  rewrite <-(app_nil_r_str (print_indent _ _ _)), loads_indent; [| | |done].
  - cbn [mbind result_bind]. assert (mapM_result manifest_of (map to_dict (manifests s)) = Ok (manifests s)) as ->; [|done].
    apply mapM_result_Ok. clear Hs. induction (manifests s) as [|m l IH]; [constructor|].
    constructor; [apply manifest_roundtrip|done].
  - cbn [wf_json]. induction Hs as [|m l [Hw _] _ IH]; [done|]. cbn [map forallb]. rewrite IH, andb_true_r.
    change (true && (true && (true && (true && (true && (forallb wf_json (extractions m) && true))))) = true). by rewrite Hw.
  - cbn [distinct_keys]. induction Hs as [|m l [_ Hd] _ IH]; [done|]. cbn [map forallb]. rewrite IH, andb_true_r.
    change (bool_decide (NoDup ["doc_id"; "doc_hash"; "doc_type"; "fields_count"; "file_path"; "extractions"]) &&
      (true && (true && (true && (true && (true && (forallb distinct_keys (extractions m) && true)))))) = true). by rewrite Hd.
Qed.
End Persistence.

(** ** Two devices *)

Definition found (field value method : string) (confidence : f64) : json :=
  JObj [("field", JStr field); ("value", JStr value); ("confidence", JFloat confidence); ("method", JStr method)].
Definition laptop : list json := [found "total" "12.00" "exact" (lit 9 10); found "vendor" "Acme" "fuzzy" (lit 1 2)].
Definition phone : list json := [found "vendor" "Acme Ltd" "semantic" (lit 1 2); found "date" "2024-01-01" "exact" (lit 1 2)].
Definition manifest (exts : list json) : DocumentManifest :=
  {| doc_id := "d"; doc_hash := "h"; doc_type := "invoice"; fields_count := Z.of_nat (length exts); file_path := "f";
     extractions := exts |}.

Lemma laptop_sound : all_sound laptop.
Proof.
  intros e He. unfold laptop in He. rewrite !elem_of_cons, elem_of_nil in He.
  destruct He as [->|[->|[]]]; eexists _, (_, _); split_and!; reflexivity.
Qed.
Lemma phone_sound : all_sound phone.
Proof.
  intros e He. unfold phone in He. rewrite !elem_of_cons, elem_of_nil in He.
  destruct He as [->|[->|[]]]; eexists _, (_, _); split_and!; reflexivity.
Qed.
Lemma laptop_fields : distinct_fields laptop.
Proof. exists ["total"; "vendor"]. split; [reflexivity|]. apply (bool_decide_unpack _). vm_compute. exact I. Qed.
Lemma phone_fields : distinct_fields phone.
Proof. exists ["vendor"; "date"]. split; [reflexivity|]. apply (bool_decide_unpack _). vm_compute. exact I. Qed.

Lemma merge_example : merge_extractions laptop phone =
  Ok [found "total" "12.00" "exact" (lit 9 10); found "vendor" "Acme Ltd" "semantic" (lit 1 2);
      found "date" "2024-01-01" "exact" (lit 1 2)].
Proof. vm_compute. reflexivity. Qed.

Lemma merge_keeps_best_witness : ∃ out, merge_extractions laptop phone = Ok out ∧ distinct_fields out.
Proof.
  destruct (merge_keeps_best laptop phone laptop_sound phone_sound laptop_fields) as (out & H1 & H2 & _).
  exists out. split; [exact H1|exact H2].
Defined.

Definition merged_or (r : result (list json)) : list json := match r with Ok l => l | Raise _ => [] end.
Lemma merges_agree_witness :
  ∃ e' r', e' ∈ merged_or (merge_extractions phone laptop) ∧ sound "total" r' e' ∧ rank_eq (lit 9 10, 1) r'.
Proof.
  apply (merges_agree laptop phone (merged_or (merge_extractions laptop phone)) (merged_or (merge_extractions phone laptop))
    laptop_sound phone_sound laptop_fields phone_fields) with (e := found "total" "12.00" "exact" (lit 9 10)).
  - vm_compute. reflexivity.
  - vm_compute. reflexivity.
  - vm_compute. left.
  - split_and!; reflexivity.
Defined.

Definition compared_or (r : result comparison) : comparison :=
  match r with Ok c => c | Raise _ => {| new_remote := []; new_local := []; shared := []; conflicts := [] |} end.
Lemma comparison_partitions_witness :
  NoDup (shared (compared_or (compare_manifests [manifest laptop] [manifest phone]))).
Proof.
  apply (comparison_partitions [manifest laptop] [manifest phone]
    (compared_or (compare_manifests [manifest laptop] [manifest phone]))). vm_compute. reflexivity.
Defined.

Lemma values_never_conflict_witness :
  conflicts <$> compare_manifests [manifest [claim "1"]] [manifest [claim "2"]] = Ok [].
Proof.
  exact (proj1 (values_never_conflict (manifest [claim "1"]) (manifest [claim "2"]) ["total"] eq_refl eq_refl eq_refl eq_refl)).
Defined.

Lemma manifests_persist_witness :
  @load_manifests decimal_float_repr decimal_float_read
    (Some (@save_manifests decimal_float_repr {| manifests := [manifest laptop]; connected := false |})) new_manager =
  Ok {| manifests := [manifest laptop]; connected := false |}.
Proof.
  apply (@manifests_persist decimal_float_repr decimal_float_read {| manifests := [manifest laptop]; connected := false |} new_manager).
  constructor; [|constructor]. split; vm_compute; reflexivity.
Defined.
