(* ===== verification/PolicyEngine.v ===== *)
(** * Policies for risky actions

    [kairo/trust/policy_engine.py]: the engine that evaluates the policies
    registered for an action, most restrictive first, and the built-in
    policies.  A policy is any function of a context, which may raise; the
    dashes of the messages are hyphens here. *)

From S2P Require Import Prelude PyStr PyFloat PyDict Json.

(** ** The engine *)

Inductive PolicyDecision := ALLOW | DENY | REQUIRE_HUMAN.
#[global] Instance PolicyDecision_eq_dec : EqDecision PolicyDecision.
Proof. solve_decision. Defined.

Record PolicyContext := {
  action : string; target : string; agent_id : string; sealed_mode : bool; metadata : dict }.

Record PolicyResult := { decision : PolicyDecision; reason : string; policy_name : string; context : PolicyContext }.

Abbreviation PolicyFunc := (PolicyContext → result PolicyResult).

(** [self._policies] *)
Definition PolicyEngine := list (string * list PolicyFunc).
Definition new_engine : PolicyEngine := [].

Definition policies_of (a : string) (e : PolicyEngine) : list PolicyFunc := default [] (assoc a e).

Definition register (a : string) (policy : PolicyFunc) (e : PolicyEngine) : PolicyEngine :=
  dict_set a (policies_of a e ++ [policy]) e.

Definition priority (d : PolicyDecision) : Z := match d with DENY => 0 | REQUIRE_HUMAN => 1 | ALLOW => 2 end.

(** [min(results, key=...)]: the first of the least. *)
Fixpoint min_by {A} (key : A → Z) (x : A) (l : list A) : A :=
  match l with
  | [] => x
  | y :: l' => min_by key (if key y <? key x then y else x) l'
  end.

Definition result_of (d : PolicyDecision) (reason name : string) (ctx : PolicyContext) : PolicyResult :=
  {| decision := d; reason := reason; policy_name := name; context := ctx |}.

Definition evaluate (e : PolicyEngine) (ctx : PolicyContext) : result PolicyResult :=
  match policies_of (action ctx) e with
  | [] => Ok (result_of REQUIRE_HUMAN ("No policy registered for action '" +:+ action ctx +:+ "' - defaulting to require human")
                "default" ctx)
  | policies =>
      results ← mapM_result (λ p, p ctx) policies;
      match results with
      | r :: results' => Ok (min_by (λ r, priority (decision r)) r results')
      | [] => raise "ValueError" "min() arg is an empty sequence"
      end
  end.

(** ** The built-in policies *)

Definition dangerous_patterns : list string := ["/etc/"; "/boot/"; "/sys/"; "/proc/"; "C:\Windows\System32"].

Definition policy_file_delete : PolicyFunc := λ ctx,
  Ok match find_first (λ p, contains (lower p) (lower (target ctx))) dangerous_patterns with
  | Some p => result_of DENY ("File deletion blocked: target '" +:+ target ctx +:+ "' matches protected path pattern '" +:+ p +:+ "'")
                "file_delete_protected_paths" ctx
  | None => result_of REQUIRE_HUMAN "File deletion requires human review" "file_delete_human_review" ctx
  end.

Definition policy_network_access : PolicyFunc := λ ctx, Ok
  (if sealed_mode ctx
  then result_of DENY "Network access DENIED in sealed mode (KAIRO_SEALED=1)" "network_sealed_deny" ctx
  else result_of REQUIRE_HUMAN "Network access requires human review (non-sealed mode)" "network_human_review" ctx).

Definition policy_clipboard_write : PolicyFunc := λ ctx,
  Ok (result_of REQUIRE_HUMAN "Clipboard write requires human review (injection leak vector - see W6)"
        "clipboard_human_review" ctx).

Definition safe_commands : list string := ["ls"; "cat"; "echo"; "pwd"; "whoami"; "date"; "head"; "tail"; "wc"].
Definition command (s : string) : string := match split s with w :: _ => w | [] => "" end.

Definition policy_code_execution : PolicyFunc := λ ctx,
  let cmd := command (target ctx) in
  Ok (if bool_decide (cmd ∈ safe_commands)
  then result_of ALLOW ("Command '" +:+ cmd +:+ "' is in the safe list") "code_execution_safe_list" ctx
  else result_of REQUIRE_HUMAN ("Command '" +:+ cmd +:+ "' requires human review (not in safe list)")
         "code_execution_human_review" ctx).

Section DataExport.
Context `{FR : FloatRepr}.

(** [v > n] and [f"{v}"] of a number *)
Definition exceeds (v : json) (n : Z) : result bool :=
  match v with
  | JFloat f => Ok (flt (of_Z n) f)
  | _ => match int_of_json v with
         | Some z => Ok (n <? z)
         | None => raise "TypeError" "'>' not supported between instances"
         end
  end.
Definition show_number (v : json) : string :=
  match v with JBool b => if b then "True" else "False" | _ => print true v end.

Definition policy_data_export : PolicyFunc := λ ctx,
  let size := from_option id (JInt 0) (assoc "size_bytes" (metadata ctx)) in
  large ← exceeds size (10 * 1024 * 1024);
  Ok (if large : bool
  then result_of REQUIRE_HUMAN ("Data export requires human review (size=" +:+ show_number size +:+ " bytes > 10MB threshold)")
         "data_export_large" ctx
  else result_of ALLOW ("Data export allowed (size=" +:+ show_number size +:+ " bytes <= 10MB threshold)")
         "data_export_small" ctx).

(** [_engine] once the module is loaded *)
Definition built_in_engine : PolicyEngine :=
  register "data_export" policy_data_export
    (register "code_execution" policy_code_execution
      (register "clipboard_write" policy_clipboard_write
        (register "network_access" policy_network_access
          (register "file_delete" policy_file_delete new_engine)))).
End DataExport.

(** ** The most restrictive decision *)

Lemma min_by_spec {A} (key : A → Z) l : ∀ x, min_by key x l ∈ x :: l ∧ ∀ y, y ∈ x :: l → key (min_by key x l) ≤ key y.
Proof.
  induction l as [|z l IH]; intros x; cbn [min_by].
  - split; [by left|]. intros y ->%list_elem_of_singleton. lia.
  - destruct (IH (if key z <? key x then z else x)) as [H1 H2]. split.
    + apply elem_of_cons in H1 as [->|H1]; [|by do 2 right]. destruct (key z <? key x); [right; left|left].
    + intros y [->|[->|Hy]%elem_of_cons]%elem_of_cons; [| |by apply H2; right].
      all: pose proof (H2 _ (list_elem_of_here _ _)) as H; destruct (key z <? key x) eqn:E; lia.
Qed.

(** The results of the policies of the action of a context. *)
Definition verdict (e : PolicyEngine) (ctx : PolicyContext) (r : PolicyResult) : Prop :=
  ∃ p, p ∈ policies_of (action ctx) e ∧ p ctx = Ok r.

Lemma evaluate_cases e ctx r : evaluate e ctx = Ok r →
  (policies_of (action ctx) e = [] ∧ decision r = REQUIRE_HUMAN) ∨
  (policies_of (action ctx) e ≠ [] ∧ verdict e ctx r ∧ (∀ p, p ∈ policies_of (action ctx) e → ∃ r', p ctx = Ok r') ∧
   ∀ r', verdict e ctx r' → priority (decision r) ≤ priority (decision r')).
Proof.
  unfold evaluate, verdict. destruct (policies_of (action ctx) e) as [|p ps]; [intros [= <-]; by left|]. intros H. right.
  apply bind_Ok in H as (results & Hm & H). pose proof (mapM_result_elem _ _ _ Hm) as [He1 He2]. split; [done|].
  destruct results as [|x results]; [destruct (He2 p (list_elem_of_here _ _)) as (? & []%not_elem_of_nil & _)|]. injection H as <-.
  destruct (min_by_spec (λ r, priority (decision r)) results x) as [H1 H2].
  split; [by apply He1|]. split.
  - intros q Hq. destruct (He2 q Hq) as (r' & _ & E). by exists r'.
  - intros r' (q & Hq & E). apply H2. destruct (He2 q Hq) as (r2 & Hr & E2).
    by replace r' with r2 by congruence.
Qed.

(** Most restrictive wins: an action is denied exactly when some policy denies
    it, and allowed only when it has policies and every one of them allows it;
    without policies a human is asked. *)
Theorem most_restrictive e ctx r : evaluate e ctx = Ok r →
  (decision r = DENY ↔ ∃ r', verdict e ctx r' ∧ decision r' = DENY) ∧
  (decision r = ALLOW ↔ policies_of (action ctx) e ≠ [] ∧
     ∀ p, p ∈ policies_of (action ctx) e → ∃ r', p ctx = Ok r' ∧ decision r' = ALLOW).
Proof.
  intros [[Hn Hd]|(Hn & Hv & Hall & Hmin)]%evaluate_cases.
  - rewrite Hd. split; (split; [done|]); [|by intros [? _]]. intros (r' & (p & Hp & _) & _). rewrite Hn in Hp.
    by apply not_elem_of_nil in Hp.
  - split; split.
    + intros Hd. by exists r.
    + intros (r' & Hr' & Hd). apply Hmin in Hr'. rewrite Hd in Hr'. by destruct (decision r).
    + intros Hd. split; [done|]. intros p Hp. destruct (Hall p Hp) as [r' Hr']. exists r'. split; [done|].
      assert (verdict e ctx r') as H%Hmin by (by exists p). rewrite Hd in H. by destruct (decision r').
    + intros [_ Ha]. destruct Hv as (p & Hp & E). destruct (Ha p Hp) as (r' & E' & Hd). by replace r with r' by congruence.
Qed.

(** ** Registration *)

Lemma policies_register a p e b :
  policies_of b (register a p e) = if bool_decide (a = b) then policies_of a e ++ [p] else policies_of b e.
Proof.
  unfold register, policies_of at 1. case_bool_decide as E; [subst; by rewrite assoc_set_eq|]. by rewrite assoc_set_ne.
Qed.

(** Engines built from another by registering policies. *)
Inductive extends (e : PolicyEngine) : PolicyEngine → Prop :=
| extends_refl : extends e e
| extends_register a p e' : extends e e' → extends e (register a p e').

Lemma extends_policies e e' a p : extends e e' → p ∈ policies_of a e → p ∈ policies_of a e'.
Proof.
  induction 1 as [|b q e' _ IH]; [done|]. intros Hp%IH. rewrite policies_register. case_bool_decide; [|done].
  subst. apply elem_of_app. by left.
Qed.

(** Registering can only restrict: whatever is registered later, for an action
    that had a policy the decision never becomes more permissive. *)
Theorem registering_restricts e e' ctx r r' : extends e e' → policies_of (action ctx) e ≠ [] →
  evaluate e ctx = Ok r → evaluate e' ctx = Ok r' → priority (decision r') ≤ priority (decision r).
Proof.
  intros He Hn [[? _]|(_ & (p & Hp & E) & _)]%evaluate_cases; [done|]. pose proof (extends_policies _ _ _ _ He Hp) as Hp'.
  intros [[Hn' _]|(_ & _ & _ & Hmin)]%evaluate_cases; [rewrite Hn' in Hp'; by apply not_elem_of_nil in Hp'|].
  apply Hmin. by exists p.
Qed.

Section BuiltIn.
Context `{FR : FloatRepr}.

Lemma denied e ctx p r : (∀ r', verdict e ctx r' → priority (decision r) ≤ priority (decision r')) →
  p ∈ policies_of (action ctx) e → (∃ r', p ctx = Ok r' ∧ decision r' = DENY) → decision r = DENY.
Proof.
  intros Hmin Hp (r' & E & Hd). assert (verdict e ctx r') as H%Hmin by (by exists p). rewrite Hd in H. by destruct (decision r).
Qed.

(** The sealed mode cannot be registered away: no engine grown from the
    built-in one lets network access through in sealed mode. *)
Theorem sealed_denies_network e ctx r : extends built_in_engine e → action ctx = "network_access" →
  sealed_mode ctx = true → evaluate e ctx = Ok r → decision r = DENY.
Proof.
  intros He Ha Hs [[Hn _]|(_ & _ & _ & Hmin)]%evaluate_cases.
  all: assert (policy_network_access ∈ policies_of (action ctx) e) as Hp
    by (eapply extends_policies; [exact He|]; rewrite Ha; left).
  - rewrite Hn in Hp. by apply not_elem_of_nil in Hp.
  - apply (denied _ _ policy_network_access _ Hmin Hp). eexists. split; [unfold policy_network_access; by rewrite Hs|done].
Qed.

(** Protected paths are never deleted, in any case of letters. *)
Theorem protected_paths_denied e ctx p r : extends built_in_engine e → action ctx = "file_delete" →
  p ∈ dangerous_patterns → contains (lower p) (lower (target ctx)) = true → evaluate e ctx = Ok r → decision r = DENY.
Proof.
  intros He Ha Hpat Ht [[Hn _]|(_ & _ & _ & Hmin)]%evaluate_cases.
  all: assert (policy_file_delete ∈ policies_of (action ctx) e) as Hp
    by (eapply extends_policies; [exact He|]; rewrite Ha; left).
  - rewrite Hn in Hp. by apply not_elem_of_nil in Hp.
  - destruct (find_first (λ p, contains (lower p) (lower (target ctx))) dangerous_patterns) as [q|] eqn:E.
    + apply (denied _ _ _ _ Hmin Hp). eexists. split; [unfold policy_file_delete; by rewrite E|done].
    + apply find_first_None in E. rewrite Forall_forall in E. apply E in Hpat. congruence.
Qed.

Lemma split_go_safe w rest : w ∈ safe_commands → split_go (w +:+ " " +:+ rest) = (w, split rest).
Proof.
  intros Hw. unfold split. unfold safe_commands in Hw. rewrite !elem_of_cons, elem_of_nil in Hw.
  destruct (split_go rest) as [v ws] eqn:Es.
  repeat destruct Hw as [->|Hw]; [rewrite !app_cons_str, !app_nil_l_str; cbn; by rewrite Es..|done].
Qed.

(** Only the first word of a command is looked at, so whatever follows a safe
    one is allowed with it: "ls ; rm -rf /" as much as "ls". *)
Theorem command_suffix_allowed cmd rest ctx : cmd ∈ safe_commands → action ctx = "code_execution" →
  target ctx = cmd +:+ " " +:+ rest → decision <$> evaluate built_in_engine ctx = Ok ALLOW.
Proof.
  intros Hc Ha Ht. assert (command (target ctx) = cmd) as E.
  { rewrite Ht. unfold command, split. rewrite split_go_safe by done. destruct (decide (cmd = "")) as [->|Hne].
    - unfold safe_commands in Hc. rewrite !elem_of_cons, elem_of_nil in Hc. naive_solver.
    - unfold cons_word. by rewrite bool_decide_false. }
  unfold evaluate. rewrite Ha. change (policies_of "code_execution" built_in_engine) with [policy_code_execution].
  cbn [mapM_result]. unfold policy_code_execution. rewrite E. by rewrite bool_decide_true.
Qed.
End BuiltIn.

(** ** Concrete contexts *)

#[local] Existing Instance exact_float_repr.
Definition request (a t : string) (sealed : bool) : PolicyContext :=
  {| action := a; target := t; agent_id := "agent"; sealed_mode := sealed; metadata := [] |}.
Definition outcome (r : result PolicyResult) : PolicyResult :=
  match r with Ok r => r | Raise _ => result_of DENY "" "" (request "" "" true) end.
(** A policy that allows everything, registered after the built-in ones. *)
Definition permissive : PolicyFunc := λ ctx, Ok (result_of ALLOW "any" "permissive" ctx).
Definition grown : PolicyEngine := register "network_access" permissive (register "file_delete" permissive built_in_engine).

Lemma grown_extends : extends built_in_engine grown.
Proof. repeat constructor. Qed.

Definition sealed_request : PolicyContext := request "network_access" "https://example.org" true.
Definition delete_request : PolicyContext := request "file_delete" "/ETC/passwd" false.
Definition shell_request : PolicyContext := request "code_execution" "ls ; rm -rf /" false.

Lemma most_restrictive_witness : decision (outcome (evaluate grown sealed_request)) = DENY ↔
  ∃ r', verdict grown sealed_request r' ∧ decision r' = DENY.
Proof. apply (most_restrictive grown sealed_request (outcome (evaluate grown sealed_request))). reflexivity. Defined.

Lemma registering_restricts_witness :
  priority (decision (outcome (evaluate grown sealed_request))) ≤
  priority (decision (outcome (evaluate built_in_engine sealed_request))).
Proof.
  apply (registering_restricts built_in_engine grown sealed_request (outcome (evaluate built_in_engine sealed_request))
    (outcome (evaluate grown sealed_request))); [exact grown_extends|intros H; discriminate H|reflexivity|reflexivity].
Defined.

Lemma sealed_denies_network_witness : decision (outcome (evaluate grown sealed_request)) = DENY.
Proof.
  apply (sealed_denies_network grown sealed_request (outcome (evaluate grown sealed_request)));
    [exact grown_extends|reflexivity|reflexivity|reflexivity].
Defined.

Lemma protected_paths_denied_witness : decision (outcome (evaluate grown delete_request)) = DENY.
Proof.
  apply (protected_paths_denied grown delete_request "/etc/" (outcome (evaluate grown delete_request)));
    [exact grown_extends|reflexivity|left|reflexivity|reflexivity].
Defined.

Lemma command_suffix_allowed_witness : decision <$> evaluate built_in_engine shell_request = Ok ALLOW.
Proof. apply (command_suffix_allowed "ls" "; rm -rf /" shell_request); [left|reflexivity|reflexivity]. Defined.
