(* ===== verification/Regex.v ===== *)
(** * Regular expressions of the Python module [re]

    Patterns are parsed from their source text, so a component states them as
    the program writes them: literals, classes, [.], the escapes [\s \d \w \b]
    and escaped punctuation, (non-)capturing groups, alternation, greedy and
    lazy repetition, [^], [$], back references, lookahead, a lookbehind of one
    character, and the flags IGNORECASE and DOTALL.  A backtracking matcher follows the priorities of the module; a
    relation [matches] says what a pattern means, and the matcher is sound and
    complete for it.  [segments] is the scan of [finditer], [findall] and
    [sub]: leftmost matches that do not overlap.  An iteration of a repetition
    that consumes nothing ends it, and an empty match of a scan is skipped; no
    pattern of the development has either. *)

From S2P Require Import Prelude PyStr.

(** ** Syntax *)

Inductive item := Range (lo hi : ascii) | Digit | Space | Word.
Record cset := CSet { negated : bool; icase : bool; items : list item }.

Definition item_has (c : ascii) (i : item) : bool :=
  match i with
  | Range lo hi => between (code lo) (code hi) (code c)
  | Digit => is_digit c
  | Space => is_space c
  | Word => is_word c
  end.

Definition in_set (cs : cset) (c : ascii) : bool :=
  let has c := existsb (item_has c) (items cs) in
  xorb (negated cs) (has c || (icase cs && (has (lower_char c) || has (upper_char c)))).

Inductive re :=
| Eps
| Chars (cs : cset)
| Cat (a b : re)
| Alt (a b : re)
| Star (greedy : bool) (a : re)
| Group (n : nat) (a : re)
| Backref (n : nat)
| Boundary
| At_start
| At_end
| Ahead (a : re)
| Behind (cs : cset).

(** ** Parsing a pattern *)

Record flags := { ignorecase : bool; dotall : bool }.
Definition no_flags : flags := {| ignorecase := false; dotall := false |}.
Definition IGNORECASE : flags := {| ignorecase := true; dotall := false |}.
Definition IGNORECASE_DOTALL : flags := {| ignorecase := true; dotall := true |}.

Definition LF : ascii := "010".

Section Parser.
Variable fl : flags.

Definition literal (c : ascii) : re := Chars (CSet false (ignorecase fl) [Range c c]).
Definition class (neg : bool) (l : list item) : re := Chars (CSet neg (ignorecase fl) l).
Definition dot : re := Chars (CSet true false (if dotall fl then [] else [Range LF LF])).

Definition seq_re (a b : re) : re := match b with Eps => a | _ => Cat a b end.

(** [a{n}], and [a{0,n}] as nested options. *)
Fixpoint times (n : nat) (a : re) : re := match n with O => Eps | S n' => seq_re a (times n' a) end.
Definition opt (greedy : bool) (a : re) : re := if greedy then Alt a Eps else Alt Eps a.
Fixpoint upto (greedy : bool) (n : nat) (a : re) : re :=
  match n with O => Eps | S n' => opt greedy (seq_re a (upto greedy n' a)) end.

Definition escaped_class (c : ascii) : option item :=
  match c with "s"%char => Some Space | "d"%char => Some Digit | "w"%char => Some Word | _ => None end.
Definition escaped_char (c : ascii) : ascii :=
  match c with "n"%char => LF | "r"%char => "013" | "t"%char => "009" | _ => c end.

(** The items of a class up to its [\]]: a character may start a range. *)
Fixpoint class_items (fuel : nat) (s : string) : option (list item * string) :=
  match fuel with
  | O => None
  | S fuel' =>
      let add i s := '(l, s) ← class_items fuel' s; Some (i :: l, s) in
      let from lo s :=
        match s with
        | String "-" (String "\" (String hi s')) => add (Range lo (escaped_char hi)) s'
        | String "-" (String "]" _) => add (Range lo lo) s
        | String "-" (String hi s') => add (Range lo hi) s'
        | _ => add (Range lo lo) s
        end in
      match s with
      | "" => None
      | String "]" s' => Some ([], s')
      | String "\" (String c s') => match escaped_class c with Some i => add i s' | None => from (escaped_char c) s' end
      | String c s' => from c s'
      end
  end.

Fixpoint digits (s : string) (n : nat) : nat * string :=
  match s with
  | String c s' => if is_digit c then digits s' (n * 10 + N.to_nat (code c - 48)) else (n, s)
  | "" => (n, s)
  end.

(** The quantifier after an atom: its least and greatest counts. *)
Definition counts (s : string) : option (nat * option nat * string) :=
  match s with
  | String "*" s' => Some (0%nat, None, s')
  | String "+" s' => Some (1%nat, None, s')
  | String "?" s' => Some (0%nat, Some 1%nat, s')
  | String "{" s' =>
      match digits s' 0 with
      | (lo, String "}" s2) => Some (lo, Some lo, s2)
      | (lo, String "," (String "}" s2)) => Some (lo, None, s2)
      | (lo, String "," s2) => match digits s2 0 with (hi, String "}" s3) => Some (lo, Some hi, s3) | _ => None end
      | _ => None
      end
  | _ => None
  end.

Definition quantified (a : re) (s : string) : re * string :=
  match counts s with
  | None => (a, s)
  | Some (lo, hi, s') =>
      let '(greedy, s') := match s' with String "?" s2 => (false, s2) | _ => (true, s') end in
      (seq_re (times lo a) (match hi with None => Star greedy a | Some hi => upto greedy (hi - lo) a end), s')
  end.

(** An alternation up to the end or a closing parenthesis, with the number of
    the next group. *)
Fixpoint alternation (fuel : nat) (s : string) (n : nat) : option (re * string * nat) :=
  match fuel with
  | O => None
  | S fuel' =>
      '(a, s, n) ← sequence fuel' s n;
      match s with
      | String "|" s' => '(b, s, n) ← alternation fuel' s' n; Some (Alt a b, s, n)
      | _ => Some (a, s, n)
      end
  end
with sequence (fuel : nat) (s : string) (n : nat) : option (re * string * nat) :=
  match fuel with
  | O => None
  | S fuel' =>
      let continue '(a, s, n) :=
        let '(a, s) := quantified a s in
        '(b, s, n) ← sequence fuel' s n; Some (seq_re a b, s, n) in
      let close (wrap : re → re) (x : option (re * string * nat)) :=
        '(a, s, n) ← x; match s with String ")" s' => continue (wrap a, s', n) | _ => None end in
      match s with
      | "" | String "|" _ | String ")" _ => Some (Eps, s, n)
      | String "(" (String "?" (String ":" s')) => close Datatypes.id (alternation fuel' s' n)
      | String "(" (String "?" (String "=" s')) => close Ahead (alternation fuel' s' n)
      | String "(" (String "?" (String "<" (String "=" s'))) =>
          '(a, s, n) ← alternation fuel' s' n;
          match a, s with Chars cs, String ")" s' => continue (Behind cs, s', n) | _, _ => None end
      | String "(" s' => close (Group n) (alternation fuel' s' (S n))
      | String "[" (String "^" s') => '(l, s) ← class_items (String.length s') s'; continue (class true l, s, n)
      | String "[" s' => '(l, s) ← class_items (String.length s') s'; continue (class false l, s, n)
      | String "." s' => continue (dot, s', n)
      | String "^" s' => continue (At_start, s', n)
      | String "$" s' => continue (At_end, s', n)
      | String "\" (String "b" s') => continue (Boundary, s', n)
      | String "\" (String c s') =>
          if is_digit c then continue (Backref (N.to_nat (code c - 48)), s', n)
          else match escaped_class c with
               | Some i => continue (class false [i], s', n)
               | None => continue (literal (escaped_char c), s', n)
               end
      | String c s' => continue (literal c, s', n)
      end
  end.

(** [re.compile]; [None] where the pattern is outside the syntax above. *)
Definition parse (pattern : string) : option re :=
  match alternation (3 + 3 * String.length pattern) pattern 1 with Some (r, "", _) => Some r | _ => None end.
End Parser.

(** The pattern that matches nothing, for a text that does not parse. *)
Definition Never : re := Chars (CSet false false []).
Definition compile (pattern : string) (fl : flags) : re := default Never (parse fl pattern).
Definition parses (pattern : string) (fl : flags) : bool := match parse fl pattern with Some _ => true | None => false end.

(** ** Matching *)

(** A position of a text: the character before it, the text after it, and what
    the groups have captured on the way. *)
Record st := St { prv : option ascii; rst : string; grp : list (nat * string) }.

Definition word_at (c : option ascii) : bool := match c with Some c => is_word c | None => false end.
Definition head (s : string) : option ascii := match s with String c _ => Some c | "" => None end.
Definition boundary (p : option ascii) (s : string) : bool := xorb (word_at p) (word_at (head s)).

Definition last_of (p : option ascii) (w : string) : option ascii := from_option Some p (last (chars w)).
Definition consumed (x y : st) : string := take_str (String.length (rst x) - String.length (rst y)) (rst x).
Definition skip (w : string) (x : st) : st :=
  St (last_of (prv x) w) (drop_str (String.length w) (rst x)) (grp x).
Definition group (n : nat) (x : st) : option string :=
  snd <$> List.find (λ p, (p.1 =? n)%nat) (grp x).

Abbreviation or_else x y := (match x with Some a => Some a | None => y end).

Section Matcher.
Context {A : Type}.
Implicit Types (k : st → option A) (x : st).

Fixpoint loop (greedy : bool) (body : (st → option A) → st → option A) (fuel : nat) k x : option A :=
  match fuel with
  | O => k x
  | S fuel' =>
      let next y := if (String.length (rst y) <? String.length (rst x))%nat then loop greedy body fuel' k y else None in
      if greedy then or_else (body next x) (k x) else or_else (k x) (body next x)
  end.

(** Match [r] at [x] and go on with [k]: the first way through in the order in
    which the module tries them. *)
Fixpoint run (r : re) k x : option A :=
  match r with
  | Eps => k x
  | Chars cs => match rst x with
                | String c s => if in_set cs c then k (St (Some c) s (grp x)) else None
                | "" => None
                end
  | Cat a b => run a (run b k) x
  | Alt a b => or_else (run a k x) (run b k x)
  | Star greedy a => loop greedy (run a) (String.length (rst x)) k x
  | Group n a => run a (λ y, k (St (prv y) (rst y) ((n, consumed x y) :: grp y))) x
  | Backref n => match group n x with
                 | Some w => if starts_with w (rst x) then k (skip w x) else None
                 | None => None
                 end
  | Boundary => if boundary (prv x) (rst x) then k x else None
  | At_start => match prv x with None => k x | Some _ => None end
  | At_end => if bool_decide (rst x = "") || bool_decide (rst x = String LF "") then k x else None
  | Ahead a => run a (λ _, k x) x
  | Behind cs => if match prv x with Some c => in_set cs c | None => false end then k x else None
  end.
End Matcher.

Definition start (s : string) : st := St None s [].

(** [pattern.match], [pattern.fullmatch] *)
Definition match_at (r : re) (x : st) : option st := run r Some x.
Definition re_match (r : re) (s : string) : option st := match_at r (start s).
Definition fullmatch (r : re) (s : string) : option st :=
  run r (λ y, if bool_decide (rst y = "") then Some y else None) (start s).

(** [pattern.search]: the leftmost match, from its first to its last position. *)
Fixpoint search_at (r : re) (p : option ascii) (s : string) : option (st * st) :=
  match match_at r (St p s []) with
  | Some y => Some (St p s [], y)
  | None => match s with "" => None | String c s' => search_at r (Some c) s' end
  end.
Definition search (r : re) (s : string) : option (st * st) := search_at r None s.
Definition found (r : re) (s : string) : bool := match search r s with Some _ => true | None => false end.

(** The text cut into matches and the characters between them. *)
Inductive seg := Plain (c : ascii) | Found (w : string) (y : st).

Fixpoint segments_at (fuel : nat) (r : re) (p : option ascii) (s : string) : list seg :=
  match fuel with
  | O => []
  | S fuel' =>
      let pass := match s with "" => [] | String c s' => Plain c :: segments_at fuel' r (Some c) s' end in
      match match_at r (St p s []) with
      | Some y => if (String.length (rst y) <? String.length s)%nat
                  then Found (consumed (St p s []) y) y :: segments_at fuel' r (prv y) (rst y) else pass
      | None => pass
      end
  end.
Definition segments (r : re) (s : string) : list seg := segments_at (String.length s) r None s.

(** [pattern.finditer], with the groups of each match, and [pattern.sub]. *)
Definition found_in (l : list seg) : list (string * st) :=
  omap (λ g, match g with Found w y => Some (w, y) | Plain _ => None end) l.
Definition finditer (r : re) (s : string) : list (string * st) := found_in (segments r s).
Definition render (repl : string) (l : list seg) : string :=
  foldr (λ g t, match g with Plain c => String c t | Found _ _ => repl +:+ t end) "" l.
Definition sub (r : re) (repl s : string) : string := render repl (segments r s).

(** [re.split(r, s)]: the text between the matches. *)
Fixpoint pieces (l : list seg) : string * list string :=
  match l with
  | [] => ("", [])
  | Plain c :: l' => let '(w, ws) := pieces l' in (String c w, ws)
  | Found _ _ :: l' => let '(w, ws) := pieces l' in ("", w :: ws)
  end.
Definition re_split (r : re) (s : string) : list string := let '(w, ws) := pieces (segments r s) in w :: ws.

(** ** What a pattern means *)

Inductive matches : re → st → st → Prop :=
| M_eps x : matches Eps x x
| M_chars cs c p s g : in_set cs c = true → matches (Chars cs) (St p (String c s) g) (St (Some c) s g)
| M_cat a b x y z : matches a x y → matches b y z → matches (Cat a b) x z
| M_alt_l a b x y : matches a x y → matches (Alt a b) x y
| M_alt_r a b x y : matches b x y → matches (Alt a b) x y
| M_stop greedy a x : matches (Star greedy a) x x
| M_more greedy a x y z : matches a x y → (String.length (rst y) < String.length (rst x))%nat →
    matches (Star greedy a) y z → matches (Star greedy a) x z
| M_group n a x y : matches a x y → matches (Group n a) x (St (prv y) (rst y) ((n, consumed x y) :: grp y))
| M_backref n w x : group n x = Some w → starts_with w (rst x) = true → matches (Backref n) x (skip w x)
| M_boundary x : boundary (prv x) (rst x) = true → matches Boundary x x
| M_start s g : matches At_start (St None s g) (St None s g)
| M_end x : rst x = "" ∨ rst x = String LF "" → matches At_end x x
| M_ahead a x y : matches a x y → matches (Ahead a) x x
| M_behind cs c x : prv x = Some c → in_set cs c = true → matches (Behind cs) x x.
#[global] Hint Constructors matches : axg.

(** *** The matcher is sound and complete *)

Lemma or_else_Some {A} (x y : option A) a : or_else x y = Some a → x = Some a ∨ y = Some a.
Proof. destruct x; naive_solver. Qed.

Lemma or_else_is_Some {A} (x y : option A) : is_Some x ∨ is_Some y → is_Some (or_else x y).
Proof. destruct x; intros [[b H]|[b H]]; naive_solver. Qed.

Lemma loop_sound {A} greedy a (fuel : nat) :
  (∀ (k : st → option A) x v, run a k x = Some v → ∃ y, matches a x y ∧ k y = Some v) →
  ∀ (k : st → option A) x v, loop greedy (run a) fuel k x = Some v → ∃ y, matches (Star greedy a) x y ∧ k y = Some v.
Proof.
  intros Ha. induction fuel as [|fuel IH]; intros k x v; cbn [loop]; [eauto with axg|]. cbv zeta.
  set (next := λ y, _). assert (∀ w, run a next x = Some w → ∃ y, matches (Star greedy a) x y ∧ k y = Some w) as Hn.
  { intros w (y & Hy & Hk)%Ha. unfold next in Hk. destruct (Nat.ltb_spec (String.length (rst y)) (String.length (rst x))); [|done].
    apply IH in Hk as (z & Hz & Hk). eauto with axg. }
  destruct greedy; intros [H|H]%or_else_Some; eauto with axg.
Qed.

Theorem run_sound {A} r : ∀ (k : st → option A) x v, run r k x = Some v → ∃ y, matches r x y ∧ k y = Some v.
Proof.
  induction r as [|cs|a IHa b IHb|a IHa b IHb|g a IHa|n a IHa|n| | | |a IHa|cs]; intros k x v; cbn [run].
  - eauto with axg.
  - destruct x as [p [|c s] g]; cbn; [done|]. destruct (in_set cs c) eqn:E; [eauto with axg|done].
  - intros (y & Hy & (z & Hz & Hk)%IHb)%IHa. eauto with axg.
  - intros [(y & Hy & Hk)%IHa|(y & Hy & Hk)%IHb]%or_else_Some; eauto with axg.
  - by apply loop_sound.
  - intros (y & Hy & Hk)%IHa. eauto with axg.
  - destruct (group n x) as [w|] eqn:E; [|done]. destruct (starts_with w (rst x)) eqn:E'; [|done]. eauto with axg.
  - destruct (boundary _ _) eqn:E; [|done]. eauto with axg.
  - destruct x as [[] s g]; [done|]. eauto with axg.
  - destruct (bool_decide (rst x = "")) eqn:E1; [bool_prop; eauto with axg|].
    destruct (bool_decide (rst x = String LF "")) eqn:E2; [bool_prop; eauto with axg|done].
  - intros (y & Hy & Hk)%IHa. eauto with axg.
  - destruct (prv x) as [c|] eqn:E; [|done]. destruct (in_set cs c) eqn:E'; [eauto with axg|done].
Qed.

Lemma loop_complete {A} greedy a :
  (∀ (k : st → option A) x y, matches a x y → is_Some (k y) → is_Some (run a k x)) →
  ∀ r x y, matches r x y → r = Star greedy a → ∀ (k : st → option A) fuel,
  (String.length (rst x) ≤ fuel)%nat → is_Some (k y) → is_Some (loop greedy (run a) fuel k x).
Proof.
  intros Ha r x y H. induction H as [| | | | |g' a' x|g' a' x y z Hm _ Hlt _ IH| | | | | | |]; intros [=]; subst; intros k fuel Hf Hk.
  - destruct fuel; cbn [loop]; [done|]. destruct greedy; apply or_else_is_Some; eauto.
  - destruct fuel as [|fuel]; [lia|]. cbn [loop]. cbv zeta.
    assert (is_Some (run a (λ y, if (String.length (rst y) <? String.length (rst x))%nat
      then loop greedy (run a) fuel k y else None) x)) as Hn.
    { eapply Ha; [exact Hm|]. cbn beta. rewrite (proj2 (Nat.ltb_lt _ _) Hlt). apply IH; [done|lia|done]. }
    destruct greedy; apply or_else_is_Some; eauto.
Qed.

Theorem run_complete {A} r : ∀ (k : st → option A) x y, matches r x y → is_Some (k y) → is_Some (run r k x).
Proof.
  induction r as [|cs|a IHa b IHb|a IHa b IHb|g a IHa|n a IHa|n| | | |a IHa|cs]; intros k x y H Hk; cbn [run].
  - by inversion H; subst.
  - inversion H as [|? ? ? ? ? Hc| | | | | | | | | | | |]; subst. cbn. by rewrite Hc.
  - inversion H; subst. eauto.
  - apply or_else_is_Some. inversion H; subst; eauto.
  - by eapply loop_complete.
  - inversion H; subst. eauto.
  - inversion H as [| | | | | | | |? w ? Hg Hs| | | | |]; subst. by rewrite Hg, Hs.
  - inversion H as [| | | | | | | | |? Hb| | | |]; subst. by rewrite Hb.
  - by inversion H; subst.
  - inversion H as [| | | | | | | | | | |? He| |]; subst. destruct He as [-> | ->]; [by rewrite bool_decide_true|].
    by rewrite (bool_decide_true (String LF "" = String LF "")).
  - inversion H; subst. by eapply IHa.
  - inversion H as [| | | | | | | | | | | | |? c ? Hp Hc]; subst. by rewrite Hp, Hc.
Qed.

(** *** The text that a match consumes *)

Lemma last_of_app p u v : last_of p (u +:+ v) = last_of (last_of p u) v.
Proof.
  revert p. induction u as [|c u IH]; intros p; [done|]. rewrite app_cons_str.
  assert (∀ q w, last_of q (String c w) = last_of (Some c) w) as E.
  { intros q w. unfold last_of. cbn [chars]. rewrite last_cons. by destruct (last (chars w)). }
  by rewrite !E, IH.
Qed.

Lemma last_of_cons p c w : last_of p (String c w) = last_of (Some c) w.
Proof. exact (last_of_app p (String c "") w). Qed.

Lemma take_append w s : take_str (String.length (w +:+ s) - String.length s) (w +:+ s) = w.
Proof. rewrite length_app_str, Nat.add_sub. apply take_str_app. Qed.

Lemma matches_window r x y : matches r x y → ∃ w, rst x = w +:+ rst y ∧ prv y = last_of (prv x) w.
Proof.
  induction 1 as [x|cs c p s g H|a b x y z _ (u & Hu & Pu) _ (v & Hv & Pv)|a b x y _ IH|a b x y _ IH|g a x
    |g a x y z _ (u & Hu & Pu) _ _ (v & Hv & Pv)|n a x y _ IH|n w x Hg Hs|x H|s g|x H|a x y _ _|cs c x _ _];
    try done; try (by exists "").
  - by exists (String c "").
  - exists (u +:+ v). by rewrite <-app_assoc_str, <-Hv, Hu, last_of_app, <-Pu.
  - exists (u +:+ v). by rewrite <-app_assoc_str, <-Hv, Hu, last_of_app, <-Pu.
  - exists w. cbn. apply starts_with_spec in Hs as [t ->]. by rewrite drop_str_app.
Qed.

Lemma consumed_window x y w : rst x = w +:+ rst y → consumed x y = w.
Proof. intros E. unfold consumed. rewrite E. apply take_append. Qed.

(** The least length of a match. *)
Fixpoint min_len (r : re) : nat :=
  match r with
  | Chars _ => 1
  | Cat a b => min_len a + min_len b
  | Alt a b => Nat.min (min_len a) (min_len b)
  | Group _ a => min_len a
  | _ => 0
  end.

Lemma matches_min_len r x y : matches r x y → (min_len r + String.length (rst y) ≤ String.length (rst x))%nat.
Proof.
  induction 1 as [| | | | | | | |? ? ? ? Hs| | | | |]; cbn [min_len rst skip] in *; try lia.
  - cbn [String.length]. lia.
  - apply starts_with_spec in Hs as [t ->]. rewrite drop_str_app, length_app_str. lia.
Qed.

(** *** A match in another context

    A pattern whose only assertions are word boundaries matches the same text
    in every context in which the boundaries it may test still hold. *)
Fixpoint local (r : re) : bool :=
  match r with
  | Cat a b | Alt a b => local a && local b
  | Star _ a | Group _ a => local a
  | At_start | At_end | Ahead _ | Behind _ => false
  | _ => true
  end.

(** Whether a pattern tests word boundaries. *)
Fixpoint bounded_words (r : re) : bool :=
  match r with
  | Boundary => true
  | Cat a b | Alt a b => bounded_words a || bounded_words b
  | Star _ a | Group _ a => bounded_words a
  | _ => false
  end.

(** Every split of the text [w] between the contexts [(p, t)] that is a boundary
    there is one between [(p', t')]. *)
Definition carries (w : string) (p p' : option ascii) (t t' : string) : Prop :=
  ∀ u v, w = u +:+ v → boundary (last_of p u) (v +:+ t) = true → boundary (last_of p' u) (v +:+ t') = true.

Lemma carries_l u v p p' t t' : carries (u +:+ v) p p' t t' → carries u p p' (v +:+ t) (v +:+ t').
Proof. intros H a b ->. rewrite !app_assoc_str. apply H. by rewrite <-app_assoc_str. Qed.

Lemma carries_r u v p p' t t' : carries (u +:+ v) p p' t t' → carries v (last_of p u) (last_of p' u) t t'.
Proof. intros H a b ->. rewrite <-!last_of_app. apply H. by rewrite <-app_assoc_str. Qed.

Lemma app_inv_str u v s : u +:+ s = v +:+ s → u = v.
Proof.
  intros H. assert (String.length u = String.length v) as Hl.
  { apply (f_equal String.length) in H. rewrite !length_app_str in H. lia. }
  by destruct (app_inj_str u v s s Hl H).
Qed.

Lemma app_id_str w s : s = w +:+ s → w = "".
Proof. intros H. symmetry in H. by apply (app_inv_str w "" s) in H. Qed.

(** An entry of a string by its window. *)
Lemma window_eq x y u : rst x = u +:+ rst y → ∀ w, rst x = w +:+ rst y → w = u.
Proof. intros -> w H. by apply app_inv_str in H. Qed.

(** The window of a match followed by a match is theirs together. *)
Lemma window_cat a b x y z w : matches a x y → matches b y z → rst x = w +:+ rst z →
  ∃ u v, w = u +:+ v ∧ rst x = u +:+ rst y ∧ rst y = v +:+ rst z ∧ prv y = last_of (prv x) u.
Proof.
  intros Ha Hb E. destruct (matches_window _ _ _ Ha) as (u & Eu & Pu), (matches_window _ _ _ Hb) as (v & Ev & _).
  exists u, v. split_and!; try done. apply (app_inv_str _ _ (rst z)). by rewrite <-E, Eu, Ev, app_assoc_str.
Qed.

Lemma matches_moves r x y : matches r x y → local r = true →
  ∀ w p' t', rst x = w +:+ rst y → (bounded_words r = true → carries w (prv x) p' (rst y) t') →
  matches r (St p' (w +:+ t') (grp x)) (St (last_of p' w) t' (grp y)).
Proof.
  induction 1 as [x|cs c p s g H|a b x y z Ha IHa Hb IHb|a b x y _ IH|a b x y _ IH|g a x
    |g a x y z Ha IHa Hlt Hb IHb|n a x y Ha IH|n u x Hg Hs|x H|s g|x H|a x y _ _|cs c x _ _]; cbn [local bounded_words prv rst grp]; intros L w p' t' E C;
    try discriminate L; rewrite ?andb_true_iff in L.
  - apply (window_eq x x "") in E as ->; [constructor|done].
  - change (String c s) with (String c "" +:+ s) in E. apply app_inv_str in E as <-. by constructor.
  - destruct (matches_window _ _ _ Ha) as (u & Eu & Pu), (matches_window _ _ _ Hb) as (v & Ev & Pv).
    assert (w = u +:+ v) as -> by (apply (app_inv_str _ _ (rst z)); by rewrite <-E, Eu, Ev, <-app_assoc_str).
    rewrite <-app_assoc_str, last_of_app. econstructor.
    + apply IHa; [tauto|done|]. intros B. rewrite Ev. eapply carries_l, C. by rewrite B.
    + apply IHb; [tauto|done|]. intros B. rewrite Pu. eapply carries_r, C. by rewrite B, orb_true_r.
  - apply M_alt_l, IH; [tauto|done|]. intros B. apply C. by rewrite B.
  - apply M_alt_r, IH; [tauto|done|]. intros B. apply C. by rewrite B, orb_true_r.
  - apply (window_eq x x "") in E as ->; [constructor|done].
  - destruct (matches_window _ _ _ Ha) as (u & Eu & Pu), (matches_window _ _ _ Hb) as (v & Ev & Pv).
    assert (w = u +:+ v) as -> by (apply (app_inv_str _ _ (rst z)); by rewrite <-E, Eu, Ev, <-app_assoc_str).
    rewrite <-app_assoc_str, last_of_app. eapply M_more.
    + apply IHa; [done|done|]. intros B. rewrite Ev. eapply carries_l, C, B.
    + cbn [rst]. rewrite Eu in Hlt. rewrite !length_app_str in *. lia.
    + apply IHb; [done|done|]. intros B. rewrite Pu. eapply carries_r, C, B.
  - assert (consumed x y = consumed (St p' (w +:+ t') (grp x)) (St (last_of p' w) t' (grp y))) as ->.
    { rewrite (consumed_window x y w E). symmetry. by apply consumed_window. }
    apply (M_group n a _ (St (last_of p' w) t' (grp y))). by apply IH.
  - assert (w = u) as ->.
    { apply starts_with_spec in Hs as [t Ht]. apply (window_eq x (skip u x) u); [|done].
      cbn [skip rst]. by rewrite Ht, drop_str_app. }
    replace (St (last_of p' u) t' _) with (skip u (St p' (u +:+ t') (grp x))).
    + by apply M_backref; [|apply starts_with_spec; exists t'].
    + unfold skip. cbn. by rewrite drop_str_app.
  - apply (window_eq x x "") in E as ->; [|done]. apply M_boundary. cbn. by apply (C eq_refl "" "").
Qed.

(** A match moves to any context if nothing tests the context. *)
Definition context_free (r : re) : bool := local r && negb (bounded_words r).

Lemma matches_anywhere r x y w p t : context_free r = true → matches r x y → rst x = w +:+ rst y →
  matches r (St p (w +:+ t) (grp x)) (St (last_of p w) t (grp y)).
Proof.
  intros [L B]%andb_true_iff H E. apply (matches_moves _ _ _ H L w p t E). apply negb_true_iff in B. by rewrite B.
Qed.

(** *** Searching and scanning *)

Definition nowhere (r : re) (p : option ascii) (s : string) : Prop :=
  ∀ a t y, s = a +:+ t → ¬ matches r (St (last_of p a) t []) y.

Lemma match_at_Some r x y : match_at r x = Some y → matches r x y.
Proof. intros (z & Hz & [= <-])%run_sound. done. Qed.

Lemma match_at_None r x : match_at r x = None ↔ ∀ y, ¬ matches r x y.
Proof.
  split.
  - intros H y Hy. destruct (run_complete r Some x y Hy) as [z Hz]; [by eexists|]. unfold match_at in H. by rewrite Hz in H.
  - intros H. destruct (match_at r x) as [y|] eqn:E; [|done]. by apply match_at_Some, H in E.
Qed.

Lemma search_at_None r s : ∀ p, search_at r p s = None ↔ nowhere r p s.
Proof.
  induction s as [|c s IH]; intros p; cbn [search_at].
  - destruct (match_at r _) eqn:E; split; try done.
    + intros H. by apply match_at_Some, (H "" "") in E.
    + intros _ [|] t y Hs; [|done]. change ("" = t) in Hs. subst t. by apply match_at_None.
  - destruct (match_at r _) eqn:E; [split; [done|]|rewrite IH; split].
    + intros H. by apply match_at_Some, (H "" (String c s)) in E.
    + intros H [|d a] t y Hs.
      * change (String c s = t) in Hs. subst t. by apply match_at_None.
      * rewrite app_cons_str in Hs. injection Hs as -> ->. rewrite last_of_cons. by apply H.
    + intros H a t y ->. rewrite <-(last_of_cons p). by apply H.
Qed.

Lemma search_at_Some r s : ∀ p x y, search_at r p s = Some (x, y) →
  ∃ a, s = a +:+ rst x ∧ prv x = last_of p a ∧ grp x = [] ∧ matches r x y.
Proof.
  induction s as [|c s IH]; intros p x y; cbn [search_at].
  - destruct (match_at r _) eqn:E; [|done]. intros [= <- <-]. exists "". split_and!; try done. by apply match_at_Some.
  - destruct (match_at r _) eqn:E.
    + intros [= <- <-]. exists "". split_and!; try done. by apply match_at_Some.
    + intros (a & -> & Hp & Hg & Hm)%IH. exists (String c a). rewrite app_cons_str, last_of_cons. by split_and!.
Qed.

(** The scan of a text: at a plain character nothing matches. *)
Inductive scanned (r : re) : option ascii → string → list seg → Prop :=
| sc_nil p : scanned r p "" []
| sc_plain p c s l : (∀ y, ¬ matches r (St p (String c s) []) y) → scanned r (Some c) s l →
    scanned r p (String c s) (Plain c :: l)
| sc_found p w s y l : matches r (St p (w +:+ s) []) y → rst y = s → w ≠ "" → scanned r (prv y) s l →
    scanned r p (w +:+ s) (Found w y :: l).

Lemma segments_at_scanned r fuel : (0 < min_len r)%nat → ∀ p s, (String.length s ≤ fuel)%nat →
  scanned r p s (segments_at fuel r p s).
Proof.
  intros Hr. induction fuel as [|fuel IH]; intros p s Hs; cbn [segments_at].
  { destruct s; [constructor|cbn in Hs; lia]. }
  destruct (match_at r (St p s [])) as [y|] eqn:E.
  - apply match_at_Some in E as Hm. apply matches_min_len in Hm as Hl. cbn [rst] in Hl.
    rewrite (proj2 (Nat.ltb_lt _ _)) by lia. destruct (matches_window _ _ _ Hm) as (w & Ew & Pw). cbn [rst prv] in *.
    rewrite (consumed_window (St p s []) y w Ew). subst s. rewrite length_app_str in *.
    apply sc_found; [exact Hm|done| |].
    + intros ->. cbn in Hl. lia.
    + apply IH. destruct w; cbn in *; lia.
  - destruct s as [|c s]; [constructor|]. apply sc_plain; [by apply match_at_None|]. apply IH. cbn in Hs. lia.
Qed.

Lemma segments_scanned r s : (0 < min_len r)%nat → scanned r None s (segments r s).
Proof. intros H. by apply segments_at_scanned. Qed.

(** A scan reads the whole text, and each of its matches is one. *)
Definition text_of (l : list seg) : string :=
  foldr (λ g t, match g with Plain c => String c t | Found w _ => w +:+ t end) "" l.

Lemma scanned_text r p s l : scanned r p s l → text_of l = s.
Proof. unfold text_of. induction 1 as [|p c s l _ _ IH|p w s y l _ _ _ _ IH]; cbn [foldr]; [done|by rewrite IH|by rewrite IH]. Qed.

Lemma scanned_nowhere r p s l : (0 < min_len r)%nat → scanned r p s l → found_in l = [] ↔ nowhere r p s.
Proof.
  intros Hr. unfold found_in. induction 1 as [p|p c s l Hc _ IH|p w s y l Hm <- Hw _ _]; cbn [omap list_omap].
  - split; [|done]. intros _ [|] t y Hs Hm%matches_min_len; [|done]. change ("" = t) in Hs. subst t. cbn in Hm. lia.
  - rewrite IH. split; intros H.
    + intros [|d a] t y Hs.
      * change (String c s = t) in Hs. subst t. apply Hc.
      * rewrite app_cons_str in Hs. injection Hs as -> ->. rewrite last_of_cons. by apply H.
    + intros a t y ->. rewrite <-(last_of_cons p). by apply H.
  - split; [done|]. intros H. exfalso. by apply (H "" _ _ eq_refl Hm).
Qed.

Lemma finditer_nil r s : (0 < min_len r)%nat → finditer r s = [] ↔ nowhere r None s.
Proof. intros H. by apply scanned_nowhere, segments_scanned. Qed.

Lemma found_spec r s : found r s = true ↔ ¬ nowhere r None s.
Proof.
  unfold found, search. rewrite <-search_at_None. destruct (search_at r None s) as [p|]; by split.
Qed.

(** A text with a match keeps it inside every other text. *)
Lemma found_embedded r pre s post : context_free r = true → found r s = true → found r (pre +:+ s +:+ post) = true.
Proof.
  unfold found at 1, search. intros Hf. destruct (search_at r None s) as [[x y]|] eqn:E; [|done]. intros _.
  apply search_at_Some in E as (a & -> & Hp & Hg & Hm). destruct (matches_window _ _ _ Hm) as (w & Ew & _).
  apply found_spec. intros H. rewrite Ew in H.
  apply (H (pre +:+ a) (w +:+ (rst y +:+ post)) (St (last_of (last_of None (pre +:+ a)) w) (rst y +:+ post) (grp y))).
  - by rewrite !app_assoc_str.
  - rewrite <-Hg. by apply (matches_anywhere r x y w).
Qed.

Lemma scanned_plain r p s l repl : scanned r p s l → found_in l = [] → render repl l = s.
Proof.
  unfold render, found_in. induction 1 as [|p c s l _ _ IH|]; cbn [omap list_omap foldr]; [done| |done].
  intros H. by rewrite IH.
Qed.

Lemma sub_nowhere r repl s : (0 < min_len r)%nat → nowhere r None s → sub r repl s = s.
Proof.
  intros Hr H. apply (scanned_plain r None); [by apply segments_scanned|]. by apply finditer_nil.
Qed.

(** *** Captured text lies in the text *)

Lemma infix_window s a w t : s = a +:+ w +:+ t → infix_of w s.
Proof. intros ->. by exists a, t. Qed.

Definition groups_in (s : string) (x : st) : Prop := Forall (λ p, infix_of p.2 s) (grp x).

Lemma matches_groups r x y : matches r x y → ∀ s a, s = a +:+ rst x → groups_in s x → groups_in s y.
Proof.
  assert (∀ b x z s a, matches b x z → s = a +:+ rst x → ∃ a', s = a' +:+ rst z) as Hstep.
  { intros b x' z s a (w & -> & _)%matches_window ->. exists (a +:+ w). by rewrite app_assoc_str. }
  induction 1 as [| |a b x y z Ha IHa Hb IHb| | | |g a x y z Ha IHa _ Hb IHb|n a x y Ha IH| | | | | |]; intros T u E G;
    try done; eauto.
  - destruct (Hstep _ _ _ _ _ Ha E) as [u' E']. eauto.
  - destruct (Hstep _ _ _ _ _ Ha E) as [u' E']. eauto.
  - constructor; [|by eapply IH]. cbn. destruct (matches_window _ _ _ Ha) as (w & Ew & _).
    rewrite (consumed_window x y w Ew). subst T. rewrite Ew. by eexists _, _.
Qed.

Lemma group_in s n x w : groups_in s x → group n x = Some w → infix_of w s.
Proof.
  unfold groups_in, group. intros G. destruct (List.find _ (grp x)) as [p|] eqn:E; [|done].
  intros [= <-]. apply find_some in E as [Hin _]. rewrite Forall_forall in G. apply G. by apply list_elem_of_In.
Qed.

Lemma fullmatch_spec r s y : fullmatch r s = Some y → matches r (start s) y ∧ rst y = "".
Proof.
  intros (z & Hz & Hy)%run_sound. destruct (bool_decide (rst z = "")) eqn:E; [|done]. injection Hy as <-. by bool_prop.
Qed.

Lemma fullmatch_group r s y n w : fullmatch r s = Some y → group n y = Some w → infix_of w s.
Proof.
  intros [H _]%fullmatch_spec. apply group_in. apply (matches_groups _ _ _ H s ""); [done|by constructor].
Qed.

Lemma re_match_group r s y n w : re_match r s = Some y → group n y = Some w → infix_of w s.
Proof.
  intros H%match_at_Some. apply group_in. apply (matches_groups _ _ _ H s ""); [done|by constructor].
Qed.

Lemma search_group r s x y n w : search r s = Some (x, y) → group n y = Some w → infix_of w s.
Proof.
  intros (a & -> & _ & Hg & Hm)%search_at_Some. apply group_in. apply (matches_groups _ _ _ Hm _ a); [done|].
  unfold groups_in. rewrite Hg. constructor.
Qed.

(** A match of a scan captures text of it. *)
Lemma scanned_groups r p s l : scanned r p s l → ∀ w y n v, (w, y) ∈ found_in l → group n y = Some v → infix_of v s.
Proof.
  unfold found_in. induction 1 as [p|p c t l _ _ IH|p w t y l Hm <- _ _ IH]; cbn [omap list_omap]; intros u z n v H Hv.
  - by apply not_elem_of_nil in H.
  - by eapply infix_cons, IH.
  - apply elem_of_cons in H as [[= -> ->]|H].
    + eapply group_in; [|exact Hv]. apply (matches_groups _ _ _ Hm _ ""); [done|constructor].
    + destruct (IH u z n v H Hv) as (a & b & ->). exists (w +:+ a), b. by rewrite !app_assoc_str.
Qed.

Lemma finditer_groups r s w y n v : (0 < min_len r)%nat → (w, y) ∈ finditer r s → group n y = Some v → infix_of v s.
Proof. intros Hr. by eapply scanned_groups, segments_scanned. Qed.
