(* ===== verification/Masking.v ===== *)
(** * Masking the matches of a pattern

    Decidable checks on a pattern (what characters its matches hold, where they
    start and end), and the theorem behind redaction: replacing the matches of
    a pattern by a bracketed mask leaves no match of it and makes none of
    another pattern. *)

From S2P Require Import Prelude PyStr Regex.

(** ** Checks on a pattern *)

Definition all_chars : list ascii := map ascii_of_nat (seq 0 256).
Definition every_char (f : ascii → bool) : bool := forallb f all_chars.

Lemma every_char_spec f c : every_char f = true → f c = true.
Proof.
  unfold every_char. rewrite forallb_forall. intros H. apply H. unfold all_chars. rewrite <-(ascii_nat_embedding c).
  apply in_map, in_seq. pose proof (nat_ascii_bounded c). lia.
Qed.

Definition set_within (f : ascii → bool) (cs : cset) : bool := every_char (λ c, implb (in_set cs c) (f c)).

Lemma set_within_spec f cs c : set_within f cs = true → in_set cs c = true → f c = true.
Proof. intros H Hc. apply (every_char_spec _ c) in H. cbn beta in H. by rewrite Hc in H. Qed.

(** Every character of a match satisfies [f]; some character does. *)
Fixpoint within (f : ascii → bool) (r : re) : bool :=
  match r with
  | Chars cs => set_within f cs
  | Cat a b | Alt a b => within f a && within f b
  | Star _ a | Group _ a => within f a
  | Backref _ => false
  | _ => true
  end.
Fixpoint needs (f : ascii → bool) (r : re) : bool :=
  match r with
  | Chars cs => set_within f cs
  | Cat a b => needs f a || needs f b
  | Alt a b => needs f a && needs f b
  | Group _ a => needs f a
  | _ => false
  end.

(** A match ends at a word boundary; one that starts after a word character
    starts at a boundary. *)
Fixpoint ends_bounded (r : re) : bool :=
  match r with
  | Boundary => true
  | Cat _ b => ends_bounded b
  | Alt a b => ends_bounded a && ends_bounded b
  | Group _ a => ends_bounded a
  | _ => false
  end.
Definition not_word (c : ascii) : bool := negb (is_word c).
Fixpoint starts_then (r : re) (k : bool) : bool :=
  match r with
  | Eps => k
  | Boundary => true
  | Chars cs => set_within not_word cs
  | Cat a b => starts_then a (starts_then b k)
  | Alt a b => starts_then a k && starts_then b k
  | Group _ a => starts_then a k
  | _ => false
  end.
Definition starts_bounded (r : re) : bool := starts_then r false.

Lemma matches_within f r x y : matches r x y → within f r = true → ∀ w, rst x = w +:+ rst y → forall_str f w = true.
Proof.
  induction 1 as [x|cs c p s g Hc|a b x y z Ha IHa Hb IHb|a b x y _ IH|a b x y _ IH|g a x
    |g a x y z Ha IHa _ Hb IHb|n a x y _ IH|n u x _ _|x _|s g|x _|a x y _ _|cs c x _ _]; cbn [within rst]; intros W w E;
    rewrite ?andb_true_iff in W; try discriminate W; try (by apply app_id_str in E as ->).
  - change (String c s) with (String c "" +:+ s) in E. apply app_inv_str in E as <-. cbn.
    by rewrite (set_within_spec f cs c W Hc).
  - destruct (window_cat _ _ _ _ _ _ Ha Hb E) as (u & v & -> & Eu & Ev & _).
    rewrite forall_str_app, IHa, IHb; tauto.
  - apply IH; tauto.
  - apply IH; tauto.
  - destruct (window_cat _ _ _ _ _ _ Ha Hb E) as (u & v & -> & Eu & Ev & _).
    rewrite forall_str_app, IHa, IHb; tauto.
  - by apply IH.
Qed.

Lemma matches_needs f r x y : matches r x y → needs f r = true → ∀ w, rst x = w +:+ rst y → exists_str f w = true.
Proof.
  assert (∀ u v, exists_str f u = true → exists_str f (u +:+ v) = true) as Hl.
  { unfold exists_str. intros u v. rewrite forall_str_app, !negb_true_iff. by intros ->. }
  assert (∀ u v, exists_str f v = true → exists_str f (u +:+ v) = true) as Hr.
  { unfold exists_str. intros u v. rewrite forall_str_app, !negb_true_iff. intros ->. apply andb_false_r. }
  induction 1 as [x|cs c p s g Hc|a b x y z Ha IHa Hb IHb|a b x y _ IH|a b x y _ IH|g a x
    |g a x y z Ha IHa _ Hb IHb|n a x y _ IH|n u x _ _|x _|s g|x _|a x y _ _|cs c x _ _]; cbn [needs rst]; intros W w E;
    rewrite ?andb_true_iff, ?orb_true_iff in W; try discriminate W.
  - change (String c s) with (String c "" +:+ s) in E. apply app_inv_str in E as <-. unfold exists_str.
    cbn [forall_str]. by rewrite (set_within_spec f cs c W Hc).
  - destruct (window_cat _ _ _ _ _ _ Ha Hb E) as (u & v & -> & Eu & Ev & _).
    destruct W as [W|W]; [apply Hl, IHa|apply Hr, IHb]; done.
  - apply IH; tauto.
  - apply IH; tauto.
  - apply IH; tauto.
Qed.

Lemma matches_ends r x y : matches r x y → ends_bounded r = true → boundary (prv y) (rst y) = true.
Proof. induction 1; cbn [ends_bounded prv rst]; rewrite ?andb_true_iff; try done; tauto. Qed.

(** Before a continuation that starts well, a pattern may match nothing. *)
Lemma matches_starts_then r x y : matches r x y → ∀ k, starts_then r k = true → word_at (prv x) = true →
  boundary (prv x) (rst x) = true ∨ (k = true ∧ prv y = prv x ∧ rst y = rst x).
Proof.
  induction 1 as [x|cs c p s g Hc|a b x y z Ha IHa Hb IHb|a b x y _ IH|a b x y _ IH|g a x
    |g a x y z Ha IHa _ Hb IHb|n a x y _ IH|n u x _ _|x Hx|s g|x _|a x y _ _|cs c x _ _]; cbn [starts_then]; intros k W Hp; try done;
    rewrite ?andb_true_iff in W; try (apply IH; tauto); try (by right); try (by left).
  - apply (set_within_spec _ _ _ W) in Hc. unfold not_word in Hc. left. unfold boundary. cbn in *.
    apply negb_true_iff in Hc. by rewrite Hp, Hc.
  - destruct (IHa _ W Hp) as [H|(H & E1 & E2)]; [by left|]. rewrite <-E1 in Hp.
    destruct (IHb _ H Hp) as [H'|(H' & E3 & E4)]; [left|right]; [by rewrite <-E1, <-E2|].
    by rewrite E3, E4.
Qed.

Lemma matches_starts r x y : matches r x y → starts_bounded r = true → word_at (prv x) = true →
  boundary (prv x) (rst x) = true.
Proof. intros H W Hp. by destruct (matches_starts_then _ _ _ H false W Hp) as [?|[? _]]. Qed.

(** ** Masking

    Replacing the matches of a pattern by a bracketed mask leaves no match of
    that pattern, and makes none of another: a match in the result would read
    the same characters, between the same boundaries, in the text itself. *)
Section Mask.
Variables (r X : re) (core : string).
Definition mask : string := "[" +:+ core +:+ "]".
Definition no_bracket (c : ascii) : bool := negb (bool_decide (c = "["%char)) && negb (bool_decide (c = "]"%char)).

Variable f : ascii → bool.
Hypothesis r_ends : ends_bounded r = true.
Hypothesis r_starts : starts_bounded r = true.
Hypothesis X_local : local X = true.
Hypothesis X_plain : within no_bracket X = true.
Hypothesis X_needs : needs f X = true.
Hypothesis core_lacks : exists_str f core = false.

Lemma boundary_head p c s t : boundary p (String c s) = boundary p (String c t).
Proof. done. Qed.

Lemma carries_edges w p p' t t' :
  w ≠ "" → (boundary p (w +:+ t) = true → boundary p' (w +:+ t') = true) →
  (boundary (last_of p w) t = true → boundary (last_of p' w) t' = true) → carries w p p' t t'.
Proof.
  intros Hw H1 H2 [|c u] v ->; [exact H1|]. destruct v as [|d v].
  - rewrite app_nil_r_str in H2. exact H2.
  - intros H. rewrite last_of_cons in *. exact H.
Qed.

(** A text without brackets at the front of a masked scan is in the scanned
    text, and the boundary after it was one there. *)
Lemma unmask_front p s l : scanned r p s l → ∀ w b, render mask l = w +:+ b → forall_str no_bracket w = true →
  ∃ b', s = w +:+ b' ∧ (boundary (last_of p w) b = true → boundary (last_of p w) b' = true).
Proof.
  induction 1 as [p|p c s l _ _ IH|p u s y l Hm <- Hu _ _]; intros [|d w] b E Hw.
  - exists "". change ("" = b) in E. by subst b.
  - done.
  - change (String c (render mask l) = b) in E. subst b. exists (String c s). by split.
  - change (String c (render mask l) = String d (w +:+ b)) in E. injection E as <- E.
    cbn in Hw. apply andb_true_iff in Hw as [_ Hw]. destruct (IH w b E Hw) as (b' & -> & Hb). exists b'.
    rewrite !(last_of_cons p). by split.
  - change (mask +:+ render mask l = b) in E. subst b. exists (u +:+ rst y). split; [done|]. cbn. intros Hp.
    unfold boundary in Hp. apply (matches_starts _ _ _ Hm r_starts). cbn. destruct (word_at p); [done|]. discriminate Hp.
  - change (String "[" ((core +:+ "]") +:+ render mask l) = String d (w +:+ b)) in E.
    assert (d = "["%char) as -> by congruence. done.
Qed.

Lemma no_bracket_open w b : forall_str no_bracket w = true → ∀ t, w +:+ b = String "[" t → w = "".
Proof. destruct w as [|c w]; [done|]. intros H t E. rewrite app_cons_str in E. injection E as -> _. discriminate H. Qed.

Lemma no_bracket_close w b : forall_str no_bracket w = true → ∀ t, w +:+ b = String "]" t → w = "".
Proof. destruct w as [|c w]; [done|]. intros H t E. rewrite app_cons_str in E. injection E as -> _. discriminate H. Qed.

(** A text without brackets that starts inside the mask ends inside it. *)
Lemma inside_mask a d w b t :
  mask = a +:+ d → d ≠ "" → d +:+ t = w +:+ b → w ≠ "" → forall_str no_bracket w = true →
  ∃ u v, core = u +:+ w +:+ v.
Proof.
  intros Ea Hd E Hw Hb. destruct a as [|c a].
  - change (mask = d) in Ea. subst d. symmetry in E. by apply no_bracket_open in E.
  - change (String "[" (core +:+ "]") = String c (a +:+ d)) in Ea. injection Ea as <- Ea.
    apply app_split_str in Ea as [(d' & -> & ->)|(d' & Hd' & -> & Ed)].
    + rewrite <-app_assoc_str in E. apply app_split_str in E as [(e & -> & ->)|(e & He & -> & Ee)]; [by exists a, e|].
      rewrite forall_str_app in Hb. apply andb_true_iff in Hb as [_ Hb]. symmetry in Ee.
      by apply (no_bracket_close e b Hb) in Ee.
    + destruct d' as [|c' d']; [done|]. injection Ed as <- Ed. destruct d'; [by destruct d|done].
Qed.

Lemma lacks_infix u w v : core = u +:+ w +:+ v → exists_str f w = false.
Proof.
  intros E. pose proof core_lacks as H. rewrite E in H. unfold exists_str in *. rewrite !forall_str_app in H.
  apply negb_false_iff in H. apply andb_true_iff in H as [_ [H _]%andb_true_iff]. by rewrite H.
Qed.

Lemma unmask p s l : scanned r p s l → ∀ po a w b y,
  (boundary po s = true → boundary p s = true) → render mask l = a +:+ w +:+ b →
  matches X (St (last_of po a) (w +:+ b) []) y → rst y = b → w ≠ "" →
  ∃ a' b' y', s = a' +:+ w +:+ b' ∧ matches X (St (last_of p a') (w +:+ b') []) y' ∧
    ∀ z, ¬ matches r (St (last_of p a') (w +:+ b') []) z.
Proof.
  induction 1 as [p|p c s l Hc Hs IH|p u s x l Hm <- Hu Hs IH]; intros po a w b y Hpo E HX <- Hw.
  - destruct a as [|]; [|done]. destruct w; [done|]. discriminate E.
  - destruct a as [|d a].
    + change (String c (render mask l) = w +:+ rst y) in E. pose proof (matches_within _ _ _ _ HX X_plain w eq_refl) as Hb.
      destruct w as [|d w]; [done|]. rewrite app_cons_str in E. injection E as <- E. cbn in Hb.
      apply andb_true_iff in Hb as [_ Hb]. destruct (unmask_front _ _ _ Hs w (rst y) E Hb) as (b' & -> & He).
      exists "", b', (St (last_of p (String c w)) b' (grp y)). split; [done|]. split; [|exact Hc].
      apply (matches_moves X _ _ HX X_local (String c w) p b' eq_refl).
      intros _. apply carries_edges; [done|exact Hpo|]. cbn [prv]. rewrite (last_of_cons po), (last_of_cons p). exact He.
    + change (String c (render mask l) = String d (a +:+ w +:+ rst y)) in E. injection E as <- E.
      rewrite last_of_cons in HX. destruct (IH (Some c) a w (rst y) y) as (a' & b' & y' & -> & H1 & H2); try done.
      exists (String c a'), b', y'. by rewrite !last_of_cons.
  - change (mask +:+ render mask l = a +:+ w +:+ rst y) in E.
    pose proof (matches_within _ _ _ _ HX X_plain w eq_refl) as Hb.
    pose proof (matches_needs f _ _ _ HX X_needs w eq_refl) as Hn.
    assert (∃ a2, a = mask +:+ a2 ∧ render mask l = a2 +:+ w +:+ rst y) as (a2 & -> & E2).
    { apply app_split_str in E as [(d & Ed & E)|(d & Hd & Ed & E)]; [|by exists d].
      destruct (decide (d = "")) as [->|Hd].
      - exists "". rewrite app_nil_r_str in *. by split.
      - symmetry in E. destruct (inside_mask a d w (rst y) _ Ed Hd E Hw Hb) as (u1 & v1 & Ec).
        by rewrite (lacks_infix _ _ _ Ec) in Hn. }
    rewrite last_of_app in HX.
    assert (∀ q, last_of q mask = Some "]"%char) as Em.
    { intros q. unfold mask. by rewrite !last_of_app. }
    rewrite Em in HX. destruct (IH (Some "]"%char) a2 w (rst y) y) as (a' & b' & y' & -> & H1 & H2); try done.
    { intros _. by apply (matches_ends _ _ _ Hm). }
    destruct (matches_window _ _ _ Hm) as (u' & Eu & Pu). cbn [rst prv] in Eu, Pu. apply app_inv_str in Eu as <-.
    exists (u +:+ a'), b', y'. rewrite <-app_assoc_str, last_of_app, <-Pu. by split_and!.
Qed.

Hypothesis r_nonempty : (0 < min_len r)%nat.
Hypothesis X_nonempty : (0 < min_len X)%nat.

(** No match of [X] remains, where there was none or [X] is what was masked. *)
Lemma mask_nowhere s : nowhere X None s ∨ X = r → nowhere X None (sub r mask s).
Proof.
  intros H a t y Et HX. destruct (matches_window _ _ _ HX) as (w & Ew & _). cbn [rst] in Ew.
  pose proof (matches_min_len _ _ _ HX) as Hl. cbn [rst] in Hl. subst t.
  destruct (unmask None s (segments r s) (segments_scanned r s r_nonempty) None a w (rst y) y) as (a' & b' & y' & -> & H1 & H2);
    try done.
  - intros ->. cbn in Hl. rewrite length_app_str in Hl. cbn in Hl. lia.
  - destruct H as [H| ->]; [by apply (H a' _ y' eq_refl)|by apply H2 in H1].
Qed.
End Mask.
