(* ===== verification/DocIngest.v ===== *)
(** * Ingestion of PDF documents for questions

    [kairo/docintel/ingest.py]: the checks on the file, the loop over the
    pages, the chunks of a page and their boxes.  What the library [pdfplumber]
    finds on a page is an argument: its text, its words with their coordinates
    ([None] when it cannot list them) and its size.  The coordinates of a word
    are floats.  Offsets count characters. *)

From S2P Require Import Prelude PyStr PyText PyFloat PyDict Json JsonRead Sha256.

(** ** Data *)

Definition box : Type := f64 * f64 * f64 * f64.

Record ChunkMeta := {
  k_chunk_id : string; k_page : Z; k_text : string; k_bbox : box; k_char_start : nat; k_char_end : nat }.

Record IngestResult := {
  i_doc_id : string; i_source_path : string; i_sha256 : string; i_page_count : Z;
  i_chunks : list ChunkMeta; i_page_texts : list (Z * string) }.

(** [pdfplumber]'s words and pages *)
Record word := { w_text : string; w_x0 : f64; w_top : f64; w_x1 : f64; w_bottom : f64 }.
Record pdf_page := { p_text : option string; p_words : option (list word); p_width : f64; p_height : f64 }.

Definition CHUNK_SIZE : nat := 500.
Definition CHUNK_OVERLAP : nat := 50.

(** ** The box of a chunk *)

Definition whole_page : box := (f0, f0, f1, f1).

(** The extent of the words seen so far. *)
Record extent := { min_x0 : f64; min_y0 : f64; max_x1 : f64; max_y1 : f64; seen : bool }.
Definition inf : f64 := S754_infinity false.
Definition empty_extent : extent := {| min_x0 := inf; min_y0 := inf; max_x1 := fopp inf; max_y1 := fopp inf; seen := false |}.

Definition extend (e : extent) (w : word) : extent :=
  {| min_x0 := fmin (min_x0 e) (w_x0 w); min_y0 := fmin (min_y0 e) (w_top w);
     max_x1 := fmax (max_x1 e) (w_x1 w); max_y1 := fmax (max_y1 e) (w_bottom w); seen := true |}.

Definition nth_char (n : nat) (s : string) : option ascii := chars s !! n.

Fixpoint words_extent (from to : nat) (text : string) (words : list word) (pos : nat) (e : extent) : extent :=
  match words with
  | [] => e
  | w :: words' =>
      let word_end := (pos + String.length (w_text w))%nat in
      let e := if (pos <? to)%nat && (from <? word_end)%nat then extend e w else e in
      let pos := if bool_decide (nth_char word_end text = Some " "%char) then S word_end else word_end in
      words_extent from to text words' pos e
  end.

Definition clamp (x : f64) : f64 := fmax f0 (fmin x f1).

Definition compute_bbox (from to : nat) (text : string) (words : list word) (width height : f64) : box :=
  match words with
  | [] => whole_page
  | _ =>
      let e := words_extent from to text words 0 empty_extent in
      if negb (seen e) || feq (min_x0 e) inf then whole_page
      else (clamp (min_x0 e / width)%f64, clamp (min_y0 e / height)%f64,
            clamp (max_x1 e / width)%f64, clamp (max_y1 e / height)%f64)
  end.

(** ** The chunks of a page *)

Definition is_break (c : ascii) : bool := bool_decide (c ∈ [" "%char; "010"%char; "009"%char]).
Fixpoint to_break (s : string) : nat :=
  match s with "" => 0 | String c s' => if is_break c then 0 else S (to_break s') end.

(** Where a chunk that starts at [start] ends, and where the next one starts. *)
Definition chunk_end (text : string) (start : nat) : nat :=
  let e := Nat.min (start + CHUNK_SIZE) (String.length text) in
  if (e <? String.length text)%nat then (e + to_break (drop_str e text))%nat else e.
Definition next_start (start e : nat) : nat :=
  if (e <=? start + CHUNK_OVERLAP)%nat then e else (e - CHUNK_OVERLAP)%nat.

Section Chunks.
Variables (text : string) (page : Z) (words : list word) (width height : f64).

Definition chunk_of (idx start : nat) : list ChunkMeta :=
  let e := chunk_end text start in
  let chunk_text := strip (slice start e text) in
  if truthy chunk_text then
    [{| k_chunk_id := pretty page +:+ "_" +:+ pretty idx; k_page := page; k_text := chunk_text;
        k_bbox := compute_bbox start e text words width height; k_char_start := start; k_char_end := e |}]
  else [].

(** [while start < text_len]; [None] when the rounds do not suffice. *)
Fixpoint chunk_loop (fuel idx start : nat) : option (list ChunkMeta) :=
  if (start <? String.length text)%nat then
    match fuel with
    | O => None
    | S n =>
        let new := chunk_of idx start in
        rest ← chunk_loop n (idx + length new) (next_start start (chunk_end text start));
        Some (new ++ rest)
    end
  else Some [].

(** As many rounds as the text has characters, which are enough. *)
Definition chunk_text : list ChunkMeta :=
  if negb (truthy (strip text)) then [] else default [] (chunk_loop (String.length text) 0 0).
End Chunks.

(** ** The document *)

Definition page_width (p : pdf_page) : f64 := if feq (p_width p) f0 then of_Z 612 else p_width p.
Definition page_height (p : pdf_page) : f64 := if feq (p_height p) f0 then of_Z 792 else p_height p.
Definition page_text (p : pdf_page) : string := default "" (p_text p).

Definition page_chunks (n : Z) (p : pdf_page) : list ChunkMeta :=
  if truthy (strip (page_text p))
  then chunk_text (page_text p) n (default [] (p_words p)) (page_width p) (page_height p) else [].

Fixpoint pages_chunks (n : Z) (pages : list pdf_page) : list ChunkMeta :=
  match pages with [] => [] | p :: pages' => page_chunks n p ++ pages_chunks (n + 1) pages' end.
Definition pages_texts (pages : list pdf_page) : list (Z * string) := imap (λ i p, (Z.of_nat i + 1, page_text p)) pages.

(** The typed failures, and whether they are recoverable. *)
Inductive IngestError := Not_found | Not_a_pdf | Unreadable | No_library | Zero_pages | Parsing_failed | No_text.
Definition recoverable (e : IngestError) : bool := match e with Parsing_failed | No_text => true | _ => false end.

(** A path as [pathlib] and the file system see it; [content] is [None] when
    reading fails. *)
Record file := { path : string; name : string; suffix : string; exists_ : bool; content : option bytes }.

(** [open_pdf] is [pdfplumber], [None] when it is not installed: the pages of
    the file, or an exception from anywhere in the parsing. *)
Definition ingest (open_pdf : option (bytes → result (list pdf_page))) (f : file) : IngestError + IngestResult :=
  if negb (exists_ f) then inl Not_found
  else if negb (bool_decide (lower (suffix f) = ".pdf")) then inl Not_a_pdf
  else match content f, open_pdf with
  | None, _ => inl Unreadable
  | Some _, None => inl No_library
  | Some b, Some parse =>
      let sha := sha256_hex b in
      let doc_id := take_str 16 (sha256_hex (utf8 (name f +:+ ":" +:+ sha))) in
      match parse b with
      | Raise _ => inl Parsing_failed
      | Ok pages =>
          if bool_decide (length pages = 0%nat) then inl Zero_pages
          else match pages_chunks 1 pages with
          | [] => inl No_text
          | chunks => inr {| i_doc_id := doc_id; i_source_path := path f; i_sha256 := sha;
              i_page_count := Z.of_nat (length pages); i_chunks := chunks; i_page_texts := pages_texts pages |}
          end
      end
  end.

(** ** The loop over a page *)

Lemma to_break_le s : (to_break s ≤ String.length s)%nat.
Proof. induction s as [|c s IH]; cbn; [lia|]. destruct (is_break c); lia. Qed.

Lemma chunk_end_bounds text start : (start < String.length text)%nat →
  (start < chunk_end text start ≤ String.length text)%nat ∧
  (chunk_end text start = String.length text ∨ start + CHUNK_SIZE ≤ chunk_end text start)%nat.
Proof.
  intros Hs. unfold chunk_end. assert (CHUNK_SIZE = 500)%nat as E by reflexivity.
  pose proof (to_break_le (drop_str (start + CHUNK_SIZE `min` String.length text) text)) as Hb.
  pose proof (to_break_le (drop_str (Nat.min (start + CHUNK_SIZE) (String.length text)) text)) as Hb'.
  rewrite length_drop_str in Hb'. destruct (Nat.ltb_spec (Nat.min (start + CHUNK_SIZE) (String.length text)) (String.length text)); lia.
Qed.

Lemma next_start_bounds text start : (start < String.length text)%nat →
  let e := chunk_end text start in (start < next_start start e ≤ e)%nat ∧
  (e = String.length text ∨ next_start start e + CHUNK_OVERLAP = e)%nat.
Proof.
  intros Hs. destruct (chunk_end_bounds text start Hs) as [H1 H2]. unfold next_start.
  assert (CHUNK_SIZE = 500 ∧ CHUNK_OVERLAP = 50)%nat as [E1 E2] by done.
  destruct (Nat.leb_spec (chunk_end text start) (start + CHUNK_OVERLAP)); lia.
Qed.

Lemma truthy_length s : truthy s = true ↔ s ≠ "".
Proof. apply truthy_spec. Qed.

Lemma fle_clamp x : fle f0 (clamp x) = true ∧ fle (clamp x) f1 = true.
Proof.
  unfold clamp, fmax. destruct (flt f0 (fmin x f1)) eqn:E; [|done]. split; [by apply flt_le|].
  unfold fmin in *. destruct (flt f1 x) eqn:E1; [done|]. apply flt_key in E as (_ & N & _). by apply flt_nge.
Qed.

(** The box of a chunk lies on the page, whatever the words are. *)
Definition on_page (b : box) : Prop :=
  let '(bx0, by0, bx1, by1) := b in Forall (λ x, fle f0 x = true ∧ fle x f1 = true) [bx0; by0; bx1; by1].

Lemma whole_on_page : on_page whole_page.
Proof. repeat constructor. Qed.

Lemma compute_bbox_on_page from to text words w h : on_page (compute_bbox from to text words w h).
Proof.
  unfold compute_bbox. destruct words; [apply whole_on_page|]. destruct (_ || _); [apply whole_on_page|].
  repeat constructor; apply fle_clamp.
Qed.

Section Page.
Variables (text : string) (page : Z) (words : list word) (width height : f64).
Abbreviation loop := (chunk_loop text page words width height).
Abbreviation chunk := (chunk_of text page words width height).

(** The fuel is enough: the loop ends because every round moves on. *)
Lemma chunk_loop_total n : ∀ idx start, (String.length text - start ≤ n)%nat → ∃ l, loop n idx start = Some l.
Proof.
  induction n as [|n IH]; intros idx start Hn; cbn [chunk_loop]; destruct (Nat.ltb_spec start (String.length text)) as [Hs|]; try by eexists.
  - lia.
  - destruct (next_start_bounds text start Hs) as [? _].
    destruct (IH (idx + length (chunk idx start))%nat (next_start start (chunk_end text start))) as [l ->]; [lia|]. by eexists.
Qed.

Lemma chunk_loop_fuel n : ∀ m idx start, (String.length text - start ≤ n)%nat → (n ≤ m)%nat →
  loop m idx start = loop n idx start.
Proof.
  induction n as [|n IH]; intros [|m] idx start Hn Hm; cbn [chunk_loop]; try done; try lia.
  - destruct (Nat.ltb_spec start (String.length text)); [lia|done].
  - destruct (Nat.ltb_spec start (String.length text)) as [Hs|]; [|done].
    destruct (next_start_bounds text start Hs) as [? _]. rewrite (IH m); [done|lia..].
Qed.

(** What a chunk of the loop is. *)
Lemma chunk_loop_elem n : ∀ idx start l k, loop n idx start = Some l → k ∈ l →
  ∃ i s, (idx ≤ i)%nat ∧ (s < String.length text)%nat ∧ chunk i s = [k].
Proof.
  induction n as [|n IH]; intros idx start l k; cbn [chunk_loop];
    (destruct (Nat.ltb_spec start (String.length text)) as [Hs|]; [|intros [= <-] ?%not_elem_of_nil; done]); [done|].
  destruct (loop n _ _) as [rest|] eqn:E; [|done]. cbn [mbind option_bind]. intros [= <-] [Hk|Hk]%elem_of_app.
  - exists idx, start. split; [lia|]. split; [done|]. unfold chunk_of in *. destruct (truthy _); [|by apply not_elem_of_nil in Hk].
    by apply list_elem_of_singleton in Hk as ->.
  - destruct (IH _ _ _ _ E Hk) as (i & s & Hi & H). exists i, s. split; [lia|done].
Qed.

Lemma chunk_loop_ids n : ∀ idx start l, loop n idx start = Some l → NoDup (map k_chunk_id l).
Proof.
  induction n as [|n IH]; intros idx start l; cbn [chunk_loop]; (destruct (_ <? _)%nat; [|intros [= <-]; constructor]); [done|].
  destruct (loop n _ _) as [rest|] eqn:E; [|done]. cbn [mbind option_bind]. intros [= <-]. pose proof (IH _ _ _ E) as Hr.
  unfold chunk_of in E |- *. destruct (truthy _); cbn [app map length] in *; [|done]. constructor; [|done].
  intros (k & Ek & Hk)%list_elem_of_fmap. destruct (chunk_loop_elem _ _ _ _ _ E Hk) as (i & s & Hi & _ & Hc).
  unfold chunk_of in Hc. destruct (truthy _); [|done]. injection Hc as <-. cbn [k_chunk_id] in Ek.
  rewrite !app_assoc_str in Ek. apply app_inj_str in Ek as [_ Ek]; [|done]. apply (inj pretty) in Ek. lia.
Qed.

(** A window of the text that is at most one longer than the overlap lies in
    the range of a chunk. *)
Lemma chunk_loop_window n : ∀ idx start i j l, loop n idx start = Some l →
  (start ≤ i < j)%nat → (j ≤ String.length text)%nat → (j ≤ i + S CHUNK_OVERLAP)%nat →
  ∃ id s, (s ≤ i)%nat ∧ (j ≤ chunk_end text s)%nat ∧ ∀ k, k ∈ chunk id s → k ∈ l.
Proof.
  induction n as [|n IH]; intros idx start i j l; cbn [chunk_loop];
    (destruct (Nat.ltb_spec start (String.length text)) as [Hs|]; [|intros _; lia]); [done|].
  destruct (next_start_bounds text start Hs) as [Hb Hov].
  destruct (loop n _ _) as [rest|] eqn:E; [|done]. cbn [mbind option_bind]. intros [= <-] Hi Hj Hw.
  destruct (decide (j ≤ chunk_end text start)%nat) as [He|He].
  - exists idx, start. split; [lia|]. split; [done|]. intros k Hk. apply elem_of_app. by left.
  - destruct (IH _ _ i j _ E) as (id & s & H1 & H2 & H3); [lia..|].
    exists id, s. split; [done|]. split; [done|]. intros k Hk. apply elem_of_app. right. by apply H3.
Qed.
End Page.

(** ** The promise of the chunks *)

Lemma infix_nonempty q s : infix_of q s → q ≠ "" → s ≠ "".
Proof. intros (x & y & ->) Hq E. apply (f_equal String.length) in E. rewrite !length_app_str in E. destruct q; [done|]. cbn in E. lia. Qed.

Lemma chunk_of_elem text page words w h id s k : k ∈ chunk_of text page words w h id s →
  k_page k = page ∧ k_text k = strip (slice s (chunk_end text s) text) ∧ k_text k ≠ "" ∧ on_page (k_bbox k) ∧
  k_char_start k = s ∧ k_char_end k = chunk_end text s ∧ k_chunk_id k = pretty page +:+ "_" +:+ pretty id.
Proof.
  unfold chunk_of. destruct (truthy _) eqn:E; [|by intros ?%not_elem_of_nil]. intros ->%list_elem_of_singleton.
  split_and!; try done; [by apply truthy_spec|apply compute_bbox_on_page].
Qed.

(** C35.  The loop ends.  Every round moves the start forward and not past the
    text, whether it has emitted a chunk or not; so with as many rounds as the
    text has characters, or more, the loop leaves by its own condition, and
    what it has collected then is what [chunk_text] returns for a text that is
    not blank. *)
Theorem chunking_terminates text page words w h n : (String.length text ≤ n)%nat →
  (∀ start, (start < String.length text)%nat →
     (start < next_start start (chunk_end text start) ≤ String.length text)%nat) ∧
  ∃ l, chunk_loop text page words w h n 0 0 = Some l ∧
    chunk_text text page words w h = (if truthy (strip text) then l else []).
Proof.
  intros Hn. split.
  - intros start Hs. destruct (next_start_bounds text start Hs) as [[? ?] _]. destruct (chunk_end_bounds text start Hs). lia.
  - destruct (chunk_loop_total text page words w h (String.length text) 0 0 ltac:(lia)) as [l Hl]. exists l.
    rewrite (chunk_loop_fuel _ _ _ _ _ (String.length text)) by lia. split; [done|]. unfold chunk_text. rewrite Hl. by destruct (truthy _).
Qed.

Lemma chunk_text_window text page words w h q : infix_of q text → stripped q → q ≠ "" →
  (String.length q ≤ S CHUNK_OVERLAP)%nat → ∃ k, k ∈ chunk_text text page words w h ∧ infix_of q (k_text k).
Proof.
  intros Hq Hs Hn Hl. unfold chunk_text. assert (truthy (strip text) = true) as ->.
  { apply truthy_spec. eapply infix_nonempty; [by apply strip_keeps|done]. }
  cbn [negb]. destruct Hq as (a & b & E). assert (0 < String.length q)%nat by (destruct q; [done|cbn; lia]).
  assert (String.length text = String.length a + (String.length q + String.length b))%nat as El by (by rewrite E, !length_app_str).
  destruct (chunk_loop_total text page words w h (String.length text) 0 0 ltac:(lia)) as [ks Hks]. rewrite Hks. cbn [default from_option].
  destruct (chunk_loop_window text page words w h (String.length text) 0 0 (String.length a) (String.length a + String.length q) ks Hks)
    as (id & s & H1 & H2 & H3); [lia..|].
  assert (infix_of q (strip (slice s (chunk_end text s) text))) as Hi.
  { apply strip_keeps; [|done|done]. rewrite E at 2. by apply infix_slice. }
  unfold chunk_of in H3. rewrite (proj2 (truthy_spec _)) in H3 by (eapply infix_nonempty; [exact Hi|done]).
  eexists. split; [apply H3; by left|]. exact Hi.
Qed.

Lemma chunk_text_elem text page words w h k : k ∈ chunk_text text page words w h →
  k_page k = page ∧ infix_of (k_text k) text ∧ k_text k ≠ "" ∧ on_page (k_bbox k) ∧
  (k_char_start k < k_char_end k ≤ String.length text)%nat ∧
  k_text k = strip (slice (k_char_start k) (k_char_end k) text) ∧ ∃ id : nat, k_chunk_id k = pretty page +:+ "_" +:+ pretty id.
Proof.
  unfold chunk_text. destruct (negb _); [by intros ?%not_elem_of_nil|].
  destruct (chunk_loop _ _ _ _ _ _ 0 0) as [l|] eqn:El; [|by intros ?%not_elem_of_nil]. cbn [default from_option]. intros Hk0.
  destruct (chunk_loop_elem _ _ _ _ _ _ _ _ _ _ El Hk0) as (id & s & _ & Hs & Hc). assert (k ∈ chunk_of text page words w h id s) as Hk by (rewrite Hc; by left).
  apply chunk_of_elem in Hk as (H1 & H2 & H3 & H4 & H5 & H6 & H7). destruct (chunk_end_bounds text s Hs) as [Hb _].
  rewrite H5, H6. split; [done|]. split; [|split; [done|split; [done|split; [lia|split; [done|by exists id]]]]].
  rewrite H2. eapply infix_trans; [apply infix_strip|]. apply infix_of_slice.
Qed.

Lemma chunk_text_ids text page words w h : NoDup (map k_chunk_id (chunk_text text page words w h)).
Proof.
  unfold chunk_text. destruct (negb _); [constructor|]. destruct (chunk_loop _ _ _ _ _ _ 0 0) eqn:E; [by eapply chunk_loop_ids|constructor].
Qed.

(** ** The promise of the document *)

Definition page_at (pages : list pdf_page) (first n : Z) (p : pdf_page) : Prop := ∃ i : nat, pages !! i = Some p ∧ n = first + Z.of_nat i.

Lemma page_at_cons p pages first n q : page_at (p :: pages) first n q ↔ (q = p ∧ n = first) ∨ page_at pages (first + 1) n q.
Proof.
  split.
  - intros ([|i] & Hi & ->); [injection Hi as <-; left; split; [done|lia]|right; exists i; split; [done|lia]].
  - intros [[-> ->]|(i & Hi & ->)]; [exists 0%nat; split; [done|lia]|exists (S i); split; [done|lia]].
Qed.

Lemma pages_chunks_elem pages : ∀ first k, k ∈ pages_chunks first pages ↔ ∃ n p, page_at pages first n p ∧ k ∈ page_chunks n p.
Proof.
  induction pages as [|p pages IH]; intros first k; cbn [pages_chunks].
  { split; [by intros ?%not_elem_of_nil|intros (n & p & ([|i] & Hi & _) & _); done]. }
  rewrite elem_of_app, IH. setoid_rewrite page_at_cons. naive_solver.
Qed.

Lemma pages_texts_elem pages n t : (n, t) ∈ pages_texts pages ↔ ∃ p, page_at pages 1 n p ∧ t = page_text p.
Proof.
  unfold pages_texts. rewrite elem_of_lookup_imap. split.
  - intros (i & p & [= -> ->] & Hi). exists p. split; [|done]. exists i. split; [done|lia].
  - intros (p & (i & Hi & ->) & ->). exists i, p. split; [|done]. f_equal. lia.
Qed.

Lemma ingest_inr open_pdf f r : ingest open_pdf f = inr r →
  ∃ pages, i_chunks r = pages_chunks 1 pages ∧ i_page_texts r = pages_texts pages ∧ i_chunks r ≠ [] ∧
    i_page_count r = Z.of_nat (length pages).
Proof.
  unfold ingest. destruct (negb _); [done|]. destruct (negb _); [done|]. destruct (content f) as [b|], open_pdf as [parse|]; try done.
  destruct (parse b) as [pages|]; [|done]. destruct (bool_decide _); [done|].
  destruct (pages_chunks 1 pages) as [|k ks] eqn:E; [done|]. intros [= <-]. exists pages. by rewrite E.
Qed.

Lemma digits_join u v a b : forall_str is_digit u = true → forall_str is_digit v = true →
  u +:+ String "_" a = v +:+ String "_" b → u = v ∧ a = b.
Proof.
  revert v. induction u as [|c u IH]; intros [|d v] Hu Hv; rewrite ?app_nil_l_str, ?app_cons_str; cbn [forall_str] in *.
  - by intros [= ->].
  - intros [= <- _]. done.
  - intros [= -> _]. done.
  - apply andb_true_iff in Hu as [_ Hu], Hv as [_ Hv]. intros [= -> E]. by destruct (IH v Hu Hv E) as [-> ->].
Qed.

Lemma ingested_chunk open_pdf f r k : ingest open_pdf f = inr r → k ∈ i_chunks r →
  ∃ t, (k_page k, t) ∈ i_page_texts r ∧ infix_of (k_text k) t ∧ k_text k ≠ "" ∧ on_page (k_bbox k) ∧
    k_text k = strip (slice (k_char_start k) (k_char_end k) t).
Proof.
  intros (pages & -> & -> & _)%ingest_inr (n & p & Hp & Hk)%pages_chunks_elem. exists (page_text p). unfold page_chunks in Hk.
  destruct (truthy _); [|by apply not_elem_of_nil in Hk].
  apply chunk_text_elem in Hk as (-> & H1 & H2 & H3 & _ & H4 & _). split; [apply pages_texts_elem; by exists p|done].
Qed.

(** What was ingested is the document: every chunk lies on a page of it, is a
    non-empty piece of the text recorded for that page, and has a box on that
    page; and a quotation of the page of at most 51 characters, one more than
    the overlap, that does not begin or end with white space is whole in some
    chunk of the page. *)
Theorem ingest_faithful open_pdf f r : ingest open_pdf f = inr r →
  i_chunks r ≠ [] ∧
  (∀ k, k ∈ i_chunks r → ∃ t, (k_page k, t) ∈ i_page_texts r ∧ infix_of (k_text k) t ∧ k_text k ≠ "" ∧ on_page (k_bbox k) ∧
     k_text k = strip (slice (k_char_start k) (k_char_end k) t)) ∧
  (∀ n t q, (n, t) ∈ i_page_texts r → infix_of q t → stripped q → q ≠ "" → (String.length q ≤ S CHUNK_OVERLAP)%nat →
     ∃ k, k ∈ i_chunks r ∧ k_page k = n ∧ infix_of q (k_text k)).
Proof.
  intros Hi. pose proof (λ k, ingested_chunk open_pdf f r k Hi) as Hc. apply ingest_inr in Hi as (pages & Ek & Et & Hne & _).
  split; [done|]. split; [exact Hc|]. rewrite Ek, Et.
  intros n t q (p & Hp & ->)%pages_texts_elem Hq Hs Hn Hl.
  destruct (chunk_text_window (page_text p) n (default [] (p_words p)) (page_width p) (page_height p) q) as (k & Hk & Hi); [done..|].
  exists k. split; [|split; [by apply chunk_text_elem in Hk as (-> & _)|done]]. apply pages_chunks_elem. exists n, p. split; [done|].
  unfold page_chunks. rewrite (proj2 (truthy_spec _)); [done|]. eapply infix_nonempty; [by apply strip_keeps|done].
Qed.

Lemma page_chunks_ids n p k : k ∈ page_chunks n p → ∃ id : nat, k_chunk_id k = pretty n +:+ "_" +:+ pretty id.
Proof.
  unfold page_chunks. destruct (truthy _); [|by intros ?%not_elem_of_nil].
  by intros (_ & _ & _ & _ & _ & _ & H)%chunk_text_elem.
Qed.

Lemma pages_chunks_ids pages : ∀ first, 0 ≤ first → NoDup (map k_chunk_id (pages_chunks first pages)).
Proof.
  induction pages as [|p pages IH]; intros first Hf; cbn [pages_chunks]; [constructor|]. rewrite map_app. apply NoDup_app.
  split; [unfold page_chunks; destruct (truthy _); [apply chunk_text_ids|constructor]|]. split; [|apply IH; lia].
  intros i (k & -> & Hk)%list_elem_of_fmap (k' & E & Hk')%list_elem_of_fmap.
  apply page_chunks_ids in Hk as (id & Hk). apply pages_chunks_elem in Hk' as (n & q & (j & _ & ->) & (id' & Hk')%page_chunks_ids).
  rewrite Hk, Hk' in E. destruct (digits_join (pretty first) (pretty (first + 1 + Z.of_nat j)) (pretty id) (pretty id')) as [E' _];
    [apply pretty_digits; lia|apply pretty_digits; lia|done|]. apply (inj pretty) in E'. lia.
Qed.

(** No two chunks of a document have the same identifier. *)
Theorem ingest_ids_unique open_pdf f r : ingest open_pdf f = inr r → NoDup (map k_chunk_id (i_chunks r)).
Proof. intros (pages & -> & _)%ingest_inr. by apply pages_chunks_ids. Qed.

(** Failures are typed: one is recoverable exactly when a readable PDF file
    was given to the library, and the parsing failed or found no text on its
    pages. *)
Theorem ingest_recoverable open_pdf f e : ingest open_pdf f = inl e →
  recoverable e = true ↔ ∃ b parse, exists_ f = true ∧ lower (suffix f) = ".pdf" ∧ content f = Some b ∧ open_pdf = Some parse ∧
    (is_ok (parse b) = false ∨ ∃ pages, parse b = Ok pages ∧ pages ≠ [] ∧ pages_chunks 1 pages = []).
Proof.
  unfold ingest. destruct (exists_ f) eqn:Ef; cbn [negb]; [|intros [= <-]; naive_solver].
  destruct (bool_decide (lower (suffix f) = ".pdf")) eqn:Es; bool_prop; cbn [negb]; [|intros [= <-]; naive_solver].
  destruct (content f) as [b|], open_pdf as [parse|]; try (intros [= <-]; naive_solver).
  destruct (parse b) as [pages|x] eqn:Ep.
  - destruct (bool_decide (length pages = 0%nat)) eqn:El; bool_prop.
    + intros [= <-]. apply nil_length_inv in El as ->. split; [done|]. intros (b' & p' & _ & _ & [= <-] & [= <-] & [H|(l & H & H' & _)]);
        rewrite Ep in H; [done|congruence].
    + destruct (pages_chunks 1 pages) eqn:Ec; [|done]. intros [= <-]. split; [|done]. intros _. exists b, parse. split_and!; try done.
      right. exists pages. split; [done|]. split; [by intros ->|done].
  - intros [= <-]. split; [|done]. intros _. exists b, parse. split_and!; try done. left. by rewrite Ep.
Qed.

(** ** A document of one page *)

Definition demo_words : list word :=
  [{| w_text := "Rent"; w_x0 := of_Z 61; w_top := of_Z 79; w_x1 := of_Z 100; w_bottom := of_Z 90 |};
   {| w_text := "is"; w_x0 := of_Z 105; w_top := of_Z 79; w_x1 := of_Z 700; w_bottom := of_Z 90 |}].
Definition demo_page : pdf_page :=
  {| p_text := Some "Rent is 900 euros. It is due on the first."; p_words := Some demo_words; p_width := f0; p_height := f0 |}.
Definition demo_parse : option (bytes → result (list pdf_page)) := Some (λ _, Ok [demo_page]).
Definition demo_file : file := {| path := "/in/lease.PDF"; name := "lease.PDF"; suffix := ".PDF"; exists_ := true; content := Some "%PDF" |}.
Definition demo_chunk : ChunkMeta :=
  {| k_chunk_id := "1_0"; k_page := 1; k_text := "Rent is 900 euros. It is due on the first.";
     k_bbox := (of_Z 61 / of_Z 612, of_Z 79 / of_Z 792, f1, of_Z 90 / of_Z 792)%f64; k_char_start := 0; k_char_end := 42 |}.
Definition demo_ingested : IngestResult :=
  {| i_doc_id := take_str 16 (sha256_hex (utf8 ("lease.PDF:" +:+ sha256_hex "%PDF"))); i_source_path := "/in/lease.PDF"; i_sha256 := sha256_hex "%PDF"; i_page_count := 1;
     i_chunks := [demo_chunk]; i_page_texts := [(1, "Rent is 900 euros. It is due on the first.")] |}.

Lemma demo_ingests : ingest demo_parse demo_file = inr demo_ingested.
Proof. vm_compute. reflexivity. Qed.

Lemma chunking_terminates_witness : ∃ l, chunk_loop "Rent is due" 1 [] f1 f1 100 0 0 = Some l ∧ chunk_text "Rent is due" 1 [] f1 f1 = l.
Proof. exact (proj2 (chunking_terminates "Rent is due" 1 [] f1 f1 100 ltac:(vm_compute; lia))). Defined.

Lemma ingest_faithful_witness : ∃ k, k ∈ i_chunks demo_ingested ∧ k_page k = 1 ∧ infix_of "900 euros" (k_text k).
Proof.
  apply (proj2 (proj2 (ingest_faithful demo_parse demo_file demo_ingested demo_ingests)) 1 "Rent is 900 euros. It is due on the first.");
    [left|exists "Rent is ", ". It is due on the first."; reflexivity|reflexivity|discriminate|vm_compute; lia].
Defined.

Lemma ingest_ids_unique_witness : NoDup (map k_chunk_id (i_chunks demo_ingested)).
Proof. exact (ingest_ids_unique demo_parse demo_file demo_ingested demo_ingests). Defined.

Lemma ingest_recoverable_witness : recoverable No_text = true ↔ ∃ b parse, exists_ demo_file = true ∧
    lower (suffix demo_file) = ".pdf" ∧ content demo_file = Some b ∧
    Some (λ _ : bytes, Ok [{| p_text := None; p_words := None; p_width := f0; p_height := f0 |}]) = Some parse ∧
    (is_ok (parse b) = false ∨ ∃ pages, parse b = Ok pages ∧ pages ≠ [] ∧ pages_chunks 1 pages = []).
Proof. apply (ingest_recoverable _ demo_file No_text). vm_compute. reflexivity. Defined.
