(* ===== verification/Compressor.v ===== *)
(** * The context compressor

    [kairo/context/compressor.py]: overlapping chunks are merged, a
    third-party engine shortens the texts when it can be imported, repeated
    sentences are dropped when it leaves the texts alone.  The engine and its
    token counter are arguments that may raise; counts stay below 2^51, where
    Python's float arithmetic on them is exact.  [local_compressor] is the
    compressor as the pipeline sees it. *)

From S2P Require Import Prelude PyStr PyFloat PyDict Json DataModel QualityGate MemoryStore Provenance Grounding Orchestrator.
From S2P Require Import Regex.

(** ** Statistics *)

Record CompressionStats := {
  tokens_before : Z; tokens_after : Z; tokens_saved : Z; reduction_pct : f64; chunks_before : Z; chunks_after : Z;
  transforms_applied : list string }.
Definition no_stats : CompressionStats :=
  {| tokens_before := 0; tokens_after := 0; tokens_saved := 0; reduction_pct := f0; chunks_before := 0; chunks_after := 0;
     transforms_applied := [] |}.

(** [round(x, 2)], as [round4] *)
Definition round2 (x : f64) : f64 :=
  match x with
  | S754_finite s m e =>
      let r := if 0 <=? e then Z.pos m * 2 ^ e * 100 else round_half_even (Z.pos m * 100) (2 ^ (- e)) in
      if r =? 0 then S754_zero s else let y := fdiv (of_Z r) (of_Z 100) in if s then fopp y else y
  | _ => x
  end.

Definition to_dict (s : CompressionStats) : dict :=
  [("tokens_before", JInt (tokens_before s)); ("tokens_after", JInt (tokens_after s)); ("tokens_saved", JInt (tokens_saved s));
   ("reduction_pct", JFloat (round2 (reduction_pct s))); ("chunks_before", JInt (chunks_before s));
   ("chunks_after", JInt (chunks_after s)); ("transforms_applied", JArr (map JStr (transforms_applied s)))].

(** ** Overlapping chunks *)

Definition area (b : BBox) : f64 := ((x1 b - x0 b) * (y1 b - y0 b))%f64.

Definition bbox_iou (b1 b2 : BBox) : f64 :=
  let inter_w := fmax f0 (fmin (x1 b1) (x1 b2) - fmax (x0 b1) (x0 b2))%f64 in
  let inter_h := fmax f0 (fmin (y1 b1) (y1 b2) - fmax (y0 b1) (y0 b2))%f64 in
  let inter_area := (inter_w * inter_h)%f64 in
  let union := (area b1 + area b2 - inter_area)%f64 in
  if fle union f0 then f0 else (inter_area / union)%f64.

Definition iou_threshold : f64 := lit 8 10.

Definition overlapping (threshold : f64) (current other : Chunk) : bool :=
  match c_bbox current, c_bbox other with
  | Some b, Some b' => (c_page current =? c_page other) && flt threshold (bbox_iou b b')
  | _, _ => false
  end.

Definition larger_bbox (b b' : option BBox) : option BBox :=
  match b, b' with
  | Some c, Some o => if flt (area c) (area o) then Some o else Some c
  | _, _ => b
  end.

Definition merge_two (current other : Chunk) : Chunk :=
  {| c_chunk_id := c_chunk_id current; c_doc_id := c_doc_id current; c_page := c_page current;
     c_bbox := larger_bbox (c_bbox current) (c_bbox other);
     c_text := c_text current +:+ String LF (c_text other); c_source_type := c_source_type current;
     c_embedding := c_embedding current |}.

(** The inner loop: what [current] takes of the later chunks, and the others. *)
Fixpoint absorb (threshold : f64) (current : Chunk) (later : list Chunk) : Chunk * list Chunk :=
  match later with
  | [] => (current, [])
  | other :: later' =>
      if overlapping threshold current other then absorb threshold (merge_two current other) later'
      else let '(c, rest) := absorb threshold current later' in (c, other :: rest)
  end.

(** The outer loop, over the chunks that are not [used]. *)
Fixpoint merge_loop (fuel : nat) (threshold : f64) (chunks : list Chunk) : list Chunk :=
  match fuel, chunks with
  | S n, c :: later => let '(c', rest) := absorb threshold c later in c' :: merge_loop n threshold rest
  | _, _ => []
  end.
Definition merge_overlapping_chunks (threshold : f64) (chunks : list Chunk) : list Chunk :=
  merge_loop (length chunks) threshold chunks.

(** ** Sentences *)

Definition sentence_end : re := compile "(?<=[.!?])\s+" no_flags.
Definition sentence_key (s : string) : string := lower (strip s).

Fixpoint keep_new (seen : list string) (sentences : list string) : list string :=
  match sentences with
  | [] => []
  | s :: l =>
      if truthy (sentence_key s) && negb (bool_decide (sentence_key s ∈ seen))
      then s :: keep_new (sentence_key s :: seen) l else keep_new seen l
  end.
Definition dedup_sentences (text : string) : string := join " " (keep_new [] (re_split sentence_end text)).

Section Engine.
(** [headroom]'s token counter and crusher, [None] when it cannot be imported.
    The crusher returns a text and, when it has modified it, its strategy. *)
Variable counter : option (string → result Z).
Variable crush : option (string → result (string * option string)).

Definition count_tokens (text : string) : Z :=
  let words := Z.max 1 (Z.of_nat (length (split text)) * 3 / 4) in
  match counter with
  | Some f => match f text with Ok n => n | Raise _ => words end
  | None => words
  end.
Definition total_tokens (texts : list string) : Z := fold_left (λ n t, n + count_tokens t) texts 0.

(** The texts that sentence deduplication shortens, each with a transform. *)
Definition dedup_text (text : string) : string * option string :=
  if (String.length (dedup_sentences text) <? String.length text)%nat
  then (dedup_sentences text, Some "kairo_sentence_dedup") else (text, None).

Definition compress_texts (texts : list string) : list string * list string :=
  match match crush with Some f => mapM_result f texts | None => raise "ImportError" "headroom" end with
  | Ok crushed =>
      let transforms := omap snd crushed in
      let '(texts, transforms) :=
        match transforms with
        | [] => let deduped := map (λ c, dedup_text c.1) crushed in (map fst deduped, omap snd deduped)
        | _ => (map fst crushed, transforms)
        end in
      (texts, match transforms with [] => ["passthrough"] | _ => transforms end)
  | Raise _ => (texts, ["fallback_passthrough"])
  end.

Definition with_text (c : Chunk) (text : string) : Chunk :=
  {| c_chunk_id := c_chunk_id c; c_doc_id := c_doc_id c; c_page := c_page c; c_bbox := c_bbox c; c_text := text;
     c_source_type := c_source_type c; c_embedding := c_embedding c |}.

Definition compress_document_chunks (chunks : list Chunk) : list Chunk * CompressionStats :=
  match chunks with
  | [] => ([], no_stats)
  | _ =>
      let merged := merge_overlapping_chunks iou_threshold chunks in
      let before := total_tokens (map c_text merged) in
      let '(texts, transforms) := compress_texts (map c_text merged) in
      let after := total_tokens texts in
      let compressed := zip_with with_text merged texts in
      let saved := before - after in
      (compressed,
       {| tokens_before := before; tokens_after := after; tokens_saved := saved;
          reduction_pct := if 0 <? before then (of_Z saved / of_Z before * of_Z 100)%f64 else f0;
          chunks_before := Z.of_nat (length chunks); chunks_after := Z.of_nat (length compressed);
          transforms_applied := transforms |})
  end.

Definition local_compressor : Compressor :=
  {| compress := Some (λ chunks, let '(cs, stats) := compress_document_chunks chunks in (cs, reduction_pct stats)) |}.
End Engine.

(** ** Lifetime totals *)

Record CompressionTotals := { runs : Z; before : Z; after : Z; saved : Z; last_run : option dict }.
Definition cleared : CompressionTotals := {| runs := 0; before := 0; after := 0; saved := 0; last_run := None |}.

Definition append (s : CompressionStats) (t : CompressionTotals) : CompressionTotals :=
  {| runs := runs t + 1; before := before t + tokens_before s; after := after t + tokens_after s;
     saved := saved t + tokens_saved s; last_run := Some (to_dict s) |}.

Definition snapshot (t : CompressionTotals) : dict :=
  [("total_runs", JInt (runs t)); ("total_tokens_before", JInt (before t)); ("total_tokens_after", JInt (after t));
   ("total_tokens_saved", JInt (saved t));
   ("avg_reduction_pct", JFloat (if 0 <? before t then round2 (of_Z (saved t) / of_Z (before t) * of_Z 100)%f64 else f0))] ++
  match last_run t with Some d => [("last_run", JObj d)] | None => [] end.

(** ** Merging loses nothing and invents nothing *)

Section Merge.
Variable threshold : f64.
Abbreviation merge := (merge_overlapping_chunks threshold).

Lemma sublist_ids l k : sublist l k → sublist (map c_chunk_id l) (map c_chunk_id k).
Proof. induction 1; cbn; by constructor. Qed.

(** The text of [c] is in that of [m], on the same page. *)
Definition holds (m c : Chunk) : Prop := c_page m = c_page c ∧ infix_of (c_text c) (c_text m).

(** [m] is made of chunks of [l]: it is one of them with more text, and every
    piece of a line of it is text of one of them on its page. *)
Definition made_of (l : list Chunk) (m : Chunk) : Prop :=
  (∃ c, c ∈ l ∧ c_chunk_id m = c_chunk_id c ∧ c_doc_id m = c_doc_id c ∧ c_page m = c_page c ∧
     c_source_type m = c_source_type c) ∧
  ∀ w, one_line w = true → infix_of w (c_text m) → ∃ c, c ∈ l ∧ c_page c = c_page m ∧ infix_of w (c_text c).

Lemma infix_app_l w s t : infix_of w s → infix_of w (s +:+ t).
Proof. intros (a & b & ->). exists a, (b +:+ t). by rewrite <-!app_assoc_str. Qed.
Lemma infix_app_r w s t : infix_of w t → infix_of w (s +:+ t).
Proof. intros (a & b & ->). exists (s +:+ a), b. by rewrite <-!app_assoc_str. Qed.

Lemma overlapping_page c o : overlapping threshold c o = true → c_page c = c_page o.
Proof. unfold overlapping. destruct (c_bbox c), (c_bbox o); try done. intros [H _]%andb_true_iff. by bool_prop. Qed.

Lemma made_of_self l c : c ∈ l → made_of l c.
Proof. intros Hc. split; [by exists c|]. intros w _ Hw. by exists c. Qed.

Lemma made_of_more l k m : l ⊆ k → made_of l m → made_of k m.
Proof.
  intros Hl [(c & Hc & H) Ht]. split; [exists c; split; [by apply Hl|done]|]. intros w Ho Hw.
  destruct (Ht w Ho Hw) as (d & Hd & H'). exists d. split; [by apply Hl|done].
Qed.

Lemma merge_two_made l c o : overlapping threshold c o = true → made_of l c → o ∈ l → made_of l (merge_two c o).
Proof.
  intros Hp%overlapping_page [H Ht] Ho. split; [exact H|]. intros w Hw Hi. cbn in Hi.
  apply one_line_joined in Hi as [Hi|Hi]; [| |done|done]; [by apply Ht|]. exists o. split; [done|]. by rewrite <-Hp.
Qed.

Lemma absorb_spec later : ∀ l current c' rest, absorb threshold current later = (c', rest) →
  made_of l current → later ⊆ l →
  made_of l c' ∧ sublist rest later ∧ (∀ c, holds current c → holds c' c) ∧
  (∀ c, c ∈ later → c ∈ rest ∨ holds c' c) ∧ c_chunk_id c' = c_chunk_id current.
Proof.
  induction later as [|o later IH]; cbn [absorb]; intros l current c' rest H Hm Hl.
  - injection H as <- <-. split_and!; try done. by intros ? ?%not_elem_of_nil.
  - destruct (overlapping threshold current o) eqn:E.
    + destruct (IH l _ _ _ H) as (H1 & H2 & H3 & H4 & H5); [apply merge_two_made; set_solver|set_solver|].
      split_and!; [done|by apply sublist_cons| | |done].
      * intros c [Hp Hi]. apply H3. split; [done|]. cbn. by apply infix_app_l.
      * intros c [->|Hc]%elem_of_cons; [|by apply H4]. right. apply H3. split; [by apply overlapping_page in E|]. cbn.
        apply infix_app_r, infix_cons, infix_refl.
    + destruct (absorb threshold current later) as [d r] eqn:Ea. injection H as <- <-.
      destruct (IH l _ _ _ Ea) as (H1 & H2 & H3 & H4 & H5); [done|set_solver|].
      split_and!; [done|by apply sublist_skip|done| |done].
      intros c [->|Hc]%elem_of_cons; [left; by left|]. destruct (H4 c Hc); [left; by right|by right].
Qed.

Lemma merge_loop_spec n : ∀ l chunks, (length chunks ≤ n)%nat → chunks ⊆ l →
  Forall (made_of l) (merge_loop n threshold chunks) ∧
  (∀ c, c ∈ chunks → ∃ m, m ∈ merge_loop n threshold chunks ∧ holds m c) ∧
  sublist (map c_chunk_id (merge_loop n threshold chunks)) (map c_chunk_id chunks).
Proof.
  induction n as [|n IH]; intros l [|c chunks] Hn Hl; try (cbn in Hn; lia); try (split_and!; [constructor|by intros ? ?%not_elem_of_nil|constructor]).
  cbn [merge_loop]. cbn in Hn. destruct (absorb threshold c chunks) as [c' rest] eqn:Ea.
  destruct (absorb_spec chunks l c c' rest Ea) as (H1 & H2 & H3 & H4 & H5); [apply made_of_self; set_solver|set_solver|].
  destruct (IH l rest) as (R1 & R2 & R3); [apply sublist_length in H2; lia|intros x Hx; apply Hl; right; by eapply elem_of_sublist|].
  split; [by constructor|]. split.
  - intros x [->|Hx]%elem_of_cons.
    + exists c'. split; [by left|]. apply H3. split; [done|apply infix_refl].
    + destruct (H4 x Hx) as [Hr|Hh]; [|by exists c'; split; [left|]].
      destruct (R2 x Hr) as (m & Hm & Hh). exists m. split; [by right|done].
  - cbn [map]. rewrite H5. apply sublist_skip. etrans; [exact R3|]. by apply sublist_ids.
Qed.

Lemma merge_shortens chunks : (length (merge chunks) ≤ length chunks)%nat.
Proof.
  destruct (merge_loop_spec (length chunks) chunks chunks) as (_ & _ & H); [done..|].
  apply sublist_length in H. by rewrite !length_map in H.
Qed.

(** Merging is faithful: every chunk's text is whole in a merged chunk of its
    page; every merged chunk is a chunk of the document with more text, and
    any piece of a line of that text is text of a chunk on the same page; the
    merged chunks keep their order, and there are never more of them. *)
Theorem merge_faithful chunks :
  (∀ c, c ∈ chunks → ∃ m, m ∈ merge chunks ∧ holds m c) ∧
  Forall (made_of chunks) (merge chunks) ∧
  sublist (map c_chunk_id (merge chunks)) (map c_chunk_id chunks).
Proof. destruct (merge_loop_spec (length chunks) chunks chunks) as (H1 & H2 & H3); done. Qed.
End Merge.

(** ** Deduplication *)

Lemma keep_new_spec l : ∀ seen,
  NoDup (map sentence_key (keep_new seen l)) ∧ (∀ k, k ∈ map sentence_key (keep_new seen l) → k ∉ seen ∧ k ≠ "") ∧
  (sublist (keep_new seen l) l) ∧
  ∀ s, s ∈ l → sentence_key s = "" ∨ sentence_key s ∈ seen ∨ sentence_key s ∈ map sentence_key (keep_new seen l).
Proof.
  induction l as [|s l IH]; intros seen; cbn [keep_new].
  { split_and!; [constructor|by intros ? ?%not_elem_of_nil|constructor|by intros ? ?%not_elem_of_nil]. }
  destruct (truthy (sentence_key s)) eqn:Et; cbn [andb].
  - destruct (bool_decide (sentence_key s ∈ seen)) eqn:Eb; bool_prop; cbn [negb].
    + destruct (IH seen) as (H1 & H2 & H3 & H4). split_and!; [done|done|by apply sublist_cons|].
      intros x [->|Hx]%elem_of_cons; [by right; left|by apply H4].
    + destruct (IH (sentence_key s :: seen)) as (H1 & H2 & H3 & H4). cbn [map]. split_and!.
      * constructor; [|done]. intros [Hn _]%H2. apply Hn. by left.
      * intros k [->|Hk]%elem_of_cons; [split; [done|by apply truthy_spec]|]. apply H2 in Hk as [Hk ?]. split; [|done]. set_solver.
      * by apply sublist_skip.
      * intros x [->|Hx]%elem_of_cons; [right; right; by left|]. destruct (H4 x Hx) as [?|[Hs|?]]; [by left| |right; right; by right].
        apply elem_of_cons in Hs as [->|Hs]; [right; right; by left|by right; left].
  - destruct (IH seen) as (H1 & H2 & H3 & H4). split_and!; [done|done|by apply sublist_cons|].
    intros x [->|Hx]%elem_of_cons; [|by apply H4]. left. destruct (decide (sentence_key s = "")) as [E|E]; [done|].
    apply truthy_spec in E. congruence.
Qed.

(** Deduplication keeps, in their order, one sentence of every key: no two that
    are kept are equal up to case and outer space, and none is lost. *)
Theorem dedup_keeps_one l :
  (sublist (keep_new [] l) l) ∧ NoDup (map sentence_key (keep_new [] l)) ∧
  ∀ s, s ∈ l → sentence_key s ≠ "" → sentence_key s ∈ map sentence_key (keep_new [] l).
Proof.
  destruct (keep_new_spec l []) as (H1 & _ & H3 & H4). split_and!; [done|done|].
  intros s Hs Hk. destruct (H4 s Hs) as [?|[?%not_elem_of_nil|?]]; done.
Qed.

(** ** Compression *)

Section Compress.
Variable counter : option (string → result Z).
Variable crush : option (string → result (string * option string)).
Abbreviation compressed := (compress_document_chunks counter crush).

Lemma compress_texts_length texts : length (compress_texts crush texts).1 = length texts.
Proof.
  unfold compress_texts. destruct crush as [f|]; [|done]. destruct (mapM_result f texts) as [l|] eqn:E; [|done].
  apply mapM_result_length in E. destruct (omap snd l); cbn; by rewrite ?length_map.
Qed.

Lemma zip_with_text (m : list Chunk) texts : length texts = length m →
  length (zip_with with_text m texts) = length m ∧
  ∀ A (f : Chunk → A), (∀ c t, f (with_text c t) = f c) → map f (zip_with with_text m texts) = map f m.
Proof.
  revert texts. induction m as [|c m IH]; intros [|t texts]; try done. intros [= Hl]. destruct (IH texts Hl) as [H1 H2].
  split; [cbn; by rewrite H1|]. intros A f Hf. cbn. by rewrite Hf, H2.
Qed.

Lemma saved_difference chunks :
  tokens_saved ((compressed chunks).2) = tokens_before ((compressed chunks).2) - tokens_after ((compressed chunks).2).
Proof. destruct chunks; [done|]. unfold compress_document_chunks. by destruct (compress_texts crush _). Qed.

(** Only texts change: the compressed chunks are the merged ones, one for one,
    with their identifiers, documents, pages and boxes; the counts of the
    statistics are those of the chunks, and what is saved is the difference. *)
Theorem compression_keeps_metadata chunks :
  let '(cs, stats) := compressed chunks in
  let merged := merge_overlapping_chunks iou_threshold chunks in
  map (λ c, (c_chunk_id c, c_doc_id c, c_page c, c_bbox c, c_source_type c)) cs =
    map (λ c, (c_chunk_id c, c_doc_id c, c_page c, c_bbox c, c_source_type c)) merged ∧
  chunks_before stats = Z.of_nat (length chunks) ∧ chunks_after stats = Z.of_nat (length cs) ∧
  (length cs ≤ length chunks)%nat ∧ tokens_saved stats = tokens_before stats - tokens_after stats.
Proof.
  destruct chunks as [|c chunks]; [by split_and!|]. unfold compress_document_chunks.
  set (merged := merge_overlapping_chunks iou_threshold (c :: chunks)).
  pose proof (compress_texts_length (map c_text merged)) as Hl. rewrite length_map in Hl.
  destruct (compress_texts crush (map c_text merged)) as [texts transforms]. cbn [fst] in Hl.
  destruct (zip_with_text merged texts Hl) as [H1 H2]. cbn [chunks_before chunks_after tokens_saved tokens_before tokens_after].
  split_and!; try done; [by apply H2|]. rewrite H1.
  apply merge_shortens.
Qed.
End Compress.

Lemma without_engine counter chunks :
  (compress_document_chunks counter None chunks).1 = merge_overlapping_chunks iou_threshold chunks.
Proof.
  destruct chunks as [|c chunks]; [done|]. unfold compress_document_chunks. cbn [compress_texts raise fst].
  generalize (merge_overlapping_chunks iou_threshold (c :: chunks)). intros l.
  induction l as [|x l IH]; [done|]. cbn. f_equal; [by destruct x|done].
Qed.

(** What the pipeline then gives the pack is made of the chunks it was given. *)
Lemma without_engine_made counter chunks : Forall (made_of chunks) ((compress_document_chunks counter None chunks).1).
Proof. rewrite without_engine. by destruct (merge_loop_spec iou_threshold (length chunks) chunks chunks) as [H _]. Qed.

(** Without the third-party engine the texts pass through unchanged. *)
Theorem fallback_passthrough counter chunks : chunks ≠ [] →
  let '(cs, stats) := compress_document_chunks counter None chunks in
  cs = merge_overlapping_chunks iou_threshold chunks ∧ tokens_saved stats = 0 ∧
  transforms_applied stats = ["fallback_passthrough"].
Proof.
  intros Hc. pose proof (without_engine counter chunks) as E. destruct chunks as [|c chunks]; [done|].
  unfold compress_document_chunks in *. cbn [compress_texts raise] in *.
  cbn [tokens_saved transforms_applied fst] in *. split; [exact E|split; [lia|done]].
Qed.

(** ** Totals *)

(** The totals that the compressions of a list of documents leave. *)
Definition totals_of counter crush (docs : list (list Chunk)) : CompressionTotals :=
  fold_left (λ t s, append s t) (map (λ d, (compress_document_chunks counter crush d).2) docs) cleared.

Definition sum_of (f : CompressionStats → Z) (l : list CompressionStats) : Z := foldr Z.add 0 (map f l).

Lemma totals_from l : ∀ t, let t' := fold_left (λ t s, append s t) l t in
  runs t' = runs t + Z.of_nat (length l) ∧ before t' = before t + sum_of tokens_before l ∧
  after t' = after t + sum_of tokens_after l ∧ saved t' = saved t + sum_of tokens_saved l ∧
  last_run t' = match last l with Some s => Some (to_dict s) | None => last_run t end.
Proof.
  induction l as [|s l IH]; intros t.
  { unfold sum_of. cbn. split_and!; lia || done. }
  destruct (IH (append s t)) as (H1 & H2 & H3 & H4 & H5). unfold sum_of in *. cbn [fold_left map foldr length append runs before after saved] in *.
  split_and!; [lia..|]. cbn [fold_left]. rewrite H5, last_cons. by destruct (last l).
Qed.

(** The lifetime totals are the sums over the runs: after the compression of
    any documents there are as many runs as documents, what is saved in all is
    the difference of the totals, and the last run is that of the last one. *)
Theorem totals_add_up counter crush docs :
  let t := totals_of counter crush docs in
  let stats := map (λ d, (compress_document_chunks counter crush d).2) docs in
  runs t = Z.of_nat (length docs) ∧ before t = sum_of tokens_before stats ∧ after t = sum_of tokens_after stats ∧
  saved t = before t - after t ∧ last_run t = to_dict <$> last stats.
Proof.
  intros t stats. destruct (totals_from stats cleared) as (H1 & H2 & H3 & H4 & H5). unfold t, totals_of. fold stats.
  cbn [runs before after saved last_run cleared] in *. assert (Hs : sum_of tokens_saved stats = sum_of tokens_before stats - sum_of tokens_after stats).
  { unfold stats, sum_of. clear. induction docs as [|d docs IH]; [done|]. cbn [map foldr]. rewrite saved_difference. lia. }
  unfold stats in H1 at 2. rewrite length_map in H1. split_and!; [lia..|]. by destruct (last stats).
Qed.

(** ** A document with an overlap *)

Definition box (y : Z) (h : Z) : BBox := {| x0 := of_Z 10; y0 := of_Z y; x1 := of_Z 110; y1 := of_Z (y + h) |}.
Definition piece (id : string) (page : Z) (b : BBox) (text : string) : Chunk :=
  {| c_chunk_id := id; c_doc_id := "d"; c_page := page; c_bbox := Some b; c_text := text; c_source_type := "pdf"; c_embedding := [] |}.
Definition overlap : list Chunk :=
  [piece "a" 1 (box 0 100) "Total Due: 5.00"; piece "b" 2 (box 0 100) "Second page"; piece "c" 1 (box 0 90) "Total Due: 5.00"].

Lemma fallback_passthrough_witness :
  overlap ≠ [] ∧ let '(cs, stats) := compress_document_chunks None None overlap in
  cs = merge_overlapping_chunks iou_threshold overlap ∧ tokens_saved stats = 0 ∧
  transforms_applied stats = ["fallback_passthrough"].
Proof. split; [done|apply (fallback_passthrough None overlap); done]. Defined.

Example overlap_merged :
  map (λ c, (c_chunk_id c, c_text c)) (merge_overlapping_chunks iou_threshold overlap) =
  [("a", "Total Due: 5.00" +:+ String LF "Total Due: 5.00"); ("b", "Second page")].
Proof. vm_compute. reflexivity. Qed.

(** An engine that leaves the texts alone: repeated lines go, and with the
    repetition goes the line break before the line that follows it. *)
Definition untouched (t : string) : result (string * option string) := Ok (t, None).
Definition thanks : Chunk := piece "a" 1 (box 0 100) ("Thank you." +:+ String LF ("Thank you." +:+ String LF ("Total Due: 5.00" +:+ String LF "Invoice No. 7"))).
Example dedup_joins_lines :
  map c_text (compress_document_chunks None (Some untouched) [thanks]).1 =
  ["Thank you. Total Due: 5.00" +:+ String LF "Invoice No. 7"].
Proof. vm_compute. reflexivity. Qed.
