(* ===== verification/InvoicePack.v ===== *)
(** * The invoice pack

    [packs/invoice/pack.py]: the extraction of the invoice fields from the
    chunks, with the patterns of the source, and the interface that the
    pipeline asks of a pack.  Texts are below U+0100, so the characters of the
    patterns above it (the euro sign, the bullet, the box drawing lines) are
    left out of them.  [float] is an argument; identifiers are drawn from
    [gen_id] in the order of the extractions; [int] has no limit on digits. *)

From S2P Require Import Prelude PyStr PyFloat Json JsonRead DataModel QualityGate MemoryStore Provenance Grounding Orchestrator.
From S2P Require Import Regex.

(** ** Lines *)

Abbreviation record := (string * Chunk)%type.

Definition border (c : ascii) : bool := bool_decide (c ∈ [" "%char; "009"%char; "|"%char]).

(** The lines of the chunks without table borders. *)
Definition lines_of (c : Chunk) : list record :=
  omap (λ l, if truthy (strip_by border l) then Some (strip_by border l, c) else None) (splitlines (c_text c)).
Definition records_of (chunks : list Chunk) : list record := flat_map lines_of chunks.

Definition full (r : re) (line : string) : bool := match fullmatch r line with Some _ => true | None => false end.
Definition at_start (r : re) (line : string) : bool := match re_match r line with Some _ => true | None => false end.

(** The first group of a full match. *)
Definition capture (r : re) (line : string) : option string := y ← fullmatch r line; group 1 y.

(** ** Patterns *)

Definition char_of (n : N) : string := String (ascii_of_N n) "".
Definition POUND : string := char_of 163.
Definition YEN : string := char_of 165.
Definition A_UMLAUT : string := char_of 228.
Definition O_UMLAUT : string := char_of 246.

Definition number_label : string :=
  "(?:invoice[ \t]+(?:number|no\.?|nr)|invoice[ \t]*#|" +:+
  "inv[ \t]+(?:number|no\.?)|fakturanr|faktura[ \t]+nr|" +:+
  "rechnungsnr|receipt[ \t]+no\.?|receipt[ \t]*#)".
Definition qualifier : string := "(?:draft|revised|provisional|estimated?|proposed|preliminary|unapproved)".
Definition invoice_heading : string := "(?:tax[ \t]+)?invoice".
Definition qualified_header : re := compile
  (qualifier +:+ "[ \t]+" +:+ invoice_heading +:+ "|" +:+ invoice_heading
   +:+ "(?:[ \t]+" +:+ qualifier +:+ "|[ \t]*\([ \t]*" +:+ qualifier
   +:+ "[ \t]*\)|[ \t]*[-:][ \t]*" +:+ qualifier +:+ ")") IGNORECASE.
Definition status_line : re := compile
  (qualifier +:+ "|(?:(?:invoice|document)[ \t]+)?status[ \t]*:[ \t]*" +:+ qualifier) IGNORECASE.
Definition header : re := compile
  "(?:tax[ \t]+)?invoice(?:[ \t]*:[ \t]*.+)?|faktura(?:[ \t]*/[ \t]*invoice)?|rechnung" IGNORECASE.
Definition numbered : re := compile (number_label +:+ "(?:[ \t]*:|[ \t]+)") IGNORECASE.
Definition other_label : re := compile
  "(?:invoice|tax[ \t]+invoice|date|due|bill[ \t]+to|customer|currency|total|description|no)\b" IGNORECASE.
Definition explicit_vendor : re := compile
  "(?:(?:tax[ \t]+)?invoice|from|vendor|supplier)[ \t]*:[ \t]*(.+)" IGNORECASE.
Definition rule : re := compile "[=\-*~_]+" no_flags.
Definition business : re := compile
  "\b(?:corp(?:oration)?|llc|inc|ltd|limited|company|solutions|services|industries|studio|works|ab)\b" IGNORECASE.
Definition identifier : re := compile
  (number_label +:+ "(?:[ \t]*:[ \t]*|[ \t]+)([A-Za-z0-9][A-Za-z0-9/-]*)") IGNORECASE.
Definition bare_identifier : re := compile "(?:no\.?|number)[ \t]*:?[ \t]+([A-Za-z0-9][A-Za-z0-9/-]*)" IGNORECASE.

Definition date_value : string :=
  "(\d{4}[-/]\d{2}[-/]\d{2}|\d{1,2}[ \t]+[a-zA-Z]+[ \t]+\d{4}|" +:+
  "[a-zA-Z]+[ \t]+\d{1,2},?[ \t]+\d{4}|\d{2}/\d{2}/\d{4})".
Definition invoice_date_label : string := "(?:invoice[ \t]+date|date|issued|billed|fakturadatum|datum|rechnungsdatum)".
Definition due_date_label : string :=
  "(?:due[ \t]+date|due|payment[ \t]+due|f" +:+ O_UMLAUT +:+ "rfallodatum|f" +:+ O_UMLAUT +:+ "rfallo|f" +:+
  A_UMLAUT +:+ "llig|zahlbar[ \t]+bis)".
Definition dated (label : string) : re := compile (label +:+ "[ \t]*:?[ \t]*" +:+ date_value) IGNORECASE.

Definition supported_codes : list string :=
  ["USD"; "EUR"; "GBP"; "SGD"; "AUD"; "CAD"; "JPY"; "CNY"; "INR"; "SEK"; "NOK"; "DKK"; "CHF"; "NZD"; "HKD"; "ZAR";
   "BRL"; "MXN"].
Definition currency_line : re := compile
  ("(?:all[ \t]+amounts[ \t]+in|currency|valuta|w" +:+ A_UMLAUT +:+ "hrung)[ \t]*:?[ \t]*([A-Za-z]{3})") IGNORECASE.
Definition currency_mark : re := compile "\(([A-Z]{3})\)" no_flags.

Definition amount : string := "(?:[$" +:+ POUND +:+ YEN +:+ "][ \t]*)?((?:\d{1,3}(?:,\d{3})+|\d+)\.\d{2})".
Definition total_label : string :=
  "(?:total[ \t]+amount[ \t]+due|total[ \t]+due|grand[ \t]+total|amount[ \t]+due|" +:+
  "amount[ \t]+payable|total[ \t]+payable|balance[ \t]+due|totalt[ \t]+att[ \t]+betala|" +:+
  "belopp[ \t]+att[ \t]+betala|gesamtbetrag|total[ \t]+amount|total|t[0o]tal[ \t]+am[0o]unt[ \t]+due)".
Definition unsafe_predicate : string :=
  qualifier +:+ "|not[ \t]+(?:approved|final)|" +:+
  "neither[ \t]+(?:final[ \t]+nor[ \t]+approved|approved[ \t]+nor[ \t]+final)".
Definition total_warning : re := compile
  ("(?:(?:this|the|both)[ \t]+)?(?:totals?|amounts?(?:[ \t]+payable)?)" +:+
   "(?:[ \t]+(?:is|are)[ \t]+|(?:[ \t]+status)?[ \t]*:[ \t]*)" +:+
   "(?:" +:+ unsafe_predicate +:+ ")(?:[ \t]+and[ \t]+(?:" +:+
   unsafe_predicate +:+ "))*(?:;[ \t]*do[ \t]+not[ \t]+pay)?[.!]?") IGNORECASE.
Definition total_line : re := compile
  ("(?:" +:+ qualifier +:+ "[ \t]+)?" +:+ total_label +:+ "[ \t]*:?[ \t]*" +:+ amount +:+ "(.*)") IGNORECASE.
Definition qualified_total : re := compile (qualifier +:+ "\b") IGNORECASE.
Definition tax_line : re := compile
  ("(?:sales[ \t]+tax|tax|vat|gst|moms|ust)[ \t]*(?:\([^()\r\n]*\))?[ \t]*:?[ \t]*" +:+ amount) IGNORECASE.

Definition generic_terms : re := compile
  ("(?:net[ \t]*[0-9]+|due[ \t]+(?:on|upon)[ \t]+receipt|" +:+
   "due[ \t]+immediately[ \t]+upon[ \t]+receipt|immediate|" +:+
   "immediately[ \t]+upon[ \t]+receipt|[0-9]+/[0-9]+[ \t]+net[ \t]*[0-9]+|" +:+
   "within[ \t]+[0-9]+[ \t]+days|[0-9]+[ \t]+(?:dagar|tage))") IGNORECASE.
Definition terms_line : re := compile
  "(?:payment[ \t]+terms|terms|betalningsvillkor|zahlungsbedingungen)[ \t]*:[ \t]*(.+)" IGNORECASE.
Definition payment_line : re := compile "(?:payment|betalning|zahlung)[ \t]*:[ \t]*(.+)" IGNORECASE.
Definition due_line : re := compile
  "((?:payment[ \t]+)?due[ \t]+(?:immediately[ \t]+)?(?:upon[ \t]+)?receipt)" IGNORECASE.

(** ** Dates *)

Definition MONTHS : list (string * Z) :=
  [("january", 1); ("february", 2); ("march", 3); ("april", 4); ("may", 5); ("june", 6); ("july", 7); ("august", 8);
   ("september", 9); ("october", 10); ("november", 11); ("december", 12); ("jan", 1); ("feb", 2); ("mar", 3); ("apr", 4);
   ("jun", 6); ("jul", 7); ("aug", 8); ("sep", 9); ("oct", 10); ("nov", 11); ("dec", 12)].
Definition month_of (name : string) : option Z := snd <$> List.find (λ p, bool_decide (p.1 = lower name)) MONTHS.

Definition is_leap (year : Z) : bool := (year mod 4 =? 0) && (negb (year mod 100 =? 0) || (year mod 400 =? 0)).
Definition days_in_month (year month : Z) : Z :=
  if month =? 2 then (if is_leap year then 29 else 28)
  else if bool_decide (month ∈ [4; 6; 9; 11]) then 30 else 31.

(** [datetime.date(year, month, day)] does not raise. *)
Definition valid_date (year month day : Z) : bool :=
  (1 <=? year) && (year <=? 9999) && (1 <=? month) && (month <=? 12) && (1 <=? day) && (day <=? days_in_month year month).

(** [f"{n:0wd}"] of a natural number, and [date.isoformat]. *)
Definition zeros (n : nat) : string := join "" (repeat "0" n).
Definition padded (width : nat) (n : Z) : string := zeros (width - String.length (pretty n)) +:+ pretty n.
Definition isoformat (year month day : Z) : string := padded 4 year +:+ "-" +:+ padded 2 month +:+ "-" +:+ padded 2 day.

Definition ymd_re : re := compile "([0-9]{4})([-/])([0-9]{2})\2([0-9]{2})" no_flags.
Definition day_month_re : re := compile "([0-9]{1,2})[ \t]+([A-Za-z]+)[ \t]+([0-9]{4})" no_flags.
Definition month_day_re : re := compile "([A-Za-z]+)[ \t]+([0-9]{1,2}),?[ \t]+([0-9]{4})" no_flags.
Definition dmy_re : re := compile "([0-9]{2})/([0-9]{2})/([0-9]{4})" no_flags.

Definition text_group (n : nat) (y : st) : string := default "" (group n y).
Definition int_group (n : nat) (y : st) : Z := int_of_digits (text_group n y).

(** Year, month and day; a name that is no month leaves the month unset. *)
Definition date_parts (s : string) : option (Z * option Z * Z) :=
  match fullmatch ymd_re s with
  | Some m => Some (int_group 1 m, Some (int_group 3 m), int_group 4 m)
  | None =>
      match fullmatch day_month_re s with
      | Some m => Some (int_group 3 m, month_of (text_group 2 m), int_group 1 m)
      | None =>
          match fullmatch month_day_re s with
          | Some m => Some (int_group 3 m, month_of (text_group 1 m), int_group 2 m)
          | None =>
              match fullmatch dmy_re s with
              | Some m => if 12 <? int_group 1 m then Some (int_group 3 m, Some (int_group 2 m), int_group 1 m) else None
              | None => None
              end
          end
      end
  end.

Definition parse_date (s : string) : option string :=
  match date_parts s with
  | Some (year, Some month, day) => if valid_date year month day then Some (isoformat year month day) else None
  | _ => None
  end.

(** ** Extraction *)

Abbreviation candidate := (string * string * Chunk)%type.

(** [Extraction(...)] but for its identifier. *)
Definition extraction (pack_id field value span : string) (confidence : f64) (chunk_id : string) (id : string) : Extraction :=
  {| e_ext_id := id; e_pack_id := pack_id; e_field_name := field; e_value := value; e_source_span := span;
     e_confidence := confidence; e_model_version := ""; e_status := SUGGESTED; e_chunk_id := chunk_id;
     e_method := BLOCK; e_anchors := [] |}.

Section Invoice.
Context `{FR : FloatRepr}.
Variable pack_id : string.
Variable parse_float : string → result f64.

(** [emit]: conflicting values are unresolved. *)
Definition emit (field : string) (candidates : list candidate) (confidence : f64) : list (string → Extraction) :=
  match candidates with
  | [] => []
  | (value, span, chunk) :: rest =>
      if forallb (λ c, bool_decide (c.1.1 = value)) rest
      then [extraction pack_id field value span confidence (c_chunk_id chunk)] else []
  end.

Definition vendor_candidate (value : string) : bool :=
  truthy value && (String.length value <=? 200)%nat && exists_str is_alpha value && negb (contains ":" value) &&
  negb (full qualified_header value) && negb (full status_line value) && negb (at_start other_label value).

Definition is_header (line : string) : bool := full header line || full qualified_header line.

(** The line after a heading. *)
Definition next_vendor (records : list record) (index : nat) (line : string) : list candidate :=
  if is_header line then
    match records !! S index with
    | Some (value, source) => if vendor_candidate value && negb (full rule value) then [(value, value, source)] else []
    | None => []
    end
  else [].

Definition vendor_at (records : list record) (index : nat) (r : record) : list candidate :=
  match capture explicit_vendor r.1 with
  | Some v => if vendor_candidate v then [(v, v, r.2)] else next_vendor records index r.1
  | None => next_vendor records index r.1
  end.

Definition preamble (records : list record) : list candidate :=
  match find_first (λ r, negb (full rule r.1)) (take 8 records) with
  | Some (value, chunk) => if vendor_candidate value && found business value then [(value, value, chunk)] else []
  | None => []
  end.

Definition vendors (records : list record) : list candidate :=
  match concat (imap (vendor_at records) (take 12 records)) with
  | [] => preamble records
  | l => l
  end.

Definition identifiers (records : list record) : list candidate :=
  let headed := existsb (λ r, is_header r.1) records in
  omap (λ r, v ← match capture identifier r.1 with
                 | Some v => Some v
                 | None => if headed then capture bare_identifier r.1 else None
                 end;
             Some (v, v, r.2)) records.

(** The dates of a label, or [None] if one of them is invalid. *)
Fixpoint dates (r : re) (records : list record) : option (list candidate) :=
  match records with
  | [] => Some []
  | (line, chunk) :: records' =>
      rest ← dates r records';
      match capture r line with
      | Some raw => parsed ← parse_date raw; Some ((parsed, raw, chunk) :: rest)
      | None => Some rest
      end
  end.
Definition emit_date (field label : string) (records : list record) : list (string → Extraction) :=
  match dates (dated label) records with Some l => emit field l (lit 9 10) | None => [] end.

Definition supported (code : string) : bool := bool_decide (code ∈ supported_codes).
Definition upper (s : string) : string := map_str upper_char s.

Definition currency_at (r : record) : list candidate :=
  match capture currency_line r.1 with
  | Some v => if supported (upper v) then [(upper v, v, r.2)] else []
  | None => []
  end ++
  omap (λ m, v ← group 1 m.2; if supported v then Some (v, v, r.2) else None) (finditer currency_mark r.1).
Definition currencies (records : list record) : list candidate :=
  flat_map currency_at records ++
  omap (λ r, if contains POUND r.1 then Some ("GBP", POUND, r.2) else None) records.

Definition no_commas (s : string) : string := filter_str (λ c, negb (bool_decide (c = ","%char))) s.

Definition total_at (r : record) : list candidate :=
  match fullmatch total_line r.1 with
  | Some m => let v := text_group 1 m in [(no_commas v, v, r.2)]
  | None => []
  end.
Definition unsafe_at (r : record) : bool :=
  match fullmatch total_line r.1 with
  | Some m => at_start qualified_total r.1 || truthy (strip (text_group 2 m))
  | None => false
  end || full total_warning r.1.

Definition tax_at (r : record) : list candidate :=
  match capture tax_line r.1 with Some v => [(no_commas v, v, r.2)] | None => [] end.

Definition terms_at (r : record) : list candidate :=
  match capture terms_line r.1 with
  | Some v => [(v, v, r.2)]
  | None =>
      match capture payment_line r.1 with
      | Some v => if full generic_terms v then [(v, v, r.2)] else []
      | None => match capture due_line r.1 with Some v => [("Due on Receipt", v, r.2)] | None => [] end
      end
  end.

(** *** Line items *)

Definition money : string := "[$" +:+ POUND +:+ YEN +:+ "]?".
Definition table_item : re := compile
  ("([a-zA-Z\s()&\-]{5,})\s+(\d+)\s+(" +:+ money +:+ "\s*[\d,]+\.\d{2})\s+(" +:+ money +:+ "\s*[\d,]+\.\d{2})") no_flags.
Definition bullet_item : re := compile
  ("^[-]\s*(.+?)\s+\((\d+)\s+\w+\s+@\s*[$" +:+ POUND +:+ "]?(\d+(?:\.\d+)?)\s*/?\w*\)\s+[$" +:+ POUND +:+
   "]?(\d[\d,]*\.\d{2})") no_flags.
Definition plain_item : re := compile
  ("^[-]\s*(.+?)\s+[$" +:+ POUND +:+ "]?(\d[\d,]*\.\d{2})\s*$") no_flags.
Definition not_numeric : re := compile "[^\d\.]" no_flags.

Record LineItem := { description : string; quantity : Z; unit_price : f64; total : f64 }.

Definition number (s : string) : result f64 := parse_float (sub not_numeric "" s).

Definition line_item (line : string) : result (option LineItem) :=
  match search table_item line with
  | Some (_, m) =>
      price ← number (text_group 3 m); t ← number (text_group 4 m);
      Ok (Some {| description := strip (text_group 1 m); quantity := int_group 2 m; unit_price := price; total := t |})
  | None =>
      match re_match bullet_item line with
      | Some m =>
          price ← parse_float (text_group 3 m); t ← number (text_group 4 m);
          Ok (Some {| description := strip (text_group 1 m); quantity := int_group 2 m; unit_price := price; total := t |})
      | None =>
          match re_match plain_item line with
          | Some m =>
              t ← number (text_group 2 m);
              Ok (Some {| description := strip (text_group 1 m); quantity := 1; unit_price := t; total := t |})
          | None => Ok None
          end
      end
  end.

Definition item_lines (chunks : list Chunk) : list record :=
  flat_map (λ c, omap (λ l, if truthy (strip l) then Some (strip l, c) else None) (splitlines (c_text c))) chunks.

(** The items of the lines, each with its chunk. *)
Fixpoint line_items (lines : list record) : result (list (LineItem * Chunk)) :=
  match lines with
  | [] => Ok []
  | (line, chunk) :: lines' =>
      x ← line_item line; rest ← line_items lines';
      Ok (match x with Some i => (i, chunk) :: rest | None => rest end)
  end.

Definition item_json (i : LineItem) : json :=
  JObj [("description", JStr (description i)); ("quantity", JInt (quantity i)); ("unit_price", JFloat (unit_price i));
        ("total", JFloat (total i))].

Definition emit_items (items : list (LineItem * Chunk)) : list (string → Extraction) :=
  match items with
  | [] => []
  | (i, chunk) :: _ =>
      [extraction pack_id "line_items" (dumps true (JArr (map (λ x, item_json x.1) items))) (description i) (lit 8 10)
         (c_chunk_id chunk)]
  end.

(** *** The pack *)

Definition nonfinal (records : list record) : bool :=
  existsb (λ r, full qualified_header r.1 || full status_line r.1) records.
Definition invoice_context (records : list record) : bool :=
  existsb (λ r, is_header r.1 || at_start numbered r.1) records.

Definition emit_total (records : list record) : list (string → Extraction) :=
  if nonfinal records || existsb unsafe_at records then []
  else emit "total_amount" (flat_map total_at records) (lit 95 100).

(** The extractions in the order in which the code emits them. *)
Definition draft_parts (records : list record) (items : list (LineItem * Chunk)) : list (list (string → Extraction)) :=
  [emit "vendor_name" (vendors records) (lit 9 10);
   emit "invoice_number" (identifiers records) (lit 95 100);
   emit_date "invoice_date" invoice_date_label records;
   emit_date "due_date" due_date_label records;
   emit "currency" (currencies records) (lit 9 10);
   emit_total records;
   emit "tax_amount" (flat_map tax_at records) (lit 85 100);
   emit "payment_terms" (flat_map terms_at records) (lit 85 100);
   emit_items items].

Definition extract_drafts (chunks : list Chunk) : result (list (string → Extraction)) :=
  let records := records_of chunks in
  if negb (invoice_context records) then Ok []
  else items ← line_items (item_lines chunks); Ok (concat (draft_parts records items)).

Variable gen_id : nat → string.

Definition invoice_extract (chunks : list Chunk) : result (list Extraction) :=
  drafts ← extract_drafts chunks; Ok (imap (λ i d, d (gen_id i)) drafts).

Definition INVOICE_FIELDS : list string :=
  ["vendor_name"; "invoice_number"; "invoice_date"; "due_date"; "total_amount"; "currency"; "line_items"; "tax_amount";
   "payment_terms"].

Definition InvoicePack : Pack :=
  {| pack_name := "InvoicePack"; pack_fields := INVOICE_FIELDS; extract := invoice_extract |}.
End Invoice.

(** ** Evidence *)

Definition same_as (span value : string) : Prop := value = span.
Definition date_of (span value : string) : Prop := parse_date span = Some value.
Definition currency_of (span value : string) : Prop :=
  value ∈ supported_codes ∧ (value = upper span ∨ value = "GBP" ∧ span = POUND).
Definition amount_of (span value : string) : Prop := value = no_commas span.
Definition terms_of (span value : string) : Prop := value = span ∨ value = "Due on Receipt".

(** Text of one line of a chunk. *)
Definition text_of_chunk (w : string) (c : Chunk) : Prop := infix_of w (c_text c) ∧ one_line w = true.

(** The line items: each is read from text of a line of one of the chunks; the
    value is the JSON text of the list, the span the first description. *)
Definition item_of (parse_float : string → result f64) (chunks : list Chunk) (i : LineItem) : Prop :=
  ∃ line c, c ∈ chunks ∧ text_of_chunk line c ∧ line_item parse_float line = Ok (Some i).
Definition items_of `{FloatRepr} (parse_float : string → result f64) (chunks : list Chunk) (span value : string) : Prop :=
  ∃ i items, value = dumps true (JArr (map item_json (i :: items))) ∧ span = description i ∧
    Forall (item_of parse_float chunks) (i :: items).

(** How the value of a field comes from its span, and, for the line items, from
    the chunks. *)
Definition derivation `{FloatRepr} (parse_float : string → result f64) (chunks : list Chunk) (field : string)
    : string → string → Prop :=
  if bool_decide (field ∈ ["vendor_name"; "invoice_number"]) then same_as
  else if bool_decide (field ∈ ["invoice_date"; "due_date"]) then date_of
  else if bool_decide (field = "currency") then currency_of
  else if bool_decide (field ∈ ["total_amount"; "tax_amount"]) then amount_of
  else if bool_decide (field = "payment_terms") then terms_of
  else items_of parse_float chunks.

Lemma text_of_chunk_infix w v c : infix_of w v → text_of_chunk v c → text_of_chunk w c.
Proof. intros Hi [Hv Ho]. split; [by eapply infix_trans|by eapply one_line_infix]. Qed.

(** A candidate whose span is text of one of the chunks. *)
Definition evidenced (chunks : list Chunk) (D : string → string → Prop) (c : candidate) : Prop :=
  c.2 ∈ chunks ∧ text_of_chunk c.1.2 c.2 ∧ D c.1.2 c.1.1.

Lemma in_flat_map_elem {A B} (f : A → list B) l y : y ∈ flat_map f l ↔ ∃ x, x ∈ l ∧ y ∈ f x.
Proof. rewrite list_elem_of_In, in_flat_map. setoid_rewrite list_elem_of_In. done. Qed.

Lemma record_of chunks r : r ∈ records_of chunks → r.2 ∈ chunks ∧ text_of_chunk r.1 r.2.
Proof.
  intros (c & Hc & H)%in_flat_map_elem. apply list_elem_of_omap in H as (l & Hl & H).
  destruct (truthy _); [|done]. injection H as <-. split; [done|]. cbn.
  eapply text_of_chunk_infix; [apply infix_strip_by|]. split; [by apply splitlines_in|by eapply splitlines_one_line].
Qed.

Lemma capture_infix r line v : capture r line = Some v → infix_of v line.
Proof. intros (y & Hy & Hg)%bind_Some. by eapply fullmatch_group. Qed.

Section Evidence.
Variable chunks : list Chunk.
Abbreviation records := (records_of chunks).

(** Text of a record is text of its chunk. *)
Lemma evidence_at r v span D : r ∈ records → infix_of span r.1 → D span v → evidenced chunks D (v, span, r.2).
Proof.
  intros [Hc Hi]%record_of Hs HD. split; [done|]. split; [|done]. by eapply text_of_chunk_infix.
Qed.

Lemma next_vendor_evidence i line c : c ∈ next_vendor records i line → evidenced chunks same_as c.
Proof.
  unfold next_vendor. destruct (is_header line); [|by intros ?%not_elem_of_nil].
  destruct (records !! S i) as [[v s]|] eqn:E; [|by intros ?%not_elem_of_nil].
  destruct (_ && _); [|by intros ?%not_elem_of_nil]. intros ->%list_elem_of_singleton.
  apply (evidence_at (v, s)); [by eapply list_elem_of_lookup_2|apply infix_refl|done].
Qed.

Lemma vendors_evidence : Forall (evidenced chunks same_as) (vendors records).
Proof.
  assert (Forall (evidenced chunks same_as) (preamble records)) as Hp.
  { unfold preamble. destruct (find_first _ _) as [[v s]|] eqn:E; [|constructor]. destruct (_ && _); [|constructor].
    apply find_first_Some in E as [E _]. constructor; [|constructor].
    apply (evidence_at (v, s)); [|apply infix_refl|done]. by apply elem_of_take in E as (i & Hi & _);
      eapply list_elem_of_lookup_2. }
  unfold vendors. destruct (concat _) as [|x l] eqn:E; [exact Hp|]. rewrite <-E. clear E x l Hp.
  apply Forall_forall. intros c (l & Hl & Hc)%list_elem_of_In%in_concat. apply list_elem_of_In in Hl, Hc.
  apply elem_of_lookup_imap in Hl as (i & r & -> & Hr).
  assert (r ∈ records) as Hin.
  { apply lookup_take_Some in Hr as [Hr _]. by eapply list_elem_of_lookup_2. }
  unfold vendor_at in Hc. destruct (capture _ _) as [v|] eqn:Ev; [|by eapply next_vendor_evidence].
  destruct (vendor_candidate v); [|by eapply next_vendor_evidence]. apply list_elem_of_singleton in Hc as ->.
  apply evidence_at; [done| |done]. by eapply capture_infix.
Qed.

Lemma identifiers_evidence : Forall (evidenced chunks same_as) (identifiers records).
Proof.
  apply Forall_forall. intros c (r & Hr & Hc)%list_elem_of_omap. apply bind_Some in Hc as (v & Hv & [= <-]).
  apply evidence_at; [done| |done]. destruct (capture identifier r.1) as [w|] eqn:E.
  - injection Hv as ->. by eapply capture_infix.
  - destruct (existsb _ _); [|done]. by eapply capture_infix.
Qed.

Lemma dates_evidence r l cs : Forall (λ x, x ∈ records) l → dates r l = Some cs → Forall (evidenced chunks date_of) cs.
Proof.
  intros H. revert cs. induction H as [|[line c] l Hx _ IH]; cbn [dates]; intros cs; [by intros [= <-]|].
  intros (rest & Hrest & H)%bind_Some. specialize (IH rest Hrest). destruct (capture r line) as [raw|] eqn:E.
  - apply bind_Some in H as (d & Hd & [= <-]). constructor; [|done].
    apply (evidence_at (line, c)); [done|by eapply capture_infix|done].
  - by injection H as <-.
Qed.

Lemma supported_code v : supported v = true → v ∈ supported_codes.
Proof. unfold supported. by rewrite bool_decide_eq_true. Qed.

Lemma upper_code v : v ∈ supported_codes → v = upper v.
Proof.
  assert (Forall (λ v, v = upper v) supported_codes) as H by (repeat (constructor; [reflexivity|]); constructor).
  rewrite Forall_forall in H. apply H.
Qed.

Lemma currency_at_evidence r : r ∈ records → Forall (evidenced chunks currency_of) (currency_at r).
Proof.
  intros Hr. apply Forall_app. split.
  - destruct (capture _ _) as [v|] eqn:E; [|constructor]. destruct (supported _) eqn:Es; [|constructor].
    constructor; [|constructor]. apply evidence_at; [done|by eapply capture_infix|]. split; [by apply supported_code|by left].
  - apply Forall_forall. intros c (m & Hm & Hc)%list_elem_of_omap. apply bind_Some in Hc as (v & Hv & Hc).
    destruct (supported v) eqn:Es; [|done]. injection Hc as <-. apply supported_code in Es. destruct m as [w y].
    apply evidence_at; [done| |].
    + eapply (finditer_groups currency_mark r.1 w y 1); [|exact Hm|exact Hv]. vm_compute. lia.
    + split; [done|left]. by apply upper_code.
Qed.

Lemma contains_infix w s : contains w s = true → infix_of w s.
Proof. rewrite contains_spec. done. Qed.

Lemma currencies_evidence : Forall (evidenced chunks currency_of) (currencies records).
Proof.
  apply Forall_app. split; apply Forall_forall.
  - intros c (r & Hr & Hc)%in_flat_map_elem. pose proof (currency_at_evidence r Hr) as H.
    rewrite Forall_forall in H. by apply H.
  - intros c (r & Hr & Hc)%list_elem_of_omap. destruct (contains POUND r.1) eqn:E; [|done]. injection Hc as <-.
    apply evidence_at; [done|by apply contains_infix|]. split; [|by right]. apply (bool_decide_unpack _). vm_compute. exact I.
Qed.

Lemma text_group_infix r line y n : fullmatch r line = Some y → infix_of (text_group n y) line.
Proof.
  intros H. unfold text_group. destruct (group n y) as [w|] eqn:E; [by eapply fullmatch_group|].
  by exists "", line.
Qed.

Lemma totals_evidence : Forall (evidenced chunks amount_of) (flat_map total_at records).
Proof.
  apply Forall_forall. intros c (r & Hr & Hc)%in_flat_map_elem. unfold total_at in Hc.
  destruct (fullmatch _ _) as [m|] eqn:E; [|destruct (not_elem_of_nil _ Hc)]. apply list_elem_of_singleton in Hc as ->.
  apply evidence_at; [done|by eapply text_group_infix|done].
Qed.

Lemma taxes_evidence : Forall (evidenced chunks amount_of) (flat_map tax_at records).
Proof.
  apply Forall_forall. intros c (r & Hr & Hc)%in_flat_map_elem. unfold tax_at in Hc.
  destruct (capture _ _) as [v|] eqn:E; [|destruct (not_elem_of_nil _ Hc)]. apply list_elem_of_singleton in Hc as ->.
  apply evidence_at; [done|by eapply capture_infix|done].
Qed.

Lemma terms_evidence : Forall (evidenced chunks terms_of) (flat_map terms_at records).
Proof.
  apply Forall_forall. intros c (r & Hr & Hc)%in_flat_map_elem. unfold terms_at in Hc.
  destruct (capture terms_line _) as [v|] eqn:E1.
  { apply list_elem_of_singleton in Hc as ->. apply evidence_at; [done|by eapply capture_infix|by left]. }
  destruct (capture payment_line _) as [v|] eqn:E2.
  { destruct (full _ _); [|destruct (not_elem_of_nil _ Hc)]. apply list_elem_of_singleton in Hc as ->.
    apply evidence_at; [done|by eapply capture_infix|by left]. }
  destruct (capture due_line _) as [v|] eqn:E3; [|destruct (not_elem_of_nil _ Hc)].
  apply list_elem_of_singleton in Hc as ->. apply evidence_at; [done|by eapply capture_infix|by right].
Qed.
End Evidence.

(** *** Line items *)

Section Items.
Context `{FR : FloatRepr}.
Variable pack_id : string.
Variable parse_float : string → result f64.

Lemma line_item_infix line i : line_item parse_float line = Ok (Some i) → infix_of (description i) line.
Proof.
  unfold line_item. destruct (search table_item line) as [[x m]|] eqn:E1.
  { intros (p & _ & H)%bind_Ok. apply bind_Ok in H as (t & _ & [= <-]). cbn.
    eapply infix_trans; [apply infix_strip|]. unfold text_group. destruct (group 1 m) as [w|] eqn:Eg; [|by exists "", line].
    by eapply search_group. }
  destruct (re_match bullet_item line) as [m|] eqn:E2.
  { intros (p & _ & H)%bind_Ok. apply bind_Ok in H as (t & _ & [= <-]). cbn.
    eapply infix_trans; [apply infix_strip|]. unfold text_group. destruct (group 1 m) as [w|] eqn:Eg; [|by exists "", line].
    by eapply re_match_group. }
  destruct (re_match plain_item line) as [m|] eqn:E3; [|done].
  intros (t & _ & [= <-])%bind_Ok. cbn.
  eapply infix_trans; [apply infix_strip|]. unfold text_group. destruct (group 1 m) as [w|] eqn:Eg; [|by exists "", line].
  by eapply re_match_group.
Qed.

Lemma line_items_read lines items : line_items parse_float lines = Ok items →
  Forall (λ x, ∃ r, r ∈ lines ∧ r.2 = x.2 ∧ line_item parse_float r.1 = Ok (Some x.1)) items.
Proof.
  revert items. induction lines as [|[line c] lines IH]; cbn [line_items]; intros items; [by intros [= <-]|].
  intros (x & Hx & H)%bind_Ok. apply bind_Ok in H as (rest & Hr & [= <-]). apply IH in Hr.
  assert (Forall (λ x, ∃ r, r ∈ (line, c) :: lines ∧ r.2 = x.2 ∧ line_item parse_float r.1 = Ok (Some x.1)) rest) as Hrest.
  { eapply Forall_impl; [exact Hr|]. intros y (r & Hin & H). exists r. split; [by right|done]. }
  destruct x as [i|]; [|done]. constructor; [|done]. exists (line, c). split; [by left|by split].
Qed.

Lemma item_lines_text chunks r : r ∈ item_lines chunks → r.2 ∈ chunks ∧ text_of_chunk r.1 r.2.
Proof.
  intros (c & Hc & H)%in_flat_map_elem. apply list_elem_of_omap in H as (l & Hl & H).
  destruct (truthy _); [|done]. injection H as <-. split; [done|].
  eapply text_of_chunk_infix; [apply infix_strip|]. split; [by apply splitlines_in|by eapply splitlines_one_line].
Qed.

(** *** Drafts *)

(** A draft of a field with evidence in the chunks, whatever its identifier. *)
Definition supported_draft (chunks : list Chunk) (field : string) (d : string → Extraction) : Prop :=
  ∀ id, e_field_name (d id) = field ∧ derivation parse_float chunks field (e_source_span (d id)) (e_value (d id)) ∧
    ∃ c, c ∈ chunks ∧ e_chunk_id (d id) = c_chunk_id c ∧ text_of_chunk (e_source_span (d id)) c.

(** At most one draft, and one that is supported. *)
Definition one_draft (chunks : list Chunk) (field : string) (l : list (string → Extraction)) : Prop :=
  l = [] ∨ ∃ d, l = [d] ∧ supported_draft chunks field d.

Lemma emit_one chunks field cands conf :
  Forall (evidenced chunks (derivation parse_float chunks field)) cands → one_draft chunks field (emit pack_id field cands conf).
Proof.
  destruct cands as [|[[v s] c] cands]; [by left|]. intros (Hc & Hs & Hd)%Forall_inv. cbn [emit].
  destruct (forallb _ _); [|by left]. right. eexists. split; [done|]. intros id. split; [done|]. split; [exact Hd|].
  exists c. by split_and!.
Qed.

Lemma emit_date_one chunks field label :
  derivation parse_float chunks field = date_of → one_draft chunks field (emit_date pack_id field label (records_of chunks)).
Proof.
  intros Hd. unfold emit_date. destruct (dates _ _) as [l|] eqn:E; [|by left]. apply emit_one. rewrite Hd.
  eapply dates_evidence; [|exact E]. by apply Forall_forall.
Qed.

Lemma emit_total_one chunks : one_draft chunks "total_amount" (emit_total pack_id (records_of chunks)).
Proof. unfold emit_total. destruct (_ || _); [by left|]. apply emit_one. exact (totals_evidence chunks). Qed.

Lemma emit_items_one chunks items :
  line_items parse_float (item_lines chunks) = Ok items → one_draft chunks "line_items" (emit_items pack_id items).
Proof.
  intros H%line_items_read. destruct items as [|[i c] items]; [by left|]. right. eexists. split; [done|].
  assert (Forall (item_of parse_float chunks) (map fst ((i, c) :: items))) as Hall.
  { apply Forall_map. eapply Forall_impl; [exact H|]. intros x (r & Hr & Ec & Hx).
    apply item_lines_text in Hr as [Hc Ht]. exists r.1, r.2. by split_and!. }
  apply Forall_inv in H as (r & Hr & Ec & Hi). apply item_lines_text in Hr as [Hc Ht]. cbn in Ec, Hi. rewrite Ec in *.
  intros id. split; [done|]. split.
  - exists i, (map fst items). split; [|by split]. cbn [extraction e_value map fst]. by rewrite map_map.
  - exists c. split; [done|]. split; [done|]. eapply text_of_chunk_infix; [by apply line_item_infix|done].
Qed.

(** The fields in the order in which the pack emits them. *)
Definition EMITTED : list string :=
  ["vendor_name"; "invoice_number"; "invoice_date"; "due_date"; "currency"; "total_amount"; "tax_amount"; "payment_terms";
   "line_items"].

Lemma EMITTED_NoDup : NoDup EMITTED.
Proof. apply (bool_decide_unpack _). vm_compute. exact I. Qed.

Lemma draft_parts_one chunks items : line_items parse_float (item_lines chunks) = Ok items →
  Forall2 (one_draft chunks) EMITTED (draft_parts pack_id (records_of chunks) items).
Proof.
  intros Hi.
  constructor; [apply emit_one; exact (vendors_evidence chunks)|].
  constructor; [apply emit_one; exact (identifiers_evidence chunks)|].
  do 2 (constructor; [by apply emit_date_one|]).
  constructor; [apply emit_one; exact (currencies_evidence chunks)|].
  constructor; [apply emit_total_one|].
  constructor; [apply emit_one; exact (taxes_evidence chunks)|].
  constructor; [apply emit_one; exact (terms_evidence chunks)|].
  constructor; [by apply emit_items_one|]. constructor.
Qed.

Lemma drafts_parts chunks drafts : extract_drafts pack_id parse_float chunks = Ok drafts →
  drafts = [] ∨ ∃ items, line_items parse_float (item_lines chunks) = Ok items ∧
    drafts = concat (draft_parts pack_id (records_of chunks) items).
Proof.
  unfold extract_drafts. destruct (invoice_context _); [|intros [= <-]; by left]. cbn [negb].
  intros (items & Hi & [= <-])%bind_Ok. right. by exists items.
Qed.

(** The part of a draft is that of its field. *)
Lemma parts_field chunks fields parts d id : Forall2 (one_draft chunks) fields parts → NoDup fields → d ∈ concat parts →
  ∃ i l, fields !! i = Some (e_field_name (d id)) ∧ parts !! i = Some l ∧ d ∈ l.
Proof.
  induction 1 as [|f l fields parts Hf _ IH]; cbn [concat]; intros Hn Hd; [by apply not_elem_of_nil in Hd|].
  apply NoDup_cons in Hn as [_ Hn]. apply elem_of_app in Hd as [Hd|Hd].
  - exists 0%nat, l. split_and!; [|done|done]. destruct Hf as [->|(d' & -> & Hs)]; [by apply not_elem_of_nil in Hd|].
    apply list_elem_of_singleton in Hd as ->. destruct (Hs id) as [-> _]. done.
  - destruct (IH Hn Hd) as (i & k & H1 & H2 & H3). by exists (S i), k.
Qed.

Lemma parts_supported chunks fields parts d : Forall2 (one_draft chunks) fields parts → d ∈ concat parts →
  ∃ field, field ∈ fields ∧ supported_draft chunks field d.
Proof.
  induction 1 as [|f l fields parts Hf _ IH]; cbn [concat]; [by intros ?%not_elem_of_nil|].
  intros [Hd|Hd]%elem_of_app.
  - destruct Hf as [->|(d' & -> & Hs)]; [by apply not_elem_of_nil in Hd|]. apply list_elem_of_singleton in Hd as ->.
    exists f. split; [by left|done].
  - destruct (IH Hd) as (g & Hg & Hs). exists g. split; [by right|done].
Qed.

Lemma parts_names chunks fields parts name : Forall2 (one_draft chunks) fields parts →
  ∀ k, sublist (map e_field_name (imap (λ i d, d (name (k + i)%nat)) (concat parts))) fields.
Proof.
  induction 1 as [|f l fields parts Hf _ IH]; intros k; [constructor|]. cbn [concat].
  destruct Hf as [->|(d & -> & Hs)]; [by apply sublist_cons|]. cbn [app imap map].
  destruct (Hs (name (k + 0)%nat)) as [-> _]. apply sublist_skip.
  erewrite imap_ext; [apply (IH (S k))|]. intros i x _. cbn. do 2 f_equal. lia.
Qed.
End Items.

(** ** What the pack returns *)

Section Pack.
Context `{FR : FloatRepr}.
Variable pack_id : string.
Variable parse_float : string → result f64.
Variable gen_id : nat → string.
Abbreviation run := (invoice_extract pack_id parse_float gen_id).

Lemma extract_cases chunks exts : run chunks = Ok exts →
  ∃ drafts, extract_drafts pack_id parse_float chunks = Ok drafts ∧ exts = imap (λ i d, d (gen_id i)) drafts.
Proof. intros (drafts & Hd & [= <-])%bind_Ok. by exists drafts. Qed.

Lemma extracted_supported chunks exts e : run chunks = Ok exts → e ∈ exts →
  e_field_name e ∈ EMITTED ∧ derivation parse_float chunks (e_field_name e) (e_source_span e) (e_value e) ∧
  ∃ c, c ∈ chunks ∧ e_chunk_id e = c_chunk_id c ∧ text_of_chunk (e_source_span e) c.
Proof.
  intros (drafts & Hd & ->)%extract_cases (i & d & -> & Hi)%elem_of_lookup_imap.
  apply list_elem_of_lookup_2 in Hi.
  apply drafts_parts in Hd as [->|(items & Hp%(draft_parts_one pack_id parse_float) & ->)]; [by apply not_elem_of_nil in Hi|].
  destruct (parts_supported _ _ _ _ _ Hp Hi) as (field & Hf & Hs). destruct (Hs (gen_id i)) as (E & Hv & c & Hc).
  rewrite E. split; [done|]. split; [done|]. by exists c.
Qed.

Lemma emitted_field f : f ∈ EMITTED → f ∈ INVOICE_FIELDS.
Proof.
  assert (Forall (λ f, f ∈ INVOICE_FIELDS) EMITTED) as Hin by (apply (bool_decide_unpack _); vm_compute; exact I).
  rewrite Forall_forall in Hin. apply Hin.
Qed.

(** Every extraction is evidence: its field is one of the pack's, its span is
    text of a line of an ingested chunk, that chunk is the one it names, and its value
    comes from the span the way the field says (the span itself, the ISO form
    of the date it spells, the currency code, the amount without commas, the
    JSON text of items each read from a line of a chunk). *)
Theorem invoice_evidence chunks exts e : run chunks = Ok exts → e ∈ exts →
  e_field_name e ∈ INVOICE_FIELDS ∧ derivation parse_float chunks (e_field_name e) (e_source_span e) (e_value e) ∧
  ∃ c, c ∈ chunks ∧ e_chunk_id e = c_chunk_id c ∧ text_of_chunk (e_source_span e) c.
Proof.
  intros H He. destruct (extracted_supported _ _ _ H He) as (Hf & Hd & Hc). split; [by apply emitted_field|by split].
Qed.

(** One extraction a field, in the pack's order. *)
Theorem invoice_fields_unique chunks exts : run chunks = Ok exts →
  sublist (map e_field_name exts) EMITTED ∧ NoDup (map e_field_name exts).
Proof.
  intros (drafts & Hd & ->)%extract_cases.
  assert (sublist (map e_field_name (imap (λ i d, d (gen_id i)) drafts)) EMITTED) as H.
  { apply drafts_parts in Hd as [->|(items & Hp%(draft_parts_one pack_id parse_float) & ->)]; [apply sublist_nil_l|]. exact (parts_names _ _ _ _ gen_id Hp 0). }
  split; [exact H|]. eapply sublist_NoDup; [|exact H]. exact EMITTED_NoDup.
Qed.

(** What is emitted is what every candidate says. *)
Lemma emit_value field cands conf d id : d ∈ emit pack_id field cands conf → ∀ c, c ∈ cands → c.1.1 = e_value (d id).
Proof.
  destruct cands as [|[[v s] ch] cands]; [by intros ?%not_elem_of_nil|]. cbn [emit].
  destruct (forallb _ _) eqn:E; [|by intros ?%not_elem_of_nil]. intros ->%list_elem_of_singleton.
  rewrite forallb_forall in E. intros c [->|Hc]%elem_of_cons; [done|]. apply list_elem_of_In, E in Hc. by bool_prop.
Qed.

(** A total only of a final document, and only when all agree: where a total is
    extracted no line marks the document or a total as provisional, no total
    line has anything after its amount, and every total line of every chunk
    states that same amount. *)
Theorem invoice_total_safe chunks exts e : run chunks = Ok exts → e ∈ exts → e_field_name e = "total_amount" →
  nonfinal (records_of chunks) = false ∧
  ∀ r, r ∈ records_of chunks → unsafe_at r = false ∧
    ∀ m, fullmatch total_line r.1 = Some m → no_commas (text_group 1 m) = e_value e.
Proof.
  intros (drafts & Hd & ->)%extract_cases (i & d & -> & Hi)%elem_of_lookup_imap Hf. apply list_elem_of_lookup_2 in Hi.
  apply drafts_parts in Hd as [->|(items & Hp & ->)]; [by apply not_elem_of_nil in Hi|].
  destruct (parts_field _ _ _ _ _ (gen_id i) (draft_parts_one pack_id parse_float _ _ Hp) EMITTED_NoDup Hi)
    as (j & l & Hj & Hl & Hin). rewrite Hf in Hj.
  assert (j = 5%nat) as ->.
  { eapply NoDup_lookup; [exact EMITTED_NoDup|exact Hj|reflexivity]. }
  injection Hl as <-. unfold emit_total in Hin.
  destruct (nonfinal _); [by apply not_elem_of_nil in Hin|]. cbn [orb] in Hin.
  destruct (existsb unsafe_at _) eqn:Eu; [by apply not_elem_of_nil in Hin|]. split; [done|]. intros r Hr. split.
  { destruct (unsafe_at r) eqn:E; [|done]. exfalso. apply not_true_iff_false in Eu. apply Eu, existsb_exists.
    exists r. split; [by apply list_elem_of_In|done]. }
  intros m Hm. apply (emit_value _ _ _ _ (gen_id i) Hin (no_commas (text_group 1 m), text_group 1 m, r.2)).
  apply in_flat_map_elem. exists r. split; [done|]. unfold total_at. rewrite Hm. by left.
Qed.

(** *** Extraction and grounding *)

Lemma map_str_app f s t : map_str f (s +:+ t) = map_str f s +:+ map_str f t.
Proof. induction s as [|c s IH]; [done|]. rewrite app_cons_str. cbn. by rewrite IH. Qed.

Lemma lower_infix w s : infix_of w s → contains (lower w) (lower s) = true.
Proof. intros (a & b & ->). apply contains_spec. exists (lower a), (lower b). unfold lower. by rewrite !map_str_app. Qed.

Lemma relabel_text src c chunks : c ∈ chunks → ∃ c', c' ∈ relabel src chunks ∧ c_text c' = c_text c.
Proof.
  intros Hc. unfold relabel. destruct (truthy _); [|by exists c].
  eexists. split; [by apply list_elem_of_fmap_2|]. done.
Qed.

Lemma target_of_span value span : strip span ≠ "" → target_of value span = span.
Proof. intros Hs. unfold target_of, or_str. rewrite bool_decide_false; [done|]. intros E. by rewrite E in Hs. Qed.

(** A span that is text of a chunk is found by the first stage. *)
Lemma span_grounds get_embedding cosine read_float src chunks value span c :
  c ∈ chunks → infix_of span (c_text c) → strip span ≠ "" →
  fst (verify get_embedding cosine read_float default_verifier value span (relabel src chunks)) = EXACT.
Proof.
  intros Hc Hi Hs. pose proof (target_of_span value span Hs) as Et.
  apply verify_exact_iff; [reflexivity|by rewrite Et|]. destruct (relabel_text src c chunks Hc) as (c' & Hc' & E').
  exists c'. split; [done|]. rewrite Et, E'. by apply lower_infix.
Qed.

(** Refuse or cite, for invoices: whatever the embedding model and the number
    reader, the grounding cascade finds every extraction of the pack that has
    a span at its EXACT stage, so none is blocked for lack of evidence. *)
Theorem invoice_extractions_ground get_embedding cosine read_float src chunks exts e :
  run chunks = Ok exts → e ∈ exts → strip (e_source_span e) ≠ "" →
  fst (verify get_embedding cosine read_float default_verifier (e_value e) (e_source_span e) (relabel src chunks)) = EXACT.
Proof.
  intros H He Hs. destruct (extracted_supported _ _ _ H He) as (_ & _ & c & Hc & _ & Hi & _). by apply (span_grounds _ _ _ _ _ _ _ c).
Qed.
End Pack.

(** ** Dates *)

Definition digit_set : cset := CSet false false [Range "0" "9"].

Lemma in_digit_set c : is_digit c = true → in_set digit_set c = true.
Proof. intros H. unfold in_set, digit_set. cbn [items negated icase existsb]. change (item_has c (Range "0" "9")) with (is_digit c). by rewrite H. Qed.

Definition digits_of_width (w : nat) (n : Z) : bool :=
  (String.length (padded w n) =? w)%nat && forall_str is_digit (padded w n) && (int_of_digits (padded w n) =? n).
(** A digit string is at least the power of ten of what follows its first digit. *)
Lemma digits_above t : ∀ acc, forall_str is_digit t = true → 0 ≤ acc →
  acc * 10 ^ Z.of_nat (String.length t) ≤ fold_left (λ n c, 10 * n + (Z.of_N (code c) - 48)) (chars t) acc.
Proof.
  induction t as [|c t IH]; intros acc Hd Ha; [cbn; lia|]. cbn [forall_str] in Hd. apply andb_true_iff in Hd as [Hc Hd].
  cbn [String.length chars fold_left]. assert (48 ≤ Z.of_N (code c)) by (unfold is_digit, between in Hc; rewrite andb_true_iff, !N.leb_le in Hc; lia).
  etrans; [|apply IH; [done|lia]]. rewrite Nat2Z.inj_succ, Z.pow_succ_r by lia.
  pose proof (Z.pow_nonneg 10 (Z.of_nat (String.length t))). nia.
Qed.

Lemma pretty_short (n : N) w : Z.of_N n < 10 ^ Z.of_nat w → (0 < w)%nat → (String.length (pretty n) ≤ w)%nat.
Proof.
  intros Hn Hw. unfold pretty, pretty_N. case_decide as E; [subst; cbn; lia|].
  destruct (pretty_go n "" E) as (c & t & -> & Hc & Hf & Hi). rewrite app_nil_r_str.
  cbn [forall_str] in Hf. apply andb_true_iff in Hf as [Hd Hf].
  destruct (decide (String.length (String c t) ≤ w)%nat) as [?|Hl]; [done|exfalso]. cbn [String.length] in Hl.
  unfold int_of_digits in Hi. cbn [chars fold_left] in Hi. rewrite <-Hi in Hn.
  assert (49 ≤ Z.of_N (code c)) as H49.
  { destruct (decide (code c = 48)%N) as [E48|]; [|unfold is_digit, between in Hd; rewrite andb_true_iff, !N.leb_le in Hd; lia]. destruct Hc.
    rewrite <-(ascii_N_embedding c). unfold code in E48. by rewrite E48. }
  pose proof (digits_above t (10 * 0 + (Z.of_N (code c) - 48)) Hf ltac:(lia)) as Hge.
  assert (10 ^ Z.of_nat w ≤ 10 ^ Z.of_nat (String.length t)) by (apply Z.pow_le_mono_r; lia). nia.
Qed.

Lemma zeros_spec k : String.length (zeros k) = k ∧ forall_str is_digit (zeros k) = true ∧
  ∀ acc, acc = 0 → fold_left (λ n c, 10 * n + (Z.of_N (code c) - 48)) (chars (zeros k)) acc = 0.
Proof.
  assert (zeros (S k) = String "0" (zeros k)) as _ by (destruct k; done).
  induction k as [|k (H1 & H2 & H3)]; [done|]. assert (zeros (S k) = String "0" (zeros k)) as -> by (destruct k; done).
  split; [cbn; by rewrite H1|]. split; [cbn; by rewrite H2|]. intros acc ->. cbn [chars fold_left]. by apply H3.
Qed.

Lemma natural_digits s : natural s = true → forall_str is_digit s = true.
Proof.
  destruct s as [|c [|d t]]; [done|cbn; by intros ->|]. unfold natural. intros [[Hc _]%andb_true_iff H]%andb_true_iff.
  cbn [forall_str] in *. by rewrite Hc.
Qed.

Lemma padded_width w n : (0 < w)%nat → 0 ≤ n < 10 ^ Z.of_nat w → digits_of_width w n = true.
Proof.
  intros Hw Hn. unfold digits_of_width, padded. assert (∃ m : N, pretty n = pretty m ∧ n = Z.of_N m) as (m & -> & ->).
  { exists (Z.to_N n). destruct n; [done|done|lia]. }
  destruct (zeros_spec (w - String.length (pretty m))) as (Z1 & Z2 & Z3).
  pose proof (pretty_short m w ltac:(lia) Hw). destruct (pretty_natural m) as (Hnat & Hi & _).
  rewrite length_app_str, Z1, forall_str_app, Z2, (natural_digits _ Hnat), !andb_true_iff. split; [split; [|done]|].
  - apply Nat.eqb_eq. lia.
  - apply Z.eqb_eq. unfold int_of_digits in *. by rewrite chars_app, fold_left_app, Z3.
Qed.
Lemma in_dash_set : in_set (CSet false false [Range "-" "-"; Range "/" "/"]) "-" = true.
Proof. reflexivity. Qed.


Definition text_of (l : list ascii) : string := fold_right String "" l.

Lemma ymd_match y1 y2 y3 y4 m1 m2 d1 d2 :
  forallb is_digit [y1; y2; y3; y4; m1; m2; d1; d2] = true →
  ∃ x, fullmatch ymd_re (text_of [y1; y2; y3; y4; "-"%char; m1; m2; "-"%char; d1; d2]) = Some x ∧
    group 1 x = Some (text_of [y1; y2; y3; y4]) ∧ group 3 x = Some (text_of [m1; m2]) ∧ group 4 x = Some (text_of [d1; d2]).
Proof.
  cbn [forallb]. rewrite !andb_true_iff. intros (H1 & H2 & H3 & H4 & H5 & H6 & H7 & H8 & _).
  let r := eval vm_compute in ymd_re in change ymd_re with r. fold digit_set.
  repeat match goal with H : is_digit ?c = true |- _ => apply in_digit_set in H end.
  unfold fullmatch, text_of. cbn [fold_right].
  cbn -[digit_set in_set].
  repeat match goal with H : in_set digit_set ?c = true |- _ => rewrite H; clear H; cbn -[digit_set in_set] end.
  rewrite in_dash_set. cbn -[digit_set in_set].
  repeat match goal with H : in_set digit_set ?c = true |- _ => rewrite H; clear H; cbn -[digit_set in_set] end.
  eexists. split; [reflexivity|]. split_and!; reflexivity.
Qed.


Lemma text_of_chars s : text_of (chars s) = s.
Proof. induction s as [|c s IH]; [done|]. change (String c (text_of (chars s)) = String c s). by rewrite IH. Qed.

Lemma forall_str_chars p s : forallb p (chars s) = forall_str p s.
Proof. induction s as [|c s IH]; [done|]. cbn. by rewrite IH. Qed.

Lemma length_chars_str s : length (chars s) = String.length s.
Proof. induction s as [|c s IH]; [done|]. cbn. by rewrite IH. Qed.

Lemma chars_of_width w n : digits_of_width w n = true →
  ∃ l, padded w n = text_of l ∧ length l = w ∧ forallb is_digit l = true ∧ int_of_digits (text_of l) = n.
Proof.
  unfold digits_of_width. rewrite !andb_true_iff. intros [[Hl%Nat.eqb_eq Hd] Hn%Z.eqb_eq].
  exists (chars (padded w n)). rewrite text_of_chars, forall_str_chars, length_chars_str. by split_and!.
Qed.

(** A date written in ISO form is read back. *)
Lemma parse_isoformat year month day : valid_date year month day = true →
  parse_date (isoformat year month day) = Some (isoformat year month day).
Proof.
  intros Hv. assert (0 ≤ year ≤ 9999 ∧ 0 ≤ month ≤ 99 ∧ 0 ≤ day ≤ 99) as (Hy & Hm & Hd).
  { unfold valid_date in Hv. assert (days_in_month year month ≤ 31) by (unfold days_in_month; repeat case_match; lia).
    bool_prop. lia. }
  destruct (chars_of_width 4 year (padded_width 4 year ltac:(lia) ltac:(lia))) as (ly & Ey & Ly & Dy & Ny).
  destruct (chars_of_width 2 month (padded_width 2 month ltac:(lia) ltac:(lia))) as (lm & Em & Lm & Dm & Nm).
  destruct (chars_of_width 2 day (padded_width 2 day ltac:(lia) ltac:(lia))) as (ld & Ed & Ld & Dd & Nd).
  destruct ly as [|y1 [|y2 [|y3 [|y4 [|]]]]]; try done. destruct lm as [|m1 [|m2 [|]]]; try done.
  destruct ld as [|d1 [|d2 [|]]]; try done.
  destruct (ymd_match y1 y2 y3 y4 m1 m2 d1 d2) as (x & Hx & G1 & G3 & G4).
  { cbn [forallb] in *. rewrite !andb_true_iff in *. naive_solver. }
  assert (isoformat year month day = text_of [y1; y2; y3; y4; "-"%char; m1; m2; "-"%char; d1; d2]) as E
    by (unfold isoformat; rewrite Ey, Em, Ed; reflexivity).
  assert (int_group 1 x = year) as E1 by (unfold int_group, text_group; rewrite G1; exact Ny).
  assert (int_group 3 x = month) as E3 by (unfold int_group, text_group; rewrite G3; exact Nm).
  assert (int_group 4 x = day) as E4 by (unfold int_group, text_group; rewrite G4; exact Nd).
  unfold parse_date, date_parts. by rewrite E, Hx, E1, E3, E4, Hv, E.
Qed.

(** Dates are normalised: what is read is a date of the calendar in ISO form,
    and reading it again gives it back. *)
Theorem dates_normal s v : parse_date s = Some v →
  ∃ year month day, valid_date year month day = true ∧ v = isoformat year month day ∧ parse_date v = Some v.
Proof.
  unfold parse_date at 1. destruct (date_parts s) as [[[year [month|]] day]|]; [|done|done].
  destruct (valid_date year month day) eqn:E; [|done]. intros [= <-]. exists year, month, day.
  split; [done|]. split; [done|]. by apply parse_isoformat.
Qed.
Lemma dates_normal_witness : parse_date "29 February 2024" = Some "2024-02-29" ∧
  ∃ year month day, valid_date year month day = true ∧ "2024-02-29" = isoformat year month day ∧ parse_date "2024-02-29" = Some "2024-02-29".
Proof. split; [vm_compute; reflexivity|]. apply (dates_normal "29 February 2024"). vm_compute. reflexivity. Defined.

(** ** A concrete invoice *)

#[local] Existing Instance exact_float_repr.
Definition sample_text : string :=
  join (String LF "")
    ["Tax Invoice"; "Acme Works Ltd"; "Invoice No. INV-2024/7"; "| Date: 29 February 2024 |"; "Due: 03/31/2024";
     "Consulting services   2   $100.00   $1,200.00"; "Total Due: $1,200.00"; "VAT (25%): 240.00"; "Payment: net 30"].

Definition sample_chunk : Chunk :=
  {| c_chunk_id := "c1"; c_doc_id := "d1"; c_page := 1; c_bbox := None;
     c_text := sample_text; c_source_type := "pdf"; c_embedding := [] |}.
(** Reads an amount with two decimals. *)
Definition read_cents (s : string) : result f64 := Ok (lit (int_of_digits (filter_str is_digit s)) 100).
Definition name_of (i : nat) : string := pretty i.
Definition sample_extractions : list Extraction :=
  match invoice_extract "invoice" read_cents name_of [sample_chunk] with Ok l => l | _ => [] end.

Lemma sample_runs : invoice_extract "invoice" read_cents name_of [sample_chunk] = Ok sample_extractions.
Proof. vm_compute. reflexivity. Qed.

Definition sample_total : Extraction :=
  extraction "invoice" "total_amount" "1200.00" "1,200.00" (lit 95 100) "c1" (name_of 3).
Definition sample_date : Extraction :=
  extraction "invoice" "invoice_date" "2024-02-29" "29 February 2024" (lit 9 10) "c1" (name_of 2).

Lemma sample_total_in : sample_total ∈ sample_extractions.
Proof. apply (list_elem_of_lookup_2 _ 3). vm_compute. reflexivity. Qed.
Lemma sample_date_in : sample_date ∈ sample_extractions.
Proof. apply (list_elem_of_lookup_2 _ 2). vm_compute. reflexivity. Qed.

Lemma invoice_evidence_witness : e_field_name sample_date ∈ INVOICE_FIELDS ∧
  derivation read_cents [sample_chunk] (e_field_name sample_date) (e_source_span sample_date) (e_value sample_date) ∧
  ∃ c, c ∈ [sample_chunk] ∧ e_chunk_id sample_date = c_chunk_id c ∧ text_of_chunk (e_source_span sample_date) c.
Proof.
  exact (invoice_evidence "invoice" read_cents name_of [sample_chunk] sample_extractions sample_date sample_runs
    sample_date_in).
Defined.

Lemma invoice_fields_unique_witness : NoDup (map e_field_name sample_extractions).
Proof. exact (proj2 (invoice_fields_unique "invoice" read_cents name_of [sample_chunk] sample_extractions sample_runs)). Defined.

Lemma invoice_total_safe_witness : nonfinal (records_of [sample_chunk]) = false.
Proof.
  exact (proj1 (invoice_total_safe "invoice" read_cents name_of [sample_chunk] sample_extractions sample_total sample_runs
    sample_total_in eq_refl)).
Defined.

Lemma invoice_extractions_ground_witness :
  fst (verify no_embedding no_similarity no_float default_verifier "1200.00" "1,200.00" (relabel "pdf" [sample_chunk])) = EXACT.
Proof.
  apply (invoice_extractions_ground "invoice" read_cents name_of no_embedding no_similarity no_float "pdf" [sample_chunk]
    sample_extractions sample_total sample_runs sample_total_in).
  vm_compute. intros H. discriminate H.
Defined.

(** An invoice marked as a draft has no total. *)
Definition draft_chunk : Chunk :=
  {| c_chunk_id := "c1"; c_doc_id := "d1"; c_page := 1; c_bbox := None;
     c_text := sample_text +:+ String LF "" +:+ "Status: draft"; c_source_type := "pdf"; c_embedding := [] |}.
Lemma draft_example :
  (λ l, bool_decide ("total_amount" ∈ map e_field_name l)) <$>
    (match invoice_extract "invoice" read_cents name_of [draft_chunk] with Ok l => Some l | _ => None end) = Some false.
Proof. vm_compute. reflexivity. Qed.
