(* ===== verification/PackText.v ===== *)
(** * What the text packs share

    The packs of [packs/paper], [packs/contract] and [packs/generic] walk over
    the chunks in the same few ways: the first chunk in which something is
    found, the texts of all chunks without repetition, the stripped lines of a
    chunk.  This file has those loops, what they return as evidence, and the
    emission of an extraction. *)

From S2P Require Import Prelude PyStr PyText PyFloat Json DataModel QualityGate MemoryStore Provenance Grounding Orchestrator.
From S2P Require Import Regex Masking InvoicePack.

(** ** Texts *)

(** [s.endswith(p)] *)
Definition ends_with (p s : string) : bool :=
  (String.length p <=? String.length s)%nat && bool_decide (drop_str (String.length s - String.length p) s = p).
(** [c.isupper()] *)
Definition is_upper (c : ascii) : bool := negb (bool_decide (lower_char c = c)).
(** [re.findall] of a pattern without groups. *)
Definition findall (r : re) (s : string) : list string := map fst (finditer r s).
(** [[p.strip() for p in l if p.strip()]] *)
Definition stripped_parts (l : list string) : list string := filter (λ p, truthy p = true) (map strip l).
Definition stripped_lines (text : string) : list string := stripped_parts (splitlines text).
(** [any(w in text for w in words)] *)
Definition mentions (words : list string) (text : string) : bool := existsb (λ w, contains w text) words.

(** ** Loops over chunks *)

(** [for c in chunks: ...; break] *)
Fixpoint first_in {A} (f : Chunk → option A) (chunks : list Chunk) : option (A * Chunk) :=
  match chunks with
  | [] => None
  | c :: chunks' => match f c with Some x => Some (x, c) | None => first_in f chunks' end
  end.

(** [if x not in xs: xs.append(x)], with the chunk of the first one. *)
Abbreviation collected := (list string * option Chunk)%type.
Definition note (c : Chunk) (acc : collected) (x : string) : collected :=
  if bool_decide (x ∈ acc.1) then acc
  else (acc.1 ++ [x], match acc.2 with Some k => Some k | None => Some c end).
Definition collect_from (items : Chunk → list string) (acc : collected) (c : Chunk) : collected :=
  fold_left (note c) (items c) acc.
Definition collect (items : Chunk → list string) (chunks : list Chunk) : collected :=
  fold_left (collect_from items) chunks ([], None).

(** [chunk.chunk_id if chunk else default] *)
Definition id_of (fallback : string) (c : option Chunk) : string := from_option c_chunk_id fallback c.
Definition json_list `{FR : FloatRepr} (l : list string) : string := dumps true (JArr (map JStr l)).

(** ** What they return *)

Definition in_chunks (w : string) (chunks : list Chunk) : Prop := ∃ c, c ∈ chunks ∧ infix_of w (c_text c).

Lemma first_in_Some {A} (f : Chunk → option A) chunks x c : first_in f chunks = Some (x, c) → c ∈ chunks ∧ f c = Some x.
Proof.
  induction chunks as [|c' chunks IH]; [done|]. cbn [first_in]. destruct (f c') eqn:E.
  - intros [= -> ->]. split; [by left|done].
  - intros [Hc Hf]%IH. split; [by right|done].
Qed.

Lemma first_in_None {A} (f : Chunk → option A) chunks : first_in f chunks = None ↔ ∀ c, c ∈ chunks → f c = None.
Proof.
  induction chunks as [|c chunks IH]; cbn [first_in]; [split; [intros _ c H; by apply not_elem_of_nil in H|done]|].
  destruct (f c) eqn:E.
  - split; [done|]. intros H. specialize (H c). rewrite E in H. by discriminate H; left.
  - rewrite IH. split; [intros H c' [->|Hc]%elem_of_cons; auto|]. intros H c' Hc. apply H. by right.
Qed.

(** What a collection holds: no repetition, only items, and the chunk of its
    first item. *)
Definition collection (items : Chunk → list string) (chunks : list Chunk) (acc : collected) : Prop :=
  NoDup acc.1 ∧ (∀ x, x ∈ acc.1 → ∃ c, c ∈ chunks ∧ x ∈ items c) ∧
  match acc.1, acc.2 with
  | [], None => True
  | x :: _, Some c => c ∈ chunks ∧ x ∈ items c
  | _, _ => False
  end.

Lemma note_collection items chunks c acc x : c ∈ chunks → x ∈ items c → collection items chunks acc →
  collection items chunks (note c acc x).
Proof.
  intros Hc Hx (Hn & Hi & Hf). unfold note. destruct (bool_decide (x ∈ acc.1)) eqn:E; bool_prop; [done|].
  destruct acc as [xs k]. cbn [fst snd] in *. split; [|split].
  - apply NoDup_app. split; [done|]. split; [|apply NoDup_singleton]. intros y Hy ->%list_elem_of_singleton. done.
  - intros y [Hy| ->%list_elem_of_singleton]%elem_of_app; eauto.
  - destruct xs as [|y xs], k; cbn [app]; try done; by split.
Qed.

Lemma collect_from_spec items chunks c l acc : c ∈ chunks → (∀ x, x ∈ l → x ∈ items c) → collection items chunks acc →
  collection items chunks (fold_left (note c) l acc) ∧ (∀ x, x ∈ l ∨ x ∈ acc.1 → x ∈ (fold_left (note c) l acc).1).
Proof.
  intros Hc. revert acc. induction l as [|x l IH]; intros acc Hl Ha; cbn [fold_left].
  { split; [done|]. intros x [H|H]; [by apply not_elem_of_nil in H|done]. }
  destruct (IH (note c acc x)) as [H1 H2].
  { intros y Hy. apply Hl. by right. } { apply note_collection; [done| |done]. apply Hl. by left. }
  split; [done|]. intros y Hy. apply H2.
  assert (y ∈ (note c acc x).1 ∨ y ∈ l) as [?|?]; [|by right|by left]. unfold note.
  destruct (bool_decide (x ∈ acc.1)) eqn:E; bool_prop; cbn [fst]; destruct Hy as [[-> |Hy]%elem_of_cons|Hy]; auto; left;
    apply elem_of_app; auto. right. by apply list_elem_of_singleton.
Qed.

Lemma collect_complete items chunks : ∀ all acc, (∀ c, c ∈ chunks → c ∈ all) → collection items all acc →
  collection items all (fold_left (collect_from items) chunks acc) ∧
  ∀ x, x ∈ acc.1 ∨ (∃ c, c ∈ chunks ∧ x ∈ items c) → x ∈ (fold_left (collect_from items) chunks acc).1.
Proof.
  induction chunks as [|c chunks IH]; intros all acc Hin Ha; cbn [fold_left].
  { split; [done|]. intros x [H|(c & H & _)]; [done|by apply not_elem_of_nil in H]. }
  destruct (collect_from_spec items all c (items c) acc) as [H1 H2]; [apply Hin; by left|done|done|].
  destruct (IH all (collect_from items acc c)) as [H3 H4]; [intros; apply Hin; by right|done|].
  split; [done|]. intros x Hx. apply H4. destruct Hx as [Hx|(c' & [->|Hc]%elem_of_cons & Hx)]; [left; apply H2; by right| |eauto].
  left. apply H2. by left.
Qed.

Lemma collect_spec items chunks : collection items chunks (collect items chunks) ∧
  ∀ x, x ∈ (collect items chunks).1 ↔ ∃ c, c ∈ chunks ∧ x ∈ items c.
Proof.
  destruct (collect_complete items chunks chunks ([], None)) as [H1 H2]; [done| |].
  { split; [constructor|]. split; [|done]. intros x H. by apply not_elem_of_nil in H. }
  split; [done|]. intros x. split; [apply H1|]. intros H. apply H2. by right.
Qed.

Lemma stripped_parts_elem l p : p ∈ stripped_parts l → p ≠ "" ∧ ∃ q, q ∈ l ∧ p = strip q.
Proof.
  unfold stripped_parts. rewrite list_elem_of_filter. intros [Ht (q & -> & Hq)%list_elem_of_fmap].
  split; [|by exists q]. intros E. by rewrite E in Ht.
Qed.

Lemma stripped_line text p : p ∈ stripped_lines text → infix_of p text ∧ p ≠ "".
Proof.
  intros (Hp & q & Hq & ->)%stripped_parts_elem. split; [|done]. eapply infix_trans; [apply infix_strip|by apply splitlines_in].
Qed.

(** The matches of a scan are text of it. *)
Lemma scanned_infix r p s l : scanned r p s l → ∀ w y, (w, y) ∈ found_in l → infix_of w s ∧ w ≠ "".
Proof.
  unfold found_in. induction 1 as [p|p c t l _ _ IH|p w t y l Hm <- Hw _ IH]; cbn [omap list_omap]; intros u z H.
  - by apply not_elem_of_nil in H.
  - destruct (IH u z H). split; [by apply infix_cons|done].
  - apply elem_of_cons in H as [[= -> ->]|H].
    + split; [by exists "", (rst y)|done].
    + destruct (IH u z H) as [(a & b & ->) ?]. split; [|done]. exists (w +:+ a), b. by rewrite !app_assoc_str.
Qed.

Lemma findall_infix r s w : (0 < min_len r)%nat → w ∈ findall r s → infix_of w s ∧ w ≠ "".
Proof.
  intros Hr. unfold findall. intros ([u y] & -> & H)%list_elem_of_fmap. by eapply scanned_infix, H; apply segments_scanned.
Qed.

(** Text captured by a match, also stripped or cut. *)
Lemma infix_nil s : infix_of "" s.
Proof. by exists "", s. Qed.

Lemma re_match_text r s m n : re_match r s = Some m → infix_of (text_group n m) s.
Proof. intros H. unfold text_group. destruct (group n m) eqn:G; [by eapply re_match_group|apply infix_nil]. Qed.

Lemma search_text r s x m n : search r s = Some (x, m) → infix_of (text_group n m) s.
Proof. intros H. unfold text_group. destruct (group n m) eqn:G; [by eapply search_group|apply infix_nil]. Qed.

Lemma infix_of_strip w s : infix_of w s → infix_of (strip w) s.
Proof. apply infix_trans, infix_strip. Qed.
Lemma infix_of_take n w s : infix_of w s → infix_of (take_str n w) s.
Proof. apply infix_trans, infix_take. Qed.

Lemma search_rest r s x m : search r s = Some (x, m) → infix_of (rst m) s.
Proof.
  intros (a & -> & _ & _ & Hm)%search_at_Some. destruct (matches_window _ _ _ Hm) as (w & -> & _).
  exists (a +:+ w), "". by rewrite app_nil_r_str, app_assoc_str.
Qed.

(** A line of the texts joined by line breaks is text of one of them. *)
Lemma line_of_join w l : l ≠ [] → one_line w = true → infix_of w (join (String LF "") l) → ∃ x, x ∈ l ∧ infix_of w x.
Proof.
  intros Hl Hw. induction l as [|x l IH]; [done|]. destruct l as [|y l].
  - cbn [join]. intros H. exists x. split; [by left|done].
  - intros H. change (infix_of w (x +:+ String LF "" +:+ join (String LF "") (y :: l))) in H. rewrite app_cons_str, app_nil_l_str in H.
    apply one_line_joined in H as [H|H]; [..|done|done].
    + exists x. split; [by left|done].
    + destruct (IH ltac:(done) H) as (z & Hz & Hi). exists z. split; [by right|done].
Qed.

Lemma lower_line_break c : is_line_break (lower_char c) = is_line_break c.
Proof. by destruct c as [[] [] [] [] [] [] [] []]. Qed.

Lemma one_line_lower w : one_line (lower w) = one_line w.
Proof. unfold one_line, lower. induction w as [|c w IH]; [done|]. cbn [map_str forall_str]. by rewrite IH, lower_line_break. Qed.

Lemma lower_join l : lower (join (String LF "") l) = join (String LF "") (map lower l).
Proof.
  induction l as [|x [|y l] IH]; [done..|]. change (lower (x +:+ String LF "" +:+ join (String LF "") (y :: l)) =
    lower x +:+ String LF "" +:+ join (String LF "") (map lower (y :: l))). rewrite <-IH. unfold lower. by rewrite !map_str_app.
Qed.

(** A span that a chunk contains up to case is found by the first stage. *)
Lemma span_grounds_lower get_embedding cosine read_float src chunks value span c :
  c ∈ chunks → contains (lower span) (lower (c_text c)) = true → strip span ≠ "" →
  fst (verify get_embedding cosine read_float default_verifier value span (relabel src chunks)) = EXACT.
Proof.
  intros Hc Hi Hs. pose proof (target_of_span value span Hs) as Et.
  apply verify_exact_iff; [reflexivity|by rewrite Et|]. destruct (relabel_text src c chunks Hc) as (c' & Hc' & E').
  exists c'. split; [done|]. by rewrite Et, E'.
Qed.

(** Removing matches removes characters. *)
Lemma render_forall r p s l q : scanned r p s l → forall_str q s = true → forall_str q (render "" l) = true.
Proof.
  induction 1 as [|p c s l _ _ IH|p w s y l _ _ _ _ IH]; [done|..].
  - cbn [forall_str render foldr]. intros [Hc Hs]%andb_true_iff. apply andb_true_iff. split; [done|by apply IH].
  - rewrite forall_str_app. intros [_ Hs]%andb_true_iff. by apply IH.
Qed.

Lemma sub_one_line r s : (0 < min_len r)%nat → one_line s = true → one_line (sub r "" s) = true.
Proof. intros Hr. by eapply render_forall, segments_scanned. Qed.

(** The pieces of a split are text of it. *)
Lemma pieces_infix r p s l : scanned r p s l →
  (∃ t, s = (pieces l).1 +:+ t) ∧ ∀ x, x ∈ (pieces l).2 → infix_of x s.
Proof.
  induction 1 as [p|p c t l _ _ IH|p w t y l _ _ _ _ IH].
  - split; [by exists ""|]. intros x H. by apply not_elem_of_nil in H.
  - cbn [pieces]. destruct (pieces l) as [v vs]. cbn [fst snd] in *. destruct IH as [[u ->] IH]. split; [by exists u|].
    intros x Hx. by apply infix_cons, IH.
  - cbn [pieces]. destruct (pieces l) as [v vs]. cbn [fst snd] in *. destruct IH as [[u ->] IH]. split; [by eexists|].
    intros x Hx. assert (infix_of x (v +:+ u)) as (a & b & E).
    { apply elem_of_cons in Hx as [->|Hx]; [by exists "", u|by apply IH]. }
    exists (w +:+ a), b. by rewrite E, !app_assoc_str.
Qed.

Lemma re_split_infix r s x : (0 < min_len r)%nat → x ∈ re_split r s → infix_of x s.
Proof.
  intros Hr. unfold re_split. pose proof (pieces_infix _ _ _ _ (segments_scanned r s Hr)) as [[t Ht] H].
  destruct (pieces (segments r s)) as [w ws]. cbn [fst snd] in *. intros [->|Hx]%elem_of_cons; [by exists "", t|by apply H].
Qed.

(** An anchored pattern is removed from the start of a text only. *)
Definition anchored (r : re) : bool := match r with Cat At_start _ => true | _ => false end.

Lemma sub_anchored_rest r s : anchored r = true → (0 < min_len r)%nat →
  sub r "" s = s ∨ ∃ y, matches r (start s) y ∧ match_at r (start s) = Some y ∧ sub r "" s = rst y.
Proof.
  intros Ha Hr. assert (∀ n c t, (String.length t ≤ n)%nat → render "" (segments_at n r (Some c) t) = t) as Hplain.
  { intros n c t Hn. apply (scanned_plain r (Some c)); [by apply segments_at_scanned|].
    apply (scanned_nowhere r (Some c) t); [done|by apply segments_at_scanned|].
    intros a u y -> H'. destruct r as [| |r1 r2| | | | | | | | |]; try done. destruct r1; try done.
    inversion H' as [| |? ? ? ? ? H1 _| | | | | | | | | | |]; subst. inversion H1; subst. cbn in *.
    destruct a as [|d a]; [done|]. rewrite last_of_cons in *. unfold last_of in *. destruct (last (chars a)); done. }
  unfold sub, segments. destruct s as [|c s]; [by left|]. cbn [String.length segments_at]. fold (start (String c s)).
  destruct (match_at r (start (String c s))) as [y|] eqn:E.
  - apply match_at_Some in E as Hm. apply matches_min_len in Hm as Hl. cbn [start rst String.length] in Hl.
    destruct (Nat.ltb_spec (String.length (rst y)) (S (String.length s))) as [_|]; [|lia].
    right. exists y. split; [done|]. split; [done|]. cbn [render foldr]. rewrite app_nil_l_str.
    change (foldr _ "" ?l) with (render "" l). destruct (matches_window _ _ _ Hm) as (w & Ew & Ep). cbn [start prv] in Ep.
    assert (∃ d, prv y = Some d) as [d ->].
    { rewrite Ep. destruct w as [|d w]; [apply (f_equal String.length) in Ew; cbn in Ew; rewrite app_nil_l_str in Ew; lia|].
      rewrite last_of_cons. unfold last_of. destruct (last (chars w)); by eexists. }
    apply Hplain. lia.
  - left. cbn [render foldr]. change (foldr _ "" ?l) with (render "" l). by rewrite Hplain.
Qed.

Lemma sub_anchored r s : anchored r = true → (0 < min_len r)%nat → ∃ w, s = w +:+ sub r "" s.
Proof.
  intros H1 H2. destruct (sub_anchored_rest r s H1 H2) as [->|(y & (w & Ew & _)%matches_window & _ & ->)]; [by exists ""|by exists w].
Qed.

Lemma sub_anchored_infix r s : anchored r = true → (0 < min_len r)%nat → infix_of (sub r "" s) s.
Proof. intros H1 H2. destruct (sub_anchored r s H1 H2) as [w Hw]. exists w, "". by rewrite app_nil_r_str. Qed.

(** *** Text that is not blank *)

Lemma nonblank_char s : exists_str (λ c, negb (is_space c)) s = true → strip s ≠ "".
Proof.
  intros H E. destruct (strip_split s) as (x & y & Es & Hx & Hy). rewrite E, app_nil_l_str in Es. subst s.
  unfold exists_str in H. rewrite negb_true_iff, forall_str_app in H. apply not_true_iff_false in H. apply H, andb_true_iff.
  assert (∀ s, forall_str is_space s = true → forall_str (λ c, negb (negb (is_space c))) s = true) as Hb.
  { induction s as [|c s IH]; [done|]. cbn [forall_str]. rewrite !andb_true_iff, negb_involutive. naive_solver. }
  split; by apply Hb.
Qed.

(** A text that starts with a character that is no white space, and what is cut from it. *)
Definition starts_solid (s : string) : Prop := match s with String c _ => is_space c = false | "" => False end.

Lemma starts_solid_nonblank s : starts_solid s → strip s ≠ "".
Proof. destruct s as [|c s]; [done|]. intros H. apply nonblank_char. unfold exists_str. cbn in *. by rewrite H. Qed.

Lemma starts_solid_take n s : starts_solid s → (0 < n)%nat → starts_solid (take_str n s).
Proof. destruct s as [|c s], n as [|n]; cbn; [done|done|lia|done]. Qed.

Lemma strip_solid s : strip s ≠ "" → starts_solid (strip s).
Proof.
  unfold strip. intros H. induction s as [|c s IH]; [done|]. cbn [lstrip] in *. destruct (is_space c) eqn:E; [by apply IH|].
  cbn [rstrip] in *. by rewrite E in *.
Qed.

Lemma cut_nonblank n s : strip s ≠ "" → (0 < n)%nat → strip (take_str n (strip s)) ≠ "".
Proof. intros. by apply starts_solid_nonblank, starts_solid_take; [apply strip_solid|]. Qed.

Lemma stripped_part_solid l p : p ∈ stripped_parts l → starts_solid p.
Proof. intros (Hp & q & _ & ->)%stripped_parts_elem. by apply strip_solid. Qed.

(** The matches of a pattern that needs such a character are not blank. *)
Lemma findall_nonblank r s w : (0 < min_len r)%nat → needs (λ c, negb (is_space c)) r = true → w ∈ findall r s → strip w ≠ "".
Proof.
  intros Hr Hn. unfold findall. intros ([u y] & -> & H)%list_elem_of_fmap. cbn [fst]. revert H. unfold finditer, found_in.
  induction (segments_scanned r s Hr) as [p|p c t l _ _ IH|p v t y' l Hm <- _ _ IH]; cbn [omap list_omap].
  - by intros ?%not_elem_of_nil.
  - exact IH.
  - intros [[= -> ->]|H]%elem_of_cons; [|by apply IH]. apply nonblank_char. by apply (matches_needs _ _ _ _ Hm Hn).
Qed.

(** A pattern that ends with a greedy repetition leaves nothing that the
    repetition could take. *)
Fixpoint last_star (r : re) : option cset :=
  match r with Cat _ b => last_star b | Star true (Chars cs) => Some cs | _ => None end.

Lemma loop_greedy cs n : ∀ x y, (String.length (rst x) ≤ n)%nat → loop true (Regex.run (Chars cs)) n Some x = Some y →
  match rst y with String c _ => in_set cs c = false | "" => True end.
Proof.
  assert (∀ n x, is_Some (loop true (Regex.run (Chars cs)) n Some x)) as Hsome.
  { intros [|k] x; cbn [loop]; [by eexists|]. apply or_else_is_Some. right. by eexists. }
  induction n as [|n IH]; intros [p s g] y Hn; cbn [loop Regex.run rst] in *.
  - intros [= <-]. cbn. by destruct s; [|cbn in Hn; lia].
  - destruct s as [|c s]; [intros [= <-]; done|]. destruct (in_set cs c) eqn:E; [|intros [= <-]; by cbn].
    cbn [String.length grp] in *. rewrite (proj2 (Nat.ltb_lt _ _) (Nat.lt_succ_diag_r _)).
    destruct (Hsome n (St (Some c) s g)) as [z Hz]. rewrite Hz. intros [= <-]. eapply (IH (St (Some c) s g)); [cbn [rst]; lia|exact Hz].
Qed.

Lemma match_greedy r cs : last_star r = Some cs → ∀ x y, match_at r x = Some y →
  match rst y with String c _ => in_set cs c = false | "" => True end.
Proof.
  unfold match_at. induction r as [| |a _ b IH| |g a _| | | | | | |]; cbn [last_star]; try done.
  - intros Hl x y H. cbn [Regex.run] in H. apply run_sound in H as (z & _ & H). by apply (IH Hl z).
  - destruct g; [|done]. destruct a as [|cs'| | | | | | | | | |]; try done. intros [= ->] x y H. cbn [Regex.run] in H. by eapply loop_greedy, H.
Qed.

(** An anchored pattern that ends by taking all white space leaves a stripped
    text without white space in front. *)
Lemma sub_solid r s cs : anchored r = true → (0 < min_len r)%nat → last_star r = Some cs → (∀ c, is_space c = true → in_set cs c = true) →
  sub r "" (strip s) ≠ "" → starts_solid (sub r "" (strip s)).
Proof.
  intros Ha Hr Hl Hcs. destruct (sub_anchored_rest r (strip s) Ha Hr) as [->|(y & _ & Hy & ->)]; [by apply strip_solid|].
  apply (match_greedy r cs Hl) in Hy. destruct (rst y) as [|c t]; [done|]. intros _. cbn.
  destruct (is_space c) eqn:E; [|done]. by rewrite (Hcs c E) in Hy.
Qed.

(** A collection that starts with a chunk noted earlier. *)
Lemma collect_noted (Q : string → Prop) items chunks k :
  (∀ c x, c ∈ chunks → x ∈ items c → Q x) → match k with Some c => c ∈ chunks | None => True end →
  let l := fold_left (collect_from items) chunks ([], k) in
  (∀ x, x ∈ l.1 → Q x) ∧ match l.2 with Some c => c ∈ chunks | None => l.1 = [] end.
Proof.
  intros HQ Hk. apply (fold_left_inv (λ acc : collected, (∀ x, x ∈ acc.1 → Q x) ∧
    match acc.2 with Some c => c ∈ chunks | None => acc.1 = [] end)).
  - cbn. split; [intros x Hx; by apply not_elem_of_nil in Hx|]. by destruct k.
  - intros acc c Hc Ha. unfold collect_from. apply fold_left_inv; [done|]. clear acc Ha.
    intros acc x Hx [Ha Hn]. unfold note. destruct (bool_decide _); [done|]. cbn. split.
    + intros y [Hy| ->%list_elem_of_singleton]%elem_of_app; [by apply Ha|by eapply HQ].
    + by destruct acc.2.
Qed.

(** ** Drafts, one at most per field *)

Definition one_of (P : string → Extraction → Prop) (field : string) (l : list (string → Extraction)) : Prop :=
  l = [] ∨ ∃ d, l = [d] ∧ ∀ id, e_field_name (d id) = field ∧ P field (d id).

Lemma one_of_elem P fields parts d id : Forall2 (one_of P) fields parts → d ∈ concat parts →
  e_field_name (d id) ∈ fields ∧ P (e_field_name (d id)) (d id).
Proof.
  induction 1 as [|field l fields parts H _ IH]; cbn [concat]; [by intros ?%not_elem_of_nil|].
  intros [Hd|Hd]%elem_of_app.
  - destruct H as [->|(d' & -> & H)]; [by apply not_elem_of_nil in Hd|]. apply list_elem_of_singleton in Hd as ->.
    destruct (H id) as [E Hp]. rewrite E. split; [by left|done].
  - destruct (IH Hd) as [H1 H2]. split; [by right|done].
Qed.

Lemma one_of_names P fields parts gen : Forall2 (one_of P) fields parts →
  ∀ k, sublist (map e_field_name (imap (λ i (d : string → Extraction), d (gen (k + i)%nat)) (concat parts))) fields.
Proof.
  induction 1 as [|field l fields parts H _ IH]; intros k; cbn [concat imap map]; [constructor|].
  destruct H as [->|(d & -> & H)]; cbn [app].
  - apply sublist_cons. apply IH.
  - cbn [imap map]. rewrite (proj1 (H _)). apply sublist_skip. specialize (IH (S k)).
    erewrite imap_ext; [exact IH|]. intros i x _. cbn. f_equal. f_equal. lia.
Qed.

Lemma drafts_spec P fields parts (gen : nat → string) : Forall2 (one_of P) fields parts → NoDup fields →
  let exts := imap (λ i (d : string → Extraction), d (gen i)) (concat parts) in
  (∀ e, e ∈ exts → e_field_name e ∈ fields ∧ P (e_field_name e) e) ∧ NoDup (map e_field_name exts).
Proof.
  intros H Hn. split.
  - intros e (i & d & -> & Hd)%elem_of_lookup_imap. by eapply one_of_elem, list_elem_of_lookup_2.
  - eapply sublist_NoDup; [exact Hn|]. exact (one_of_names P fields parts gen H 0).
Qed.

(** What an extraction cites. *)
Definition cites (chunks : list Chunk) (e : Extraction) : Prop :=
  ∃ c, c ∈ chunks ∧ e_chunk_id e = c_chunk_id c ∧ infix_of (e_source_span e) (c_text c).
Definition cites_some (chunks : list Chunk) (e : Extraction) : Prop :=
  (∃ c, c ∈ chunks ∧ e_chunk_id e = c_chunk_id c) ∧ in_chunks (e_source_span e) chunks.
Definition listing (items : Chunk → list string) (chunks : list Chunk) (l : list string) : Prop :=
  NoDup l ∧ ∀ x, x ∈ l ↔ ∃ c, c ∈ chunks ∧ x ∈ items c.
