(* ===== verification/PaperPack.v ===== *)
(** * The paper pack

    [packs/paper/pack.py]: title, authors, abstract, claims, methods, reported
    numbers and references of a research paper.  Texts are below U+0100, so the
    bullet of the claim patterns is left out.  What every extraction cites is
    proved, with the places where a citation names another chunk than the one
    quoted. *)

From S2P Require Import Prelude PyStr PyText PyFloat Json DataModel QualityGate MemoryStore Provenance Grounding Orchestrator.
From S2P Require Import Regex InvoicePack PackText.

Definition PAPER_FIELDS : list string :=
  ["title"; "authors"; "abstract_summary"; "key_claims"; "methods"; "reported_numbers"; "figure_references";
   "table_references"].

(** ** Title and authors *)

Definition title_of (chunks : list Chunk) : string :=
  match chunks with [] => "" | c :: _ => default "" (hd_error (stripped_lines (c_text c))) end.

Definition author_label : re := compile "^(?:authors?|by)\s*:\s*(.+)" IGNORECASE.
Definition name_separator : re := compile "[,;]|\s+and\s+" no_flags.
Definition author_separator : re := compile "[,;]|\band\b" IGNORECASE.

Definition skipped_line (line : string) : bool :=
  bool_decide (lower line ∈ ["abstract"; "introduction"; "keywords"; "references"]) ||
  contains ":" (match re_match author_label line with Some m => text_group 1 m | None => line end) ||
  ends_with "." line.

Definition capitalised (p : string) : bool := match p with String c _ => is_upper c | "" => false end.

(** A line that looks like a list of names. *)
Definition author_line (line : string) : bool :=
  negb (skipped_line line) &&
  ((contains "," line || contains " and " (lower line)) && (String.length line <? 200)%nat) &&
  (let name_parts := stripped_parts (re_split name_separator line) in
   existsb capitalised name_parts && forallb (λ p, (length (split p) <=? 4)%nat) name_parts).

Definition names_in (line : string) : list string := stripped_parts (re_split author_separator line).

Definition authors_of (c : Chunk) : option (list string * string) :=
  line ← find_first author_line (stripped_lines (c_text c));
  match names_in line with [] => None | names => Some (names, line) end.

Definition second_chunk_authors (chunks : list Chunk) : option (list string * string * Chunk) :=
  c ← chunks !! 1%nat;
  line ← hd_error (stripped_lines (c_text c));
  match names_in line with [] => None | names => Some (names, line, c) end.

Definition authors (chunks : list Chunk) : option (list string * string * Chunk) :=
  match first_in authors_of (take 4 chunks) with Some x => Some x | None => second_chunk_authors chunks end.

(** ** Abstract *)

Definition abstract_re : re := compile "abstract\b:?\s*(.*)" IGNORECASE_DOTALL.
Definition abstract_in (c : Chunk) : option string :=
  if contains "abstract" (lower (c_text c)) then
    match search abstract_re (c_text c) with Some (_, m) => Some (take_str 300 (strip (text_group 1 m))) | None => None end
  else None.

(** ** Claims *)

Definition claims_header : re := compile
  "(?:key\s+claims|main\s+results|key\s+contributions|results|contributions|findings|conclusions)\s*:" IGNORECASE.
Definition numbered_item : re := compile "^\d+\.\s*(.+)" no_flags.
Definition bullet_item : re := compile "^[-*]\s*(.+)" no_flags.
Definition number_prefix : re := compile "^\d+\.\s*" no_flags.
Definition claim_words : list string :=
  ["we show"; "we propose"; "contribution"; "our results"; "conclude"; "outperform"; "improve"].

(** The text of an item of a list. *)
Definition item_text (line : string) : option string :=
  match re_match numbered_item line with
  | Some m => Some (strip (text_group 1 m))
  | None => m ← re_match bullet_item line; Some (strip (text_group 1 m))
  end.

(** [claims], [claims_chunk] and [in_claims_section]. *)
Record scanning := { in_section : bool; claims : list string; claims_chunk : option Chunk }.

Definition or_chunk (k : option Chunk) (c : Chunk) : option Chunk := match k with Some k => Some k | None => Some c end.

Definition claim_line (c : Chunk) (s : scanning) (line : string) : scanning :=
  let line := strip line in
  match re_match claims_header line with
  | Some _ => {| in_section := true; claims := claims s; claims_chunk := or_chunk (claims_chunk s) c |}
  | None =>
      if in_section s then
        match item_text line with
        | Some t =>
            if (10 <? String.length t)%nat && negb (bool_decide (t ∈ claims s))
            then {| in_section := true; claims := claims s ++ [t]; claims_chunk := claims_chunk s |} else s
        | None =>
            if truthy line && negb (starts_with "---" line) && (0 <? length (claims s))%nat
            then {| in_section := false; claims := claims s; claims_chunk := claims_chunk s |} else s
        end
      else s
  end.

(** The first loop over the chunks, up to a chunk with claims. *)
Fixpoint section_claims (chunks : list Chunk) (s : scanning) : scanning :=
  match chunks with
  | [] => s
  | c :: chunks' =>
      let s' := fold_left (claim_line c) (splitlines (c_text c))
                  {| in_section := false; claims := claims s; claims_chunk := claims_chunk s |} in
      match claims s' with [] => section_claims chunks' s' | _ => s' end
  end.

Definition fallback_claims (c : Chunk) : list string :=
  omap (λ line, if mentions claim_words (lower line) then
                  let cleaned := sub number_prefix "" (strip line) in
                  if (10 <? String.length cleaned)%nat then Some cleaned else None
                else None) (splitlines (c_text c)).

Definition key_claims (chunks : list Chunk) : collected :=
  let s := section_claims chunks {| in_section := false; claims := []; claims_chunk := None |} in
  match claims s with
  | [] => fold_left (collect_from fallback_claims) chunks ([], claims_chunk s)
  | l => (l, claims_chunk s)
  end.

(** ** Methods *)

Definition method_words : list string := ["methodology"; "methods"; "experimental setup"; "proposed approach"].
Definition methods_header : re := compile "^(?:methodology|methods|experimental setup|proposed approach)\s*:?$" IGNORECASE.
Definition full_stop : re := compile "(?<=[.])\s+" no_flags.

Definition methods_content (c : Chunk) : string :=
  join " " (filter (λ l, at_start methods_header l = false) (stripped_lines (c_text c))).
Definition method_sentences (c : Chunk) : list string :=
  filter (λ s, (15 <? String.length s)%nat = true) (map strip (re_split full_stop (methods_content c))).
Definition methods (chunks : list Chunk) : option (list string * Chunk) :=
  first_in (λ c, if mentions method_words (lower (c_text c)) then Some (method_sentences c) else None) chunks.

(** ** Numbers and references *)

Definition decimal_re : re := compile "\b\d+\.\d+%?\b" no_flags.
Definition percent_re : re := compile "\b\d+%\b" no_flags.
Definition figure_re : re := compile "\b(?:Figure|Fig\.)\s*\d+\b" IGNORECASE.
Definition table_re : re := compile "\bTable\s*\d+\b" IGNORECASE.

Definition numbers_in (c : Chunk) : list string := findall decimal_re (c_text c) ++ findall percent_re (c_text c).
Definition figures_in (c : Chunk) : list string := findall figure_re (c_text c).
Definition tables_in (c : Chunk) : list string := findall table_re (c_text c).

(** ** The pack *)

Section Paper.
Context `{FR : FloatRepr}.
Variable pack_id : string.

Definition emit_title (chunks : list Chunk) : list (string → Extraction) :=
  let title := title_of chunks in
  if truthy title then [extraction pack_id "title" title title (lit 9 10) (id_of "" (hd_error chunks))] else [].

Definition emit_authors (chunks : list Chunk) : list (string → Extraction) :=
  match authors chunks with
  | Some (names, line, c) => [extraction pack_id "authors" (json_list names) line (lit 85 100) (c_chunk_id c)]
  | None => []
  end.

Definition emit_abstract (chunks : list Chunk) : list (string → Extraction) :=
  match first_in abstract_in chunks with
  | Some (text, c) =>
      if truthy text then [extraction pack_id "abstract_summary" text (take_str 50 text) (lit 9 10) (c_chunk_id c)] else []
  | None => []
  end.

(** A list field: the value is the list, the span comes from its head. *)
Definition emit_list (field : string) (cut : string → string) (keep : nat) (confidence : f64) (first : string) (l : collected)
    : list (string → Extraction) :=
  match l.1 with
  | [] => []
  | x :: _ => [extraction pack_id field (json_list (take keep l.1)) (cut x) confidence (id_of first l.2)]
  end.

Definition all_of (l : list string) : nat := length l.

Definition emit_claims (chunks : list Chunk) (first : string) : list (string → Extraction) :=
  let l := key_claims chunks in emit_list "key_claims" (take_str 50) (all_of l.1) (lit 85 100) first l.

Definition emit_methods (chunks : list Chunk) (first : string) : list (string → Extraction) :=
  match methods chunks with
  | Some (l, c) => emit_list "methods" (take_str 50) (all_of l) (lit 8 10) first (l, Some c)
  | None => []
  end.

Definition emit_numbers (chunks : list Chunk) (first : string) : list (string → Extraction) :=
  emit_list "reported_numbers" (λ s, s) 10 (lit 85 100) first (collect numbers_in chunks).
Definition emit_figures (chunks : list Chunk) (first : string) : list (string → Extraction) :=
  let l := collect figures_in chunks in emit_list "figure_references" (λ s, s) (all_of l.1) (lit 9 10) first l.
Definition emit_tables (chunks : list Chunk) (first : string) : list (string → Extraction) :=
  let l := collect tables_in chunks in emit_list "table_references" (λ s, s) (all_of l.1) (lit 9 10) first l.

Definition paper_parts (chunks : list Chunk) : list (list (string → Extraction)) :=
  let first := id_of "" (hd_error chunks) in
  [emit_title chunks; emit_authors chunks; emit_abstract chunks; emit_claims chunks first; emit_methods chunks first;
   emit_numbers chunks first; emit_figures chunks first; emit_tables chunks first].

Variable gen_id : nat → string.

Definition paper_extract (chunks : list Chunk) : result (list Extraction) :=
  match chunks with
  | [] => Ok []
  | _ => Ok (imap (λ i d, d (gen_id i)) (concat (paper_parts chunks)))
  end.

Definition PaperPack : Pack := {| pack_name := "PaperPack"; pack_fields := PAPER_FIELDS; extract := paper_extract |}.
End Paper.

(** ** Evidence *)

Definition cites_lines_of (content : Chunk → string) (chunks : list Chunk) (e : Extraction) : Prop :=
  ∃ c, c ∈ chunks ∧ e_chunk_id e = c_chunk_id c ∧ infix_of (e_source_span e) (content c).

(** A claim: text of a chunk, longer than ten characters, not blank in front. *)
Definition claim_of (chunks : list Chunk) (x : string) : Prop := in_chunks x chunks ∧ (10 < String.length x)%nat ∧ starts_solid x.

(** What an extraction of each field is, and what it cites. *)
Inductive paper_evidence `{FR : FloatRepr} (chunks : list Chunk) (e : Extraction) : string → Prop :=
| Title_evidence : e_value e = e_source_span e → e_value e = title_of chunks → cites chunks e → paper_evidence chunks e "title"
| Authors_evidence : e_value e = json_list (names_in (e_source_span e)) → names_in (e_source_span e) ≠ [] → cites chunks e →
    paper_evidence chunks e "authors"
| Abstract_evidence : e_source_span e = take_str 50 (e_value e) → in_chunks (e_value e) chunks → cites chunks e →
    paper_evidence chunks e "abstract_summary"
| Claims_evidence l : e_value e = json_list l → (∀ x, x ∈ l → claim_of chunks x) →
    hd_error l = Some (default "" (hd_error l)) → e_source_span e = take_str 50 (default "" (hd_error l)) → cites_some chunks e →
    paper_evidence chunks e "key_claims"
| Methods_evidence l : e_value e = json_list l → cites_lines_of methods_content chunks e → paper_evidence chunks e "methods"
| Numbers_evidence l : e_value e = json_list (take 10 l) → listing numbers_in chunks l → hd_error l = Some (e_source_span e) →
    cites chunks e → paper_evidence chunks e "reported_numbers"
| Figures_evidence l : e_value e = json_list l → listing figures_in chunks l → hd_error l = Some (e_source_span e) →
    cites chunks e → paper_evidence chunks e "figure_references"
| Tables_evidence l : e_value e = json_list l → listing tables_in chunks l → hd_error l = Some (e_source_span e) →
    cites chunks e → paper_evidence chunks e "table_references".

Lemma item_text_infix line t : item_text line = Some t → infix_of t line.
Proof.
  unfold item_text. destruct (re_match numbered_item line) as [m|] eqn:E; [|destruct (re_match bullet_item line) as [m|] eqn:E'; [|done]];
    intros [= <-]; by eapply infix_of_strip, re_match_text.
Qed.

Lemma title_cites chunks : truthy (title_of chunks) = true →
  ∃ c, hd_error chunks = Some c ∧ c ∈ chunks ∧ infix_of (title_of chunks) (c_text c) ∧ starts_solid (title_of chunks).
Proof.
  destruct chunks as [|c chunks]; [done|]. cbn [title_of]. intros Ht. exists c. split; [done|]. split; [by left|].
  destruct (stripped_lines (c_text c)) as [|l ls] eqn:E; [done|]. assert (l ∈ stripped_lines (c_text c)) as Hl by (rewrite E; by left).
  split; [by apply (stripped_line _ l)|by eapply stripped_part_solid].
Qed.

Lemma authors_cite chunks names line c : authors chunks = Some (names, line, c) →
  c ∈ chunks ∧ names = names_in line ∧ names ≠ [] ∧ infix_of line (c_text c) ∧ starts_solid line.
Proof.
  unfold authors. destruct (first_in authors_of (take 4 chunks)) as [[[ns l] k]|] eqn:E.
  - intros [= -> -> ->]. apply first_in_Some in E as [Hc E]. apply elem_of_take in Hc as (i & Hc & _).
    unfold authors_of in E. destruct (find_first _ _) as [l|] eqn:F; [|done]. apply find_first_Some in F as [F _].
    cbn in E. destruct (names_in l) as [|n ns] eqn:N; [done|]. injection E as <- <-. rewrite N.
    split; [by eapply list_elem_of_lookup_2|]. split; [done|]. split; [done|]. split; [by apply stripped_line|by eapply stripped_part_solid].
  - unfold second_chunk_authors. intros H. destruct (chunks !! 1%nat) as [k|] eqn:K; [|done]. cbn in H.
    destruct (stripped_lines (c_text k)) as [|l ls] eqn:L; [done|]. cbn in H.
    destruct (names_in l) as [|n ns] eqn:N; [done|]. injection H as <- <- <-. rewrite N.
    assert (l ∈ stripped_lines (c_text k)) as Hl by (rewrite L; by left).
    split; [by eapply list_elem_of_lookup_2|]. split; [done|]. split; [done|]. split; [by apply (stripped_line _ l)|by eapply stripped_part_solid].
Qed.

Lemma abstract_infix c text : abstract_in c = Some text → infix_of text (c_text c).
Proof.
  unfold abstract_in. destruct (contains _ _); [|done]. destruct (search _ _) as [[x m]|] eqn:E; [|done].
  intros H. assert (text = take_str 300 (strip (text_group 1 m))) as -> by congruence.
  by eapply infix_of_take, infix_of_strip, search_text.
Qed.

Lemma abstract_solid c text : abstract_in c = Some text → truthy text = true → starts_solid text.
Proof.
  unfold abstract_in. destruct (contains _ _); [|done]. destruct (search _ _) as [[x m]|]; [|done]. intros H Ht.
  assert (text = take_str 300 (strip (text_group 1 m))) as -> by congruence.
  apply starts_solid_take; [|lia]. apply strip_solid. intros E. by rewrite E in Ht.
Qed.

Lemma item_solid line t : item_text line = Some t → (10 < String.length t)%nat → starts_solid t.
Proof.
  unfold item_text. intros H Hl. assert (∃ s, t = strip s) as [s ->].
  { destruct (re_match numbered_item line) as [m|]; [injection H as <-; by eexists|]. destruct (re_match bullet_item line) as [m|]; [|done].
    injection H as <-. by eexists. }
  apply strip_solid. intros E. rewrite E in Hl. cbn in Hl. lia.
Qed.

(** The scan for claims keeps only what satisfies [Q], and names a chunk once it has a claim. *)
Definition claims_ok (Q : string → Prop) (chunks : list Chunk) (s : scanning) : Prop :=
  (∀ x, x ∈ claims s → Q x) ∧
  match claims_chunk s with Some c => c ∈ chunks | None => claims s = [] ∧ in_section s = false end.

Lemma claim_line_ok chunks c s line : c ∈ chunks → infix_of line (c_text c) → claims_ok (claim_of chunks) chunks s → claims_ok (claim_of chunks) chunks (claim_line c s line).
Proof.
  intros Hc Hl Hok. unfold claim_line. pose proof Hok as [Hs Hk]. destruct (re_match claims_header (strip line)).
  { split; [done|]. cbn [claims_chunk]. unfold or_chunk. by destruct (claims_chunk s). }
  destruct (in_section s) eqn:Es; [|exact Hok]. destruct (item_text (strip line)) as [t|] eqn:Et.
  - destruct (_ && _) eqn:Eb; [|exact Hok]. apply andb_true_iff in Eb as [Eb%Nat.ltb_lt _]. split.
    + intros x [Hx| ->%list_elem_of_singleton]%elem_of_app; [by apply Hs|]. split; [|split; [done|by eapply item_solid]]. exists c. split; [done|].
      eapply infix_trans; [by apply item_text_infix|]. by apply infix_of_strip.
    + cbn. destruct (claims_chunk s); [done|]. by destruct Hk.
  - destruct (_ && _ && _) eqn:Eb; [|exact Hok]. split; [done|]. cbn. destruct (claims_chunk s); [done|]. by destruct Hk.
Qed.

Lemma reset_ok Q chunks s : claims_ok Q chunks s →
  claims_ok Q chunks {| in_section := false; claims := claims s; claims_chunk := claims_chunk s |}.
Proof. intros [H1 H2]. split; [done|]. cbn [claims_chunk claims in_section]. destruct (claims_chunk s); [done|]. by destruct H2. Qed.

Lemma section_claims_ok all chunks : (∀ c, c ∈ chunks → c ∈ all) → ∀ s, claims_ok (claim_of all) all s → claims_ok (claim_of all) all (section_claims chunks s).
Proof.
  induction chunks as [|c chunks IH]; intros Hin s Hs; [done|]. cbn [section_claims].
  assert (claims_ok (claim_of all) all (fold_left (claim_line c) (splitlines (c_text c))
    {| in_section := false; claims := claims s; claims_chunk := claims_chunk s |})) as H.
  { apply fold_left_inv; [by apply reset_ok|].
    intros s' l Hl Hs'. apply claim_line_ok; [apply Hin; by left|by apply splitlines_in|done]. }
  revert H. generalize (fold_left (claim_line c) (splitlines (c_text c))
    {| in_section := false; claims := claims s; claims_chunk := claims_chunk s |}). intros s' H.
  destruct (claims s'); [|exact H]. apply IH; [|exact H]. intros; apply Hin; by right.
Qed.

Lemma number_prefix_ok : anchored number_prefix = true ∧ (0 < min_len number_prefix)%nat.
Proof. vm_compute. split; [reflexivity|]. repeat constructor. Qed.

Lemma number_prefix_solid s : sub number_prefix "" (strip s) ≠ "" → starts_solid (sub number_prefix "" (strip s)).
Proof.
  destruct number_prefix_ok as [H1 H2]. apply (sub_solid number_prefix s (CSet false false [Space])); [done|done|vm_compute; reflexivity|].
  intros c Hc. unfold in_set. cbn. by rewrite Hc.
Qed.

Lemma fallback_claim c x : x ∈ fallback_claims c → infix_of x (c_text c) ∧ (10 < String.length x)%nat ∧ starts_solid x.
Proof.
  unfold fallback_claims. intros (l & Hl & H)%list_elem_of_omap. destruct (mentions _ _); [|done].
  destruct (10 <? _)%nat eqn:E; [|done]. apply Nat.ltb_lt in E. injection H as <-.
  split; [|split; [done|apply number_prefix_solid; intros E'; rewrite E' in E; cbn in E; lia]].
  destruct number_prefix_ok as [H1 H2]. eapply infix_trans; [by apply sub_anchored_infix|].
  eapply infix_of_strip. by apply splitlines_in.
Qed.

Lemma key_claims_ok chunks : let l := key_claims chunks in
  (∀ x, x ∈ l.1 → claim_of chunks x) ∧
  match l.2 with Some c => c ∈ chunks | None => l.1 = [] end.
Proof.
  unfold key_claims. pose proof (section_claims_ok chunks chunks (λ _ H, H)
    {| in_section := false; claims := []; claims_chunk := None |}) as H.
  destruct H as [H1 H2]. { split; [|done]. intros x Hx. by apply not_elem_of_nil in Hx. }
  remember (section_claims chunks _) as s eqn:Es. clear Es. destruct (claims s) as [|x l] eqn:Ec; cbn [fst snd].
  - apply (collect_noted (claim_of chunks)); [|by destruct (claims_chunk s)].
    intros c x Hc [Hx Hlen]%fallback_claim. split; [by exists c|done].
  - split; [done|]. destruct (claims_chunk s); [done|]. by destruct H2.
Qed.

Lemma numbers_infix c x : x ∈ numbers_in c → infix_of x (c_text c).
Proof. intros [H|H]%elem_of_app; (eapply findall_infix, H); vm_compute; repeat constructor. Qed.
Lemma figures_infix c x : x ∈ figures_in c → infix_of x (c_text c).
Proof. intros H. eapply findall_infix, H. vm_compute. repeat constructor. Qed.
Lemma tables_infix c x : x ∈ tables_in c → infix_of x (c_text c).
Proof. intros H. eapply findall_infix, H. vm_compute. repeat constructor. Qed.

(** What the three lists hold is not blank. *)
Lemma listed_nonblank c x : x ∈ numbers_in c ∨ x ∈ figures_in c ∨ x ∈ tables_in c → strip x ≠ "".
Proof.
  intros [[H|H]%elem_of_app|[H|H]]; (eapply findall_nonblank, H; [vm_compute; repeat constructor|vm_compute; reflexivity]).
Qed.

Lemma collected_list items chunks : (∀ c x, x ∈ items c → infix_of x (c_text c)) →
  let l := collect items chunks in
  listing items chunks l.1 ∧ ∀ x xs, l.1 = x :: xs → ∃ c, l.2 = Some c ∧ c ∈ chunks ∧ infix_of x (c_text c).
Proof.
  intros Hin. destruct (collect_spec items chunks) as [(Hn & _ & Hf) Hall]. split; [by split|]. intros x xs E. rewrite E in Hf.
  destruct (collect items chunks).2 as [c|]; [|done]. destruct Hf. exists c. eauto.
Qed.

Section Evidence.
Context `{FR : FloatRepr}.
Variable pack_id : string.
Variable chunks : list Chunk.
Abbreviation ev := (λ f e, paper_evidence chunks e f ∧ strip (e_source_span e) ≠ "").
Abbreviation first := (id_of "" (hd_error chunks)).

Lemma emit_title_one : one_of ev "title" (emit_title pack_id chunks).
Proof.
  unfold emit_title. destruct (truthy (title_of chunks)) eqn:E; [|by left]. right. eexists. split; [reflexivity|].
  intros id. split; [reflexivity|]. destruct (title_cites chunks E) as (c & Hc & Hin & Ht & Hs).
  split; [|by apply starts_solid_nonblank]. apply Title_evidence; [reflexivity|reflexivity|]. exists c. rewrite Hc. by split_and!.
Qed.

Lemma emit_authors_one : one_of ev "authors" (emit_authors pack_id chunks).
Proof.
  unfold emit_authors. destruct (authors chunks) as [[[names line] c]|] eqn:E; [|by left]. right. eexists. split; [reflexivity|].
  intros id. split; [reflexivity|]. apply authors_cite in E as (Hc & -> & Hn & Hl & Hs).
  split; [|by apply starts_solid_nonblank]. apply Authors_evidence; [reflexivity|done|]. exists c. by split_and!.
Qed.

Lemma emit_abstract_one : one_of ev "abstract_summary" (emit_abstract pack_id chunks).
Proof.
  unfold emit_abstract. destruct (first_in abstract_in chunks) as [[text c]|] eqn:E; [|by left].
  destruct (truthy text) eqn:Et; [|by left]. right. eexists. split; [reflexivity|].
  intros id. split; [reflexivity|]. apply first_in_Some in E as [Hc Ha]. pose proof (abstract_infix _ _ Ha) as Ht.
  split; [|apply starts_solid_nonblank, starts_solid_take; [by eapply abstract_solid|lia]]. apply Abstract_evidence; [reflexivity|by exists c|]. exists c. split_and!; [done|reflexivity|]. by apply infix_of_take.
Qed.

Lemma emit_claims_one : one_of ev "key_claims" (emit_claims pack_id chunks first).
Proof.
  unfold emit_claims, emit_list. destruct (key_claims_ok chunks) as [H1 H2]. revert H1 H2.
  generalize (key_claims chunks). intros [[|x l] k] H1 H2; cbn [fst snd] in *; [by left|].
  destruct k as [c|]; [|done]. right. eexists. split; [reflexivity|]. intros id. split; [reflexivity|].
  destruct (H1 x) as ((d & Hd & Hx) & _ & Hs); [by left|]. split; [|by apply starts_solid_nonblank, starts_solid_take; [|lia]].
  apply (Claims_evidence chunks _ (x :: l)); [|done|reflexivity|reflexivity|].
  - cbn [extraction e_value]. f_equal. unfold all_of. by rewrite firstn_all.
  - split; [by exists c|]. exists d. split; [done|]. by apply infix_of_take.
Qed.

Lemma emit_methods_one : one_of ev "methods" (emit_methods pack_id chunks first).
Proof.
  unfold emit_methods, emit_list. destruct (methods chunks) as [[l c]|] eqn:E; [|by left].
  destruct l as [|x l]; cbn [fst snd]; [by left|]. right. eexists. split; [reflexivity|]. intros id. split; [reflexivity|].
  apply first_in_Some in E as [Hc Hl]. destruct (mentions _ _); [|done].
  assert (x ∈ method_sentences c) as Hx by (replace (method_sentences c) with (x :: l) by congruence; by left).
  unfold method_sentences in Hx. apply list_elem_of_filter in Hx as [Hlen%Nat.ltb_lt (y & -> & Hy)%list_elem_of_fmap].
  split; [|apply cut_nonblank; [intros E; rewrite E in Hlen; cbn in Hlen; lia|lia]].
  apply (Methods_evidence chunks _ (take (all_of (strip y :: l)) (strip y :: l))); [reflexivity|]. exists c. split_and!; [done|reflexivity|].
  apply infix_of_take. eapply infix_of_strip, re_split_infix, Hy. vm_compute. repeat constructor.
Qed.

Lemma emit_list_one field keep confidence items :
  (∀ c x, x ∈ items c → infix_of x (c_text c)) → (∀ c x, x ∈ items c → strip x ≠ "") →
  (∀ l e, e_value e = json_list (take (keep l) l) → listing items chunks l → hd_error l = Some (e_source_span e) →
    cites chunks e → paper_evidence chunks e field) →
  one_of ev field (emit_list pack_id field (λ s, s) (keep (collect items chunks).1) confidence first (collect items chunks)).
Proof.
  intros Hin Hnb Hev. destruct (collected_list items chunks Hin) as [Hl Hh]. revert Hl Hh. unfold emit_list.
  generalize (collect items chunks). intros [[|x l] k] Hl Hh; cbn [fst snd] in *; [by left|].
  destruct (Hh x l eq_refl) as (c & -> & Hc & Hx). right. eexists. split; [reflexivity|]. intros id. split; [reflexivity|].
  split; [|destruct Hl as [_ Hl]; destruct (proj1 (Hl x)) as (c' & _ & Hx'); [by left|]; by eapply Hnb].
  apply (Hev (x :: l)); [reflexivity|done|reflexivity|]. exists c. by split_and!.
Qed.

Lemma paper_parts_one : Forall2 (one_of ev) PAPER_FIELDS (paper_parts pack_id chunks).
Proof.
  unfold PAPER_FIELDS, paper_parts, emit_numbers, emit_figures, emit_tables.
  repeat first [apply List.Forall2_nil|apply List.Forall2_cons]; [apply emit_title_one|apply emit_authors_one|apply emit_abstract_one|apply emit_claims_one|
    apply emit_methods_one|..].
  - apply (emit_list_one _ (λ _, 10%nat)); [apply numbers_infix|intros; eapply listed_nonblank; eauto|]. intros l e. apply (Numbers_evidence chunks e l).
  - apply (emit_list_one _ all_of); [apply figures_infix|intros; eapply listed_nonblank; eauto|]. intros l e H. unfold all_of in H. rewrite firstn_all in H.
    by apply (Figures_evidence chunks e l).
  - apply (emit_list_one _ all_of); [apply tables_infix|intros; eapply listed_nonblank; eauto|]. intros l e H. unfold all_of in H. rewrite firstn_all in H.
    by apply (Tables_evidence chunks e l).
Qed.

Variable gen_id : nat → string.

Lemma paper_extractions exts : paper_extract pack_id gen_id chunks = Ok exts →
  (∀ e, e ∈ exts → e_field_name e ∈ PAPER_FIELDS ∧ paper_evidence chunks e (e_field_name e) ∧ strip (e_source_span e) ≠ "") ∧
  NoDup (map e_field_name exts).
Proof.
  unfold paper_extract. intros H.
  assert (exts = imap (λ i (d : string → Extraction), d (gen_id i)) (concat (paper_parts pack_id chunks)) ∨ exts = []) as [->| ->].
  { destruct chunks; [right; congruence|left; congruence]. }
  - apply (drafts_spec ev); [apply paper_parts_one|]. unfold PAPER_FIELDS. apply (bool_decide_unpack _). vm_compute. exact I.
  - split; [intros e He; by apply not_elem_of_nil in He|constructor].
Qed.

(** Every extraction of a paper has the evidence of its field; there is one
    extraction of a field at most. *)
Theorem paper_extractions_evidenced exts : paper_extract pack_id gen_id chunks = Ok exts →
  NoDup (map e_field_name exts) ∧
  ∀ e, e ∈ exts → e_field_name e ∈ PAPER_FIELDS ∧ paper_evidence chunks e (e_field_name e).
Proof. intros [H1 H2]%paper_extractions. split; [done|]. intros e He. by destruct (H1 e He) as (? & ? & _). Qed.

Lemma paper_quotes e : paper_evidence chunks e (e_field_name e) → e_field_name e ≠ "methods" →
  in_chunks (e_source_span e) chunks.
Proof.
  assert (cites chunks e → in_chunks (e_source_span e) chunks) as Hc by (intros (c & Hc & _ & Hi); by exists c).
  remember (e_field_name e) as f eqn:Ef. intros [ | | |l _ _ _ _ [_ H]| | | | ] Hm; first [done|by apply Hc].
Qed.

(** C5.  Refuse or cite, for papers: whatever the embedding model, every extraction
    that the pack returns, but the methods, grounds at the first stage: its
    span is not blank and is text of a chunk. *)
Theorem paper_extractions_ground get_embedding cosine read_float src exts e :
  paper_extract pack_id gen_id chunks = Ok exts → e ∈ exts → e_field_name e ≠ "methods" →
  strip (e_source_span e) ≠ "" ∧ in_chunks (e_source_span e) chunks ∧
  fst (verify get_embedding cosine read_float default_verifier (e_value e) (e_source_span e) (relabel src chunks)) = EXACT.
Proof.
  intros [H _]%paper_extractions He Hf. apply H in He as (_ & He & Hs). pose proof (paper_quotes e He Hf) as Hq.
  split; [done|]. split; [done|]. destruct Hq as (c & Hc & Hi). by apply (span_grounds _ _ _ _ _ _ _ c).
Qed.
End Evidence.

(** ** A concrete paper *)

#[local] Existing Instance exact_float_repr.
Definition paper_lines : list string :=
  ["Sorting in Two Passes"; "Ada Moss, Karl Lind and Eva Berg"; "Abstract: We sort faster."; "Results:";
   "1. The method needs two passes."; "2. It is 12.5% faster than before, see Table 3."; "Methods";
   "We measure passes on random input. We repeat it."].
Definition paper_chunk : Chunk :=
  {| c_chunk_id := "c1"; c_doc_id := "d1"; c_page := 1; c_bbox := None; c_text := join (String LF "") paper_lines;
     c_source_type := "pdf"; c_embedding := [] |}.
Definition other_chunk (id text : string) : Chunk :=
  {| c_chunk_id := id; c_doc_id := "d1"; c_page := 1; c_bbox := None; c_text := text; c_source_type := "pdf"; c_embedding := [] |}.
Definition name_of (i : nat) : string := pretty i.
Definition paper_sample : list Extraction :=
  match paper_extract "paper-v1" name_of [paper_chunk] with Ok l => l | Raise _ => [] end.
Definition authors_extraction : Extraction :=
  extraction "paper-v1" "authors" (json_list ["Ada Moss"; "Karl Lind"; "Eva Berg"]) "Ada Moss, Karl Lind and Eva Berg" (lit 85 100)
    "c1" "1".

Lemma paper_runs : paper_extract "paper-v1" name_of [paper_chunk] = Ok paper_sample.
Proof. vm_compute. reflexivity. Qed.
Lemma authors_in : authors_extraction ∈ paper_sample.
Proof. apply (list_elem_of_lookup_2 _ 1). vm_compute. reflexivity. Qed.

Lemma paper_extractions_evidenced_witness : NoDup (map e_field_name paper_sample).
Proof. exact (proj1 (paper_extractions_evidenced "paper-v1" [paper_chunk] name_of paper_sample paper_runs)). Defined.

Lemma paper_extractions_ground_witness :
  fst (verify no_embedding no_similarity no_float default_verifier (e_value authors_extraction)
    "Ada Moss, Karl Lind and Eva Berg" (relabel "pdf" [paper_chunk])) = EXACT.
Proof.
  refine (proj2 (proj2 (paper_extractions_ground "paper-v1" [paper_chunk] name_of no_embedding no_similarity no_float "pdf" paper_sample
    authors_extraction paper_runs authors_in _))).
  intros H. discriminate H.
Defined.

(** *** Where the pack does not do what it means to *)

(** The claims cite the first chunk with a heading, not the one they are from. *)
Definition headings : list Chunk :=
  [other_chunk "c1" ("Results:" +:+ String LF "see the next page"); other_chunk "c2" ("Findings:" +:+ String LF "1. Sorting needs two passes.")].
Example claims_cite_first_heading :
  let l := key_claims headings in (l.1, c_chunk_id <$> l.2) = (["Sorting needs two passes."], Some "c1").
Proof. vm_compute. reflexivity. Qed.

(** A label is looked through to find the names, and kept as part of the first one. *)
Example label_kept_as_name :
  (λ x, x.1.1) <$> authors [other_chunk "c1" "Authors: Jane Doe, John Smith"] = Some ["Authors: Jane Doe"; "John Smith"].
Proof. vm_compute. reflexivity. Qed.

(** A percentage that a space or the end of the text follows is not found as one. *)
Example percentages_missed : (collect numbers_in [other_chunk "c1" "Errors fell by 44.5% and 12%."]).1 = ["44.5"].
Proof. vm_compute. reflexivity. Qed.
