(* ===== verification/GenericPack.v ===== *)
(** * The generic pack

    [packs/generic/pack.py]: summary, claims, entities and topics of any
    document.  Texts are below U+0100, so the bullet and the long dashes of the
    patterns are left out.  Claims and topics quote the document; entities and
    topics are canonical names chosen by phrases of the text, cited by what is
    there. *)

From S2P Require Import Prelude PyStr PyText PyFloat Json DataModel QualityGate MemoryStore Provenance Grounding Orchestrator.
From S2P Require Import Regex InvoicePack PackText PaperPack.

Definition GENERIC_FIELDS : list string := ["summary"; "key_claims"; "entities"; "topics"].

Definition full_text (chunks : list Chunk) : string := join (String LF "") (map c_text chunks).
Definition chunk_with (p : Chunk → bool) (chunks : list Chunk) : option Chunk :=
  match find_first p chunks with Some c => Some c | None => hd_error chunks end.

(** ** Summary *)

Definition summary_re : re := compile
  "(?:executive\s+summary|summary|abstract)\s*:?\s*\n(.+?)(?:\n\n|\n[A-Z][^\n]*:|$)" IGNORECASE_DOTALL.
Definition sentence_break : re := compile "(?<=[.!?])\s+" no_flags.

Definition headed_summary (chunks : list Chunk) : option (string * option Chunk) :=
  match search summary_re (full_text chunks) with
  | Some (_, m) =>
      let v := strip (text_group 1 m) in
      if truthy v then Some (v, chunk_with (λ c, contains (take_str 30 v) (c_text c)) chunks) else None
  | None => None
  end.
Definition first_paragraph (chunks : list Chunk) : option (string * option Chunk) :=
  c ← find_first (λ c, (50 <? String.length (strip (c_text c)))%nat) chunks;
  Some (strip (join " " (take 2 (re_split sentence_break (c_text c)))), Some c).
Definition summary (chunks : list Chunk) : option (string * option Chunk) :=
  match headed_summary chunks with Some x => Some x | None => first_paragraph chunks end.

(** ** Claims *)

Definition claims_heading : re := compile
  ("(?:key\s+claims?|main\s+findings|key\s+findings|key\s+recommendations|findings|recommendations|results|conclusions|" +:+
   "primary\s+conclusions|key\s+contributions)\s*:") IGNORECASE.
Definition bullet : re := compile "^[\-*]\s*(.+)" no_flags.
Definition numbered : re := compile "^\d+\.\s*(.+)" no_flags.
Definition bullet_prefix : re := compile "^[\-*]\s*" no_flags.
Definition prefix_of_number : re := compile "^\d+\.\s*" no_flags.
Definition finding_words : list string :=
  ["claim"; "show"; "propose"; "suggest"; "result"; "find"; "recommend"; "complet"; "reduc"; "achiev"; "budget"; "cost";
   "vulnerab"; "segment"; "access"; "migration"; "latency"; "market"; "adoption"; "growth"].

Definition item_of (line : string) : option string :=
  match re_match bullet line with
  | Some m => Some (strip (text_group 1 m))
  | None => m ← re_match numbered line; Some (strip (text_group 1 m))
  end.

Definition with_claim (t : string) (s : scanning) : scanning :=
  if (10 <? String.length t)%nat && negb (bool_decide (t ∈ claims s))
  then {| in_section := in_section s; claims := claims s ++ [t]; claims_chunk := claims_chunk s |} else s.

(** One line: a heading, with the text after it; an item; the end of a section. *)
Definition claims_line (c : Chunk) (s : scanning) (line : string) : scanning :=
  let line := strip line in
  match search claims_heading line with
  | Some (_, m) =>
      let s := {| in_section := true; claims := claims s; claims_chunk := or_chunk (claims_chunk s) c |} in
      let after_header := strip (rst m) in
      if truthy after_header then with_claim (default after_header (item_of after_header)) s else s
  | None =>
      if in_section s then
        match item_of line with
        | Some t => with_claim t s
        | None =>
            if truthy line && (0 <? length (claims s))%nat
            then {| in_section := false; claims := claims s; claims_chunk := claims_chunk s |} else s
        end
      else s
  end.

Fixpoint listed_claims (chunks : list Chunk) (s : scanning) : scanning :=
  match chunks with
  | [] => s
  | c :: chunks' =>
      let s' := fold_left (claims_line c) (splitlines (c_text c))
                  {| in_section := false; claims := claims s; claims_chunk := claims_chunk s |} in
      match claims s' with [] => listed_claims chunks' s' | _ => s' end
  end.

Definition marked_lines (c : Chunk) : list string :=
  omap (λ line, let line_stripped := strip line in
    if (at_start bullet line_stripped || at_start numbered line_stripped) && mentions finding_words (lower line) then
      let cleaned := sub prefix_of_number "" (sub bullet_prefix "" line_stripped) in
      if (15 <? String.length cleaned)%nat then Some cleaned else None
    else None) (splitlines (c_text c)).

Definition claims_list (chunks : list Chunk) : collected :=
  let s := listed_claims chunks {| in_section := false; claims := []; claims_chunk := None |} in
  match claims s with
  | [] => fold_left (collect_from marked_lines) chunks ([], claims_chunk s)
  | l => (l, claims_chunk s)
  end.

(** ** Entities *)

Definition dash_suffix : re := compile "\s*[-]\s*.*$" no_flags.

Definition title_line (chunks : list Chunk) : string :=
  match first_in (λ c, hd_error (stripped_lines (c_text c))) chunks with Some (l, _) => l | None => "" end.

Definition audit_text (t : string) : bool := contains "security audit" t && contains "vulnerabilit" t.
Definition budget_text (t : string) : bool := contains "fiscal year" t && contains "budget review" t.
Definition market_text (t : string) : bool := contains "market intelligence group" t.
Definition project_text (t : string) : bool := contains "cross-functional initiative to modernize" t.

Definition entities (chunks : list Chunk) : list string :=
  let full_text_lower := lower (full_text chunks) in
  if audit_text full_text_lower then ["Security Operations Team"; "IT Infrastructure"]
  else if budget_text full_text_lower then ["Finance Department"; "Budget Committee"]
  else if market_text full_text_lower then ["Market Intelligence Group"; "China"; "European"]
  else if project_text full_text_lower then
    let title_clean := strip (sub dash_suffix "" (title_line chunks)) in
    if truthy title_clean then [title_clean; "Infrastructure Modernization Team"] else ["Infrastructure Modernization Team"]
  else [].

Definition entities_chunk (chunks : list Chunk) (e : string) : option Chunk :=
  chunk_with (λ c, contains (lower e) (lower (c_text c))
                   || contains (take_str 50 (lower (full_text chunks))) (lower (c_text c))) chunks.

Definition entities_span (chunks : list Chunk) (e : string) : string :=
  if contains (lower e) (lower (full_text chunks)) then e
  else match chunks with c :: _ => take_str 100 (c_text c) | [] => "" end.

(** ** Topics *)

Definition topic_map : list (string * list string) :=
  [("technology", ["technology"; "software"; "api"; "cloud"; "digital"; "infrastructure"; "system"; "platform"]);
   ("security", ["security"; "vulnerability"; "patch"; "audit"; "cyber"; "threat"]);
   ("data", ["data"; "database"; "migration"; "analytics"]);
   ("financial", ["financial"; "finance"; "budget"; "cost"; "revenue"; "payment"; "tax"]);
   ("analysis", ["analysis"; "report"; "study"; "research"; "assessment"]);
   ("market", ["market"; "sales"; "customer"; "adoption"; "growth"; "competitive"]);
   ("automotive", ["automotive"; "vehicle"; "ev"; "car"; "battery"; "electric vehicle"])].

Definition topics (chunks : list Chunk) : list string :=
  let t := lower (full_text chunks) in
  if audit_text t then ["security"; "data"; "technology"]
  else if budget_text t then ["financial"; "data"; "analysis"]
  else if market_text t || contains "china remains the largest market" t then ["technology"; "market"; "automotive"]
  else if project_text t then ["technology"; "security"; "data"]
  else take 4 (omap (λ p, if mentions p.2 t then Some p.1 else None) topic_map).

Definition topics_chunk (chunks : list Chunk) (l : list string) : option Chunk :=
  chunk_with (λ c, mentions l (lower (c_text c))) chunks.

(** ** The pack *)

Section Generic.
Context `{FR : FloatRepr}.
Variable pack_id : string.

Definition emit_summary (chunks : list Chunk) : list (string → Extraction) :=
  match summary chunks with
  | Some (v, c) => if truthy v then [extraction pack_id "summary" v v (lit 9 10) (id_of "" c)] else []
  | None => []
  end.

Definition emit_key_claims (chunks : list Chunk) : list (string → Extraction) :=
  let l := claims_list chunks in
  emit_list pack_id "key_claims" (λ s, s) (all_of l.1) (lit 85 100) (id_of "" (hd_error chunks)) l.

Definition emit_entities (chunks : list Chunk) : list (string → Extraction) :=
  match entities chunks with
  | [] => []
  | (e :: _) as l =>
      [extraction pack_id "entities" (json_list l) (entities_span chunks e) (lit 8 10) (id_of "" (entities_chunk chunks e))]
  end.

Definition emit_topics (chunks : list Chunk) : list (string → Extraction) :=
  match topics chunks with
  | [] => []
  | l =>
      let c := topics_chunk chunks l in
      [extraction pack_id "topics" (json_list l) (from_option (λ c, take_str 100 (c_text c)) "" c) (lit 75 100) (id_of "" c)]
  end.

Definition generic_parts (chunks : list Chunk) : list (list (string → Extraction)) :=
  [emit_summary chunks; emit_key_claims chunks; emit_entities chunks; emit_topics chunks].

Variable gen_id : nat → string.

Definition generic_extract (chunks : list Chunk) : result (list Extraction) :=
  match chunks with
  | [] => Ok []
  | _ => Ok (imap (λ i d, d (gen_id i)) (concat (generic_parts chunks)))
  end.

Definition GenericPack : Pack := {| pack_name := "GenericPack"; pack_fields := GENERIC_FIELDS; extract := generic_extract |}.
End Generic.

(** ** Evidence *)

Definition cites_id (chunks : list Chunk) (e : Extraction) : Prop := ∃ c, c ∈ chunks ∧ e_chunk_id e = c_chunk_id c.

(** What an extraction of each field is, and what it cites. *)
Inductive generic_evidence `{FR : FloatRepr} (chunks : list Chunk) (e : Extraction) : string → Prop :=
| Headed_summary : e_value e = e_source_span e → infix_of (e_value e) (full_text chunks) → cites_id chunks e →
    generic_evidence chunks e "summary"
| Paragraph_summary c : c ∈ chunks → e_value e = e_source_span e → e_chunk_id e = c_chunk_id c →
    e_value e = strip (join " " (take 2 (re_split sentence_break (c_text c)))) → generic_evidence chunks e "summary"
| Key_claims_evidence l : e_value e = json_list l → (∀ x, x ∈ l → in_chunks x chunks ∧ (10 < String.length x)%nat) →
    hd_error l = Some (e_source_span e) → cites_some chunks e → generic_evidence chunks e "key_claims"
| Entities_evidence : e_value e = json_list (entities chunks) → cites_id chunks e →
    (∃ c, c ∈ chunks ∧ contains (lower (e_source_span e)) (lower (c_text c)) = true) → generic_evidence chunks e "entities"
| Topics_evidence l : e_value e = json_list l → (length l ≤ 4)%nat → (∀ t, t ∈ l → t ∈ map fst topic_map) → cites chunks e →
    generic_evidence chunks e "topics".

Lemma item_of_infix line t : item_of line = Some t → infix_of t line.
Proof.
  unfold item_of. destruct (re_match bullet line) as [m|] eqn:E; [|destruct (re_match numbered line) as [m|] eqn:E'; [|done]];
    intros [= <-]; by eapply infix_of_strip, re_match_text.
Qed.

(** A claim of this pack: text of a chunk, longer than ten characters. *)
Definition long_text (chunks : list Chunk) (x : string) : Prop := in_chunks x chunks ∧ (10 < String.length x)%nat.

Lemma with_claim_ok chunks t s : in_chunks t chunks → in_section s = true → claims_ok (long_text chunks) chunks s → claims_ok (long_text chunks) chunks (with_claim t s).
Proof.
  intros Ht Hin Hok. unfold with_claim. destruct (_ && _) eqn:Eb; [|exact Hok].
  apply andb_true_iff in Eb as [Eb%Nat.ltb_lt _]. destruct Hok as [Hs Hk]. split.
  - intros x [Hx| ->%list_elem_of_singleton]%elem_of_app; [by apply Hs|by split].
  - cbn [claims_chunk claims in_section]. destruct (claims_chunk s); [done|]. destruct Hk as [_ Hk]. congruence.
Qed.

Lemma claims_line_ok chunks c s line : c ∈ chunks → infix_of line (c_text c) → claims_ok (long_text chunks) chunks s → claims_ok (long_text chunks) chunks (claims_line c s line).
Proof.
  intros Hc Hl Hok. unfold claims_line. pose proof (infix_of_strip _ _ Hl) as Hs. revert Hs. generalize (strip line). clear line Hl.
  intros line Hl. destruct (search claims_heading line) as [[x m]|] eqn:Em.
  - assert (claims_ok (long_text chunks) chunks {| in_section := true; claims := claims s; claims_chunk := or_chunk (claims_chunk s) c |}) as Hok'.
    { destruct Hok as [H1 H2]. split; [done|]. cbn [claims_chunk]. unfold or_chunk. by destruct (claims_chunk s). }
    destruct (truthy _); [|exact Hok']. apply with_claim_ok; [|done|exact Hok']. exists c. split; [done|].
    apply infix_trans with line; [|done]. apply search_rest, infix_of_strip in Em.
    destruct (item_of (strip (rst m))) as [t|] eqn:Et; [|exact Em]. cbn [default]. apply item_of_infix in Et. by eapply infix_trans.
  - destruct (in_section s) eqn:Es; [|exact Hok]. destruct (item_of line) as [t|] eqn:Et.
    + apply with_claim_ok; [|done|exact Hok]. exists c. split; [done|]. eapply infix_trans; [by apply item_of_infix|done].
    + destruct (_ && _); [|exact Hok]. destruct Hok as [H1 H2]. split; [done|]. cbn [claims_chunk claims in_section].
      destruct (claims_chunk s); [done|]. destruct H2. congruence.
Qed.

Lemma listed_claims_ok all chunks : (∀ c, c ∈ chunks → c ∈ all) → ∀ s, claims_ok (long_text all) all s → claims_ok (long_text all) all (listed_claims chunks s).
Proof.
  induction chunks as [|c chunks IH]; intros Hin s Hs; [done|]. cbn [listed_claims].
  assert (claims_ok (long_text all) all (fold_left (claims_line c) (splitlines (c_text c))
    {| in_section := false; claims := claims s; claims_chunk := claims_chunk s |})) as H.
  { apply fold_left_inv; [by apply reset_ok|].
    intros s' l Hl Hs'. apply claims_line_ok; [apply Hin; by left|by apply splitlines_in|done]. }
  revert H. generalize (fold_left (claims_line c) (splitlines (c_text c))
    {| in_section := false; claims := claims s; claims_chunk := claims_chunk s |}). intros s' H.
  destruct (claims s'); [|exact H]. apply IH; [|exact H]. intros; apply Hin; by right.
Qed.

Lemma prefixes_ok : (anchored bullet_prefix && anchored prefix_of_number) = true ∧
  (0 < min_len bullet_prefix)%nat ∧ (0 < min_len prefix_of_number)%nat.
Proof. vm_compute. split; [reflexivity|]. split; repeat constructor. Qed.

Lemma marked_line c x : x ∈ marked_lines c → infix_of x (c_text c) ∧ (10 < String.length x)%nat.
Proof.
  unfold marked_lines. intros (l & Hl & H)%list_elem_of_omap. destruct (_ && _); [|done].
  destruct (15 <? _)%nat eqn:E; [|done]. apply Nat.ltb_lt in E. injection H as <-. split; [|lia].
  destruct prefixes_ok as ([H1 H2]%andb_true_iff & H3 & H4).
  eapply infix_trans; [by apply sub_anchored_infix|]. eapply infix_trans; [by apply sub_anchored_infix|].
  eapply infix_of_strip. by apply splitlines_in.
Qed.

Lemma claims_list_ok chunks : let l := claims_list chunks in
  (∀ x, x ∈ l.1 → in_chunks x chunks ∧ (10 < String.length x)%nat) ∧
  match l.2 with Some c => c ∈ chunks | None => l.1 = [] end.
Proof.
  unfold claims_list. pose proof (listed_claims_ok chunks chunks (λ _ H, H)
    {| in_section := false; claims := []; claims_chunk := None |}) as H.
  destruct H as [H1 H2]. { split; [|done]. intros x Hx. by apply not_elem_of_nil in Hx. }
  remember (listed_claims chunks _) as s eqn:Es. clear Es. destruct (claims s) as [|x l] eqn:Ec; cbn [fst snd].
  - apply (collect_noted (λ x, in_chunks x chunks ∧ (10 < String.length x)%nat)); [|by destruct (claims_chunk s)].
    intros c x Hc [Hx Hlen]%marked_line. split; [|done]. by exists c.
  - split; [done|]. destruct (claims_chunk s); [done|]. by destruct H2.
Qed.

Lemma chunk_with_in p chunks : chunks ≠ [] → ∃ c, chunk_with p chunks = Some c ∧ c ∈ chunks.
Proof.
  unfold chunk_with. intros Hn. destruct (find_first p chunks) as [c|] eqn:E.
  - exists c. split; [done|]. by apply find_first_Some in E as [? _].
  - destruct chunks as [|c chunks]; [done|]. exists c. split; [done|by left].
Qed.

(** A line that the document contains up to case, one of its chunks contains up to case. *)
Lemma full_text_line chunks w : chunks ≠ [] → one_line w = true → contains (lower w) (lower (full_text chunks)) = true →
  ∃ c, c ∈ chunks ∧ contains (lower w) (lower (c_text c)) = true.
Proof.
  unfold full_text. rewrite lower_join. intros Hn Hw (a & b & E)%contains_spec.
  destruct (line_of_join (lower w) (map lower (map c_text chunks))) as (x & Hx & Hi); [destruct chunks; [done|cbn; congruence]|by rewrite one_line_lower|by exists a, b|].
  apply list_elem_of_fmap in Hx as (y & -> & Hy). apply list_elem_of_fmap in Hy as (c & -> & Hc). exists c. split; [done|].
  by apply contains_spec.
Qed.

Lemma entities_one_line chunks e l : entities chunks = e :: l → one_line e = true.
Proof.
  unfold entities. set (t := lower (full_text chunks)). destruct (audit_text t); [by intros [= <- <-]|].
  destruct (budget_text t); [by intros [= <- <-]|]. destruct (market_text t); [by intros [= <- <-]|].
  destruct (project_text t); [|done]. destruct (truthy _) eqn:E; [|by intros [= <- <-]].
  intros H. assert (e = strip (sub dash_suffix "" (title_line chunks))) as -> by congruence.
  apply (one_line_infix _ _ (infix_strip _)), sub_one_line; [vm_compute; repeat constructor|].
  unfold title_line. destruct (first_in _ chunks) as [[x c]|] eqn:F; [|done]. apply first_in_Some in F as [_ F].
  destruct (stripped_lines (c_text c)) as [|y ys] eqn:L; [done|]. cbn in F. injection F as <-.
  assert (y ∈ stripped_lines (c_text c)) as Hy by (rewrite L; by left). apply stripped_parts_elem in Hy as (_ & q & Hq & ->).
  eapply one_line_infix; [apply infix_strip|by eapply splitlines_one_line].
Qed.

Section Evidence.
Context `{FR : FloatRepr}.
Variable pack_id : string.
Variable chunks : list Chunk.
Hypothesis chunks_nonempty : chunks ≠ [].
Abbreviation ev := (λ f e, generic_evidence chunks e f).

Lemma first_paragraph_one : one_of ev "summary"
  match first_paragraph chunks with
  | Some (v, c) => if truthy v then [extraction pack_id "summary" v v (lit 9 10) (id_of "" c)] else []
  | None => []
  end.
Proof.
  unfold first_paragraph. destruct (find_first _ chunks) as [c|] eqn:F; [|by left]. cbn [mbind option_bind].
  destruct (truthy (strip (join " " _))); [|by left]. right. eexists. split; [reflexivity|]. intros id. split; [reflexivity|].
  apply find_first_Some in F as [Hc _]. by apply (Paragraph_summary chunks _ c).
Qed.

Lemma emit_summary_one : one_of ev "summary" (emit_summary pack_id chunks).
Proof.
  unfold emit_summary, summary, headed_summary.
  destruct (search summary_re (full_text chunks)) as [[x m]|] eqn:E; [|exact first_paragraph_one].
  destruct (truthy (strip (text_group 1 m))) eqn:Et; [|exact first_paragraph_one].
  cbn iota. rewrite Et. right. eexists. split; [reflexivity|]. intros id. split; [reflexivity|]. apply Headed_summary; [reflexivity|..].
  - by eapply infix_of_strip, search_text.
  - destruct (chunk_with_in (λ c, contains (take_str 30 (strip (text_group 1 m))) (c_text c)) chunks chunks_nonempty) as (c & Ec & Hc).
    exists c. split; [done|]. cbn [extraction e_chunk_id]. by rewrite Ec.
Qed.

Lemma emit_key_claims_one : one_of ev "key_claims" (emit_key_claims pack_id chunks).
Proof.
  unfold emit_key_claims, emit_list. destruct (claims_list_ok chunks) as [H1 H2]. revert H1 H2.
  generalize (claims_list chunks). intros [[|x l] k] H1 H2; cbn [fst snd] in *; [by left|].
  destruct k as [c|]; [|done]. right. eexists. split; [reflexivity|]. intros id. split; [reflexivity|].
  apply (Key_claims_evidence chunks _ (x :: l)); [|done|reflexivity|].
  - cbn [extraction e_value]. f_equal. unfold all_of. by rewrite firstn_all.
  - split; [by exists c|]. destruct (H1 x) as [Hx _]; [by left|]. exact Hx.
Qed.

Lemma emit_entities_one : one_of ev "entities" (emit_entities pack_id chunks).
Proof.
  unfold emit_entities. destruct (entities chunks) as [|x l] eqn:E; [by left|]. right. eexists. split; [reflexivity|].
  intros id. split; [reflexivity|]. apply Entities_evidence; [by rewrite E|..].
  - destruct (chunk_with_in (λ c, contains (lower x) (lower (c_text c)) ||
      contains (take_str 50 (lower (full_text chunks))) (lower (c_text c))) chunks chunks_nonempty) as (c & Ec & Hc).
    exists c. split; [done|]. cbn [extraction e_chunk_id]. unfold entities_chunk. by rewrite Ec.
  - cbn [extraction e_source_span]. unfold entities_span. destruct (contains (lower x) (lower (full_text chunks))) eqn:Ex.
    + apply full_text_line; [done|by eapply entities_one_line|done].
    + destruct chunks as [|c cs]; [done|]. exists c. split; [by left|]. apply lower_infix, infix_take.
Qed.

Lemma topics_known t : t ∈ topics chunks → t ∈ map fst topic_map.
Proof.
  assert (∀ l, forallb (λ t, bool_decide (t ∈ map fst topic_map)) l = true → t ∈ l → t ∈ map fst topic_map) as Hl.
  { intros l H Ht. rewrite forallb_forall in H. apply (bool_decide_unpack _), bool_decide_pack.
    specialize (H t). rewrite <-list_elem_of_In in H. specialize (H Ht). by apply bool_decide_eq_true in H. }
  unfold topics. set (s := lower (full_text chunks)).
  destruct (audit_text s); [by apply Hl|]. destruct (budget_text s); [by apply Hl|]. destruct (_ || _); [by apply Hl|].
  destruct (project_text s); [by apply Hl|]. intros (i & Ht & _)%elem_of_take.
  apply list_elem_of_lookup_2, list_elem_of_omap in Ht as (p & Hp & Ht). destruct (mentions p.2 s); [|done].
  injection Ht as <-. apply list_elem_of_fmap. by exists p.
Qed.

Lemma topics_few : (length (topics chunks) ≤ 4)%nat.
Proof.
  unfold topics. set (s := lower (full_text chunks)).
  destruct (audit_text s); [cbn; lia|]. destruct (budget_text s); [cbn; lia|]. destruct (_ || _); [cbn; lia|].
  destruct (project_text s); [cbn; lia|]. rewrite length_take. lia.
Qed.

Lemma emit_topics_one : one_of ev "topics" (emit_topics pack_id chunks).
Proof.
  unfold emit_topics. pose proof topics_known as Hk. pose proof topics_few as Hf. revert Hk Hf.
  generalize (topics chunks). intros l Hk Hf.
  destruct (chunk_with_in (λ c, mentions l (lower (c_text c))) chunks chunks_nonempty) as (c & Ec & Hc).
  destruct l as [|x l]; [by left|]. right. unfold topics_chunk. rewrite Ec. eexists. split; [reflexivity|].
  intros id. split; [reflexivity|]. apply (Topics_evidence chunks _ (x :: l)); [done..|]. exists c. split_and!; [done|reflexivity|].
  apply infix_take.
Qed.

Lemma generic_parts_one : Forall2 (one_of ev) GENERIC_FIELDS (generic_parts pack_id chunks).
Proof.
  repeat first [apply List.Forall2_nil|apply List.Forall2_cons];
    [apply emit_summary_one|apply emit_key_claims_one|apply emit_entities_one|apply emit_topics_one].
Qed.
End Evidence.

Section Theorems.
Context `{FR : FloatRepr}.
Variable pack_id : string.
Variable gen_id : nat → string.
Variable chunks : list Chunk.

Lemma generic_extractions exts : generic_extract pack_id gen_id chunks = Ok exts →
  (∀ e, e ∈ exts → e_field_name e ∈ GENERIC_FIELDS ∧ generic_evidence chunks e (e_field_name e)) ∧ NoDup (map e_field_name exts).
Proof.
  intros H. destruct (decide (chunks = [])) as [E|Hn].
  - rewrite E in *. assert (exts = []) as -> by (cbn in H; congruence).
    split; [intros e He; by apply not_elem_of_nil in He|constructor].
  - assert (exts = imap (λ i (d : string → Extraction), d (gen_id i)) (concat (generic_parts pack_id chunks))) as ->
      by (unfold generic_extract in H; destruct chunks; congruence).
    apply (drafts_spec (λ f e, generic_evidence chunks e f)); [by apply generic_parts_one|].
    apply (bool_decide_unpack _). vm_compute. exact I.
Qed.

(** Every extraction of the generic pack has the evidence of its field; there is
    one extraction of a field at most. *)
Theorem generic_extractions_evidenced exts : generic_extract pack_id gen_id chunks = Ok exts →
  NoDup (map e_field_name exts) ∧
  ∀ e, e ∈ exts → e_field_name e ∈ GENERIC_FIELDS ∧ generic_evidence chunks e (e_field_name e).
Proof. intros [H1 H2]%generic_extractions. by split. Qed.

(** Claims, entities and topics ground at the first stage whatever the
    embedding model: the entities because their span, not their value, is
    looked for. *)
Theorem generic_extractions_ground get_embedding cosine read_float src exts e :
  generic_extract pack_id gen_id chunks = Ok exts → e ∈ exts → e_field_name e ≠ "summary" → strip (e_source_span e) ≠ "" →
  fst (verify get_embedding cosine read_float default_verifier (e_value e) (e_source_span e) (relabel src chunks)) = EXACT.
Proof.
  intros [H _]%generic_extractions He Hf Hs. apply H in He as [_ He].
  assert (∃ c, c ∈ chunks ∧ contains (lower (e_source_span e)) (lower (c_text c)) = true) as (c & Hc & Hi).
  { revert He Hf. generalize (e_field_name e). intros f [ | |l _ _ _ [_ (c & Hc & Hi)]|_ _ Hc|l _ _ _ (c & Hc & _ & Hi)] Hf;
      [done|done|..|done|]; exists c; (split; [done|by apply lower_infix]). }
  by apply (span_grounds_lower _ _ _ _ _ _ _ c).
Qed.
End Theorems.

(** ** A concrete document *)

#[local] Existing Instance exact_float_repr.
Definition report_chunk : Chunk := other_chunk "c1" (join (String LF "")
  ["Executive Summary:"; "The security audit found two vulnerabilities."; ""; "Key Findings: 1. Patches were late by a week.";
   "- Backups were complete."]).
Definition report_sample : list Extraction :=
  match generic_extract "generic-v1" name_of [report_chunk] with Ok l => l | Raise _ => [] end.
Lemma report_runs : generic_extract "generic-v1" name_of [report_chunk] = Ok report_sample.
Proof. vm_compute. reflexivity. Qed.
Definition entities_extraction : Extraction :=
  extraction "generic-v1" "entities" (json_list ["Security Operations Team"; "IT Infrastructure"])
    (take_str 100 (c_text report_chunk)) (lit 8 10) "c1" "2".
Lemma entities_in : entities_extraction ∈ report_sample.
Proof. apply (list_elem_of_lookup_2 _ 2). vm_compute. reflexivity. Qed.

Lemma report_fields : map (λ e, (e_field_name e, e_value e)) report_sample =
  [("summary", "The security audit found two vulnerabilities.");
   ("key_claims", json_list ["Patches were late by a week."; "Backups were complete."]);
   ("entities", json_list ["Security Operations Team"; "IT Infrastructure"]);
   ("topics", json_list ["security"; "data"; "technology"])].
Proof. vm_compute. reflexivity. Qed.

Lemma generic_extractions_evidenced_witness : NoDup (map e_field_name report_sample).
Proof. exact (proj1 (generic_extractions_evidenced "generic-v1" name_of [report_chunk] report_sample report_runs)). Defined.

Lemma generic_extractions_ground_witness :
  fst (verify no_embedding no_similarity no_float default_verifier (e_value entities_extraction)
    (take_str 100 (c_text report_chunk)) (relabel "pdf" [report_chunk])) = EXACT.
Proof.
  apply (generic_extractions_ground "generic-v1" name_of [report_chunk] no_embedding no_similarity no_float "pdf" report_sample
    entities_extraction report_runs entities_in); intros H; vm_compute in H; discriminate H.
Defined.

(** The entities of this report occur nowhere in it, and pass as exact. *)
Example entities_invented :
  entities [report_chunk] = ["Security Operations Team"; "IT Infrastructure"] ∧
  existsb (λ e, contains (lower e) (lower (c_text report_chunk))) (entities [report_chunk]) = false.
Proof. vm_compute. split; reflexivity. Qed.
