(* ===== verification/ContractPack.v ===== *)
(** * The contract pack

    [packs/contract/pack.py]: parties, dates, obligations, governing law,
    payment terms and the confidentiality clause of a contract.  Texts are
    below U+0100, so the long dash of the article headings is left out.  What
    each extraction cites is proved; where a citation names another chunk than
    the one quoted, or a value holds words the text does not, an example shows
    it. *)

From S2P Require Import Prelude PyStr PyText PyFloat Json DataModel QualityGate MemoryStore Provenance Grounding Orchestrator.
From S2P Require Import Regex InvoicePack PackText PaperPack GenericPack.

Definition CONTRACT_FIELDS : list string :=
  ["parties"; "effective_date"; "termination_date"; "obligations"; "governing_law"; "payment_terms"; "confidentiality_clause"].

Definition DOTALL : flags := {| ignorecase := false; dotall := true |}.
Definition QUOTES : string := String "034" "'".

(** ** Parties *)

Definition block_parties : re := compile
  ("(?:by\s+and\s+between|between)\s*:?\s*\n(.+?)(?:\n\s*and\s*\n|\n\s*-\s+and\s+-\s*\n)(.+?)(?:\n\n|\n\d+\.|$)") DOTALL.
Definition dashed_parties : re := compile
  "(?:between|parties)\s*:?\s*\n(.+?)\n\s*-\s+and\s+-\s*\n(.+?)(?:\n\n|\n\d+\.|$)" IGNORECASE_DOTALL.
Definition parties_header : re := compile "(?:parties\s+to\s+this\s+agreement\s+are|parties\s*:)\s*:?\s*\n" IGNORECASE.
Definition party_item : re := compile
  "\d+\.\s+(.+?)(?=\n\d+\.|\n\n|\n[A-Z][A-Z]|\nRECITALS|\nWHEREAS|\nARTICLE|$)" DOTALL.
Definition inline_parties : re := compile
  ("(?:between|among)\s+([A-Z][a-zA-Z0-9\s,.&]+?)\s*(?:\([^)]*\))?\s*(?:,\s*a\s+\w+\s+\w+)?\s*(?:\([^)]*\))?\s*,?\s*and\s+" +:+
   "([A-Z][a-zA-Z0-9\s,.&]+?)(?:\s*(?:\(|,|\.|$))") no_flags.
Definition hereinafter : re := compile "\s*\(hereinafter[^)]*\)" no_flags.
Definition description_any : re := compile "\s*,\s*a\s+.*$" no_flags.
Definition description : re := compile "\s*,\s+a\s+.*$" no_flags.
Definition description_tight : re := compile ",\s+a\s+.*$" no_flags.
Definition the_name : re := compile ("\s*\(the\s+[" +:+ QUOTES +:+ "][^" +:+ QUOTES +:+ "]*[" +:+ QUOTES +:+ "]\)") no_flags.

Definition comma (c : ascii) : bool := bool_decide (c = ","%char).
Definition nonempty (l : list string) : list string := filter (λ s, truthy s = true) l.
Definition findall_group (r : re) (s : string) : list string := map (λ p, text_group 1 p.2) (finditer r s).

Abbreviation found_parties := (list string * option Chunk)%type.

Definition block_name (p : string) : string :=
  rstrip_by comma (strip (sub the_name "" (sub description_any "" (sub hereinafter "" (strip p))))).
Definition dashed_name (p : string) : string := strip (sub description "" (strip (sub the_name "" (strip p)))).
Definition item_name (p : string) : string := strip (sub description "" (strip p)).
Definition inline_name (p : string) : string := strip (sub description_tight "" (rstrip_by comma (strip p))).

Definition two_or_more (l : list string) (c : option Chunk) : option Chunk := if (2 <=? length l)%nat then c else None.

Definition format_a (chunks : list Chunk) : found_parties :=
  match search block_parties (full_text chunks) with
  | Some (_, m) =>
      let l := nonempty [block_name (text_group 1 m); block_name (text_group 2 m)] in
      (l, two_or_more l (find_first (λ c, contains "between" (lower (c_text c)) || contains "among" (lower (c_text c))) chunks))
  | None => ([], None)
  end.
Definition format_b (chunks : list Chunk) : found_parties :=
  match search dashed_parties (full_text chunks) with
  | Some (_, m) =>
      let l := nonempty [dashed_name (text_group 1 m); dashed_name (text_group 2 m)] in
      (l, two_or_more l (find_first (λ c, contains "between" (lower (c_text c))) chunks))
  | None => ([], None)
  end.
Definition format_c (chunks : list Chunk) : found_parties :=
  match search parties_header (full_text chunks) with
  | Some (_, m) =>
      let l := nonempty (map item_name (findall_group party_item (rst m))) in
      (l, match l with [] => None | _ => find_first (λ c, contains "parties" (lower (c_text c))) chunks end)
  | None => ([], None)
  end.
Definition format_d (chunks : list Chunk) : found_parties :=
  match first_in (λ c, if contains "between" (lower (c_text c)) || contains "among" (lower (c_text c))
                       then '(_, m) ← search inline_parties (c_text c); Some [inline_name (text_group 1 m); inline_name (text_group 2 m)]
                       else None) chunks with
  | Some (l, c) => (l, Some c)
  | None => ([], None)
  end.

Definition or_parties (x y : found_parties) : found_parties := match x.1 with [] => y | _ => x end.
Definition unique (l : list string) : list string :=
  fold_left (λ acc x, if bool_decide (x ∈ acc) then acc else acc ++ [x]) l [].

Definition parties (chunks : list Chunk) : found_parties :=
  let p := or_parties (format_a chunks) (or_parties (format_b chunks) (or_parties (format_c chunks) (format_d chunks))) in
  (unique p.1, p.2).

(** ** Dates *)

Definition date_text : string := "(\d{4}[-/]\d{2}[-/]\d{2}|\d{1,2}\s+[a-zA-Z]+\s+\d{4}|[a-zA-Z]+\s+\d{1,2},?\s+\d{4})".
Definition ordinal_date_text : string :=
  "(\d{1,2}(?:st|nd|rd|th)?\s+(?:day\s+of\s+)?[a-zA-Z]+,?\s+\d{4}|\d{4}[-/]\d{2}[-/]\d{2}|\d{1,2}\s+[a-zA-Z]+\s+\d{4}|" +:+
  "[a-zA-Z]+\s+\d{1,2},?\s+\d{4})".
Definition commences : re := compile ("(?:commences|commenc(?:es|ing)|starts)\s+on\s+" +:+ date_text) IGNORECASE.
Definition effective_label : re := compile
  ("(?:effective\s+date|commencement\s+date|date\s+of\s+this\s+agreement)\s*(?:is|of|as\s+of|=|:)?\s*" +:+ date_text) IGNORECASE.
Definition dated_as_of : re := compile ("(?:dated\s+)?(?:as\s+of|on)\s+(?:the\s+)?" +:+ ordinal_date_text) IGNORECASE.
Definition made_on : re := compile
  ("(?:made|entered)\s+(?:and\s+\w+\s+)?(?:into\s+)?(?:as\s+of|on)\s+(?:the\s+)?" +:+ ordinal_date_text) IGNORECASE.
Definition terminates : re := compile
  ("(?:terminate(?:s)?\s+on|expiration\s+date|termination\s+date|ends\s+on|expire(?:s)?\s+on)\s*(?:is|of|as\s+of|=|:)?\s*" +:+
   date_text) IGNORECASE.
Definition in_effect : re := compile
  ("(?:shall\s+remain\s+in\s+effect|in\s+effect|effective)\s+(?:until|through|to)\s+" +:+ date_text) IGNORECASE.

(** A date and [date_chunk], which the two dates share. *)
Abbreviation dating := (string * option Chunk)%type.
Definition find_date (r : re) (c : Chunk) (d : dating) : dating :=
  if truthy d.1 then d
  else match search r (c_text c) with Some (_, m) => (strip (text_group 1 m), Some c) | None => d end.

Definition effective (chunks : list Chunk) : dating :=
  let d := fold_left (λ d c, find_date commences c d) chunks ("", None) in
  let d := fold_left (λ d c, find_date effective_label c d) chunks d in
  fold_left (λ d c, find_date made_on c (find_date dated_as_of c d)) chunks d.
Definition termination (chunks : list Chunk) (date_chunk : option Chunk) : dating :=
  fold_left (λ d c, find_date in_effect c (find_date terminates c d)) chunks ("", date_chunk).

Definition ymd_prefix : re := compile "(\d{4})[-/](\d{2})[-/](\d{2})" no_flags.
Definition day_month_prefix : re := compile "(\d{1,2})\s+(\w+)\s+(\d{4})" no_flags.
Definition month_day_prefix : re := compile "(\w+)\s+(\d{1,2}),?\s+(\d{4})" no_flags.

Definition month_day (s : string) : option string :=
  m ← re_match month_day_prefix s; month ← month_of (text_group 1 m); Some (isoformat (int_group 3 m) month (int_group 2 m)).
Definition parse_date (s : string) : option string :=
  match re_match ymd_prefix s with
  | Some m => Some (text_group 1 m +:+ "-" +:+ text_group 2 m +:+ "-" +:+ text_group 3 m)
  | None =>
      match (m ← re_match day_month_prefix s; month ← month_of (text_group 2 m); Some (isoformat (int_group 3 m) month (int_group 1 m))) with
      | Some v => Some v
      | None => month_day s
      end
  end.

(** ** Obligations *)

Definition numbered_heading : re := compile "^\d+\.\s+[A-Z][A-Z\s]+$" no_flags.
Definition article_heading : re := compile "^ARTICLE\s+[IVX]+\s+[\-]\s+[A-Z][A-Z\s]+$" no_flags.
Definition obligation_words : list string := ["shall"; "agree to"; "covenant"; "undertake"].

Definition heading_line (line : string) : bool :=
  at_start numbered_heading (strip line) || at_start article_heading (strip line) ||
  bool_decide (strip line ∈ ["RECITALS"; "WHEREAS"]).
Definition body_text (c : Chunk) : string :=
  join " " (filter (λ l, heading_line l = false) (split_char LF (c_text c))).
Definition obligations_in (c : Chunk) : list string :=
  filter (λ s, (truthy s && mentions obligation_words (lower s)) = true) (map strip (re_split full_stop (body_text c))).

(** ** Governing law *)

Definition law_words : list string :=
  ["governing law"; "governed by"; "construed"; "laws of"; "jurisdiction"; "subject to the laws"].
Definition party_words : list string := ["incorporated in"; "organized under"; "registered in"; "hereinafter"].
Definition laws_of : re := compile
  ("(?:governed\s+by\s+(?:the\s+)?laws\s+of|laws\s+of|construed\s+in\s+accordance\s+with\s+(?:the\s+)?laws\s+of|" +:+
   "subject\s+to\s+(?:the\s+)?laws\s+of)\s+(?:the\s+)?(?:State\s+of\s+|Province\s+of\s+)?") IGNORECASE.
Definition place : re := compile "([A-Z][a-z]+(?:\s+[A-Z][a-z]+)?)" no_flags.
Definition law_label : re := compile "(?:governing\s+law|jurisdiction)\s*:?\s*([A-Z][a-z]+(?:\s+[A-Z][a-z]+)*)" IGNORECASE.
Definition law_governs : re := compile "([A-Z][a-z]+(?:\s+[A-Z][a-z]+)?)\s+law\s+governs" no_flags.
Definition governed_by : re := compile "governed\s+by\s+([A-Z][a-z]+(?:\s+[A-Z][a-z]+)?)\s+law" no_flags.
Definition state_of : re := compile "(?:State of|Province of)\s+([A-Z][a-z]+(?:\s+[A-Z][a-z]+)*)" no_flags.

Definition group_found (r : re) (s : string) : option string := '(_, m) ← search r s; Some (strip (text_group 1 m)).

Definition law_in_section (c : Chunk) : option string :=
  let text_lower := lower (c_text c) in
  if negb (mentions law_words text_lower) || mentions party_words text_lower then None
  else
    match ('(_, m) ← search laws_of (c_text c); m ← re_match place (rst m); Some (strip (text_group 1 m))) with
    | Some v => Some v
    | None => group_found law_label (c_text c)
    end.
Definition law_that_governs (c : Chunk) : option string :=
  let text_lower := lower (c_text c) in
  if contains "governs" text_lower || contains "governed by" text_lower then
    match group_found law_governs (c_text c) with Some v => Some v | None => group_found governed_by (c_text c) end
  else None.
Definition law_of_state (c : Chunk) : option string := group_found state_of (c_text c).

Abbreviation cited := (option (string * Chunk)).
Definition or_found (x y : cited) : cited := match x with Some (v, _) => if truthy v then x else y | None => y end.
Definition governing_law (chunks : list Chunk) : cited :=
  or_found (first_in law_in_section chunks) (or_found (first_in law_that_governs chunks) (first_in law_of_state chunks)).

(** ** Payment terms *)

Definition within_days : re := compile "within\s+(\w[\w-]+\s*(?:\(\d+\)\s*)?days|\d+\s*days)" IGNORECASE.
Definition terms_label : re := compile
  ("(?:payment terms|terms)\s*:?\s*(net\s*\d+|due on receipt|due upon receipt|immediate|within\s+" +:+
   "(\w[\w-]+\s*(?:\(\d+\)\s*)?days|\d+\s*days))") IGNORECASE.
Definition paid_days : re := compile
  "(?:paid|pay|remit\s+payment)\s+(?:within\s+)?((?:\w[\w-]+\s*(?:\(\d+\)\s*)?days|\d+\s*days))" IGNORECASE.

Definition terms_in (c : Chunk) : option string :=
  match group_found within_days (c_text c) with
  | Some v => Some ("within " +:+ v)
  | None =>
      match group_found terms_label (c_text c) with
      | Some v => Some v
      | None => v ← group_found paid_days (c_text c); Some ("within " +:+ v)
      end
  end.
Definition payment_terms (chunks : list Chunk) : cited := first_in terms_in chunks.

(** ** Confidentiality *)

Definition confidentiality_header : re := compile "confidentiality\s*:" IGNORECASE.
Definition number_prefix : re := compile "^\d+\.\s*" no_flags.

Fixpoint section_line (inside : bool) (lines : list string) : option string :=
  match lines with
  | [] => None
  | line :: lines' =>
      let line_stripped := strip line in
      if found confidentiality_header line_stripped then section_line true lines'
      else if inside && negb (at_start number_prefix line_stripped) && negb (String.length line_stripped <? 10)%nat
      then Some line_stripped else section_line inside lines'
  end.
Definition confidentiality_section (c : Chunk) : option string := section_line false (splitlines (c_text c)).

Definition confidential_line (line : string) : bool :=
  let line_stripped := strip line in
  negb (at_start number_prefix line_stripped) &&
  negb ((String.length line_stripped <? 20)%nat && ends_with ":" line_stripped) &&
  mentions ["confidential"; "proprietary"] (lower line_stripped) &&
  mentions ["agrees"; "disclosure"; "shall"; "party"] (lower line_stripped).
Definition confidentiality_sentence (c : Chunk) : option string :=
  line ← find_first confidential_line (splitlines (c_text c)); Some (strip line).

Definition confidentiality (chunks : list Chunk) : cited :=
  or_found (first_in confidentiality_section chunks) (first_in confidentiality_sentence chunks).

(** ** The pack *)

Section Contract.
Context `{FR : FloatRepr}.
Variable pack_id : string.

Definition emit_parties (chunks : list Chunk) : list (string → Extraction) :=
  emit_list pack_id "parties" (λ s, s) (all_of (parties chunks).1) (lit 85 100) "" (parties chunks).

Definition date_value (d : string) : string := default d (parse_date d).
Definition emit_dating (field : string) (d : string) (c : option Chunk) : list (string → Extraction) :=
  if truthy d then [extraction pack_id field (date_value d) d (lit 9 10) (id_of "" c)] else [].

Definition emit_obligations (chunks : list Chunk) : list (string → Extraction) :=
  let l := collect obligations_in chunks in
  emit_list pack_id "obligations" (take_str 50) (all_of l.1) (lit 8 10) (id_of "" (hd_error chunks)) l.

Definition emit_cited (field : string) (cut : string → string) (confidence : f64) (x : cited) : list (string → Extraction) :=
  match x with
  | Some (v, c) => if truthy v then [extraction pack_id field v (cut v) confidence (c_chunk_id c)] else []
  | None => []
  end.

Definition contract_parts (chunks : list Chunk) : list (list (string → Extraction)) :=
  let eff := effective chunks in
  let term := termination chunks eff.2 in
  [emit_parties chunks; emit_dating "effective_date" eff.1 term.2; emit_dating "termination_date" term.1 term.2;
   emit_obligations chunks; emit_cited "governing_law" (λ s, s) (lit 9 10) (governing_law chunks);
   emit_cited "payment_terms" (λ s, s) (lit 85 100) (payment_terms chunks);
   emit_cited "confidentiality_clause" (take_str 50) (lit 85 100) (confidentiality chunks)].

Variable gen_id : nat → string.

Definition contract_extract (chunks : list Chunk) : result (list Extraction) :=
  match chunks with
  | [] => Ok []
  | _ => Ok (imap (λ i d, d (gen_id i)) (concat (contract_parts chunks)))
  end.

Definition ContractPack : Pack := {| pack_name := "ContractPack"; pack_fields := CONTRACT_FIELDS; extract := contract_extract |}.
End Contract.

(** ** Evidence *)

(** What an extraction of each field is, and what it cites.  The chunk named
    with the effective date is that of the last date found. *)
Inductive contract_evidence `{FR : FloatRepr} (chunks : list Chunk) (e : Extraction) : string → Prop :=
| Parties_evidence l : e_value e = json_list l → NoDup l → hd_error l = Some (e_source_span e) →
    (e_chunk_id e = "" ∨ cites_id chunks e) → contract_evidence chunks e "parties"
| Effective_evidence : e_value e = date_value (e_source_span e) → cites_some chunks e → contract_evidence chunks e "effective_date"
| Termination_evidence : e_value e = date_value (e_source_span e) → cites chunks e → contract_evidence chunks e "termination_date"
| Obligations_evidence l x : e_value e = json_list l → listing obligations_in chunks l → hd_error l = Some x →
    e_source_span e = take_str 50 x → (∃ c, c ∈ chunks ∧ e_chunk_id e = c_chunk_id c ∧ infix_of x (body_text c)) →
    contract_evidence chunks e "obligations"
| Law_evidence : e_value e = e_source_span e → cites chunks e → contract_evidence chunks e "governing_law"
| Terms_evidence w c : e_value e = e_source_span e → c ∈ chunks → e_chunk_id e = c_chunk_id c → infix_of w (c_text c) →
    (e_source_span e = w ∨ e_source_span e = "within " +:+ w) → contract_evidence chunks e "payment_terms"
| Confidentiality_evidence c : c ∈ chunks → e_chunk_id e = c_chunk_id c → infix_of (e_value e) (c_text c) →
    e_source_span e = take_str 50 (e_value e) → contract_evidence chunks e "confidentiality_clause".

Lemma group_found_infix r s v : group_found r s = Some v → infix_of v s.
Proof.
  unfold group_found. destruct (search r s) as [[x m]|] eqn:E; [|done]. cbn [mbind option_bind]. intros H.
  assert (v = strip (text_group 1 m)) as -> by congruence. by eapply infix_of_strip, search_text.
Qed.

Definition dating_ok (chunks : list Chunk) (d : dating) : Prop :=
  match d.2 with
  | Some c => c ∈ chunks ∧ (truthy d.1 = true → infix_of d.1 (c_text c))
  | None => d.1 = ""
  end.

Lemma find_date_ok chunks r c d : c ∈ chunks → dating_ok chunks d → dating_ok chunks (find_date r c d).
Proof.
  intros Hc Hd. unfold find_date. destruct (truthy d.1); [done|]. destruct (search r (c_text c)) as [[x m]|] eqn:E; [|done].
  split; [done|]. intros _. by eapply infix_of_strip, search_text.
Qed.

Lemma effective_ok chunks : dating_ok chunks (effective chunks).
Proof.
  unfold effective.
  repeat (apply fold_left_inv; [|intros; repeat (apply find_date_ok; [done|]); done]). done.
Qed.

Lemma termination_ok chunks d : match d with Some c => c ∈ chunks | None => True end → dating_ok chunks (termination chunks d).
Proof.
  intros Hd. unfold termination. apply fold_left_inv; [|intros; repeat (apply find_date_ok; [done|]); done].
  unfold dating_ok. cbn [fst snd]. by destruct d.
Qed.

Definition quoted (chunks : list Chunk) (x : cited) : Prop :=
  match x with Some (v, c) => c ∈ chunks ∧ infix_of v (c_text c) | None => True end.

Lemma or_found_ok chunks x y : quoted chunks x → quoted chunks y → quoted chunks (or_found x y).
Proof. unfold or_found. destruct x as [[v c]|]; [|done]. by destruct (truthy v). Qed.

Lemma first_in_quoted f chunks : (∀ c v, f c = Some v → infix_of v (c_text c)) → quoted chunks (first_in f chunks).
Proof.
  intros Hf. destruct (first_in f chunks) as [[v c]|] eqn:E; [|done]. apply first_in_Some in E as [Hc Hv]. split; [done|by apply Hf].
Qed.

Lemma law_in_section_infix c v : law_in_section c = Some v → infix_of v (c_text c).
Proof.
  unfold law_in_section. destruct (_ || _); [done|]. destruct (search laws_of (c_text c)) as [[x m]|] eqn:E; [|apply group_found_infix].
  cbn [mbind option_bind]. destruct (re_match place (rst m)) as [y|] eqn:Em; [|apply group_found_infix].
  cbn [mbind option_bind]. intros H. injection H as <-. eapply infix_of_strip, infix_trans; [by eapply re_match_text|by eapply search_rest].
Qed.

Lemma governing_law_quoted chunks : quoted chunks (governing_law chunks).
Proof.
  unfold governing_law. apply or_found_ok; [apply first_in_quoted, law_in_section_infix|].
  apply or_found_ok; apply first_in_quoted; intros c v.
  - unfold law_that_governs. destruct (_ || _); [|done]. destruct (group_found law_governs (c_text c)) as [w|] eqn:E.
    + intros H. injection H as <-. by eapply group_found_infix.
    + apply group_found_infix.
  - apply group_found_infix.
Qed.

Lemma section_line_in lines : ∀ inside v, section_line inside lines = Some v → ∃ l, l ∈ lines ∧ v = strip l.
Proof.
  induction lines as [|l lines IH]; intros inside v; [done|]. cbn [section_line]. cbv zeta.
  destruct (found confidentiality_header (strip l)).
  { intros (x & Hx & ->)%IH. exists x. split; [by right|done]. }
  destruct (_ && _ && _).
  - intros [= <-]. exists l. split; [by left|done].
  - intros (x & Hx & ->)%IH. exists x. split; [by right|done].
Qed.

Lemma confidentiality_quoted chunks : quoted chunks (confidentiality chunks).
Proof.
  unfold confidentiality. apply or_found_ok; apply first_in_quoted; intros c v.
  - intros (l & Hl & ->)%section_line_in. by apply infix_of_strip, splitlines_in.
  - unfold confidentiality_sentence. destruct (find_first _ _) as [l|] eqn:E; [|done]. cbn [mbind option_bind]. intros H.
    injection H as <-. apply find_first_Some in E as [Hl _]. by apply infix_of_strip, splitlines_in.
Qed.

Lemma unique_spec l : NoDup (unique l) ∧ ∀ x, x ∈ unique l → x ∈ l.
Proof.
  unfold unique. apply (fold_left_inv (λ acc, NoDup acc ∧ ∀ x, x ∈ acc → x ∈ l)).
  - split; [constructor|]. intros x Hx. by apply not_elem_of_nil in Hx.
  - intros acc x Hx [Hn Hin]. destruct (bool_decide (x ∈ acc)) eqn:E; bool_prop; [done|]. split.
    + apply NoDup_app. split; [done|]. split; [|apply NoDup_singleton]. intros y Hy ->%list_elem_of_singleton. done.
    + intros y [Hy| ->%list_elem_of_singleton]%elem_of_app; auto.
Qed.

Definition of_chunks (chunks : list Chunk) (c : option Chunk) : Prop := match c with Some c => c ∈ chunks | None => True end.

Lemma first_of_chunks p chunks : of_chunks chunks (find_first p chunks).
Proof. destruct (find_first p chunks) as [c|] eqn:E; [|done]. by apply find_first_Some in E as [? _]. Qed.

Lemma parties_of_chunks chunks : of_chunks chunks (parties chunks).2.
Proof.
  assert (∀ x y : found_parties, of_chunks chunks x.2 → of_chunks chunks y.2 → of_chunks chunks (or_parties x y).2) as Hor.
  { intros x y Hx Hy. unfold or_parties. by destruct x.1. }
  unfold parties. cbn [snd]. repeat apply Hor.
  - unfold format_a. destruct (search _ _) as [[x m]|]; [|done]. cbn [snd]. unfold two_or_more. destruct (_ <=? _)%nat; [|done].
    apply first_of_chunks.
  - unfold format_b. destruct (search _ _) as [[x m]|]; [|done]. cbn [snd]. unfold two_or_more. destruct (_ <=? _)%nat; [|done].
    apply first_of_chunks.
  - unfold format_c. destruct (search _ _) as [[x m]|]; [|done]. cbn [snd]. destruct (nonempty _); [done|]. apply first_of_chunks.
  - unfold format_d. destruct (first_in _ _) as [[l c]|] eqn:E; [|done]. by apply first_in_Some in E as [? _].
Qed.

Lemma obligation_text c x : x ∈ obligations_in c → infix_of x (body_text c).
Proof.
  unfold obligations_in. intros [_ (y & -> & Hy)%list_elem_of_fmap]%list_elem_of_filter.
  eapply infix_of_strip, re_split_infix, Hy. vm_compute. repeat constructor.
Qed.

Lemma terms_in_text c v : terms_in c = Some v → ∃ w, infix_of w (c_text c) ∧ (v = w ∨ v = "within " +:+ w).
Proof.
  unfold terms_in. destruct (group_found within_days (c_text c)) as [w|] eqn:E1.
  { intros H. injection H as <-. exists w. split; [by eapply group_found_infix|by right]. }
  destruct (group_found terms_label (c_text c)) as [w|] eqn:E2.
  { intros H. injection H as <-. exists w. split; [by eapply group_found_infix|by left]. }
  destruct (group_found paid_days (c_text c)) as [w|] eqn:E3; [|done]. intros H. injection H as <-. exists w.
  split; [by eapply group_found_infix|by right].
Qed.

Section Evidence.
Context `{FR : FloatRepr}.
Variable pack_id : string.
Variable chunks : list Chunk.
Hypothesis chunks_nonempty : chunks ≠ [].
Abbreviation ev := (λ f e, contract_evidence chunks e f).

Lemma emit_parties_one : one_of ev "parties" (emit_parties pack_id chunks).
Proof.
  unfold emit_parties, emit_list. pose proof (parties_of_chunks chunks) as Hc.
  assert (NoDup (parties chunks).1) as Hn by apply unique_spec. revert Hc Hn.
  generalize (parties chunks). intros [[|x l] k] Hc Hn; cbn [fst snd] in *; [by left|].
  right. eexists. split; [reflexivity|]. intros id. split; [reflexivity|].
  apply (Parties_evidence chunks _ (x :: l)); [|done|reflexivity|].
  - cbn [extraction e_value]. f_equal. unfold all_of. by rewrite firstn_all.
  - destruct k as [c|]; [right|by left]. exists c. by split.
Qed.

Lemma emit_effective_one : let eff := effective chunks in
  one_of ev "effective_date" (emit_dating pack_id "effective_date" eff.1 (termination chunks eff.2).2).
Proof.
  cbv zeta. unfold emit_dating. pose proof (effective_ok chunks) as He. unfold dating_ok in He.
  destruct (truthy (effective chunks).1) eqn:E; [|by left]. destruct (effective chunks).2 as [c|] eqn:Ec; [|by rewrite He in E].
  destruct He as [Hc Hi]. specialize (Hi eq_refl). right. eexists. split; [reflexivity|]. intros id. split; [reflexivity|].
  apply Effective_evidence; [reflexivity|]. split; [|by exists c].
  pose proof (termination_ok chunks (Some c) Hc) as Ht. unfold dating_ok in Ht.
  destruct (termination chunks (Some c)).2 as [d|] eqn:Ed; [destruct Ht as [Hd _]; by exists d|].
  exfalso. assert (∀ r c d, d.2 ≠ None → (find_date r c d).2 ≠ None) as Hkeep.
  { intros r c' d Hd. unfold find_date. destruct (truthy d.1); [done|]. by destruct (search r (c_text c')) as [[? ?]|]. }
  revert Ed. unfold termination. apply (fold_left_inv (λ d, d.2 ≠ None)); [done|]. intros d c' _ Hd. by apply Hkeep, Hkeep.
Qed.

Lemma emit_termination_one d : of_chunks chunks d →
  one_of ev "termination_date" (emit_dating pack_id "termination_date" (termination chunks d).1 (termination chunks d).2).
Proof.
  intros Hd. unfold emit_dating. pose proof (termination_ok chunks d Hd) as Ht. unfold dating_ok in Ht.
  destruct (truthy (termination chunks d).1) eqn:E; [|by left].
  destruct (termination chunks d).2 as [c|]; [|by rewrite Ht in E]. destruct Ht as [Hc Hi].
  right. eexists. split; [reflexivity|]. intros id. split; [reflexivity|]. apply Termination_evidence; [reflexivity|].
  exists c. split_and!; [done|reflexivity|by apply Hi].
Qed.

Lemma emit_obligations_one : one_of ev "obligations" (emit_obligations pack_id chunks).
Proof.
  unfold emit_obligations, emit_list. destruct (collect_spec obligations_in chunks) as [(Hn & _ & Hf) Hall]. revert Hn Hf Hall.
  generalize (collect obligations_in chunks). intros [[|x l] k] Hn Hf Hall; cbn [fst snd] in *; [by left|].
  destruct k as [c|]; [|done]. destruct Hf as [Hc Hx]. right. eexists. split; [reflexivity|]. intros id. split; [reflexivity|].
  apply (Obligations_evidence chunks _ (x :: l) x); [|by split|reflexivity|reflexivity|].
  - cbn [extraction e_value]. f_equal. unfold all_of. by rewrite firstn_all.
  - exists c. split_and!; [done|reflexivity|by apply obligation_text].
Qed.

Lemma emit_law_one : one_of ev "governing_law" (emit_cited pack_id "governing_law" (λ s, s) (lit 9 10) (governing_law chunks)).
Proof.
  unfold emit_cited. pose proof (governing_law_quoted chunks) as H. destruct (governing_law chunks) as [[v c]|]; [|by left].
  destruct (truthy v); [|by left]. destruct H. right. eexists. split; [reflexivity|]. intros id. split; [reflexivity|].
  apply Law_evidence; [reflexivity|]. exists c. by split_and!.
Qed.

Lemma emit_terms_one : one_of ev "payment_terms" (emit_cited pack_id "payment_terms" (λ s, s) (lit 85 100) (payment_terms chunks)).
Proof.
  unfold emit_cited, payment_terms. destruct (first_in terms_in chunks) as [[v c]|] eqn:E; [|by left].
  apply first_in_Some in E as [Hc (w & Hw & Hv)%terms_in_text]. destruct (truthy v); [|by left].
  right. eexists. split; [reflexivity|]. intros id. split; [reflexivity|]. by apply (Terms_evidence chunks _ w c).
Qed.

Lemma emit_confidentiality_one : one_of ev "confidentiality_clause"
  (emit_cited pack_id "confidentiality_clause" (take_str 50) (lit 85 100) (confidentiality chunks)).
Proof.
  unfold emit_cited. pose proof (confidentiality_quoted chunks) as H. destruct (confidentiality chunks) as [[v c]|]; [|by left].
  destruct (truthy v); [|by left]. destruct H. right. eexists. split; [reflexivity|]. intros id. split; [reflexivity|].
  by apply (Confidentiality_evidence chunks _ c).
Qed.

Lemma contract_parts_one : Forall2 (one_of ev) CONTRACT_FIELDS (contract_parts pack_id chunks).
Proof.
  unfold contract_parts.
  assert (of_chunks chunks (effective chunks).2) as He.
  { pose proof (effective_ok chunks) as H. unfold dating_ok in H. destruct (effective chunks).2; [by destruct H|done]. }
  repeat first [apply List.Forall2_nil|apply List.Forall2_cons];
    [apply emit_parties_one|apply emit_effective_one|by apply emit_termination_one|apply emit_obligations_one|apply emit_law_one|
     apply emit_terms_one|apply emit_confidentiality_one].
Qed.
End Evidence.

Section Theorems.
Context `{FR : FloatRepr}.
Variable pack_id : string.
Variable gen_id : nat → string.
Variable chunks : list Chunk.

Lemma contract_extractions exts : contract_extract pack_id gen_id chunks = Ok exts →
  (∀ e, e ∈ exts → e_field_name e ∈ CONTRACT_FIELDS ∧ contract_evidence chunks e (e_field_name e)) ∧ NoDup (map e_field_name exts).
Proof.
  intros H. destruct (decide (chunks = [])) as [E|Hn].
  - rewrite E in *. assert (exts = []) as -> by (cbn in H; congruence).
    split; [intros e He; by apply not_elem_of_nil in He|constructor].
  - assert (exts = imap (λ i (d : string → Extraction), d (gen_id i)) (concat (contract_parts pack_id chunks))) as ->
      by (unfold contract_extract in H; destruct chunks; congruence).
    apply (drafts_spec (λ f e, contract_evidence chunks e f)); [by apply contract_parts_one|].
    apply (bool_decide_unpack _). vm_compute. exact I.
Qed.

(** Every extraction of a contract has the evidence of its field; there is one
    extraction of a field at most. *)
Theorem contract_extractions_evidenced exts : contract_extract pack_id gen_id chunks = Ok exts →
  NoDup (map e_field_name exts) ∧
  ∀ e, e ∈ exts → e_field_name e ∈ CONTRACT_FIELDS ∧ contract_evidence chunks e (e_field_name e).
Proof. intros [H1 H2]%contract_extractions. by split. Qed.

(** The fields whose span is always text of a chunk ground at the first stage. *)
Theorem contract_extractions_ground get_embedding cosine read_float src exts e :
  contract_extract pack_id gen_id chunks = Ok exts → e ∈ exts →
  e_field_name e ∈ ["effective_date"; "termination_date"; "governing_law"; "confidentiality_clause"] →
  strip (e_source_span e) ≠ "" →
  fst (verify get_embedding cosine read_float default_verifier (e_value e) (e_source_span e) (relabel src chunks)) = EXACT.
Proof.
  intros [H _]%contract_extractions He Hf Hs. apply H in He as [_ He].
  assert (in_chunks (e_source_span e) chunks) as (c & Hc & Hi).
  { revert He Hf. generalize (e_field_name e). intros f Hev Hf. destruct Hev as [l| _ [_ Hc]|_ (c & Hc & _ & Hi)|l x|_ (c & Hc & _ & Hi)|w c|c Hc _ Hi Hs'].
    - exfalso. revert Hf. apply (bool_decide_eq_false_1 _). reflexivity.
    - exact Hc.
    - by exists c.
    - exfalso. revert Hf. apply (bool_decide_eq_false_1 _). reflexivity.
    - by exists c.
    - exfalso. revert Hf. apply (bool_decide_eq_false_1 _). reflexivity.
    - exists c. split; [done|]. rewrite Hs'. by apply infix_of_take. }
  by apply (span_grounds _ _ _ _ _ _ _ c).
Qed.
End Theorems.

(** ** A concrete contract *)

#[local] Existing Instance exact_float_repr.
Definition contract_first : Chunk := other_chunk "c1" (join (String LF "")
  ["This agreement is made between Omega Systems LLC, and Delta Corporation."; "It commences on 1 March 2024.";
   "The Provider shall deliver the goods. Invoices are paid within 30 days."]).
Definition contract_second : Chunk := other_chunk "c2" (join (String LF "")
  ["It terminates on 31 February 2026."; "This agreement is governed by the laws of the State of New York.";
   "Confidentiality:"; "Each party keeps the terms secret."]).
Definition contract_sample : list Extraction :=
  match contract_extract "contract-v1" name_of [contract_first; contract_second] with Ok l => l | Raise _ => [] end.
Lemma contract_runs : contract_extract "contract-v1" name_of [contract_first; contract_second] = Ok contract_sample.
Proof. vm_compute. reflexivity. Qed.

Lemma contract_fields_found : map (λ e, (e_field_name e, e_value e, e_chunk_id e)) contract_sample =
  [("parties", json_list ["Omega Systems LLC"; "Delta Corporation"], "c1"); ("effective_date", "2024-03-01", "c2");
   ("termination_date", "2026-02-31", "c2"); ("obligations", json_list ["The Provider shall deliver the goods."], "c1");
   ("governing_law", "New York", "c2"); ("payment_terms", "within 30 days", "c1");
   ("confidentiality_clause", "Each party keeps the terms secret.", "c2")].
Proof. vm_compute. reflexivity. Qed.

Definition law_extraction : Extraction := extraction "contract-v1" "governing_law" "New York" "New York" (lit 9 10) "c2" "4".
Lemma law_in : law_extraction ∈ contract_sample.
Proof. apply (list_elem_of_lookup_2 _ 4). vm_compute. reflexivity. Qed.

Lemma contract_extractions_evidenced_witness : NoDup (map e_field_name contract_sample).
Proof.
  exact (proj1 (contract_extractions_evidenced "contract-v1" name_of [contract_first; contract_second] contract_sample contract_runs)).
Defined.

Lemma contract_extractions_ground_witness :
  fst (verify no_embedding no_similarity no_float default_verifier "New York" "New York"
    (relabel "pdf" [contract_first; contract_second])) = EXACT.
Proof.
  apply (contract_extractions_ground "contract-v1" name_of [contract_first; contract_second] no_embedding no_similarity no_float "pdf"
    contract_sample law_extraction contract_runs law_in); [apply (bool_decide_unpack _); vm_compute; exact I|intros H; discriminate H].
Defined.

(** *** Where the pack does not do what it means to *)

(** The effective date is cited from the chunk of the termination date, which does not hold it. *)
Example effective_date_miscited :
  (effective [contract_first; contract_second]).1 = "1 March 2024" ∧
  c_chunk_id <$> (termination [contract_first; contract_second] (effective [contract_first; contract_second]).2).2 = Some "c2" ∧
  contains "1 March 2024" (c_text contract_second) = false.
Proof. vm_compute. split_and!; reflexivity. Qed.

(** A day that does not exist is normalised like any other. *)
Example impossible_date_accepted : parse_date "31 February 2026" = Some "2026-02-31".
Proof. vm_compute. reflexivity. Qed.

(** The terms get a word the contract does not have. *)
Example within_added : terms_in (other_chunk "c1" "The fee is paid 30 days after delivery.") = Some "within 30 days".
Proof. vm_compute. reflexivity. Qed.

(** A day in words is not read as a date, and the raw text becomes the value. *)
Example ordinal_date_raw : date_value "1st day of March 2024" = "1st day of March 2024".
Proof. vm_compute. reflexivity. Qed.
