(* ===== verification/PackOracle.v ===== *)
(** * Scoring a pack against its fixtures

    The [oracle] of the paper, generic, contract and invoice packs is one
    function of the fields of the pack, its [_field_matches] and its
    [extract].  The texts of the fixture directory and the ingestor are
    arguments: [ingest path] is [None] when the file does not exist and raises
    when it cannot be read.  A loop that counts hits and trials per field is
    shown to compute, for every field, the share of the evaluated fixtures on
    which the pack agrees with the ground truth. *)

From S2P Require Import Prelude PyStr PyText PyFloat PyDict Json JsonRead DataModel QualityGate MemoryStore Provenance Orchestrator.
From S2P Require Import Regex InvoicePack PackText PaperPack GenericPack ContractPack.

(** ** [str] of a decoded JSON value *)

Definition printable (c : ascii) : bool :=
  let n := code c in between 32 126 n || (between 161 255 n && negb (n =? 173)%N).
Definition repr_char (q c : ascii) : string :=
  if bool_decide (c = q) || bool_decide (c = "092"%char) then String "092" (String c "")
  else if bool_decide (c = "009"%char) then "\t"
  else if bool_decide (c = "010"%char) then "\n"
  else if bool_decide (c = "013"%char) then "\r"
  else if printable c then String c ""
  else "\x" +:+ String (hex_digit (code c / 16)) (String (hex_digit (code c mod 16)) "").
Definition repr_str (s : string) : string :=
  let q := if contains (String "039" "") s && negb (contains (String "034" "") s) then "034"%char else "039"%char in
  String q (foldr (λ c t, repr_char q c +:+ t) (String q "") (chars s)).

Section Str.
Context `{FR : FloatRepr}.

Definition repr_float (f : f64) : string :=
  match f with
  | S754_nan => "nan"
  | S754_infinity s => if s then "-inf" else "inf"
  | _ => float_repr f
  end.

Fixpoint repr (v : json) : string :=
  match v with
  | JNull => "None"
  | JBool b => if b then "True" else "False"
  | JInt z => pretty z
  | JFloat f => repr_float f
  | JStr s => repr_str s
  | JArr l => "[" +:+ join ", " (map repr l) +:+ "]"
  | JObj l => "{" +:+ join ", " (map (λ p, repr_str p.1 +:+ ": " +:+ repr p.2) l) +:+ "}"
  end.
Definition py_str (v : json) : string := match v with JStr s => s | _ => repr v end.
End Str.

(** ** Agreement with the ground truth *)

Section Oracle.
Context `{FC : FloatRead}.

Definition squeeze (s : string) : string := join " " (split (lower (strip s))).

Definition normal_item (v : json) : string := lower (strip (py_str v)).

Definition decoded_list (extracted : string) : list json :=
  if starts_with "[" extracted then match loads extracted with Ok (JArr l) => l | _ => [JStr extracted] end
  else [JStr extracted].

Definition field_matches (extracted : string) (expected : json) : bool :=
  match expected with
  | JStr s =>
      let ext_norm := squeeze extracted in
      let exp_norm := squeeze s in
      bool_decide (ext_norm = exp_norm) || contains exp_norm ext_norm || contains ext_norm exp_norm
  | JArr l =>
      existsb (λ item, existsb (λ ext_item, contains (normal_item item) (normal_item ext_item)
        || contains (normal_item ext_item) (normal_item item)) (decoded_list extracted)) l
  | _ => false
  end.

(** [InvoicePack._field_matches] *)
Definition number_matches (parse_float : string → result f64) (extracted : string) (expected : f64) : bool :=
  match parse_float extracted with
  | Ok x => let d := (x - expected)%f64 in flt (if flt d f0 then fopp d else d) (lit 1 100)
  | Raise _ => false
  end.
Definition invoice_field_matches (parse_float : string → result f64) (extracted : string) (expected : json) : bool :=
  match expected with
  | JBool b => number_matches parse_float extracted (of_Z (if b then 1 else 0))
  | JInt z => number_matches parse_float extracted (of_Z z)
  | JFloat f => number_matches parse_float extracted f
  | JStr _ => field_matches extracted expected
  | JArr l => (length (decoded_list extracted) =? length l)%nat
  | _ => false
  end.

(** ** The loop over the fixtures *)

Variable fields : list string.
Variable matches : string → json → bool.
Variable extract : list Chunk → result (list Extraction).
Variable ingest : string → option (result (list Chunk)).

Definition zero_scores : list (string * f64) := map (λ f, (f, f0)) fields.
Definition counters : list (string * Z) := map (λ f, (f, 0)) fields.
Definition bump (f : string) (d : list (string * Z)) : list (string * Z) := dict_set f (default 0 (assoc f d) + 1) d.

Abbreviation trial := (list (string * json) * list (string * Extraction))%type.

(** One fixture: its ground truth and the extractions by field, or [None] when
    it is skipped. *)
Definition evaluate (fixture : json) : result (option trial) :=
  items ← match fixture with JObj l => Ok l | _ => raise "TypeError" "fixture indices" end;
  file ← match assoc "file" items with Some v => Ok v | None => raise "KeyError" "'file'" end;
  path ← match file with JStr s => Ok s | _ => raise "TypeError" "unsupported operand type(s) for /" end;
  match ingest path with
  | None => Ok None
  | Some r =>
      truth ← match assoc "ground_truth" items with Some v => Ok v | None => raise "KeyError" "'ground_truth'" end;
      match r with
      | Raise _ => Ok None
      | Ok chunks =>
          extractions ← extract chunks;
          truth ← match truth with JObj l => Ok l | _ => raise "AttributeError" "no attribute 'get'" end;
          Ok (Some (truth, dict_of (map (λ e, (e_field_name e, e)) extractions)))
      end
  end.

Definition expected_of (truth : list (string * json)) (f : string) : option json :=
  match assoc f truth with Some JNull | None => None | Some v => Some v end.

Definition agrees (t : trial) (f : string) : bool :=
  match expected_of t.1 f, assoc f t.2 with
  | None, None => true
  | Some v, Some e => matches (e_value e) v
  | _, _ => false
  end.

(** [field_total] and [field_correct] after one field. *)
Definition score_field (t : trial) (d : list (string * Z) * list (string * Z)) (f : string) :=
  (bump f d.1, if agrees t f then bump f d.2 else d.2).

Fixpoint score_fixtures (fixtures : list json) (d : list (string * Z) * list (string * Z))
    : result (list (string * Z) * list (string * Z)) :=
  match fixtures with
  | [] => Ok d
  | x :: fixtures' =>
      t ← evaluate x;
      score_fixtures fixtures' (match t with Some t => fold_left (score_field t) fields d | None => d end)
  end.

Definition ratio (correct total : Z) : f64 := if 0 <? total then (of_Z correct / of_Z total)%f64 else f0.

(** [gt_text]: the text of [ground_truth.json], [None] when it does not exist. *)
Definition oracle (gt_text : option string) : result (list (string * f64)) :=
  match gt_text with
  | None => Ok zero_scores
  | Some text =>
      gt_data ← loads text;
      fixtures ← match gt_data with
                 | JObj l => Ok (default (JArr []) (assoc "fixtures" l))
                 | _ => raise "AttributeError" "no attribute 'get'"
                 end;
      if negb (truthy_json fixtures) then Ok zero_scores
      else match fixtures with
      | JArr l =>
          '(total, correct) ← score_fixtures l (counters, counters);
          Ok (map (λ f, (f, ratio (default 0 (assoc f correct)) (default 0 (assoc f total)))) fields)
      | _ => raise "TypeError" "fixtures"
      end
  end.

(** ** What it computes *)

(** The fixtures that are evaluated. *)
Fixpoint trials (fixtures : list json) : result (list trial) :=
  match fixtures with
  | [] => Ok []
  | x :: fixtures' =>
      t ← evaluate x; ts ← trials fixtures';
      Ok (match t with Some t => t :: ts | None => ts end)
  end.

Definition hits (ts : list trial) (f : string) : Z := Z.of_nat (length (filter (λ t, agrees t f = true) ts)).
Definition agreement (ts : list trial) (f : string) : f64 := ratio (hits ts f) (Z.of_nat (length ts)).
End Oracle.

Section Counting.
Context `{FC : FloatRead}.

Definition count_of (f : string) (d : list (string * Z)) : Z := default 0 (assoc f d).

Lemma count_bump f g d : count_of f (bump g d) = count_of f d + (if bool_decide (f = g) then 1 else 0).
Proof.
  unfold count_of, bump. case_bool_decide as E; [subst; by rewrite assoc_set_eq|]. rewrite assoc_set_ne by done. lia.
Qed.

Lemma count_zero f l : count_of f (map (λ f, (f, 0)) l) = 0.
Proof. unfold count_of. induction l as [|g l IH]; [done|]. cbn [map assoc]. by case_bool_decide. Qed.

Variable fields : list string.
Variable matches : string → json → bool.
Variable extract : list Chunk → result (list Extraction).
Variable ingest : string → option (result (list Chunk)).
Abbreviation agrees_ := (agrees matches).

Lemma count_fields t f l : NoDup l → ∀ d,
  count_of f (fold_left (score_field matches t) l d).1 = count_of f d.1 + (if bool_decide (f ∈ l) then 1 else 0) ∧
  count_of f (fold_left (score_field matches t) l d).2 = count_of f d.2 + (if bool_decide (f ∈ l) && agrees_ t f then 1 else 0).
Proof.
  induction l as [|g l IH]; intros Hn d; cbn [fold_left].
  { rewrite bool_decide_false by apply not_elem_of_nil. cbn. lia. }
  apply NoDup_cons in Hn as [Hg Hn]. destruct (IH Hn (score_field matches t d g)) as [-> ->]. unfold score_field at 1 2. cbn [fst snd].
  assert (count_of f (if agrees_ t g then bump g d.2 else d.2) =
    count_of f d.2 + (if bool_decide (f = g) && agrees_ t f then 1 else 0)) as ->.
  { destruct (decide (f = g)) as [->|E].
    - rewrite bool_decide_true by done. destruct (agrees_ t g); [rewrite count_bump, bool_decide_true by done|]; cbn; lia.
    - rewrite bool_decide_false by done. destruct (agrees_ t g); [rewrite count_bump, bool_decide_false by done|]; cbn; lia. }
  rewrite count_bump, (bool_decide_ext (f ∈ g :: l) (f = g ∨ f ∈ l)) by apply elem_of_cons.
  destruct (decide (f = g)) as [->|E]; [|destruct (decide (f ∈ l)) as [Hf|Hf]].
  - rewrite (bool_decide_true (g = g)), (bool_decide_false (g ∈ l)), bool_decide_true by auto. cbn [andb].
    destruct (agrees_ t g); lia.
  - rewrite (bool_decide_false (f = g)), (bool_decide_true (f ∈ l)), bool_decide_true by auto. cbn [andb].
    destruct (agrees_ t f); lia.
  - rewrite (bool_decide_false (f = g)), (bool_decide_false (f ∈ l)), bool_decide_false by tauto. cbn [andb]. lia.
Qed.

Lemma score_fixtures_spec l : NoDup fields → ∀ d,
  match trials extract ingest l with
  | Ok ts => ∃ d', score_fixtures fields matches extract ingest l d = Ok d' ∧ ∀ f, f ∈ fields →
      count_of f d'.1 = count_of f d.1 + Z.of_nat (length ts) ∧ count_of f d'.2 = count_of f d.2 + hits matches ts f
  | Raise e => score_fixtures fields matches extract ingest l d = Raise e
  end.
Proof.
  intros Hn. induction l as [|x l IH]; intros d; cbn [trials score_fixtures].
  { exists d. split; [done|]. intros f _. change (hits matches [] f) with 0. cbn [length]. rewrite !Z.add_0_r. done. }
  destruct (evaluate extract ingest x) as [t|e]; [|done]. cbn [mbind result_bind].
  specialize (IH (match t with Some t => fold_left (score_field matches t) fields d | None => d end)).
  destruct (trials extract ingest l) as [ts|e]; cbn [mbind result_bind]; [|done].
  destruct IH as (d' & Hd & H). exists d'. split; [done|]. intros f Hf. destruct (H f Hf) as [-> ->].
  destruct t as [t|]; [|done]. destruct (count_fields t f fields Hn d) as [-> ->]. rewrite bool_decide_true by done.
  unfold hits. rewrite filter_cons. cbn [length andb]. destruct (agrees_ t f) eqn:E.
  - rewrite decide_True by done. cbn [length]. lia.
  - rewrite decide_False by done. lia.
Qed.

(** The score of a field is the share of the evaluated fixtures on which the
    pack agrees with the ground truth; a fixture that cannot be scored makes
    the whole run raise. *)
Theorem oracle_counts text items fixture fixtures : NoDup fields → loads text = Ok (JObj items) →
  assoc "fixtures" items = Some (JArr (fixture :: fixtures)) →
  oracle fields matches extract ingest (Some text) =
    (ts ← trials extract ingest (fixture :: fixtures); Ok (map (λ f, (f, agreement matches ts f)) fields)).
Proof.
  intros Hn Hl Hf. unfold oracle. rewrite Hl. cbn [mbind result_bind]. rewrite Hf.
  change (default (JArr []) (Some (JArr (fixture :: fixtures)))) with (JArr (fixture :: fixtures)).
  replace (truthy_json (JArr (fixture :: fixtures))) with true by reflexivity. cbn [negb mbind result_bind].
  pose proof (score_fixtures_spec (fixture :: fixtures) Hn (counters fields, counters fields)) as H. revert H.
  destruct (trials extract ingest (fixture :: fixtures)) as [ts|e]; [|by intros ->].
  intros (d & -> & H). cbn [mbind result_bind]. destruct d as [total correct]. f_equal. apply map_ext_in.
  intros f Hin%list_elem_of_In. destruct (H f Hin) as [H1 H2]. cbn [fst snd] in *. unfold counters in *. rewrite !count_zero in *.
  unfold count_of in *. rewrite H1, H2. done.
Qed.
End Counting.

(** ** The packs *)

Section Packs.
Context `{FC : FloatRead}.
Variable pack_id : string.
Variable gen_id : nat → string.
Variable parse_float : string → result f64.
Variable ingest : string → option (result (list Chunk)).

Definition paper_oracle : option string → result (list (string * f64)) :=
  oracle PAPER_FIELDS field_matches (paper_extract pack_id gen_id) ingest.
Definition generic_oracle : option string → result (list (string * f64)) :=
  oracle GENERIC_FIELDS field_matches (generic_extract pack_id gen_id) ingest.
Definition contract_oracle : option string → result (list (string * f64)) :=
  oracle CONTRACT_FIELDS field_matches (contract_extract pack_id gen_id) ingest.
Definition invoice_oracle : option string → result (list (string * f64)) :=
  oracle INVOICE_FIELDS (invoice_field_matches parse_float) (invoice_extract pack_id parse_float gen_id) ingest.
End Packs.

(** ** A concrete run *)

#[local] Existing Instance decimal_float_repr.
#[local] Existing Instance decimal_float_read.

Definition Q : string := String "034" "".
Definition truth_text : string :=
  "{" +:+ Q +:+ "fixtures" +:+ Q +:+ ": [{" +:+ Q +:+ "file" +:+ Q +:+ ": " +:+ Q +:+ "a.pdf" +:+ Q +:+ ", " +:+
  Q +:+ "ground_truth" +:+ Q +:+ ": {" +:+ Q +:+ "topics" +:+ Q +:+ ": [" +:+ Q +:+ "security" +:+ Q +:+ "], " +:+
  Q +:+ "summary" +:+ Q +:+ ": " +:+ Q +:+ "another text" +:+ Q +:+ "}}, {" +:+ Q +:+ "file" +:+ Q +:+ ": " +:+ Q +:+
  "gone.pdf" +:+ Q +:+ "}]}".
Definition truth_items : list (string * json) := match loads truth_text with Ok (JObj l) => l | _ => [] end.
Definition fixture_a : json :=
  JObj [("file", JStr "a.pdf"); ("ground_truth", JObj [("topics", JArr [JStr "security"]); ("summary", JStr "another text")])].
Definition fixture_gone : json := JObj [("file", JStr "gone.pdf")].
Definition demo_ingest (path : string) : option (result (list Chunk)) :=
  if bool_decide (path = "a.pdf") then Some (Ok [report_chunk]) else None.
Definition agreed (f : string) : f64 := if bool_decide (f = "topics") then f1 else f0.

Lemma truth_loads : loads truth_text = Ok (JObj truth_items).
Proof. vm_compute. reflexivity. Qed.
Lemma truth_fixtures : assoc "fixtures" truth_items = Some (JArr [fixture_a; fixture_gone]).
Proof. vm_compute. reflexivity. Qed.
Lemma generic_fields_NoDup : NoDup GENERIC_FIELDS.
Proof. apply (bool_decide_unpack _). vm_compute. exact I. Qed.
Lemma trials_run : (ts ← trials (generic_extract "generic-v1" name_of) demo_ingest [fixture_a; fixture_gone];
  Ok (map (λ f, (f, agreement field_matches ts f)) GENERIC_FIELDS)) = Ok (map (λ f, (f, agreed f)) GENERIC_FIELDS).
Proof. vm_compute. reflexivity. Qed.

Lemma oracle_counts_witness :
  generic_oracle "generic-v1" name_of demo_ingest (Some truth_text) = Ok (map (λ f, (f, agreed f)) GENERIC_FIELDS).
Proof.
  rewrite <-trials_run.
  exact (oracle_counts GENERIC_FIELDS field_matches (generic_extract "generic-v1" name_of) demo_ingest truth_text truth_items
    fixture_a [fixture_gone] generic_fields_NoDup truth_loads truth_fixtures).
Defined.

(** A one-letter answer agrees with every text that has the letter. *)
Example letter_agrees : field_matches "s" (JStr "The lease ends in May.") = true.
Proof. vm_compute. reflexivity. Qed.
