(* ===== verification/InvoiceRun.v ===== *)
(** * Invoices through the pipeline

    [OrchestratorImpl.run] with the parts it is started with for invoices: the
    local security filter, the invoice pack, and the context compressor with
    or without its optional engine.  What each of them promises makes the
    run's promise: its extractions quote the document. *)

From S2P Require Import Prelude PyStr PyFloat PyDict Json DataModel QualityGate MemoryStore Provenance Grounding Orchestrator.
From S2P Require Import Regex Masking SecurityFilter Compressor InvoicePack.

Section Invoices.
Context `{Ingestor, Numerics, SqlOrder, FloatRepr}.
Variable security : LocalSecurityFilter.
Variable pack_id : string.
Variable read_float : string → result f64.
Variable gen_id : nat → string.
Variable counter : option (string → result Z).
Variable crush : option (string → result (string * option string)).

#[local] Instance filter : SecurityFilter := local_filter security.
#[local] Instance pack : Pack := InvoicePack pack_id read_float gen_id.
#[local] Instance compressor : Compressor := local_compressor counter crush.

(** An extraction the pack reads off the chunks: its value comes from its span
    the way the field says, and its span is text of a line of a chunk. *)
Definition read_off (chunks : list Chunk) (e : Extraction) : Prop :=
  e_field_name e ∈ INVOICE_FIELDS ∧ derivation read_float chunks (e_field_name e) (e_source_span e) (e_value e) ∧
  ∃ c, c ∈ chunks ∧ text_of_chunk (e_source_span e) c.

(** An extraction is refused, or its one anchor is into a chunk of which the
    evidence of its stage holds. *)
Definition refused_or_anchored (chunks : list Chunk) (e : Extraction) : Prop :=
  e_method e = BLOCK ∨ ∃ a c, e_anchors e = [a] ∧ c ∈ chunks ∧ anchors_chunk a c ∧
    stage_evidence get_embedding cosine parse_float default_verifier (target_of (e_value e) (e_source_span e)) (e_source_span e)
      c (e_method e) (a_char_span a).

(** One anchor, at text that is the span up to case. *)
Definition cites_span (chunks : list Chunk) (e : Extraction) : Prop :=
  e_method e = EXACT ∧ ∃ a c b, e_anchors e = [a] ∧ c ∈ chunks ∧ anchors_chunk a c ∧
    a_char_span a = (Z.of_nat b, Z.of_nat (b + String.length (e_source_span e))) ∧
    lower (slice b (b + String.length (e_source_span e)) (c_text c)) = lower (e_source_span e).

(** Without the engine, a line of what the pack reads is a line of the ingested
    document, and so is what is read off it. *)
Lemma input_quotes chunks c w : crush = None → c ∈ pack_input chunks → text_of_chunk w c →
  ∃ c', c' ∈ chunks ∧ text_of_chunk w c'.
Proof.
  intros Hn Hc [Hi Ho]. assert (pack_input chunks = (compress_document_chunks counter None chunks).1) as E.
  { unfold pack_input. cbn. rewrite Hn. by destruct (compress_document_chunks counter None chunks). }
  rewrite E in Hc. pose proof (without_engine_made counter chunks) as Hm. rewrite Forall_forall in Hm.
  destruct (Hm c Hc) as [_ Ht]. destruct (Ht w Ho Hi) as (c' & Hc' & _ & Hi'). by exists c'.
Qed.

Lemma derivation_quotes chunks field span value : crush = None →
  derivation read_float (pack_input chunks) field span value → derivation read_float chunks field span value.
Proof.
  intros Hn. unfold derivation. repeat (destruct (bool_decide _); [done|]). intros (i & items & Hv & Hs & Hall).
  exists i, items. split; [done|]. split; [done|]. eapply Forall_impl; [exact Hall|].
  intros x (line & c & Hc & Ht & Hx). destruct (input_quotes chunks c line Hn Hc Ht) as (c' & Hc' & Ht').
  by exists line, c'.
Qed.

Lemma read_off_quotes chunks e : crush = None → read_off (pack_input chunks) e → read_off chunks e.
Proof.
  intros Hn (Hf & Hd & c & Hc & Ht). split; [done|]. split; [by apply derivation_quotes|]. by eapply input_quotes.
Qed.

(** Neither grounding nor the gate changes what an extraction says. *)
Lemma marked_ground chunks store e0 : let e := marked default_gate store (ground chunks e0) in
  e_field_name e = e_field_name e0 ∧ e_value e = e_value e0 ∧ e_source_span e = e_source_span e0 ∧
  (e_method e, e_anchors e) = verify get_embedding cosine parse_float default_verifier (e_value e0) (e_source_span e0) chunks.
Proof. cbn. unfold ground. by destruct (verify _ _ _ _ _ _ _). Qed.

(** A span that is text of an ingested chunk, and not blank, is cites_span. *)
Lemma span_quoted src chunks e c :
  (e_method e, e_anchors e) = verify get_embedding cosine parse_float default_verifier (e_value e) (e_source_span e) (relabel src chunks) →
  c ∈ chunks → infix_of (e_source_span e) (c_text c) → strip (e_source_span e) ≠ "" → cites_span chunks e.
Proof.
  intros Hv Hc Hi Hs.
  pose proof (span_grounds get_embedding cosine parse_float src chunks (e_value e) (e_source_span e) c Hc Hi Hs) as Hm.
  rewrite <-Hv in Hm. cbn [fst] in Hm. split; [done|]. symmetry in Hv.
  apply cascade_evidence in Hv as (a & c' & Ha & Hc' & Hac & Hev); [|by rewrite Hm].
  rewrite Hm in Hev. destruct Hev as (b & Hb & Hl). rewrite (target_of_span _ _ Hs) in Hb, Hl. by exists a, c', b.
Qed.

(** C1.  Refuse or cite, for a whole run on an invoice.  Whatever the compressor's
    engine does: every extraction of the trace is of a field of the pack, its
    value comes from its span the way the field says (the line items from
    lines the pack read), its span is text of a line of the chunks the pack
    read, and it is refused or its one anchor is into an ingested chunk of
    which the evidence of its stage holds.  When the engine is not installed,
    the same is true with the ingested chunks in the place of those the pack
    read, and an extraction with a span that is not blank quotes an ingested
    chunk: merging the overlapping chunks of a page never makes the pack quote
    what the document does not say. *)
Theorem invoices_cited doc s t s' chunks d pages e :
  Orchestrator.run default_gate doc s = (Ok t, s') → ingest (d_source_path doc) = Ok (chunks, d, pages) → e ∈ t_extractions t →
  read_off (pack_input chunks) e ∧ refused_or_anchored chunks e ∧
  (crush = None → read_off chunks e ∧ (strip (e_source_span e) ≠ "" → cites_span chunks e)).
Proof.
  intros Hr Hi He. destruct (run_extraction _ _ _ _ _ _ _ _ Hr Hi He) as (exts & e0 & store & Hx & He0 & ->).
  destruct (marked_ground (relabel (d_source_path doc) chunks) store e0) as (Ef & Ev & Es & Hm).
  destruct (extracted_supported _ _ _ _ _ _ Hx He0) as (Hf & Hd & c & Hc & _ & Ht).
  rewrite <-Ev, <-Es in Hm. rewrite <-Ef in Hf, Hd. rewrite <-Es in Hd, Ht. rewrite <-Ev in Hd.
  set (e := marked _ _ _) in *. assert (read_off (pack_input chunks) e) as Hread.
  { split; [by apply emitted_field|]. split; [done|]. by exists c. }
  split; [done|]. split.
  { destruct (decide (e_method e = BLOCK)) as [|Hb]; [by left|right]. symmetry in Hm.
    apply cascade_evidence in Hm as (a & c' & H'); [|done]. by exists a, c'. }
  intros Hn. split; [by apply read_off_quotes|]. intros Hs.
  destruct (input_quotes _ _ _ Hn Hc Ht) as (c' & Hc' & Hi' & _). by eapply span_quoted.
Qed.
End Invoices.

(** ** An invoice, from end to end *)

#[local] Existing Instance exact_float_repr.
#[local] Existing Instances no_numerics sort_order.
Definition invoice_box : BBox := {| x0 := of_Z 0; y0 := of_Z 0; x1 := of_Z 600; y1 := of_Z 800 |}.
Definition boxed_chunk : Chunk :=
  {| c_chunk_id := "c1"; c_doc_id := "d1"; c_page := 1; c_bbox := Some invoice_box;
     c_text := sample_text; c_source_type := "pdf"; c_embedding := [] |}.
#[local] Instance invoice_ingestor : Ingestor := { ingest _ := Ok ([boxed_chunk], demo_document, []) }.

(** The filter without the scan for personal data, as [kernel/sidecar/demo.py] sets it up. *)
Definition demo_filter : LocalSecurityFilter := {| injection_threshold := INJECTION_THRESHOLD; enable_pii_scan := false |}.
Abbreviation invoice_run security :=
  (@Orchestrator.run invoice_ingestor (filter security) (pack "invoice" read_cents name_of) (compressor None None)
    no_numerics sort_order default_gate demo_document Orchestrator.start).

(** The run finishes, with seven extractions, all cited. *)
Example invoice_run_finishes :
  match (invoice_run demo_filter).1 with
  | Ok t => (t_halted t, map (λ e, (e_field_name e, e_source_span e, e_method e)) (t_extractions t)) =
      (false, [("vendor_name", "Acme Works Ltd", EXACT); ("invoice_number", "INV-2024/7", EXACT);
               ("invoice_date", "29 February 2024", EXACT); ("total_amount", "1,200.00", EXACT);
               ("tax_amount", "240.00", EXACT); ("payment_terms", "net 30", EXACT);
               ("line_items", "Consulting services", EXACT)])
  | Raise _ => False
  end.
Proof. vm_compute. reflexivity. Qed.

(** With the scan for personal data the same invoice stops at the filter: two
    capitalised words in a row are taken for a person's name. *)
Example names_stop_invoices :
  match (invoice_run default_filter).1 with Ok t => statuses t = ["ok"; "halted"] | Raise _ => False end.
Proof. vm_compute. reflexivity. Qed.

Lemma invoices_cited_witness : ∃ t e, (invoice_run demo_filter).1 = Ok t ∧ e ∈ t_extractions t ∧ e_value e = "2024-02-29" ∧
  read_off read_cents [boxed_chunk] e ∧ cites_span [boxed_chunk] e.
Proof.
  destruct (invoice_run demo_filter) as [[t|x] s'] eqn:E; [|vm_compute in E; discriminate E].
  assert (∃ e, t_extractions t !! 2%nat = Some e ∧ e_value e = "2024-02-29" ∧ e_source_span e = "29 February 2024") as (e & He & Hv & Hs).
  { vm_compute in E. injection E as <- _. eexists. split; [reflexivity|]. split; reflexivity. }
  apply list_elem_of_lookup_2 in He. exists t, e. split; [reflexivity|]. split; [exact He|]. split; [exact Hv|].
  destruct (@invoices_cited invoice_ingestor no_numerics sort_order exact_float_repr demo_filter "invoice" read_cents name_of None None
    demo_document Orchestrator.start t s' [boxed_chunk] demo_document [] e E eq_refl He) as (_ & _ & Hc).
  destruct (Hc eq_refl) as [Hd Hm]. split; [exact Hd|]. apply Hm. rewrite Hs. vm_compute. discriminate.
Defined.

(** With an engine that leaves every text alone, the repeated sentence is
    dropped and the lines of the sentences that are left become one: the
    terms of the trace are a span that no line of the document has.  The
    cascade still finds it, by similarity. *)
Definition repeated_chunk : Chunk :=
  {| c_chunk_id := "c1"; c_doc_id := "d1"; c_page := 1; c_bbox := Some invoice_box;
     c_text := join (String LF "") ["Invoice"; "Payment terms: net 30."; "Thank you."; "Thank you."];
     c_source_type := "pdf"; c_embedding := [] |}.
Definition repeated_ingestor : Ingestor := {| ingest _ := Ok ([repeated_chunk], demo_document, []) |}.
Example sentences_join_lines :
  match (@Orchestrator.run repeated_ingestor (filter demo_filter) (pack "invoice" read_cents name_of)
    (compressor None (Some (λ text, Ok (text, None)))) no_numerics sort_order default_gate demo_document Orchestrator.start).1 with
  | Ok t => map (λ e, (e_field_name e, e_source_span e, e_method e)) (t_extractions t) =
      [("payment_terms", "net 30. Thank you.", FUZZY)]
  | Raise _ => False
  end.
Proof. vm_compute. reflexivity. Qed.
