(* ===== verification/IngestorImpl.v ===== *)
(** * The ingestor of the pipeline

    [kernel/sidecar/ingestor.py]: text and Markdown by paragraphs, PDF by
    pages, DOCX by paragraphs, with the budgets on expanded work.  The parsers
    ([pdfplumber], [python-docx], [zipfile]), the decoding of UTF-8 and the
    file system are arguments; identifiers and the clock are, too.  Every chunk
    has a page and a box on that page; a text file that can be read is ingested.
    A failure of the file system or of a parser is a value of the file. *)

From S2P Require Import Prelude PyStr PyText PyFloat PyRound Json Sha256 DataModel QualityGate MemoryStore Provenance Orchestrator.
From S2P Require Import Regex InvoicePack PackText.

Definition CHARS_PER_LINE : Z := 80.
Definition LINES_PER_PAGE : Z := 60.

(** The budgets, read from the environment when the module is loaded. *)
Record budgets := { MAX_PDF_PAGES : Z; MAX_EXTRACTED_CHARS : Z; MAX_DOCX_EXPANDED_BYTES : Z; MAX_DOCX_ENTRIES : Z }.

Definition budget_error {A} (msg : string) : result A := raise "ResourceBudgetExceeded" msg.

(** [OSError] and its subclasses among the built-in exceptions. *)
Definition OS_ERRORS : list string :=
  ["OSError"; "BlockingIOError"; "ChildProcessError"; "ConnectionError"; "BrokenPipeError"; "ConnectionAbortedError"; "ConnectionRefusedError";
   "ConnectionResetError"; "FileExistsError"; "FileNotFoundError"; "InterruptedError"; "IsADirectoryError"; "NotADirectoryError";
   "PermissionError"; "ProcessLookupError"; "TimeoutError"].
Definition is_zip_error (e : exn) : bool := bool_decide (exn_class e = "BadZipFile") || bool_decide (exn_class e ∈ OS_ERRORS).

(** The sizes the central directory declares, or what opening it raises. *)
Definition inspect_zip_container (lim : budgets) (archive : result (list Z)) : result (Z * Z) :=
  match archive with
  | Raise e => if is_zip_error e then raise "ValueError" "Unable to parse DOCX document" else Raise e
  | Ok sizes =>
      let entries := Z.of_nat (length sizes) in
      if MAX_DOCX_ENTRIES lim <? entries then budget_error "DOCX container has too many entries"
      else
        let expanded := fold_left Z.add sizes 0 in
        if MAX_DOCX_EXPANDED_BYTES lim <? expanded then budget_error "DOCX declares too many expanded bytes"
        else Ok (entries, expanded)
  end.

(** ** Lines on a page *)

Definition page_at (line : Z) : Z := line / LINES_PER_PAGE + 1.
Definition per_line : f64 := (f1 / of_Z LINES_PER_PAGE)%f64.
Definition height_of (lines : Z) : f64 := (of_Z lines * per_line)%f64.

Definition lines_bbox (line para_lines : Z) : result BBox :=
  let page_offset := line mod LINES_PER_PAGE in
  mk_BBox f0 (height_of page_offset) f1 (fmin f1 (height_of (page_offset + para_lines))).

Definition generated_page (index : Z) : Page :=
  {| p_doc_id := ""; p_index := index; p_width_px := 800; p_height_px := 1000; p_image_sha256 := "" |}.
Definition generated_pages (page_count : Z) : list Page :=
  map (λ i, generated_page (Z.of_nat i)) (seq 1 (Z.to_nat page_count)).

(** A chunk before it gets its identifiers. *)
Record draft := { dr_page : Z; dr_bbox : BBox; dr_text : string; dr_type : string }.

(** [current_line], [page_count] and the chunks so far. *)
Record layout := { current_line : Z; page_count : Z; drafts : list draft }.

Definition place (source_type : string) (para_lines : Z) (text : string) (s : layout) : result layout :=
  let page := page_at (current_line s) in
  bbox ← lines_bbox (current_line s) para_lines;
  Ok {| current_line := current_line s + (para_lines + 1); page_count := Z.max (page_count s) page;
        drafts := drafts s ++ [{| dr_page := page; dr_bbox := bbox; dr_text := strip text; dr_type := source_type |}] |}.
Definition skip_line (s : layout) : layout :=
  {| current_line := current_line s + 1; page_count := page_count s; drafts := drafts s |}.
Definition start_layout : layout := {| current_line := 0; page_count := 1; drafts := [] |}.

(** ** Text *)

Definition paragraph_break : re := compile "\n\s*\n" no_flags.
Definition split_paragraphs (text : string) : list string :=
  filter (λ b, truthy (strip b) = true) (re_split paragraph_break text).

Definition count_lines (text : string) : Z := Z.of_nat (length (List.filter (λ c, bool_decide (c = LF)) (chars text))) + 1.

Fixpoint place_texts (paragraphs : list string) (s : layout) : result layout :=
  match paragraphs with
  | [] => Ok s
  | p :: paragraphs' =>
      if truthy (strip p) then s' ← place "text" (count_lines p) p s; place_texts paragraphs' s'
      else place_texts paragraphs' (skip_line s)
  end.

Abbreviation parsed := (list draft * Z * list Page)%type.
Definition of_layout (s : layout) : parsed := (drafts s, page_count s, generated_pages (page_count s)).

Definition ingest_text (text : string) : result parsed :=
  s ← place_texts (split_paragraphs text) start_layout; Ok (of_layout s).

(** ** DOCX *)

Fixpoint place_docx (lim : budgets) (paragraphs : list (result string)) (extracted : Z) (s : layout) : result layout :=
  match paragraphs with
  | [] => Ok s
  | text :: paragraphs' =>
      p ← text;
      if truthy (strip p) then
        let extracted := extracted + len p in
        if MAX_EXTRACTED_CHARS lim <? extracted then budget_error "DOCX text exceeds the limit"
        else s' ← place "docx_paragraph" (Z.max 1 (len p / CHARS_PER_LINE + 1)) p s; place_docx lim paragraphs' extracted s'
      else place_docx lim paragraphs' extracted (skip_line s)
  end.

(** A DOCX file: what opening the container, constructing the document and
    reading its paragraphs, one by one, give. *)
Record docx_file := { dx_archive : result (list Z); dx_document : result (); dx_paragraphs : result (list (result string)) }.

(** [docx] is [None] when [python-docx] is not installed.  Only the
    construction of the document is guarded. *)
Definition ingest_docx (lim : budgets) (docx : option docx_file) : result parsed :=
  match docx with
  | None => raise "RuntimeError" "DOCX ingestion requires python-docx"
  | Some d =>
      _ ← inspect_zip_container lim (dx_archive d);
      match dx_document d with
      | Raise _ => raise "ValueError" "Unable to parse DOCX document"
      | Ok _ => l ← dx_paragraphs d; s ← place_docx lim l 0 start_layout; Ok (of_layout s)
      end
  end.

(** ** PDF *)

Record word := { w_x0 : f64; w_top : f64; w_x1 : f64; w_bottom : f64 }.
Record pdf_page := { pg_width : f64; pg_height : f64; pg_words : result (list word); pg_text : result (option string) }.

(** [min] and [max] of a non-empty sequence. *)
Definition min_of (f : word → f64) (w : word) (ws : list word) : f64 := fold_left (λ a w, fmin a (f w)) ws (f w).
Definition max_of (f : word → f64) (w : word) (ws : list word) : f64 := fold_left (λ a w, fmax a (f w)) ws (f w).

Definition words_bbox (w : word) (ws : list word) (width height : f64) : result BBox :=
  let x0 := fmax f0 (fmin f1 (min_of w_x0 w ws / width)%f64) in
  let x1 := fmax x0 (fmin f1 (max_of w_x1 w ws / width)%f64) in
  let y0 := fmax f0 (fmin f1 (min_of w_top w ws / height)%f64) in
  let y1 := fmax y0 (fmin f1 (max_of w_bottom w ws / height)%f64) in
  mk_BBox x0 y0 x1 y1.

(** [extracted_chars], the chunks and the pages so far. *)
Abbreviation pdf_state := (Z * list draft * list Page)%type.

Definition pdf_step (lim : budgets) (number : Z) (p : pdf_page) (s : pdf_state) : result pdf_state :=
  let '(extracted, chunks, pages) := s in
  if fle (pg_width p) f0 || fle (pg_height p) f0 then raise "ValueError" "Invalid PDF page dimensions"
  else
    words ← pg_words p;
    width_px ← py_int (pg_width p);
    height_px ← py_int (pg_height p);
    let pages := pages ++ [{| p_doc_id := ""; p_index := number; p_width_px := width_px; p_height_px := height_px; p_image_sha256 := "" |}] in
    match words with
    | [] => Ok (extracted, chunks, pages)
    | w :: ws =>
        text ← pg_text p;
        let text := default "" text in
        if negb (truthy (strip text)) then Ok (extracted, chunks, pages)
        else
          let extracted := extracted + len text in
          if MAX_EXTRACTED_CHARS lim <? extracted then budget_error "PDF text exceeds the limit"
          else
            bbox ← words_bbox w ws (pg_width p) (pg_height p);
            Ok (extracted, chunks ++ [{| dr_page := number; dr_bbox := bbox; dr_text := strip text; dr_type := "pdf_text" |}], pages)
    end.

Fixpoint pdf_pages (lim : budgets) (number : Z) (ps : list pdf_page) (s : pdf_state) : result pdf_state :=
  match ps with
  | [] => Ok s
  | p :: ps' => s' ← pdf_step lim number p s; pdf_pages lim (number + 1) ps' s'
  end.

Definition is_budget (e : exn) : bool := bool_decide (exn_class e = "ResourceBudgetExceeded").

(** [pdf] is [None] when [pdfplumber] is not installed; otherwise the pages, or
    the exception of the parser. *)
Definition ingest_pdf (lim : budgets) (pdf : option (result (list pdf_page))) : result parsed :=
  match pdf with
  | None => raise "RuntimeError" "PDF ingestion requires pdfplumber"
  | Some opened =>
      match (ps ← opened;
             if MAX_PDF_PAGES lim <? Z.of_nat (length ps) then budget_error "PDF has too many pages"
             else pdf_pages lim 1 ps (0, [], [])) with
      | Raise e => if is_budget e then Raise e else raise "ValueError" "Unable to parse PDF document"
      | Ok (_, [], _) => raise "ValueError" "PDF contains no extractable text; OCR is not enabled"
      | Ok (_, chunks, pages) => Ok (chunks, Z.of_nat (length pages), pages)
      end
  end.

(** ** The document *)

(** The answers of the file system: whether the path exists, its bytes, its
    decoded text; each may be an exception of its own. *)
Record file := {
  f_path : string; f_exists : result bool; f_suffix : string; f_bytes : result bytes; f_text : result string;
  f_pdf : option (result (list pdf_page)); f_docx : option docx_file }.

Section Ingest.
Variable lim : budgets.
Variable gen_id : nat → string.
Variable now : string.

Definition parse_file (f : file) : result parsed :=
  let suffix := lower (f_suffix f) in
  if bool_decide (suffix ∈ [".txt"; ".md"]) then text ← f_text f; ingest_text text
  else if bool_decide (suffix = ".pdf") then ingest_pdf lim (f_pdf f)
  else if bool_decide (suffix = ".docx") then ingest_docx lim (f_docx f)
  else raise "ValueError" ("Unsupported file type: " +:+ suffix).

(** The checks on a chunk, after it has got its document. *)
Definition checked_chunk (doc_id : string) (i : nat) (d : draft) : result Chunk :=
  c ← mk_Chunk (gen_id i) doc_id (dr_page d) (Some (dr_bbox d)) (dr_text d) (dr_type d) [];
  if bool_decide (c_bbox c = None) then raise "RuntimeError" "Ingestor invariant violated: no bbox"
  else if c_page c <? 1 then raise "RuntimeError" "Ingestor invariant violated: page must be >= 1"
  else Ok c.

Definition with_doc (doc_id : string) (p : Page) : Page :=
  {| p_doc_id := doc_id; p_index := p_index p; p_width_px := p_width_px p; p_height_px := p_height_px p; p_image_sha256 := p_image_sha256 p |}.

Fixpoint checked_chunks (doc_id : string) (i : nat) (l : list draft) : result (list Chunk) :=
  match l with
  | [] => Ok []
  | d :: l' => c ← checked_chunk doc_id i d; cs ← checked_chunks doc_id (S i) l'; Ok (c :: cs)
  end.

Definition ingest (f : file) : result (list Chunk * Document * list Page) :=
  exists_ ← f_exists f;
  if negb exists_ then raise "FileNotFoundError" ("Document not found: " +:+ f_path f)
  else
    content ← f_bytes f;
    '(chunks, count, pages) ← parse_file f;
    let doc := {| d_doc_id := gen_id (length chunks); d_source_path := f_path f; d_sha256 := sha256_hex content;
                  d_page_count := count; d_ingested_at := now |} in
    cs ← checked_chunks (d_doc_id doc) 0 chunks;
    Ok (cs, doc, map (with_doc (d_doc_id doc)) pages).
End Ingest.

(** ** Lines stay on their page *)

Lemma page_at_pos line : 0 ≤ line → 1 ≤ page_at line.
Proof. unfold page_at, LINES_PER_PAGE. intros. assert (0 ≤ line / 60) by (apply Z.div_pos; lia). lia. Qed.

(** The heights of the first lines of a page, computed. *)
Lemma heights_first : forallb (λ n, fle f0 (height_of (Z.of_nat n)) &&
  fle (height_of (Z.of_nat n)) (fmin f1 (height_of (Z.of_nat n + 1)))) (seq 0 60) = true.
Proof. vm_compute. reflexivity. Qed.

Lemma heights_ordered : forallb (λ n, forallb (λ m, (m <? n)%nat ||
  fle (height_of (Z.of_nat n)) (fmin f1 (height_of (Z.of_nat m)))) (seq 0 61)) (seq 0 60) = true.
Proof. vm_compute. reflexivity. Qed.

Lemma per_line_value : per_line = S754_finite false 4803839602528529 (-58).
Proof. vm_compute. reflexivity. Qed.

(** Past the last line of a page the height is at least that of the page. *)
Lemma height_beyond n : 61 ≤ n → fle f1 (height_of n) = true.
Proof.
  intros Hn. unfold height_of. rewrite per_line_value.
  change f1 with (S754_finite false 4503599627370496 (-52)).
  destruct (of_Z_above n 8584986789675008 (-47)) as [->|(m & e & -> & Hb & Hme)]; [done|lia| |done|].
  { change (2 ^ (- (-47))) with 140737488355328. lia. }
  apply bounded_canonical in Hb as [([_ _] & He & Hc) _].
  assert (-47 ≤ e) as Hge by lia. specialize (Hc ltac:(lia)). change (prec - 1) with 52 in Hc.
  apply (fmul_above m e 4803839602528529 (-58) 4503599627370496 (-52) (-1074)); [done|done|lia|lia|lia|].
  replace (e + -58 - -1074) with (e + 47 + 969) by lia. rewrite Z.pow_add_r by lia.
  assert (8584986789675008 ≤ Zpos m * 2 ^ (e + 47)) as Hv.
  { destruct Hme as [Hlt|[<- ?]]; [|change (2 ^ (-47 + 47)) with 1; lia].
    assert (2 ^ 1 ≤ 2 ^ (e + 47)) by (apply Z.pow_le_mono_r; lia). change (2 ^ 52) with 4503599627370496 in Hc. nia. }
  transitivity (8584986789675008 * 4803839602528529 * 2 ^ 969); [apply Z.leb_le; vm_compute; reflexivity|].
  rewrite !Z.mul_assoc. apply Z.mul_le_mono_nonneg_r; [apply Z.pow_nonneg; lia|]. nia.
Qed.

Definition in_unit (b : BBox) : Prop :=
  fle f0 (x0 b) = true ∧ fle (x0 b) (x1 b) = true ∧ fle (x1 b) f1 = true ∧
  fle f0 (y0 b) = true ∧ fle (y0 b) (y1 b) = true ∧ fle (y1 b) f1 = true.

Lemma fmin_f1 x : fle (fmin f1 x) f1 = true.
Proof. unfold fmin. destruct (flt x f1) eqn:E; [by apply flt_le|done]. Qed.

Lemma mk_BBox_ok a b c d : fle a c = true → fle b d = true → mk_BBox a b c d = Ok {| x0 := a; y0 := b; x1 := c; y1 := d |}.
Proof.
  intros H1 H2. unfold mk_BBox.
  assert (∀ x y, fle x y = true → flt y x = false) as Hle.
  { intros x y H. destruct (flt y x) eqn:E; [|done]. pose proof (flt_le_trans _ _ _ E H) as F. by rewrite flt_irrefl in F. }
  by rewrite (Hle _ _ H1), (Hle _ _ H2).
Qed.

Lemma lines_bbox_ok line k : 0 ≤ line → 1 ≤ k → ∃ b, lines_bbox line k = Ok b ∧ in_unit b.
Proof.
  intros Hl Hk. unfold lines_bbox. unfold LINES_PER_PAGE. set (po := line mod 60).
  assert (0 ≤ po < 60) as Hpo by (apply Z.mod_pos_bound; lia).
  assert (fle f0 (height_of po) = true) as H0.
  { pose proof heights_first as H. rewrite forallb_forall in H. specialize (H (Z.to_nat po)).
    rewrite Z2Nat.id in H by lia. apply andb_true_iff in H as [H _]; [done|]. apply in_seq. lia. }
  assert (fle (height_of po) (fmin f1 (height_of (po + k))) = true) as H1.
  { destruct (Z.le_gt_cases (po + k) 60) as [Hs|Hs].
    - pose proof heights_ordered as H. rewrite forallb_forall in H. specialize (H (Z.to_nat po) ltac:(apply in_seq; lia)).
      rewrite forallb_forall in H. specialize (H (Z.to_nat (po + k)) ltac:(apply in_seq; lia)).
      apply orb_true_iff in H as [H%Nat.ltb_lt|H]; [lia|]. by rewrite !Z2Nat.id in H by lia.
    - assert (fmin f1 (height_of (po + k)) = f1) as ->.
      { unfold fmin. pose proof (height_beyond (po + k) ltac:(lia)) as Hb. destruct (flt (height_of (po + k)) f1) eqn:E; [|done].
        pose proof (flt_le_trans _ _ _ E Hb) as F. by rewrite flt_irrefl in F. }
      pose proof heights_first as H. rewrite forallb_forall in H. specialize (H (Z.to_nat po)).
      rewrite Z2Nat.id in H by lia. apply andb_true_iff in H as [_ H]; [|apply in_seq; lia].
      eapply fle_trans; [exact H|apply fmin_f1]. }
  eexists. split; [by apply mk_BBox_ok|]. unfold in_unit. cbn. split_and!; try done. apply fmin_f1.
Qed.

(** ** Layouts *)

(** A chunk is on a page of the document, in a box of it, and has a text. *)
Definition draft_ok (count : Z) (Q : string → Prop) (d : draft) : Prop :=
  1 ≤ dr_page d ≤ count ∧ in_unit (dr_bbox d) ∧ dr_text d ≠ "" ∧ Q (dr_text d).
Definition layout_ok (Q : string → Prop) (s : layout) : Prop :=
  0 ≤ current_line s ∧ 1 ≤ page_count s ∧ ∀ d, d ∈ drafts s → draft_ok (page_count s) Q d.

Lemma start_layout_ok Q : layout_ok Q start_layout.
Proof. split; [done|]. split; [done|]. intros d Hd. by apply not_elem_of_nil in Hd. Qed.

Lemma skip_line_ok Q s : layout_ok Q s → layout_ok Q (skip_line s).
Proof. intros (H1 & H2 & H3). split; [cbn; lia|by split]. Qed.

Lemma place_ok Q st k text s : 1 ≤ k → strip text ≠ "" → Q (strip text) → layout_ok Q s →
  ∃ s', place st k text s = Ok s' ∧ layout_ok Q s' ∧ map dr_text (drafts s') = map dr_text (drafts s) ++ [strip text].
Proof.
  intros Hk Ht HQ (H1 & H2 & H3). unfold place. destruct (lines_bbox_ok (current_line s) k H1 Hk) as (b & -> & Hb).
  cbn [mbind result_bind]. eexists. split; [reflexivity|]. split; [|cbn [drafts]; by rewrite map_app].
  pose proof (page_at_pos _ H1) as Hp. split; [cbn; lia|]. split; [cbn; lia|]. cbn [drafts page_count].
  intros d [Hd| ->%list_elem_of_singleton]%elem_of_app.
  - destruct (H3 d Hd) as (Hd1 & Hd2). split; [lia|done].
  - split; [cbn; lia|]. by split_and!.
Qed.

Lemma count_lines_pos text : 1 ≤ count_lines text.
Proof. unfold count_lines. lia. Qed.

Definition texts_of (paragraphs : list string) : list string := filter (λ t, truthy t = true) (map strip paragraphs).

Lemma texts_of_cons p l : texts_of (p :: l) = if truthy (strip p) then strip p :: texts_of l else texts_of l.
Proof. unfold texts_of. cbn [map]. rewrite filter_cons. destruct (truthy (strip p)); by case_decide. Qed.

Lemma place_texts_ok Q paragraphs : (∀ p, p ∈ paragraphs → strip p ≠ "" → Q (strip p)) → ∀ s, layout_ok Q s →
  ∃ s', place_texts paragraphs s = Ok s' ∧ layout_ok Q s' ∧ map dr_text (drafts s') = map dr_text (drafts s) ++ texts_of paragraphs.
Proof.
  induction paragraphs as [|p l IH]; intros HQ s Hs; cbn [place_texts].
  { exists s. split; [done|]. split; [done|]. by rewrite app_nil_r. }
  rewrite texts_of_cons. destruct (truthy (strip p)) eqn:E.
  - apply truthy_spec in E. destruct (place_ok Q "text" (count_lines p) p s (count_lines_pos p) E) as (s1 & -> & Hs1 & Hm); [apply HQ; [by left|done]|done|].
    cbn [mbind result_bind]. destruct (IH ltac:(intros; apply HQ; [by right|done]) s1 Hs1) as (s2 & -> & Hs2 & Hm2).
    exists s2. split; [done|]. split; [done|]. by rewrite Hm2, Hm, <-app_assoc.
  - destruct (IH ltac:(intros; apply HQ; [by right|done]) (skip_line s)) as (s2 & -> & Hs2 & Hm2); [by apply skip_line_ok|].
    by exists s2.
Qed.

Lemma place_docx_ok lim paragraphs : ∀ n s, layout_ok (λ _, True) s →
  match place_docx lim paragraphs n s with
  | Ok s' => ∃ l, paragraphs = map Ok l ∧ layout_ok (λ _, True) s' ∧
      (n ≤ MAX_EXTRACTED_CHARS lim → n + fold_right Z.add 0 (map len (texts_of l)) ≤ MAX_EXTRACTED_CHARS lim) ∧
      map dr_text (drafts s') = map dr_text (drafts s) ++ texts_of l
  | Raise e => is_budget e = true ∨ Raise e ∈ paragraphs
  end.
Proof.
  induction paragraphs as [|p l IH]; intros n s Hs; cbn [place_docx].
  { exists []. split; [done|]. split; [done|]. split; [cbn; lia|by rewrite app_nil_r]. }
  destruct p as [p|e]; cbn [mbind result_bind]; [|right; by left]. destruct (truthy (strip p)) eqn:E.
  2:{ specialize (IH n (skip_line s) (skip_line_ok _ _ Hs)). destruct (place_docx lim l n (skip_line s)) as [s2|e].
      - destruct IH as (k & -> & H1 & H2 & H3). exists (p :: k). rewrite texts_of_cons, E. by split_and!.
      - destruct IH; [by left|right; by right]. }
  destruct (_ <? _) eqn:El; [by left|]. apply truthy_spec in E as E'.
  destruct (place_ok (λ _, True) "docx_paragraph" (Z.max 1 (len p / CHARS_PER_LINE + 1)) p s ltac:(lia) E' I Hs) as (s1 & -> & Hs1 & Hm).
  cbn [mbind result_bind]. specialize (IH (n + len p) s1 Hs1). destruct (place_docx lim l (n + len p) s1) as [s2|e].
  2:{ destruct IH; [by left|right; by right]. }
  destruct IH as (k & -> & H1 & H2 & Hm2). exists (p :: k). rewrite texts_of_cons, E. split; [done|]. split; [done|].
  split; [|by rewrite Hm2, Hm, <-app_assoc].
  intros _. cbn [map fold_right]. assert (len (strip p) ≤ len p); [|lia]. unfold len, strip.
  pose proof (length_lstrip p). pose proof (length_rstrip (lstrip p)). lia.
Qed.

(** ** PDF *)

Lemma fle_fmax_l a b : is_nan a = false → fle a (fmax a b) = true.
Proof. intros Ha. unfold fmax. destruct (flt a b) eqn:E; [by apply flt_le|by apply fle_refl]. Qed.

Lemma fle_fmax_bound a b c : fle a c = true → fle b c = true → fle (fmax a b) c = true.
Proof. intros Ha Hb. unfold fmax. by destruct (flt a b). Qed.

Lemma fmax_not_nan a b : is_nan a = false → is_nan (fmax a b) = false.
Proof. intros Ha. unfold fmax. destruct (flt a b) eqn:E; [|done]. by apply flt_key in E as (_ & ? & _). Qed.

Lemma words_bbox_ok w ws width height : ∃ b, words_bbox w ws width height = Ok b ∧ in_unit b.
Proof.
  unfold words_bbox. set (a := fmin f1 (min_of w_x0 w ws / width)%f64). set (b := fmin f1 (max_of w_x1 w ws / width)%f64).
  set (c := fmin f1 (min_of w_top w ws / height)%f64). set (d := fmin f1 (max_of w_bottom w ws / height)%f64). cbv zeta.
  assert (∀ u v, fle u f1 = true → fle v f1 = true → fle f0 (fmax f0 u) = true ∧ fle (fmax f0 u) (fmax (fmax f0 u) v) = true ∧
    fle (fmax (fmax f0 u) v) f1 = true) as H.
  { intros u v Hu Hv. assert (is_nan (fmax f0 u) = false) by by apply fmax_not_nan. split; [by apply fle_fmax_l|].
    split; [by apply fle_fmax_l|]. apply fle_fmax_bound; [by apply fle_fmax_bound|done]. }
  destruct (H a b (fmin_f1 _) (fmin_f1 _)) as (X1 & X2 & X3). destruct (H c d (fmin_f1 _) (fmin_f1 _)) as (Y1 & Y2 & Y3).
  eexists. split; [by apply mk_BBox_ok|]. by split_and!.
Qed.

(** What the loop over the pages keeps. *)
Definition pdf_ok (lim : budgets) (number : Z) (s : pdf_state) : Prop :=
  let '(extracted, chunks, pages) := s in
  fold_right Z.add 0 (map (λ d, len (dr_text d)) chunks) ≤ extracted ∧
  (chunks ≠ [] → extracted ≤ MAX_EXTRACTED_CHARS lim) ∧
  (∀ d, d ∈ chunks → draft_ok (number - 1) (λ _, True) d) ∧
  Z.of_nat (length pages) = number - 1 ∧ map p_index pages = map Z.of_nat (seq 1 (length pages)).

Lemma sum_snoc (l : list draft) d : fold_right Z.add 0 (map (λ d, len (dr_text d)) (l ++ [d])) =
  fold_right Z.add 0 (map (λ d, len (dr_text d)) l) + len (dr_text d).
Proof. induction l as [|x l IH]; cbn [app map fold_right]; [lia|]. rewrite IH. lia. Qed.

Lemma pdf_step_ok lim number p s s' : 1 ≤ number → pdf_ok lim number s → pdf_step lim number p s = Ok s' → pdf_ok lim (number + 1) s'.
Proof.
  destruct s as [[n chunks] pages]. intros Hn (H1 & H2 & H3 & H4 & H5). unfold pdf_step.
  destruct (_ || _); [done|]. destruct (pg_words p) as [words|]; [|done]. cbn [mbind result_bind].
  destruct (py_int (pg_width p)) as [wpx|]; [|done]. destruct (py_int (pg_height p)) as [hpx|]; [|done]. cbn [mbind result_bind].
  set (pages' := pages ++ _).
  assert (Z.of_nat (length pages') = number + 1 - 1 ∧ map p_index pages' = map Z.of_nat (seq 1 (length pages'))) as [P1 P2].
  { unfold pages'. rewrite length_app, map_app, H5. cbn [length map p_index]. split; [lia|].
    rewrite seq_app, map_app. cbn [seq map]. f_equal. f_equal. lia. }
  assert (∀ d, d ∈ chunks → draft_ok (number + 1 - 1) (λ _, True) d) as H3'.
  { intros d Hd. destruct (H3 d Hd) as (Hp & Hr). split; [lia|done]. }
  destruct words as [|w ws]; [intros [= <-]; by split_and!|]. destruct (pg_text p) as [text|]; [|done]. cbn [mbind result_bind].
  set (t := default "" text). destruct (truthy (strip t)) eqn:Et; cbn [negb]; [|intros [= <-]; by split_and!].
  destruct (_ <? _) eqn:El; [done|]. destruct (words_bbox_ok w ws (pg_width p) (pg_height p)) as (b & -> & Hb). cbn [mbind result_bind].
  intros [= <-]. split_and!; [|lia| |done|done].
  - rewrite sum_snoc. cbn [dr_text]. assert (len (strip t) ≤ len t); [|lia]. unfold len, strip.
    pose proof (length_lstrip t). pose proof (length_rstrip (lstrip t)). lia.
  - intros d [Hd| ->%list_elem_of_singleton]%elem_of_app; [by apply H3'|]. split; [cbn; lia|]. apply truthy_spec in Et. by split_and!.
Qed.

Lemma pdf_pages_ok lim ps : ∀ number s s', 1 ≤ number → pdf_ok lim number s → pdf_pages lim number ps s = Ok s' →
  pdf_ok lim (number + Z.of_nat (length ps)) s'.
Proof.
  induction ps as [|p ps IH]; intros number s s' Hn Hs; cbn [pdf_pages length].
  - intros [= <-]. by rewrite Z.add_0_r.
  - destruct (pdf_step lim number p s) as [s1|] eqn:E; [|done]. cbn [mbind result_bind]. intros H.
    replace (number + Z.of_nat (S (length ps))) with (number + 1 + Z.of_nat (length ps)) by lia.
    eapply IH; [lia| |exact H]. by eapply pdf_step_ok.
Qed.

(** ** What every parser returns *)

Definition total_text (chunks : list draft) : Z := fold_right Z.add 0 (map (λ d, len (dr_text d)) chunks).

Definition parsed_ok (r : parsed) : Prop :=
  let '(chunks, count, pages) := r in
  (∀ d, d ∈ chunks → draft_ok count (λ _, True) d) ∧ map p_index pages = map Z.of_nat (seq 1 (Z.to_nat count)).

Lemma of_layout_ok Q s : layout_ok Q s → parsed_ok (of_layout s).
Proof.
  intros (H1 & H2 & H3). split; [intros d Hd; destruct (H3 d Hd) as ([? ?] & ? & ? & _); unfold draft_ok; by split_and!|]. unfold generated_pages. by rewrite map_map.
Qed.

Definition paragraph_text (text t : string) : Prop := infix_of t text.

Lemma split_paragraphs_infix text p : p ∈ split_paragraphs text → infix_of p text.
Proof.
  unfold split_paragraphs. intros [_ H]%list_elem_of_filter. eapply re_split_infix, H. vm_compute. repeat constructor.
Qed.

Lemma ingest_text_ok text : ∃ r, ingest_text text = Ok r ∧ parsed_ok r ∧
  map dr_text r.1.1 = texts_of (split_paragraphs text).
Proof.
  unfold ingest_text. destruct (place_texts_ok (λ _, True) (split_paragraphs text) ltac:(done) start_layout (start_layout_ok _))
    as (s & -> & Hs & Hm). cbn [mbind result_bind]. eexists. split; [reflexivity|]. split; [by eapply of_layout_ok|]. exact Hm.
Qed.

(** The exceptions of a DOCX file that reach the caller as they are. *)
Definition docx_escapes (d : docx_file) (e : exn) : Prop :=
  (dx_archive d = Raise e ∧ is_zip_error e = false) ∨ dx_paragraphs d = Raise e ∨ ∃ l, dx_paragraphs d = Ok l ∧ Raise e ∈ l.

Lemma ingest_docx_cases lim docx : match ingest_docx lim docx with
  | Ok r => parsed_ok r ∧ (0 ≤ MAX_EXTRACTED_CHARS lim → total_text r.1.1 ≤ MAX_EXTRACTED_CHARS lim)
  | Raise e => match docx with
      | None => exn_class e = "RuntimeError"
      | Some d => exn_class e = "ValueError" ∨ is_budget e = true ∨ docx_escapes d e
      end
  end.
Proof.
  unfold ingest_docx, docx_escapes. destruct docx as [d|]; [|done].
  unfold inspect_zip_container. destruct (dx_archive d) as [sizes|e] eqn:Ea; [|destruct (is_zip_error e) eqn:Ez; [by left|right; right; by left]].
  destruct (_ <? _); [by right; left|]. destruct (_ <? _); [by right; left|]. cbn [mbind result_bind].
  destruct (dx_document d); [|by left]. destruct (dx_paragraphs d) as [l|e] eqn:Ep; cbn [mbind result_bind]; [|right; right; right; by left].
  pose proof (place_docx_ok lim l 0 start_layout (start_layout_ok _)) as H. destruct (place_docx lim l 0 start_layout) as [s|e];
    cbn [mbind result_bind]. 2:{ right. destruct H as [H|H]; [by left|]. right. right. right. by exists l. }
  destruct H as (k & -> & H1 & H2 & H3). split; [by eapply of_layout_ok|].
  intros H0. specialize (H2 H0). unfold total_text. cbn [of_layout fst]. change (map dr_text (drafts start_layout)) with (@nil string) in H3.
  cbn [app] in H3. rewrite <-H3, map_map in H2. lia.
Qed.

Lemma ingest_pdf_cases lim pdf : match ingest_pdf lim pdf with
  | Ok r => parsed_ok r ∧ total_text r.1.1 ≤ MAX_EXTRACTED_CHARS lim ∧ r.1.2 ≤ MAX_PDF_PAGES lim
  | Raise e => exn_class e = "RuntimeError" ∧ pdf = None ∨ exn_class e = "ValueError" ∨ is_budget e = true
  end.
Proof.
  unfold ingest_pdf. destruct pdf as [opened|]; [|by left]. destruct opened as [ps|e]; cbn [mbind result_bind].
  2:{ destruct (is_budget e) eqn:E; [by right; right|by right; left]. }
  destruct (MAX_PDF_PAGES lim <? Z.of_nat (length ps)) eqn:El; [by right; right|].
  destruct (pdf_pages lim 1 ps (0, [], [])) as [[[n chunks] pages]|e] eqn:E.
  2:{ destruct (is_budget e) eqn:E'; [by right; right|by right; left]. }
  apply (pdf_pages_ok lim ps 1) in E; [|lia|].
  2:{ cbn. split_and!; try done. intros d Hd. by apply not_elem_of_nil in Hd. }
  destruct E as (H1 & H2 & H3 & H4 & H5). destruct chunks as [|d chunks]; [by right; left|].
  split; [split|split].
  - intros d' Hd. rewrite H4. by apply H3.
  - by rewrite Nat2Z.id.
  - etrans; [exact H1|by apply H2].
  - cbn [fst snd]. lia.
Qed.

Section Theorems.
Variable lim : budgets.
Variable gen_id : nat → string.
Variable now : string.

Definition chunk_of (doc_id : string) (i : nat) (d : draft) : Chunk :=
  {| c_chunk_id := gen_id i; c_doc_id := doc_id; c_page := dr_page d; c_bbox := Some (dr_bbox d); c_text := dr_text d;
     c_source_type := dr_type d; c_embedding := [] |}.

(** The checks of [ingest] never fail on what the parsers return. *)
Lemma checked_chunks_ok doc_id l : (∀ d, d ∈ l → 1 ≤ dr_page d) → ∀ i,
  checked_chunks gen_id doc_id i l = Ok (imap (λ j d, chunk_of doc_id (i + j) d) l).
Proof.
  induction l as [|d l IH]; intros Hl i; [done|]. cbn [checked_chunks imap].
  assert (1 ≤ dr_page d) as Hd by (apply Hl; by left). unfold checked_chunk, mk_Chunk.
  rewrite (proj2 (Z.ltb_ge (dr_page d) 0)) by lia. cbn [mbind result_bind c_bbox c_page]. rewrite bool_decide_false by done.
  rewrite (proj2 (Z.ltb_ge (dr_page d) 1)) by lia. rewrite IH by (intros; apply Hl; by right). cbn [mbind result_bind].
  f_equal. f_equal; [by rewrite Nat.add_0_r|]. apply imap_ext. intros j x _. cbn. f_equal. lia.
Qed.

(** What the failure of a file of each kind can be. *)
Definition parse_failure (f : file) (e : exn) : Prop :=
  let suffix := lower (f_suffix f) in
  if bool_decide (suffix ∈ [".txt"; ".md"]) then f_text f = Raise e
  else if bool_decide (suffix = ".pdf") then
    (exn_class e = "RuntimeError" ∧ f_pdf f = None) ∨ exn_class e = "ValueError" ∨ exn_class e = "ResourceBudgetExceeded"
  else if bool_decide (suffix = ".docx") then
    match f_docx f with
    | None => exn_class e = "RuntimeError"
    | Some d => exn_class e = "ValueError" ∨ exn_class e = "ResourceBudgetExceeded" ∨ docx_escapes d e
    end
  else exn_class e = "ValueError".

Lemma parse_file_cases f : match parse_file lim f with Ok r => parsed_ok r | Raise e => parse_failure f e end.
Proof.
  unfold parse_file, parse_failure. destruct (bool_decide (_ ∈ _)).
  { destruct (f_text f) as [text|e]; [|done]. cbn [mbind result_bind]. destruct (ingest_text_ok text) as (r & -> & Hr & _). exact Hr. }
  assert (∀ e, is_budget e = true → exn_class e = "ResourceBudgetExceeded") as Hb by (intros e; apply bool_decide_eq_true).
  destruct (bool_decide (_ = ".pdf")).
  { pose proof (ingest_pdf_cases lim (f_pdf f)) as H. destruct (ingest_pdf lim (f_pdf f)); naive_solver. }
  destruct (bool_decide (_ = ".docx")); [|done].
  pose proof (ingest_docx_cases lim (f_docx f)) as H. destruct (ingest_docx lim (f_docx f)); [naive_solver|]. destruct (f_docx f); naive_solver.
Qed.

Lemma ingest_cases f : match ingest lim gen_id now f with
  | Ok (cs, doc, pages) => ∃ l count ps content, f_exists f = Ok true ∧ f_bytes f = Ok content ∧ parse_file lim f = Ok (l, count, ps) ∧
      cs = imap (chunk_of (d_doc_id doc)) l ∧
      pages = map (with_doc (d_doc_id doc)) ps ∧ d_page_count doc = count ∧ d_sha256 doc = sha256_hex content
  | Raise e => f_exists f = Raise e ∨ (f_exists f = Ok false ∧ exn_class e = "FileNotFoundError") ∨
      (f_exists f = Ok true ∧ (f_bytes f = Raise e ∨ (∃ content, f_bytes f = Ok content) ∧ parse_file lim f = Raise e))
  end.
Proof.
  unfold ingest. destruct (f_exists f) as [[]|e]; cbn [mbind result_bind negb]; [|right; by left|by left].
  destruct (f_bytes f) as [content|e]; cbn [mbind result_bind]; [|right; right; split; [done|by left]]. pose proof (parse_file_cases f) as H.
  destruct (parse_file lim f) as [[[l count] ps]|e]; cbn [mbind result_bind]; [|right; right; split; [done|right; split; [by eexists|done]]].
  destruct H as [H _]. rewrite checked_chunks_ok by (intros d Hd; destruct (H d Hd) as [? _]; lia). cbn [mbind result_bind].
  exists l, count, ps, content. by split_and!.
Qed.

(** C24.  Every chunk of an ingested document has a text, a page of the document and
    a box within that page; the pages are numbered from one. *)
Theorem ingested_wellformed f chunks doc pages : ingest lim gen_id now f = Ok (chunks, doc, pages) →
  (∃ content, f_bytes f = Ok content ∧ d_sha256 doc = sha256_hex content) ∧
  (∀ c, c ∈ chunks → c_doc_id c = d_doc_id doc ∧ 1 ≤ c_page c ≤ d_page_count doc ∧ c_text c ≠ "" ∧
    ∃ b, c_bbox c = Some b ∧ in_unit b) ∧
  map p_index pages = map Z.of_nat (seq 1 (Z.to_nat (d_page_count doc))) ∧ (∀ p, p ∈ pages → p_doc_id p = d_doc_id doc).
Proof.
  intros E. pose proof (ingest_cases f) as H. rewrite E in H. destruct H as (l & count & ps & content & _ & Hb & Hp & -> & -> & Hc & Hs).
  pose proof (parse_file_cases f) as Hok. rewrite Hp in Hok. destruct Hok as [H1 H2]. rewrite Hc. split; [by exists content|]. split_and!.
  - intros c (i & d & -> & Hd)%elem_of_lookup_imap. apply list_elem_of_lookup_2, H1 in Hd as ([? ?] & ? & ? & _).
    cbn. split_and!; try done. by exists (dr_bbox d).
  - rewrite map_map. exact H2.
  - intros p (q & -> & _)%list_elem_of_fmap. done.
Qed.

(** A text file that can be read is ingested, one chunk for each paragraph,
    quoting it. *)
Theorem text_always_ingested f content text : f_exists f = Ok true → f_bytes f = Ok content → f_text f = Ok text →
  lower (f_suffix f) ∈ [".txt"; ".md"] →
  ∃ chunks doc pages, ingest lim gen_id now f = Ok (chunks, doc, pages) ∧
    map c_text chunks = texts_of (split_paragraphs text) ∧ ∀ c, c ∈ chunks → infix_of (c_text c) text.
Proof.
  intros He Hb Hx Hs. pose proof (ingest_cases f) as H. rewrite He, Hb in H.
  destruct (ingest_text_ok text) as (r & Hr & _ & Hm).
  assert (parse_file lim f = Ok r) as Hp by (unfold parse_file; rewrite bool_decide_true by done; rewrite Hx; exact Hr).
  destruct (ingest lim gen_id now f) as [[[cs doc] pages]|e]; [|naive_solver congruence].
  destruct H as (l & count & ps & ? & _ & _ & Hl & -> & _). exists (imap (chunk_of (d_doc_id doc)) l), doc, pages. split; [done|].
  assert (r = (l, count, ps)) as -> by congruence. cbn [fst] in Hm.
  assert (map c_text (imap (chunk_of (d_doc_id doc)) l) = map dr_text l) as Et.
  { apply list_eq. intros i. rewrite !list_lookup_fmap, list_lookup_imap. by destruct (l !! i). }
  split; [by rewrite Et|]. intros c Hc.
  assert (c_text c ∈ texts_of (split_paragraphs text)) as Ht by (rewrite <-Hm, <-Et; by apply list_elem_of_fmap_2).
  unfold texts_of in Ht. apply list_elem_of_filter in Ht as [_ (p & -> & Hq)%list_elem_of_fmap].
  by apply infix_of_strip, split_paragraphs_infix.
Qed.

(** C38.  Where a failed ingestion comes from: the path does not exist; an
    exception of the file system while it is looked up or read; for a text
    file, while it is decoded; for a PDF, a parser that is not installed, or an
    error that has become a ValueError, or a budget; for a DOCX file the same,
    or an exception of the container that is neither a BadZipFile nor an
    OSError, or one raised while the paragraphs are read, which both escape as
    they are; and a ValueError for every other suffix.  The invariants the code
    checks on its own chunks are never what fails. *)
Theorem ingest_failures f e : ingest lim gen_id now f = Raise e →
  (f_exists f = Ok false ∧ exn_class e = "FileNotFoundError") ∨ f_exists f = Raise e ∨
  (f_exists f = Ok true ∧ (f_bytes f = Raise e ∨ (∃ content, f_bytes f = Ok content) ∧ parse_failure f e)).
Proof.
  intros E. pose proof (ingest_cases f) as H. rewrite E in H. pose proof (parse_file_cases f) as Hc.
  destruct H as [?|[?|(He & [?|[Hb Hp]])]]; [right; by left|by left|right; right; split; [done|by left]|].
  right. right. split; [done|]. right. split; [done|]. by rewrite Hp in Hc.
Qed.

(** C36.  The text kept from a PDF or DOCX file, and the pages of a PDF, are within
    the budgets. *)
Theorem ingested_within_budget f chunks doc pages : 0 ≤ MAX_EXTRACTED_CHARS lim →
  ingest lim gen_id now f = Ok (chunks, doc, pages) → lower (f_suffix f) ∉ [".txt"; ".md"] →
  fold_right Z.add 0 (map (λ c, len (c_text c)) chunks) ≤ MAX_EXTRACTED_CHARS lim ∧
  (lower (f_suffix f) = ".pdf" → d_page_count doc ≤ MAX_PDF_PAGES lim).
Proof.
  intros H0 E Hs. pose proof (ingest_cases f) as H. rewrite E in H. destruct H as (l & count & ps & ? & _ & _ & Hp & -> & _ & Hc & _).
  assert (map (λ c, len (c_text c)) (imap (chunk_of (d_doc_id doc)) l) = map (λ d, len (dr_text d)) l) as ->.
  { apply list_eq. intros i. rewrite !list_lookup_fmap, list_lookup_imap. by destruct (l !! i). }
  unfold parse_file in Hp. rewrite (bool_decide_false (_ ∈ _)) in Hp by done. rewrite Hc.
  destruct (bool_decide (lower (f_suffix f) = ".pdf")) eqn:Epdf.
  - pose proof (ingest_pdf_cases lim (f_pdf f)) as Hcase. rewrite Hp in Hcase. destruct Hcase as (_ & H1 & H2). by split.
  - apply bool_decide_eq_false in Epdf. split; [|done]. destruct (bool_decide (_ = ".docx")); [|done].
    pose proof (ingest_docx_cases lim (f_docx f)) as Hcase. rewrite Hp in Hcase. destruct Hcase as (_ & H1). by apply H1.
Qed.
End Theorems.

(** ** Concrete files *)

Definition demo_limits : budgets :=
  {| MAX_PDF_PAGES := 200; MAX_EXTRACTED_CHARS := 4194304; MAX_DOCX_EXPANDED_BYTES := 67108864; MAX_DOCX_ENTRIES := 2048 |}.
Definition demo_text : string := join (String LF "") ["First paragraph,"; "on two lines."; ""; "Second."].
Definition text_file : file :=
  {| f_path := "/in/a.txt"; f_exists := Ok true; f_suffix := ".TXT"; f_bytes := Ok demo_text; f_text := Ok demo_text; f_pdf := None; f_docx := None |}.
Definition one_page : pdf_page :=
  {| pg_width := of_Z 600; pg_height := of_Z 800; pg_text := Ok (Some "Invoice 7");
     pg_words := Ok [{| w_x0 := of_Z 60; w_top := of_Z 80; w_x1 := of_Z 120; w_bottom := of_Z 100 |};
                     {| w_x0 := of_Z 130; w_top := of_Z 80; w_x1 := of_Z 700; w_bottom := of_Z 100 |}] |}.
Definition pdf_file (pages : list pdf_page) : file :=
  {| f_path := "/in/a.pdf"; f_exists := Ok true; f_suffix := ".pdf"; f_bytes := Ok "%PDF"; f_text := Ok ""; f_pdf := Some (Ok pages); f_docx := None |}.
Definition id_at (i : nat) : string := pretty i.

Definition pdf_bbox : BBox := {| x0 := lit 1 10; y0 := lit 1 10; x1 := f1; y1 := lit 1 8 |}.
Definition pdf_chunk : Chunk := chunk_of id_at "1" 0 {| dr_page := 1; dr_bbox := pdf_bbox; dr_text := "Invoice 7"; dr_type := "pdf_text" |}.
Definition pdf_doc : Document :=
  {| d_doc_id := "1"; d_source_path := "/in/a.pdf"; d_sha256 := sha256_hex "%PDF"; d_page_count := 1; d_ingested_at := "now" |}.
Definition pdf_page_out : Page := {| p_doc_id := "1"; p_index := 1; p_width_px := 600; p_height_px := 800; p_image_sha256 := "" |}.

Lemma pdf_ingests : ingest demo_limits id_at "now" (pdf_file [one_page]) = Ok ([pdf_chunk], pdf_doc, [pdf_page_out]).
Proof. unfold ingest, pdf_doc. cbn [f_exists pdf_file negb f_bytes f_path mbind result_bind]. generalize (sha256_hex "%PDF"). intros h. vm_compute. reflexivity. Qed.

Lemma ingested_wellformed_witness : 1 ≤ c_page pdf_chunk ≤ d_page_count pdf_doc.
Proof.
  destruct (ingested_wellformed demo_limits id_at "now" (pdf_file [one_page]) [pdf_chunk] pdf_doc [pdf_page_out] pdf_ingests)
    as (_ & H & _). destruct (H pdf_chunk (list_elem_of_here _ _)) as (_ & Hp & _). exact Hp.
Defined.

Lemma text_suffix : lower (f_suffix text_file) ∈ [".txt"; ".md"].
Proof. apply (bool_decide_unpack _). vm_compute. exact I. Qed.

Lemma text_always_ingested_witness : ∃ chunks doc pages, ingest demo_limits id_at "now" text_file = Ok (chunks, doc, pages) ∧
  map c_text chunks = [join (String LF "") ["First paragraph,"; "on two lines."]; "Second."].
Proof.
  destruct (text_always_ingested demo_limits id_at "now" text_file demo_text demo_text eq_refl eq_refl eq_refl text_suffix) as (cs & d & ps & H & Ht & _).
  exists cs, d, ps. split; [exact H|]. rewrite Ht. vm_compute. reflexivity.
Defined.

Definition unreadable : file :=
  {| f_path := "/in/b.pdf"; f_exists := Ok true; f_suffix := ".pdf"; f_bytes := Ok ""; f_text := Ok "";
     f_pdf := Some (raise "PDFSyntaxError" "no /Root"); f_docx := None |}.
Definition unreadable_error : exn := Exn "ValueError" "Unable to parse PDF document".
Lemma unreadable_fails : ingest demo_limits id_at "now" unreadable = Raise unreadable_error.
Proof. reflexivity. Qed.
Lemma ingest_failures_witness : parse_failure unreadable unreadable_error.
Proof.
  destruct (ingest_failures demo_limits id_at "now" unreadable unreadable_error unreadable_fails) as [[H _]|[H|[_ [H|[_ H]]]]];
    [discriminate H|discriminate H|discriminate H|exact H].
Defined.

(** A directory exists and cannot be read: its [IsADirectoryError] reaches the
    caller.  So does what reading the paragraphs of a DOCX file raises. *)
Example directory_escapes : ingest demo_limits id_at "now"
  {| f_path := "/in"; f_exists := Ok true; f_suffix := ""; f_bytes := raise "IsADirectoryError" "/in"; f_text := Ok ""; f_pdf := None; f_docx := None |} =
  raise "IsADirectoryError" "/in".
Proof. reflexivity. Qed.
Example paragraphs_escape : ingest_docx demo_limits
  (Some {| dx_archive := Ok [10]; dx_document := Ok (); dx_paragraphs := raise "AttributeError" "body" |}) = raise "AttributeError" "body".
Proof. reflexivity. Qed.

Lemma pdf_suffix : lower (f_suffix (pdf_file [one_page])) ∉ [".txt"; ".md"].
Proof. apply (bool_decide_unpack _). vm_compute. exact I. Qed.
Lemma ingested_within_budget_witness : fold_right Z.add 0 (map (λ c, len (c_text c)) [pdf_chunk]) ≤ 4194304.
Proof.
  exact (proj1 (ingested_within_budget demo_limits id_at "now" (pdf_file [one_page]) [pdf_chunk] pdf_doc [pdf_page_out]
    ltac:(vm_compute; discriminate) pdf_ingests pdf_suffix)).
Defined.

(** A page of width NaN passes the check on dimensions; the conversion to pixels refuses it. *)
Example nan_page_refused :
  ingest_pdf demo_limits (Some (Ok [{| pg_width := S754_nan; pg_height := of_Z 800; pg_text := Ok None; pg_words := Ok [] |}])) =
  raise "ValueError" "Unable to parse PDF document".
Proof. reflexivity. Qed.
