(* ===== verification/RateLimit.v ===== *)
(** * The rate limiter of the overlay server

    [_rate_limit_response] of [overlay/server.py]: a sliding window of sixty
    seconds per client, in a dict of buckets that an attacker cannot make
    larger than its cap.  The clock ([time.monotonic]) is an argument.  Against
    an abstract limiter that remembers every admitted request, the buckets
    decide the same as long as the cap is not reached. *)

From S2P Require Import Prelude PyStr PyFloat PyDict.

Record limits := {
  RATE_LIMIT_PER_MIN : Z; RATE_LIMIT_PER_MIN_AUTH : Z; BUCKET_HIGH_WATER : Z; BUCKET_HARD_CAP : Z }.

Definition WINDOW : f64 := of_Z 60.
Definition cutoff_of (now : f64) : f64 := (now - WINDOW)%f64.

Abbreviation bucket := (list f64).
Abbreviation buckets := (list (string * bucket)).

(** [not values or values[-1] < cutoff] *)
Definition stale (cutoff : f64) (v : bucket) : bool := match last v with Some t => flt t cutoff | None => true end.

Definition sweep (lim : limits) (cutoff : f64) (b : buckets) : buckets :=
  if BUCKET_HIGH_WATER lim <? Z.of_nat (length b) then filter (λ p, stale cutoff p.2 = false) b else b.

(** [sorted(buckets, key=...)]: a stable sort by the last admission. *)
Definition recency (v : bucket) : f64 := default f0 (last v).
Fixpoint insert_recent (x : string * bucket) (l : buckets) : buckets :=
  match l with
  | [] => [x]
  | y :: l' => if flt (recency y.2) (recency x.2) then y :: insert_recent x l' else x :: l
  end.
Definition by_recency (b : buckets) : buckets := foldr insert_recent [] b.

(** [l[:n]] *)
Definition slice_to {A} (n : Z) (l : list A) : list A :=
  take (Z.to_nat (if n <? 0 then Z.of_nat (length l) + n else n)) l.

Definition keep_target (cap : Z) : result Z := py_int (of_Z cap * lit 9 10)%f64.
Definition victims (keep : Z) (b : buckets) : list string := slice_to (Z.of_nat (length b) - keep) (by_recency b).*1.

Definition evict (lim : limits) (key : string) (b : buckets) : result buckets :=
  if (BUCKET_HARD_CAP lim <=? Z.of_nat (length b)) && negb (has_key key b) then
    keep ← keep_target (BUCKET_HARD_CAP lim); Ok (filter (λ p, p.1 ∉ victims keep b) b)
  else Ok b.

Fixpoint pop_expired (cutoff : f64) (v : bucket) : bucket :=
  match v with
  | [] => []
  | t :: v' => if flt t cutoff then pop_expired cutoff v' else v
  end.

Definition limit_of (lim : limits) (key : string) : Z :=
  if starts_with "tenant:" key then RATE_LIMIT_PER_MIN_AUTH lim else RATE_LIMIT_PER_MIN lim.

Definition bucket_of (key : string) (b : buckets) : bucket := default [] (assoc key b).

(** [None]: the request goes on; [Some n]: 429 with [Retry-After: n]. *)
Definition rate_limit_response (lim : limits) (exempt : bool) (key : string) (now : f64) (b : buckets)
    : result (option Z) * buckets :=
  if exempt || (RATE_LIMIT_PER_MIN lim <=? 0) then (Ok None, b)
  else
    let cutoff := cutoff_of now in
    let b := sweep lim cutoff b in
    match evict lim key b with
    | Raise e => (Raise e, b)
    | Ok b =>
        let v := pop_expired cutoff (bucket_of key b) in
        if limit_of lim key <=? Z.of_nat (length v) then
          (match v with
           | [] => raise "IndexError" "deque index out of range"
           | t :: _ => n ← py_int (WINDOW - (now - t))%f64; Ok (Some (Z.max 1 n))
           end, dict_set key v b)
        else (Ok None, dict_set key (v ++ [now]) b)
    end.

(** Requests of clients at clock readings, none to an exempt path. *)
Abbreviation arrivals := (list (string * f64)).

Fixpoint serve (lim : limits) (reqs : arrivals) (b : buckets) : list (result (option Z)) * buckets :=
  match reqs with
  | [] => ([], b)
  | (key, now) :: reqs' =>
      let '(r, b) := rate_limit_response lim false key now b in
      let '(rs, b) := serve lim reqs' b in (r :: rs, b)
  end.

Definition admitted (r : result (option Z)) : bool := match r with Ok None => true | _ => false end.

(** ** The abstract limiter: every admitted request, in order *)

Definition recent (key : string) (now : f64) (h : arrivals) : arrivals :=
  filter (λ p, p.1 = key ∧ flt p.2 (cutoff_of now) = false) h.

Definition allows (lim : limits) (key : string) (now : f64) (h : arrivals) : bool :=
  Z.of_nat (length (recent key now h)) <? limit_of lim key.

Fixpoint spec_serve (lim : limits) (reqs : arrivals) (h : arrivals) : list bool :=
  match reqs with
  | [] => []
  | (key, now) :: reqs' =>
      let ok := allows lim key now h in ok :: spec_serve lim reqs' (if ok then h ++ [(key, now)] else h)
  end.

(** The clock does not go back, and neither does the cutoff. *)
Definition later (t t' : f64) : Prop := fle t t' = true ∧ fle (cutoff_of t) (cutoff_of t') = true.
Definition clock_ok (reqs : arrivals) : Prop := StronglySorted later reqs.*2.
Definition clients (reqs : arrivals) : list string := remove_dups reqs.*1.

(** ** The buckets follow the history *)

Definition times (key : string) (h : arrivals) : bucket := (filter (λ p, p.1 = key) h).*2.

Lemma times_snoc key k t h : times key (h ++ [(k, t)]) = if bool_decide (k = key) then times key h ++ [t] else times key h.
Proof.
  unfold times. rewrite filter_app, fmap_app. case_bool_decide as E; [by rewrite filter_cons_True|].
  rewrite filter_cons_False by done. cbn. by rewrite app_nil_r.
Qed.

Lemma recent_times key now h : length (recent key now h) = length (filter (λ t, flt t (cutoff_of now) = false) (times key h)).
Proof.
  unfold recent, times. induction h as [|[k t] h IH]; [done|]. rewrite !filter_cons. cbn [fst snd].
  destruct (decide (k = key)) as [->|Hk]; cbn [fmap list_fmap snd].
  - rewrite filter_cons. repeat case_decide; naive_solver congruence.
  - case_decide; naive_solver.
Qed.

Lemma pop_expired_split c v : ∃ p, v = p ++ pop_expired c v ∧ Forall (λ t, flt t c = true) p.
Proof.
  induction v as [|t v [p [E Hp]]]; [by exists []|]. cbn. destruct (flt t c) eqn:Et; [|by exists []].
  exists (t :: p). split; [cbn; by rewrite <-E|by constructor].
Qed.

Lemma pop_expired_filter c v : StronglySorted (λ t t', fle t t' = true) v → pop_expired c v = filter (λ t, flt t c = false) v.
Proof.
  induction 1 as [|t v Hv IH Ht]; [done|]. cbn [pop_expired]. destruct (flt t c) eqn:Et.
  - by rewrite filter_cons_False by congruence.
  - rewrite filter_cons_True by done. f_equal. clear IH Hv. induction Ht as [|t' v Hle _ IH]; [done|]. rewrite filter_cons_True; [by f_equal|].
    destruct (flt t' c) eqn:E; [|done]. by rewrite (fle_lt_trans t t' c) in Et.
Qed.

Lemma stale_all c v : StronglySorted (λ t t', fle t t' = true) v → stale c v = true → Forall (λ t, flt t c = true) v.
Proof.
  intros Hs. unfold stale. destruct (last v) as [t|] eqn:E; [|by apply last_None in E as ->].
  apply last_Some in E as [v' ->]. intros Ht. apply Forall_app. split; [|by repeat constructor].
  apply Forall_forall. intros x Hx. apply StronglySorted_app in Hs as (Hs & _).
  apply (fle_lt_trans x t c); [|done]. by apply Hs; [|left].
Qed.

Section Filter.
Context {A : Type} (P : string * A → Prop) `{!∀ p, Decision (P p)}.
Implicit Types d : list (string * A).

Lemma keys_filter d k : k ∈ (filter P d).*1 → k ∈ d.*1.
Proof. intros (p & -> & [_ Hp]%list_elem_of_filter)%list_elem_of_fmap. by apply list_elem_of_fmap_2. Qed.

Lemma wf_filter d : wf_dict d → wf_dict (filter P d).
Proof.
  unfold wf_dict. induction d as [|[k v] d IH]; [done|]. intros [Hk Hd]%NoDup_cons. rewrite filter_cons.
  destruct (decide (P (k, v))); [|by apply IH]. apply NoDup_cons. split; [|by apply IH]. by intros ?%keys_filter.
Qed.

Lemma assoc_filter d k : wf_dict d →
  assoc k (filter P d) = match assoc k d with Some v => if decide (P (k, v)) then Some v else None | None => None end.
Proof.
  unfold wf_dict. induction d as [|[k' v] d IH]; [done|]. intros [Hk Hd]%NoDup_cons. rewrite filter_cons. cbn [assoc].
  destruct (bool_decide_reflect (k = k')) as [->|Hne].
  - destruct (decide (P (k', v))); [cbn; by rewrite bool_decide_true|]. apply assoc_None. by intros ?%keys_filter.
  - destruct (decide (P (k', v))); [cbn; rewrite bool_decide_false by done|]; by apply IH.
Qed.
End Filter.

(** ** The simulation *)

Section Simulation.
Variable lim : limits.
Variable universe : list string.
Hypothesis Hper : 1 ≤ RATE_LIMIT_PER_MIN lim.
Hypothesis Hauth : 1 ≤ RATE_LIMIT_PER_MIN_AUTH lim.
Hypothesis Hcap : Z.of_nat (length universe) ≤ BUCKET_HARD_CAP lim.

(** What the buckets are for the requests to come: each is the history of its
    client without times that are expired from now on. *)
Record follows (reqs : arrivals) (h : arrivals) (b : buckets) : Prop := {
  fo_wf : wf_dict b;
  fo_keys : ∀ k, k ∈ b.*1 → k ∈ universe;
  fo_sorted : ∀ key, StronglySorted (λ t t', fle t t' = true) (times key h);
  fo_past : ∀ p t, p ∈ h → t ∈ reqs.*2 → fle p.2 t = true;
  fo_bucket : ∀ key, ∃ dropped, times key h = dropped ++ bucket_of key b ∧
    ∀ t t', t ∈ dropped → t' ∈ reqs.*2 → flt t (cutoff_of t') = true }.

Lemma follows_start reqs : follows reqs [] [].
Proof.
  split; [apply wf_dict_nil|..].
  - by intros k ?%not_elem_of_nil.
  - constructor.
  - by intros p t ?%not_elem_of_nil.
  - intros key. exists []. split; [done|]. by intros t t' ?%not_elem_of_nil.
Qed.

Lemma bucket_sorted reqs h b key : follows reqs h b → StronglySorted (λ t t', fle t t' = true) (bucket_of key b).
Proof.
  intros F. destruct (fo_bucket _ _ _ F key) as (d & E & _). pose proof (fo_sorted _ _ _ F key) as H. rewrite E in H.
  by apply StronglySorted_app_1_r in H.
Qed.

Lemma expired_later t t' (reqs : arrivals) x : t' ∈ reqs.*2 → Forall (later t) reqs.*2 → flt x (cutoff_of t) = true → flt x (cutoff_of t') = true.
Proof. intros Ht Hl Hx. rewrite Forall_forall in Hl. destruct (Hl t' Ht) as [_ Hc]. by apply (flt_le_trans x (cutoff_of t)). Qed.

Lemma sweep_follows key now reqs h b : clock_ok ((key, now) :: reqs) →
  follows ((key, now) :: reqs) h b → follows ((key, now) :: reqs) h (sweep lim (cutoff_of now) b).
Proof.
  intros Hclock F. unfold sweep. destruct (_ <? _); [|done]. split.
  - apply wf_filter, F.
  - intros k ?%keys_filter. by apply (fo_keys _ _ _ F).
  - apply F.
  - apply F.
  - intros k. destruct (fo_bucket _ _ _ F k) as (d & E & Hd). unfold bucket_of in *. rewrite assoc_filter by apply F.
    destruct (assoc k b) as [v|] eqn:Ev; [|by exists d]. cbn [snd]. destruct (decide (stale (cutoff_of now) v = false)) as [|Hs]; [by exists d|].
    apply not_false_iff_true in Hs. exists (d ++ v). cbn [default] in *. split; [by rewrite E, app_nil_r|].
    intros t t' [Ht|Ht]%elem_of_app Hin; [by apply Hd|]. apply stale_all in Hs.
    + rewrite Forall_forall in Hs. apply Hs in Ht. unfold clock_ok in Hclock. cbn [fmap list_fmap snd] in *.
      apply StronglySorted_inv in Hclock as [_ Hl]. apply elem_of_cons in Hin as [->|Hin]; [done|]. by apply (expired_later now t' reqs).
    + pose proof (bucket_sorted _ _ _ k F) as Hb. unfold bucket_of in Hb. by rewrite Ev in Hb.
Qed.

Lemma evict_nothing key b : wf_dict b → (∀ k, k ∈ b.*1 → k ∈ universe) → key ∈ universe → evict lim key b = Ok b.
Proof.
  intros Hw Hk Hin. unfold evict. destruct (Z.leb_spec (BUCKET_HARD_CAP lim) (Z.of_nat (length b))) as [Hl|]; [|done].
  destruct (has_key key b) eqn:E; [done|]. exfalso. unfold has_key in E. destruct (assoc key b) eqn:Ea; [done|]. apply assoc_None in Ea.
  assert (key :: b.*1 ⊆+ universe) as Hs%submseteq_length.
  { apply NoDup_submseteq; [by apply NoDup_cons|]. intros x [->|Hx]%elem_of_cons; [done|by apply Hk]. }
  cbn in Hs. rewrite length_fmap in Hs. lia.
Qed.

Lemma recent_popped key now reqs h b : follows ((key, now) :: reqs) h b →
  length (recent key now h) = length (pop_expired (cutoff_of now) (bucket_of key b)).
Proof.
  intros F. rewrite recent_times, pop_expired_filter by exact (bucket_sorted _ _ _ key F).
  destruct (fo_bucket _ _ _ F key) as (d & -> & Hd). rewrite filter_app, length_app.
  enough (filter (λ t, flt t (cutoff_of now) = false) d = []) as -> by done.
  induction d as [|t d IH]; [done|]. rewrite filter_cons_False; [by apply IH; intros; apply Hd; [right|]|].
  rewrite (Hd t now) by left. done.
Qed.

Lemma bucket_of_set key v b : bucket_of key (dict_set key v b) = v.
Proof. unfold bucket_of. by rewrite assoc_set_eq. Qed.

Definition if_added {A} (add : bool) (x : A) : list A := if add then [x] else [].

Lemma set_follows (add : bool) key now reqs h b : clock_ok ((key, now) :: reqs) → key ∈ universe →
  follows ((key, now) :: reqs) h b →
  follows reqs (h ++ if_added add (key, now)) (dict_set key (pop_expired (cutoff_of now) (bucket_of key b) ++ if_added add now) b).
Proof.
  intros Hclock Hu F. apply StronglySorted_inv in Hclock as [_ Hl]. cbn [fmap list_fmap snd] in Hl.
  assert (∀ k, times k (h ++ if_added add (key, now)) = times k h ++ (if bool_decide (key = k) then if_added add now else [])) as Ht.
  { intros k. destruct add; cbn [if_added]; [rewrite times_snoc|rewrite app_nil_r]; by case_bool_decide; rewrite ?app_nil_r. }
  split.
  - by apply wf_dict_set, F.
  - intros k (p & -> & Hp)%list_elem_of_fmap. apply elem_dict_set in Hp as [->|Hp]; [done|].
    by apply (fo_keys _ _ _ F), list_elem_of_fmap_2.
  - intros k. rewrite Ht. case_bool_decide; [|rewrite app_nil_r; apply F]. subst k.
    apply StronglySorted_app_2; [|apply F|destruct add; repeat constructor].
    intros x y Hx Hy. assert (y = now) as -> by (destruct add; set_solver). unfold times in Hx.
    apply list_elem_of_fmap in Hx as (p & -> & [_ Hp]%list_elem_of_filter). apply (fo_past _ _ _ F); [done|by left].
  - intros p t [Hp|Hp]%elem_of_app Hin; [apply (fo_past _ _ _ F); [done|by right]|].
    assert (p = (key, now)) as -> by (destruct add; set_solver). rewrite Forall_forall in Hl. by destruct (Hl t Hin).
  - intros k. rewrite Ht. destruct (fo_bucket _ _ _ F k) as (d & E & Hd). case_bool_decide as Hk.
    + subst k. rewrite bucket_of_set. rewrite Forall_forall in Hl.
      destruct (pop_expired_split (cutoff_of now) (bucket_of key b)) as (p & Ep & Hp).
      exists (d ++ p). split; [rewrite E; rewrite Ep at 1; by rewrite <-!app_assoc|].
      intros t t' [Hx|Hx]%elem_of_app Hin; [apply Hd; [done|by right]|]. rewrite Forall_forall in Hp.
      apply (expired_later now t' reqs); [done|by apply Forall_forall|by apply Hp].
    + unfold bucket_of. rewrite assoc_set_ne by done. exists d. split; [by rewrite app_nil_r|].
      intros t t' Hx Hin. apply Hd; [done|by right].
Qed.

Lemma response_step key now reqs h b : clock_ok ((key, now) :: reqs) → key ∈ universe →
  follows ((key, now) :: reqs) h b →
  admitted (rate_limit_response lim false key now b).1 = allows lim key now h ∧
  follows reqs (if allows lim key now h then h ++ [(key, now)] else h) (rate_limit_response lim false key now b).2.
Proof.
  intros Hclock Hu F. unfold rate_limit_response, allows. destruct (Z.leb_spec (RATE_LIMIT_PER_MIN lim) 0); [lia|]. cbn [orb].
  apply sweep_follows in F; [|done]. revert F. generalize (sweep lim (cutoff_of now) b). clear b. intros b F.
  rewrite (evict_nothing key b) by (done || apply F). rewrite (recent_popped _ _ _ _ _ F).
  pose proof (set_follows true _ _ _ _ _ Hclock Hu F) as Ha. pose proof (set_follows false _ _ _ _ _ Hclock Hu F) as Hr.
  unfold if_added in Ha, Hr. rewrite !app_nil_r in Hr. rewrite Z.ltb_antisym. destruct (_ <=? _); cbn [negb fst snd]; [|by split].
  split; [|done]. destruct (pop_expired _ _) as [|t v]; [done|]. by destruct (py_int _).
Qed.

Lemma serve_spec reqs : ∀ h b, clock_ok reqs → (∀ k, k ∈ reqs.*1 → k ∈ universe) → follows reqs h b →
  map admitted (serve lim reqs b).1 = spec_serve lim reqs h.
Proof.
  induction reqs as [|[key now] reqs IH]; intros h b Hclock Hu F; [done|].
  assert (key ∈ universe) as Hk by (apply Hu; left). destruct (response_step _ _ _ _ _ Hclock Hk F) as [H1 H2].
  cbn [serve spec_serve]. destruct (rate_limit_response lim false key now b) as [r b']. cbn [fst snd] in *.
  assert (clock_ok reqs) as Hc by (apply StronglySorted_inv in Hclock; apply Hclock).
  specialize (IH _ _ Hc (λ k Hin, Hu k (list_elem_of_further _ _ _ Hin)) H2).
  destruct (serve lim reqs b') as [rs b'']. cbn [fst map] in *. by rewrite H1, IH.
Qed.
End Simulation.

(** C15.  The buckets, with their expiry, sweeping and lazy creation, decide exactly
    as a limiter that remembers every admitted request and counts those of the
    last sixty seconds, as long as the clients fit under the hard cap. *)
Theorem rate_limiter_refines lim reqs : 1 ≤ RATE_LIMIT_PER_MIN lim → 1 ≤ RATE_LIMIT_PER_MIN_AUTH lim →
  Z.of_nat (length (clients reqs)) ≤ BUCKET_HARD_CAP lim → clock_ok reqs →
  map admitted (serve lim reqs []).1 = spec_serve lim reqs [].
Proof.
  intros Hp Ha Hc Hclock. apply (serve_spec lim (clients reqs)); [done..| |apply follows_start].
  intros k Hk. by apply elem_of_remove_dups.
Qed.

(** ** The buckets are bounded, whoever sends requests *)

Lemma insert_recent_perm x l : insert_recent x l ≡ₚ x :: l.
Proof. induction l as [|y l IH]; [done|]. cbn. destruct (flt _ _); [|done]. rewrite IH. apply Permutation_swap. Qed.

Lemma by_recency_perm b : by_recency b ≡ₚ b.
Proof. induction b as [|x b IH]; [done|]. cbn. by rewrite insert_recent_perm, IH. Qed.

Lemma length_filter_out (d : buckets) l : wf_dict d → NoDup l → (∀ k, k ∈ l → k ∈ d.*1) →
  (length (filter (λ p, p.1 ∉ l) d) + length l = length d)%nat.
Proof.
  intros Hd Hl Hin. assert (d.*1 ≡ₚ l ++ (filter (λ p, p.1 ∉ l) d).*1) as Hp%Permutation_length.
  { apply NoDup_Permutation; [done| |].
    - apply NoDup_app. split_and!; [done| |by apply wf_filter]. intros k Hk (p & -> & [Hn _]%list_elem_of_filter)%list_elem_of_fmap. done.
    - intros k. rewrite elem_of_app, !list_elem_of_fmap. setoid_rewrite list_elem_of_filter. split.
      + intros (p & -> & Hp). destruct (decide (p.1 ∈ l)); [by left|]. right. by exists p.
      + intros [Hk|(p & -> & _ & Hp)]; [|by exists p]. apply Hin, list_elem_of_fmap in Hk as (p & -> & Hp). by exists p. }
  rewrite length_app, !length_fmap in Hp. lia.
Qed.

Section Bounds.
Variable lim : limits.
Variable keep : Z.
Hypothesis Hkeep : keep_target (BUCKET_HARD_CAP lim) = Ok keep.
Hypothesis Hrange : 0 ≤ keep < BUCKET_HARD_CAP lim.

Record bounded (b : buckets) : Prop := {
  bo_wf : wf_dict b;
  bo_count : Z.of_nat (length b) ≤ BUCKET_HARD_CAP lim;
  bo_size : ∀ k v, (k, v) ∈ b → Z.of_nat (length v) ≤ Z.max 0 (limit_of lim k) }.

Lemma bounded_filter P `{!∀ p, Decision (P p)} b : bounded b → bounded (filter P b).
Proof.
  intros [H1 H2 H3]. split; [by apply wf_filter| |by intros k v [_ ?]%list_elem_of_filter; apply H3].
  pose proof (length_filter P b). lia.
Qed.

Lemma sweep_bounded cutoff b : bounded b → bounded (sweep lim cutoff b).
Proof. unfold sweep. destruct (_ <? _); [apply bounded_filter; by intros|done]. Qed.

Lemma evict_room key b : bounded b → ∃ b', evict lim key b = Ok b' ∧ bounded b' ∧
  (has_key key b' = true ∨ Z.of_nat (length b') < BUCKET_HARD_CAP lim).
Proof.
  intros B. unfold evict. destruct (Z.leb_spec (BUCKET_HARD_CAP lim) (Z.of_nat (length b))) as [Hl|]; [|exists b; auto].
  destruct (has_key key b) eqn:E; [exists b; auto|]. cbn [negb andb]. rewrite Hkeep. cbn [mbind result_bind].
  eexists. split; [done|]. split; [by apply bounded_filter|]. right. destruct B as [Hw Hc _].
  assert (length (by_recency b).*1 = length b) as Hb by (rewrite length_fmap; by rewrite by_recency_perm).
  unfold victims, slice_to. rewrite Hb. destruct (Z.ltb_spec (Z.of_nat (length b) - keep) 0); [lia|].
  set (l := take _ _). assert (length (filter (λ p, p.1 ∉ l) b) + length l = length b)%nat as Hlen.
  { apply length_filter_out; [done| |].
    - apply (sublist_NoDup _ (by_recency b).*1); [by rewrite by_recency_perm|apply sublist_take].
    - intros k Hk. rewrite <-by_recency_perm. apply (elem_of_sublist l); [done|apply sublist_take]. }
  assert (length l = Z.to_nat (Z.of_nat (length b) - keep)) as Hl' by (unfold l; rewrite length_take, Hb; lia).
  lia.
Qed.

Lemma pop_expired_length c v : (length (pop_expired c v) ≤ length v)%nat.
Proof. destruct (pop_expired_split c v) as (p & E & _). rewrite E at 2. rewrite length_app. lia. Qed.

Lemma set_bounded key v b : bounded b → (has_key key b = true ∨ Z.of_nat (length b) < BUCKET_HARD_CAP lim) →
  Z.of_nat (length v) ≤ Z.max 0 (limit_of lim key) → bounded (dict_set key v b).
Proof.
  intros [H1 H2 H3] Hroom Hv. split; [by apply wf_dict_set| |].
  - rewrite length_set. destruct (has_key key b); [done|]. destruct Hroom; [done|lia].
  - intros k w [[= -> ->]|Hin]%elem_dict_set; [done|by apply H3].
Qed.

Lemma bucket_size key b : bounded b → Z.of_nat (length (bucket_of key b)) ≤ Z.max 0 (limit_of lim key).
Proof.
  intros B. unfold bucket_of. destruct (assoc key b) as [v|] eqn:E; [|cbn; lia]. by apply (bo_size _ B), assoc_Some_elem.
Qed.

Lemma response_bounded exempt key now b : bounded b → bounded (rate_limit_response lim exempt key now b).2.
Proof.
  intros B. unfold rate_limit_response. destruct (_ || _); [done|]. apply (sweep_bounded (cutoff_of now)) in B.
  destruct (evict_room key _ B) as (b' & -> & B' & Hroom). pose proof (bucket_size key _ B') as Hs.
  pose proof (pop_expired_length (cutoff_of now) (bucket_of key b')) as Hp.
  destruct (Z.leb_spec (limit_of lim key) (Z.of_nat (length (pop_expired (cutoff_of now) (bucket_of key b'))))) as [Hl|Hl]; cbn [snd];
    (apply set_bounded; [done..|]); [|rewrite length_app; cbn [length]]; lia.
Qed.

Lemma serve_bounded reqs : ∀ b, bounded b → bounded (serve lim reqs b).2.
Proof.
  induction reqs as [|[key now] reqs IH]; intros b B; [done|]. cbn [serve]. pose proof (response_bounded false key now b B) as B'.
  destruct (rate_limit_response lim false key now b) as [r b']. cbn [snd] in B'. apply IH in B'. revert B'.
  by destruct (serve lim reqs b').
Qed.
End Bounds.

(** C33.  Whatever keys an attacker invents and whatever the clock says, there are
    never more buckets than the hard cap, and no bucket holds more admissions
    than the limit of its client. *)
Theorem buckets_bounded lim keep reqs : keep_target (BUCKET_HARD_CAP lim) = Ok keep → 0 ≤ keep < BUCKET_HARD_CAP lim →
  bounded lim (serve lim reqs []).2.
Proof.
  intros H1 H2. apply (serve_bounded lim keep H1 H2). split; [apply wf_dict_nil|cbn; lia|]. intros k v []%not_elem_of_nil.
Qed.

(** ** Concrete limiters *)

Definition default_limits : limits :=
  {| RATE_LIMIT_PER_MIN := 300; RATE_LIMIT_PER_MIN_AUTH := 3000; BUCKET_HIGH_WATER := 500; BUCKET_HARD_CAP := 5000 |}.
Definition tight : limits := {| RATE_LIMIT_PER_MIN := 2; RATE_LIMIT_PER_MIN_AUTH := 3; BUCKET_HIGH_WATER := 1; BUCKET_HARD_CAP := 2 |}.
Definition at_seconds (l : list (string * Z)) : arrivals := map (λ p, (p.1, of_Z p.2)) l.
Definition burst : arrivals := at_seconds [("a", 100); ("a", 110); ("a", 120); ("b", 161); ("b", 162); ("a", 165); ("b", 230)].

Lemma default_keep : keep_target 5000 = Ok 4500. Proof. vm_compute. reflexivity. Qed.

Lemma burst_clock : clock_ok burst.
Proof.
  unfold clock_ok. repeat first [apply SSorted_nil|apply SSorted_cons]; repeat first [apply Forall_nil_2|apply Forall_cons_2];
    split; vm_compute; reflexivity.
Qed.

Lemma rate_limiter_refines_witness : map admitted (serve tight burst []).1 = [true; true; false; true; true; true; true].
Proof.
  rewrite (rate_limiter_refines tight burst ltac:(vm_compute; discriminate) ltac:(vm_compute; discriminate)
    ltac:(vm_compute; discriminate) burst_clock). vm_compute. reflexivity.
Defined.

Lemma buckets_bounded_witness : bounded default_limits (serve default_limits burst []).2.
Proof. apply (buckets_bounded default_limits 4500 burst default_keep). split; [vm_compute; discriminate|vm_compute; reflexivity]. Defined.

(** A limit of zero for tenants is not "off", as it is for the others: the
    first request of a tenant raises. *)
Example zero_tenant_limit_raises : (serve {| RATE_LIMIT_PER_MIN := 300; RATE_LIMIT_PER_MIN_AUTH := 0; BUCKET_HIGH_WATER := 500; BUCKET_HARD_CAP := 5000 |}
  (at_seconds [("tenant:0123456789ab", 100)]) []).1 = [raise "IndexError" "deque index out of range"].
Proof. vm_compute. reflexivity. Qed.

(** Beyond the hard cap a client is forgotten, and its count with it: after two
    newcomers the client that had used up its limit is admitted again. *)
Example evicted_client_restarts : map admitted (serve tight (at_seconds [("a", 100); ("a", 100); ("a", 101); ("b", 102); ("c", 103); ("a", 104)]) []).1 =
  [true; true; false; true; true; true].
Proof. vm_compute. reflexivity. Qed.
