(* ===== verification/Origin.v ===== *)
(** * Browser origins

    [_origin_allowed] and [_cors_origins] of [overlay/server.py], over
    [urllib.parse.urlsplit] and the accessors of its result, modelled on
    characters below U+0100 (none of which normalises to a delimiter, so
    [_checknetloc] never raises).  The check of bracketed hosts, which parses
    IPv6 addresses, is an argument. *)

From S2P Require Import Prelude PyStr.

(** ** [urlsplit] *)

Definition ascii_letter (c : ascii) : bool := between 65 90 (code c) || between 97 122 (code c).
Definition scheme_char (c : ascii) : bool := ascii_letter c || is_digit c || bool_decide (c ∈ ["+"; "-"; "."]%char).
Definition control_or_space (c : ascii) : bool := (code c <=? 32)%N.
Definition tab_or_newline (c : ascii) : bool := bool_decide (c ∈ ["009"; "010"; "013"]%char).

Record SplitResult := { scheme : string; netloc : string; path : string; query : string; fragment : string }.

(** The text before the first character of a class, and the rest. *)
Fixpoint until (p : ascii → bool) (s : string) : string * string :=
  match s with
  | "" => ("", "")
  | String c s' => if p c then ("", s) else let '(a, b) := until p s' in (String c a, b)
  end.

(** [s.rpartition("@")[2]] and whether there was an [@]. *)
Fixpoint after_last (sep : ascii) (s : string) : option string :=
  match s with
  | "" => None
  | String c s' => match after_last sep s' with Some t => Some t | None => if bool_decide (c = sep) then Some s' else None end
  end.

Definition has_char (c : ascii) (s : string) : bool := exists_str (λ d, bool_decide (d = c)) s.

Definition split_scheme (url : string) : string * string :=
  match partition_char ":" url with
  | Some (String c a, rest) => if ascii_letter c && forall_str scheme_char (String c a) then (lower (String c a), rest) else ("", url)
  | _ => ("", url)
  end.

(** [s.split(c, 1)] where [c] occurs; the text itself otherwise. *)
Definition cut_at (c : ascii) (s : string) : string * string := default (s, "") (partition_char c s).

Definition netloc_end (c : ascii) : bool := bool_decide (c ∈ ["/"; "?"; "#"]%char).

Section Urlsplit.
Variable bracketed_netloc_ok : string → bool.

Definition urlsplit (url : string) : result SplitResult :=
  let url := filter_str (λ c, negb (tab_or_newline c)) (lstrip_by control_or_space url) in
  let '(scheme, url) := split_scheme url in
  let '(netloc, url) := if starts_with "//" url then until netloc_end (drop_str 2 url) else ("", url) in
  if negb (Bool.eqb (has_char "[" netloc) (has_char "]" netloc)) then raise "ValueError" "Invalid IPv6 URL"
  else if has_char "[" netloc && negb (bracketed_netloc_ok netloc) then raise "ValueError" "Invalid bracketed host"
  else
    let '(url, fragment) := cut_at "#" url in
    let '(url, query) := cut_at "?" url in
    Ok {| scheme := scheme; netloc := netloc; path := url; query := query; fragment := fragment |}.

(** [username is not None] *)
Definition has_userinfo (u : SplitResult) : bool := has_char "@" (netloc u).

Definition hostinfo (netloc : string) : string * option string :=
  let info := default netloc (after_last "@" netloc) in
  let '(hostname, port) :=
    match partition_char "[" info with
    | Some (_, bracketed) => let '(hostname, rest) := cut_at "]" bracketed in (hostname, (cut_at ":" rest).2)
    | None => cut_at ":" info
    end in
  (hostname, if truthy port then Some port else None).

(** Only the part before a zone is lowercased. *)
Definition hostname (u : SplitResult) : option string :=
  let h := (hostinfo (netloc u)).1 in
  if truthy h then
    Some (match partition_char "%" h with Some (a, zone) => lower a +:+ "%" +:+ zone | None => lower h end)
  else None.

(** [int] refuses more than 4300 digits. *)
Definition port (u : SplitResult) : result (option Z) :=
  match (hostinfo (netloc u)).2 with
  | None => Ok None
  | Some p =>
      if forall_str is_digit p then
        if (4300 <? String.length p)%nat then raise "ValueError" "Exceeds the limit for integer string conversion"
        else if int_of_digits p <=? 65535 then Ok (Some (int_of_digits p)) else raise "ValueError" "Port out of range 0-65535"
      else raise "ValueError" "Port could not be cast to integer value"
  end.

(** ** Origins *)

Definition ALLOWED_ORIGINS : list string :=
  ["http://localhost"; "http://127.0.0.1"; "http://testserver"; "https://testserver"; "tauri://localhost"].

Definition ends_with_colon (s : string) : bool := bool_decide (last (chars s) = Some ":"%char).

(** [cors]: [_CORS_ORIGINS]. *)
Definition origin_allowed (cors : list string) (origin : string) : bool :=
  if exists_str (λ c, is_space c || (code c <? 32)%N) origin then false
  else
    match urlsplit origin with
    | Raise _ => false
    | Ok parsed =>
        if has_userinfo parsed || truthy (path parsed) || truthy (query parsed) || truthy (fragment parsed)
           || has_char "?" origin || has_char "#" origin || has_char "092" origin then false
        else
          match port parsed with
          | Raise _ => false
          | Ok p =>
              if ends_with_colon (netloc parsed) then false
              else if bool_decide (origin ∈ ALLOWED_ORIGINS) || bool_decide (origin ∈ cors) then true
              else
                match p, hostname parsed with
                | Some _, Some h =>
                    bool_decide (scheme parsed = "http") && bool_decide (h ∈ ["localhost"; "127.0.0.1"; "testserver"])
                    || bool_decide (scheme parsed = "https") && bool_decide (h = "testserver")
                | _, _ => false
                end
          end
    end.
End Urlsplit.

(** [_cors_origins()], from [AXIOM_CORS_ORIGINS]. *)
Definition cors_origins (raw : string) : list string :=
  filter (λ o, o ≠ "*") (filter (λ o, truthy o = true) (map strip (split_char "," raw))).

(** ** Splitting is reassembling *)

Lemma partition_char_Some c s a b : partition_char c s = Some (a, b) → s = a +:+ String c b.
Proof.
  revert a b. induction s as [|d s IH]; intros a b; [done|]. cbn [partition_char]. destruct (decide (d = c)) as [->|]; [by intros [= <- <-]|].
  destruct (partition_char c s) as [[a' b']|]; [|done]. intros [= <- <-]. by rewrite app_cons_str, (IH a' b').
Qed.

Lemma has_char_cons c d s : has_char c (String d s) = bool_decide (d = c) || has_char c s.
Proof. unfold has_char, exists_str. cbn [forall_str]. by rewrite negb_andb, negb_involutive. Qed.

Lemma has_char_app c s t : has_char c (s +:+ t) = has_char c s || has_char c t.
Proof. induction s as [|d s IH]; [done|]. by rewrite app_cons_str, !has_char_cons, IH, orb_assoc. Qed.

Lemma partition_char_None c s : has_char c s = false → partition_char c s = None.
Proof.
  induction s as [|d s IH]; [done|]. rewrite has_char_cons. intros [Hd Hs]%orb_false_iff. apply bool_decide_eq_false in Hd.
  cbn [partition_char]. rewrite decide_False by done. by rewrite IH.
Qed.

Lemma cut_at_absent c s : has_char c s = false → cut_at c s = (s, "").
Proof. intros H. unfold cut_at. by rewrite partition_char_None. Qed.

Lemma after_last_None c s : has_char c s = false → after_last c s = None.
Proof. induction s as [|d s IH]; [done|]. rewrite has_char_cons. intros [Hd Hs]%orb_false_iff. cbn [after_last]. by rewrite IH, Hd. Qed.

Lemma until_app p s : s = (until p s).1 +:+ (until p s).2.
Proof. induction s as [|c s IH]; [done|]. cbn [until]. destruct (p c); [done|]. destruct (until p s). cbn [fst snd] in *. by rewrite app_cons_str, <-IH. Qed.

Lemma filter_str_id p s : forall_str p s = true → filter_str p s = s.
Proof. induction s as [|c s IH]; [done|]. cbn [forall_str filter_str]. intros [-> H]%andb_true_iff. by rewrite IH. Qed.

Lemma forall_not_exists p q s : (∀ c, p c = false → q c = true) → exists_str p s = false → forall_str q s = true.
Proof.
  intros Hpq. unfold exists_str. rewrite negb_false_iff. induction s as [|c s IH]; [done|]. cbn [forall_str].
  intros [Hc Hs]%andb_true_iff. rewrite IH by done. by rewrite Hpq by (by apply negb_true_iff).
Qed.

Lemma visible_unchanged origin : exists_str (λ c, is_space c || (code c <? 32)%N) origin = false →
  filter_str (λ c, negb (tab_or_newline c)) (lstrip_by control_or_space origin) = origin.
Proof.
  intros H. assert (lstrip_by control_or_space origin = origin) as ->.
  { destruct origin as [|c s]; [done|]. cbn [lstrip_by]. destruct (control_or_space c) eqn:E; [|done]. exfalso.
    unfold exists_str in H. cbn [forall_str] in H. apply negb_false_iff, andb_true_iff in H as [H _].
    revert E H. unfold control_or_space, is_space, between. all_chars c; vm_compute; congruence. }
  apply filter_str_id, (forall_not_exists _ _ _) with (2 := H). intros c. all_chars c; vm_compute; congruence.
Qed.

(** ** Hosts *)

Lemma has_char_lower c s : (∀ d, bool_decide (lower_char d = c) = bool_decide (d = c)) → has_char c (lower s) = has_char c s.
Proof. intros H. unfold lower. induction s as [|d s IH]; [done|]. cbn [map_str]. by rewrite !has_char_cons, IH, H. Qed.

Definition LOOPBACK : list string := ["localhost"; "127.0.0.1"; "testserver"].

Lemma loopback_chars h : h ∈ LOOPBACK → has_char "%" h = false ∧ has_char ":" h = false ∧ starts_with "v" h = false.
Proof. intros H. repeat (apply elem_of_cons in H as [->|H]; [by vm_compute|]). by apply not_elem_of_nil in H. Qed.

Lemma loopback_host u h : hostname u = Some h → h ∈ LOOPBACK →
  let raw := (hostinfo (netloc u)).1 in lower raw = h ∧ has_char ":" raw = false ∧ starts_with "v" raw = false.
Proof.
  unfold hostname. cbn zeta. generalize (hostinfo (netloc u)).1. intros raw. destruct (truthy raw); [|done].
  intros E Hin. apply loopback_chars in Hin as (Hp & Hc & Hv). destruct (partition_char "%" raw) as [[a zone]|].
  { injection E as <-. by rewrite has_char_app, has_char_app, orb_true_r in Hp. }
  assert (lower raw = h) as El by congruence. split; [done|]. rewrite <-El in Hc, Hv. rewrite has_char_lower in Hc by (intros d; all_chars d; done).
  split; [done|]. destruct raw as [|c raw]; [done|]. cbn [starts_with]. destruct (bool_decide_reflect ("v"%char = c)) as [<-|]; [|done]. by vm_compute in Hv.
Qed.

(** ** What an allowed origin is *)

Section Allowed.
Variable bracketed_netloc_ok : string → bool.
Variable cors : list string.

(** An accepted bracketed host is an IPv6 address or an IPvFuture literal. *)
Hypothesis bracketed_is_ip : ∀ n, bracketed_netloc_ok n = true →
  starts_with "v" (hostinfo n).1 = true ∨ has_char ":" (hostinfo n).1 = true.

(** [scheme "://" host ":" port] and nothing else. *)
Record loopback_form (origin s h p : string) : Prop := {
  lf_shape : origin = s +:+ "://" +:+ h +:+ ":" +:+ p;
  lf_host : lower s = "http" ∧ lower h ∈ LOOPBACK ∨ lower s = "https" ∧ lower h = "testserver";
  lf_port : truthy p = true ∧ forall_str is_digit p = true ∧ int_of_digits p ≤ 65535 }.

Lemma split_scheme_Some url sch rest : split_scheme url = (sch, rest) → sch ≠ "" → ∃ s, url = s +:+ ":" +:+ rest ∧ lower s = sch.
Proof.
  unfold split_scheme. destruct (partition_char ":" url) as [[[|c a] r]|] eqn:E; [by intros [= <- _]| |by intros [= <- _]].
  apply partition_char_Some in E. destruct (_ && _); [|by intros [= <- _]]. intros [= <- <-] _. by exists (String c a).
Qed.

Lemma urlsplit_plain url u : urlsplit bracketed_netloc_ok url = Ok u →
  filter_str (λ c, negb (tab_or_newline c)) (lstrip_by control_or_space url) = url →
  has_char "#" url = false → has_char "?" url = false → scheme u ≠ "" → netloc u ≠ "" →
  ∃ s, url = s +:+ "://" +:+ netloc u +:+ path u ∧ lower s = scheme u ∧
    (has_char "[" (netloc u) = true → bracketed_netloc_ok (netloc u) = true).
Proof.
  intros E Hid Hf Hq Hs Hn. unfold urlsplit in E. rewrite Hid in E. destruct (split_scheme url) as [sch rest] eqn:Esch.
  destruct (starts_with "//" rest) eqn:Est.
  - apply starts_with_spec in Est as [r ->]. change (drop_str 2 ("//" +:+ r)) with r in E.
    destruct (until netloc_end r) as [n p] eqn:Eu. pose proof (until_app netloc_end r) as Hr. rewrite Eu in Hr. cbn [fst snd] in Hr. subst r.
    destruct (negb (Bool.eqb (has_char "[" n) (has_char "]" n))); [done|].
    destruct (has_char "[" n && negb (bracketed_netloc_ok n)) eqn:Eb; [done|].
    assert (has_char "#" p = false ∧ has_char "?" p = false) as [Hfp Hqp].
    { assert (sch = scheme u) as -> by (destruct (cut_at "#" p) as [? ?], (cut_at "?" _) as [? ?]; by injection E as <-).
      destruct (split_scheme_Some _ _ _ Esch Hs) as (s & -> & _). rewrite !has_char_app in Hf, Hq.
      rewrite !orb_false_iff in Hf, Hq. naive_solver. }
    rewrite !cut_at_absent in E by done. injection E as <-. cbn [scheme netloc path] in *.
    destruct (split_scheme_Some _ _ _ Esch Hs) as (s & -> & Hl). exists s. split; [done|]. split; [done|].
    intros Hb. rewrite Hb in Eb. cbn in Eb. by apply negb_false_iff in Eb.
  - cbn in E. destruct (cut_at "#" rest) as [? ?], (cut_at "?" _) as [? ?]. by injection E as <-.
Qed.

Lemma hostinfo_plain n h p : hostinfo n = (h, Some p) → has_char "@" n = false → has_char "[" n = false → n = h +:+ ":" +:+ p.
Proof.
  unfold hostinfo. intros E Ha Hb. rewrite after_last_None in E by done. cbn [default] in E.
  rewrite partition_char_None in E by done. unfold cut_at in E. destruct (partition_char ":" n) as [[a b]|] eqn:Ep; cbn in E.
  - apply partition_char_Some in Ep. destruct (truthy b); [|done]. by injection E as <- <-.
  - done.
Qed.

(** C20.  An origin is let in only if it is listed, or if it is nothing but a scheme,
    a local host and a port: no prefix, path or user information helps. *)
Theorem origin_allowed_sound origin : origin_allowed bracketed_netloc_ok cors origin = true →
  origin ∈ ALLOWED_ORIGINS ∨ origin ∈ cors ∨ ∃ s h p, loopback_form origin s h p.
Proof.
  unfold origin_allowed. destruct (exists_str _ origin) eqn:Evis; [done|]. apply visible_unchanged in Evis.
  destruct (urlsplit bracketed_netloc_ok origin) as [u|] eqn:Eu; [|done].
  destruct (_ || has_char "092" origin) eqn:Ec; [done|]. rewrite !orb_false_iff in Ec. destruct Ec as ((((((Hui & Hp) & _) & _) & Hq) & Hf) & _).
  destruct (port u) as [p|] eqn:Eport; [|done]. destruct (ends_with_colon _); [done|].
  destruct (bool_decide_reflect (origin ∈ ALLOWED_ORIGINS)); [by left|]. destruct (bool_decide_reflect (origin ∈ cors)); [by right; left|].
  cbn [orb]. destruct p as [z|]; [|done]. destruct (hostname u) as [h|] eqn:Eh; [|done]. intros Hallow. right. right.
  assert (h ∈ LOOPBACK ∧ (scheme u = "http" ∧ h ∈ LOOPBACK ∨ scheme u = "https" ∧ h = "testserver")) as [Hin Hcase].
  { apply orb_true_iff in Hallow as [[?%bool_decide_eq_true Hh%bool_decide_eq_true]%andb_true_iff|[?%bool_decide_eq_true Hh%bool_decide_eq_true]%andb_true_iff].
    - split; [done|by left].
    - split; [subst h; unfold LOOPBACK; set_solver|by right]. }
  assert (netloc u ≠ "") as Hn by (intros Hn; unfold hostname in Eh; by rewrite Hn in Eh).
  assert (scheme u ≠ "") as Hs by (destruct Hcase as [[-> _]|[-> _]]; done).
  destruct (urlsplit_plain origin u Eu Evis Hf Hq Hs Hn) as (s & Ho & Hls & Hb).
  destruct (loopback_host u h Eh Hin) as (Hl & Hcolon & Hv). cbn zeta in *.
  unfold port in Eport. destruct (hostinfo (netloc u)) as [raw [digits|]] eqn:Ei; [|done]. cbn [fst snd] in *.
  destruct (has_char "[" (netloc u)) eqn:Ebr.
  { specialize (Hb eq_refl). apply bracketed_is_ip in Hb. rewrite Ei in Hb. cbn [fst] in Hb. rewrite Hcolon, Hv in Hb. by destruct Hb. }
  assert (truthy (path u) = false → path u = "") as Hpath by (unfold truthy; by intros ?%negb_false_iff%bool_decide_eq_true).
  rewrite (Hpath Hp), app_nil_r_str in Ho.
  assert (truthy digits = true) as Htr.
  { unfold hostinfo in Ei. destruct (match partition_char "[" _ with Some _ => _ | None => _ end) as [? pt]. destruct (truthy pt) eqn:Ept; [|done].
    by injection Ei as _ <-. }
  rewrite (hostinfo_plain _ _ _ Ei Hui Ebr) in Ho. exists s, raw, digits.
  destruct (forall_str is_digit digits) eqn:Ed; [|done]. destruct (4300 <? _)%nat; [done|].
  destruct (Z.leb_spec (int_of_digits digits) 65535); [|done]. split; [exact Ho| |by split_and!].
  rewrite Hl, Hls. exact Hcase.
Qed.
End Allowed.

(** ** Concrete origins *)

Definition no_brackets (n : string) : bool := false.

Lemma origin_allowed_sound_witness : ∃ s h p, loopback_form "http://LocalHost:3000" s h p.
Proof.
  destruct (origin_allowed_sound no_brackets [] (λ n H, match Bool.diff_false_true H with end) "http://LocalHost:3000" ltac:(vm_compute; reflexivity))
    as [H|[H|H]]; [|by apply not_elem_of_nil in H|exact H].
  exfalso. revert H. apply (bool_decide_unpack _). vm_compute. exact I.
Defined.

Example refused_origins : map (origin_allowed no_brackets ["https://app.example"])
  ["http://localhost.evil.example"; "http://localhost:80@evil.example"; "http://localhost:80/"; "http://localhost:80#"; "http://localhost:";
   "https://localhost:80"; "http://localhost:99999"; "http://localhost :80"; "null"; ""; "http:localhost:80"; "http://[localhost]:80"] = repeat false 12.
Proof. vm_compute. reflexivity. Qed.

Example accepted_origins : map (origin_allowed no_brackets ["https://app.example"])
  ["http://localhost"; "http://127.0.0.1:8765"; "HTTPS://TestServer:443"; "tauri://localhost"; "https://app.example"; "http://localhost:0"] = repeat true 6.
Proof. vm_compute. reflexivity. Qed.
