(* ===== verification/OverlayGates.v ===== *)
(** * The request gates of the overlay server

    The middleware around the routes of [overlay/server.py]: [body_limit.py],
    [request_gates.py], [request_guards.py], [response_headers.py], and the
    gates they call.  A middleware added later is outside of those added
    before, so a request meets the body limit, the rate limit, the key check,
    the governor, the headers, the request identifier and the origin gate in
    this order, and then the route, an argument here.  Header names are in
    lower case, as ASGI gives them.  The server has no WebSocket route, so
    every request is of type [http]; clocks and random identifiers are
    arguments. *)

From S2P Require Import Prelude PyStr PyFloat PyDict Json JsonRead Sha256 RateLimit Origin.

Inductive message := Disconnect | Part (body : bytes) (more_body : bool).

Record request := {
  rq_path : string; rq_headers : list (string * string); rq_client : option string; rq_messages : list message }.

Definition header (name : string) (rq : request) : option string := assoc name (rq_headers rq).

Record response := { status : Z; detail : string; rs_headers : list (string * string) }.
Definition reject (code : Z) (msg : string) : response := {| status := code; detail := msg; rs_headers := [] |}.

(** [headers[name] = value]: one header of that name. *)
Fixpoint set_header (name value : string) (hs : list (string * string)) : list (string * string) :=
  match hs with
  | [] => [(name, value)]
  | (k, v) :: hs' =>
      if bool_decide (k = name) then (name, value) :: filter (λ h, h.1 ≠ name) hs' else (k, v) :: set_header name value hs'
  end.
Definition with_header (name value : string) (r : response) : response :=
  {| status := status r; detail := detail r; rs_headers := set_header name value (rs_headers r) |}.

Record config := {
  API_KEYS : string; REQUIRE_AUTH : bool; TRUST_PROXY : bool; MAX_UPLOAD_BYTES : Z; REQUEST_ID_MAX_LEN : Z;
  CORS_ORIGINS : list string; rate_limits : limits; bracketed_netloc_ok : string → bool }.

(** [OPS_METRICS], as far as the middleware writes it. *)
Record metrics := {
  requests_total : Z; errors_total : Z; auth_rejections_total : Z; status_counts : list (string * Z);
  latency_ms_total : f64; latency_ms_max : f64; latency_samples : list f64 }.

Definition start_metrics : metrics :=
  {| requests_total := 0; errors_total := 0; auth_rejections_total := 0; status_counts := [];
     latency_ms_total := f0; latency_ms_max := f0; latency_samples := [] |}.

(** ** The body limit *)

Definition content_lengths (rq : request) : list string :=
  (filter (λ h, lower h.1 = "content-length") (rq_headers rq)).*2.

Definition zero_char (c : ascii) : bool := bool_decide (c = "0"%char).
Definition normalized (v : string) : string := or_str (lstrip_by zero_char v) "0".

(** Decimal numerals compared as byte strings. *)
Definition longer_or_greater (v ceiling : string) : bool :=
  (String.length ceiling <? String.length v)%nat ||
  ((String.length v =? String.length ceiling)%nat && bool_decide (String.compare v ceiling = Gt)).
Definition too_large (v : string) (limit : Z) : bool := longer_or_greater (normalized v) (pretty limit).

Inductive gated (A : Type) := Go (a : A) | Stop (r : response) | Gone.
Arguments Go {A} a.
Arguments Stop {A} r.
Arguments Gone {A}.

(** [receive()] until the last part. *)
Fixpoint buffer (limit : Z) (body : bytes) (ms : list message) : gated bytes :=
  match ms with
  | [] | Disconnect :: _ => Gone
  | Part chunk more :: ms' =>
      if limit <? len body + len chunk then Stop (reject 413 "Payload too large")
      else if more then buffer limit (body +:+ chunk) ms' else Go (body +:+ chunk)
  end.

Definition body_limit (limit : Z) (rq : request) : gated bytes :=
  match content_lengths rq with
  | [] => buffer limit "" (rq_messages rq)
  | [v] =>
      if negb (digits1 v) then Stop (reject 400 "Invalid Content-Length")
      else if too_large v limit then Stop (reject 413 "Payload too large")
      else buffer limit "" (rq_messages rq)
  | _ => Stop (reject 400 "Invalid Content-Length")
  end.

(** ** Keys *)

Definition AUTH_EXEMPT_PATHS : list string :=
  ["/"; "/healthz"; "/api/health"; "/livez"; "/readyz"; "/metrics"; "/dashboard"; "/docs"; "/openapi.json"; "/redoc"].
Definition is_auth_exempt (path : string) : bool := bool_decide (path ∈ AUTH_EXEMPT_PATHS).

Definition digest_of (k : string) : string := sha256_hex (utf8 k).
Definition tenant_of (k : string) : string := take_str 12 (digest_of k).
Definition load_api_key_digests (raw : string) : list (string * string) :=
  fold_left (λ d k, let k := strip k in if 16 <=? len k then dict_set (digest_of k) (tenant_of k) d else d) (split_char "," raw) [].

Definition presented_key (rq : request) : option string :=
  let bearer :=
    auth ← header "authorization" rq;
    '(scheme, token) ← partition_char " " auth;
    if bool_decide (lower scheme = "bearer") && truthy (strip token) then Some (strip token) else None in
  match bearer with
  | Some k => Some k
  | None => xk ← header "x-api-key" rq; if truthy (strip xk) then Some (strip xk) else None
  end.

Definition authenticate (digests : list (string * string)) (rq : request) : option string :=
  key ← presented_key rq;
  fold_left (λ m p, if bool_decide (digest_of key = p.1) then Some p.2 else m) digests None.

Definition count_rejection (m : metrics) : metrics :=
  {| requests_total := requests_total m; errors_total := errors_total m; auth_rejections_total := auth_rejections_total m + 1;
     status_counts := status_counts m; latency_ms_total := latency_ms_total m; latency_ms_max := latency_ms_max m;
     latency_samples := latency_samples m |}.

Section Gates.
Variable cfg : config.

Definition digests : list (string * string) := load_api_key_digests (API_KEYS cfg).
Definition auth_enabled : bool := match digests with [] => REQUIRE_AUTH cfg | _ => true end.

(** The tenant of the request, or the response that stops it. *)
Definition api_key_auth_response (rq : request) (m : metrics) : (response + option string) * metrics :=
  if negb auth_enabled || is_auth_exempt (rq_path rq) then (inr None, m)
  else match digests with
  | [] => (inl (reject 503 "Service misconfigured: AXIOM_REQUIRE_AUTH set but no AXIOM_API_KEYS"), count_rejection m)
  | _ =>
      match authenticate digests rq with
      | None => (inl (with_header "www-authenticate" ("Bearer realm=" +:+ dq "axiom-grid") (reject 401 "Unauthorized: missing or invalid API key")),
                 count_rejection m)
      | Some tenant => (inr (Some tenant), m)
      end
  end.

(** ** The rate limit *)

Definition RATE_LIMIT_EXEMPT_PATHS : list string := ["/healthz"; "/api/health"; "/livez"; "/readyz"; "/metrics"].

Definition forwarded_client (rq : request) : option string :=
  fwd ← header "x-forwarded-for" rq;
  if truthy fwd then
    let first := strip (from_option fst fwd (partition_char "," fwd)) in
    if truthy first && (len first <=? 64) then Some first else None
  else None.

Definition client_key (rq : request) : string :=
  match (match digests with [] => None | _ => authenticate digests rq end) with
  | Some tenant => "tenant:" +:+ tenant
  | None =>
      match (if TRUST_PROXY cfg then forwarded_client rq else None) with
      | Some first => first
      | None => default "unknown" (rq_client rq)
      end
  end.

Definition rate_gate (rq : request) (now : f64) (b : buckets) : result (option response) * buckets :=
  let exempt := bool_decide (rq_path rq ∈ RATE_LIMIT_EXEMPT_PATHS) in
  let '(r, b) := rate_limit_response (rate_limits cfg) exempt (client_key rq) now b in
  (match r with
   | Ok None => Ok None
   | Ok (Some n) => Ok (Some (with_header "retry-after" (pretty n) (reject 429 "Too many requests")))
   | Raise e => Raise e
   end, b).

(** ** The governor *)

(** A response when the declared length does not pass. *)
Definition length_gate (rq : request) : option response :=
  match header "content-length" rq with
  | None => None
  | Some v =>
      if negb (digits1 v) || (4300 <? String.length v)%nat then Some (reject 400 "Invalid Content-Length")
      else if MAX_UPLOAD_BYTES cfg <? int_of_digits v then Some (reject 413 "Payload too large")
      else None
  end.
End Gates.

(** [deque(maxlen=10000)] *)
Definition SAMPLES : nat := Z.to_nat 10000.
Definition push_sample (x : f64) (l : list f64) : list f64 := drop (length l + 1 - SAMPLES) (l ++ [x]).

(** [rounded]: [round(dt_ms, 2)]. *)
Definition record_completion (code : Z) (dt_ms rounded : f64) (m : metrics) : metrics :=
  {| requests_total := requests_total m + 1;
     errors_total := if 500 <=? code then errors_total m + 1 else errors_total m;
     auth_rejections_total := auth_rejections_total m;
     status_counts := dict_set (pretty code) (default 0 (assoc (pretty code) (status_counts m)) + 1) (status_counts m);
     latency_ms_total := (latency_ms_total m + dt_ms)%f64; latency_ms_max := fmax (latency_ms_max m) rounded;
     latency_samples := push_sample dt_ms (latency_samples m) |}.

(** ** Headers, identifiers, origins *)

Definition CSP : string :=
  "default-src 'self'; script-src 'self' 'unsafe-inline'; style-src 'self' 'unsafe-inline'; img-src 'self' data:; " +:+
  "connect-src 'self'; frame-ancestors 'none'; base-uri 'self'".
Definition is_page (path : string) : bool :=
  bool_decide (path = "/") || bool_decide (drop_str (String.length path - 5) path = ".html").

Definition security_headers (path : string) (r : response) : response :=
  let r := with_header "x-content-type-options" "nosniff" r in
  let r := with_header "x-frame-options" "DENY" r in
  let r := with_header "referrer-policy" "no-referrer" r in
  let r := with_header "permissions-policy" "camera=(), microphone=(), geolocation=()" r in
  if is_page path then with_header "content-security-policy" CSP r else r.

Definition id_char (c : ascii) : bool := ascii_letter c || is_digit c || bool_decide (c ∈ ["-"; "_"; "."]%char).

(** [fresh], [fresh']: the hex digits of two random identifiers. *)
Definition request_id (cfg : config) (rq : request) (fresh fresh' : string) : string :=
  let rid := strip (default "" (header "x-request-id" rq)) in
  let rid := if negb (truthy rid) || (REQUEST_ID_MAX_LEN cfg <? len rid) then fresh else rid in
  or_str (filter_str id_char rid) fresh'.

Definition origin_gate (cfg : config) (rq : request) : option response :=
  match header "origin" rq with
  | Some o => if origin_allowed (bracketed_netloc_ok cfg) (CORS_ORIGINS cfg) o then None else Some (reject 403 "Forbidden: invalid origin")
  | None => None
  end.

(** ** The stack *)

(** What a route sees of a request. *)
Record seen := { sn_path : string; sn_body : bytes; sn_tenant : option string; sn_request_id : string }.

(** The readings and identifiers of one request. *)
Record inputs := { in_now : f64; in_dt_ms : f64; in_dt_rounded : f64; in_fresh : string; in_fresh' : string }.

Record world := { w_buckets : buckets; w_metrics : metrics }.

Inductive outcome := Served (s : seen) (r : response) | Rejected (r : response) | Crashed (e : exn) | Closed.

Section Stack.
Variable cfg : config.
Variable route : seen → response.

(** Inside of the governor. *)
Definition routed (rq : request) (body : bytes) (tenant : option string) (i : inputs) : outcome * Z :=
  let rid := request_id cfg rq (in_fresh i) (in_fresh' i) in
  let dress r := security_headers (rq_path rq) (with_header "x-request-id" rid r) in
  match origin_gate cfg rq with
  | Some r => (Rejected (dress r), status r)
  | None =>
      let s := {| sn_path := rq_path rq; sn_body := body; sn_tenant := tenant; sn_request_id := rid |} in
      (Served s (dress (route s)), status (route s))
  end.

Definition governed (rq : request) (body : bytes) (tenant : option string) (i : inputs) (m : metrics) : outcome * metrics :=
  match length_gate cfg rq with
  | Some r => (Rejected r, m)
  | None => let '(out, code) := routed rq body tenant i in (out, record_completion code (in_dt_ms i) (in_dt_rounded i) m)
  end.

Definition handle (rq : request) (i : inputs) (w : world) : outcome * world :=
  match body_limit (MAX_UPLOAD_BYTES cfg) rq with
  | Stop r => (Rejected r, w)
  | Gone => (Closed, w)
  | Go body =>
      let '(limited, b) := rate_gate cfg rq (in_now i) (w_buckets w) in
      match limited with
      | Raise e => (Crashed e, {| w_buckets := b; w_metrics := w_metrics w |})
      | Ok (Some r) => (Rejected r, {| w_buckets := b; w_metrics := w_metrics w |})
      | Ok None =>
          let '(auth, m) := api_key_auth_response cfg rq (w_metrics w) in
          match auth with
          | inl r => (Rejected r, {| w_buckets := b; w_metrics := m |})
          | inr tenant => let '(out, m) := governed rq body tenant i m in (out, {| w_buckets := b; w_metrics := m |})
          end
      end
  end.

Fixpoint handle_all (rqs : list (request * inputs)) (w : world) : list outcome * world :=
  match rqs with
  | [] => ([], w)
  | (rq, i) :: rqs' => let '(o, w) := handle rq i w in let '(os, w) := handle_all rqs' w in (o :: os, w)
  end.
End Stack.

Definition start_world : world := {| w_buckets := []; w_metrics := start_metrics |}.

(** ** A body never exceeds the limit, whatever its parts and declared length *)

Lemma buffer_length limit ms : ∀ body b, buffer limit body ms = Go b → len b ≤ limit.
Proof.
  induction ms as [|[|chunk more] ms IH]; intros body b; [done..|]. cbn [buffer].
  destruct (Z.ltb_spec limit (len body + len chunk)) as [|Hl]; [done|]. destruct more; [apply IH|]. intros [= <-].
  unfold len in *. rewrite length_app_str. lia.
Qed.

Lemma body_limit_length limit rq b : body_limit limit rq = Go b → len b ≤ limit.
Proof.
  unfold body_limit. destruct (content_lengths rq) as [|v [|? ?]]; [apply buffer_length| |done].
  destruct (negb _); [done|]. destruct (too_large v limit); [done|]. apply buffer_length.
Qed.

(** ** Comparing numerals as strings compares the numbers *)

Definition digits_from (n : Z) (s : string) : Z := fold_left (λ n c, 10 * n + (Z.of_N (code c) - 48)) (chars s) n.

Lemma digits_from_app n s : forall_str is_digit s = true →
  digits_from n s = n * 10 ^ Z.of_nat (String.length s) + int_of_digits s ∧ 0 ≤ int_of_digits s < 10 ^ Z.of_nat (String.length s).
Proof.
  unfold int_of_digits, digits_from. revert n. induction s as [|c s IH]; intros n H; [cbn; lia|]. cbn [forall_str] in H.
  apply andb_true_iff in H as [Hc Hs]. cbn [chars fold_left String.length]. rewrite Nat2Z.inj_succ, Z.pow_succ_r by lia.
  unfold is_digit, between in Hc. apply andb_true_iff in Hc as [?%N.leb_le ?%N.leb_le].
  assert (0 ≤ Z.of_N (code c) - 48 ≤ 9) as Hd by lia.
  destruct (IH (10 * n + (Z.of_N (code c) - 48)) Hs) as [-> Hb]. destruct (IH (10 * 0 + (Z.of_N (code c) - 48)) Hs) as [-> _].
  set (p := 10 ^ _) in *. nia.
Qed.

Lemma int_of_digits_cons c s : forall_str is_digit (String c s) = true →
  int_of_digits (String c s) = (Z.of_N (code c) - 48) * 10 ^ Z.of_nat (String.length s) + int_of_digits s ∧
  0 ≤ Z.of_N (code c) - 48 ≤ 9 ∧ 0 ≤ int_of_digits s < 10 ^ Z.of_nat (String.length s).
Proof.
  intros H. cbn [forall_str] in H. apply andb_true_iff in H as [Hc Hs].
  destruct (digits_from_app (10 * 0 + (Z.of_N (code c) - 48)) s Hs) as [H1 H2].
  unfold is_digit, between in Hc. apply andb_true_iff in Hc as [?%N.leb_le ?%N.leb_le].
  split; [|split; [lia|done]]. unfold int_of_digits at 1. cbn [chars fold_left]. unfold digits_from in H1. rewrite H1. lia.
Qed.

Lemma compare_digits v : ∀ w, forall_str is_digit v = true → forall_str is_digit w = true → String.length v = String.length w →
  String.compare v w = Z.compare (int_of_digits v) (int_of_digits w).
Proof.
  induction v as [|c v IH]; intros [|d w] Hv Hw Hl; try done.
  destruct (int_of_digits_cons c v Hv) as (-> & Hc & Hbv). destruct (int_of_digits_cons d w Hw) as (-> & Hd & Hbw).
  cbn [forall_str] in Hv, Hw. apply andb_true_iff in Hv as [_ Hv], Hw as [_ Hw]. injection Hl as Hl.
  cbn [String.compare]. rewrite <-Hl in *. set (p := 10 ^ Z.of_nat (String.length v)) in *.
  change (Ascii.compare c d) with (N.compare (code c) (code d)).
  destruct (N.compare_spec (code c) (code d)) as [E|E|E].
  - rewrite E, (IH w) by done. symmetry. apply Z.add_compare_mono_l.
  - symmetry. apply Z.compare_lt_iff. nia.
  - symmetry. apply Z.compare_gt_iff. nia.
Qed.

Lemma leading_digit c s : forall_str is_digit (String c s) = true → c ≠ "0"%char → 10 ^ Z.of_nat (String.length s) ≤ int_of_digits (String c s).
Proof.
  intros H Hc. destruct (int_of_digits_cons c s H) as (-> & Hd & Hb). assert (Z.of_N (code c) ≠ 48).
  { intros E. apply Hc. assert (code c = 48)%N as Ec by lia. unfold code in Ec. by rewrite <-(ascii_N_embedding c), Ec. }
  nia.
Qed.

(** A numeral without leading zeros. *)
Definition no_zeros (s : string) : Prop := forall_str is_digit s = true ∧ (s = "0" ∨ ∃ c t, s = String c t ∧ c ≠ "0"%char).

Lemma shorter_is_less v w : no_zeros v → no_zeros w → (String.length v < String.length w)%nat → int_of_digits v < int_of_digits w.
Proof.
  intros [Hv Hv'] [Hw [->|(c & t & -> & Hc)]] Hl.
  - destruct Hv' as [->|(? & ? & -> & _)]; cbn in Hl; lia.
  - pose proof (leading_digit c t Hw Hc). destruct (digits_from_app 0 v Hv) as [_ Hb]. cbn [String.length] in Hl.
    assert (10 ^ Z.of_nat (String.length v) ≤ 10 ^ Z.of_nat (String.length t)) by (apply Z.pow_le_mono_r; lia). lia.
Qed.

Lemma longer_or_greater_spec v w : no_zeros v → no_zeros w → longer_or_greater v w = (int_of_digits w <? int_of_digits v).
Proof.
  intros Hv Hw. unfold longer_or_greater. destruct (Nat.ltb_spec (String.length w) (String.length v)) as [Hl|Hl].
  - pose proof (shorter_is_less w v Hw Hv Hl). symmetry. by apply Z.ltb_lt.
  - destruct (Nat.eqb_spec (String.length v) (String.length w)) as [He|He]; cbn [orb andb].
    + destruct Hv as [Hv _], Hw as [Hw _]. rewrite (compare_digits v w Hv Hw He), Z.ltb_compare.
      rewrite (Z.compare_antisym (int_of_digits v) (int_of_digits w)). by destruct (int_of_digits v ?= int_of_digits w).
    + pose proof (shorter_is_less v w Hv Hw ltac:(lia)). symmetry. apply Z.ltb_ge. lia.
Qed.

Lemma normalized_spec v : digits1 v = true → no_zeros (normalized v) ∧ int_of_digits (normalized v) = int_of_digits v.
Proof.
  unfold digits1. intros [Ht Hd]%andb_true_iff. clear Ht. unfold normalized. induction v as [|c v IH]; [by split; [split; [|left]|]|].
  cbn [lstrip_by]. destruct (zero_char c) eqn:Hc; unfold zero_char in Hc; [apply bool_decide_eq_true in Hc as ->|apply bool_decide_eq_false in Hc].
  - cbn [forall_str] in Hd. apply andb_true_iff in Hd as [_ Hd]. destruct (IH Hd) as [H1 H2]. split; [exact H1|].
    transitivity (int_of_digits v); [exact H2|reflexivity].
  - unfold or_str. rewrite bool_decide_false by done. split; [|done]. split; [done|]. right. by exists c, v.
Qed.

Lemma pretty_no_zeros n : 0 ≤ n → no_zeros (pretty n) ∧ int_of_digits (pretty n) = n.
Proof.
  intros Hn. assert (pretty n = pretty (Z.to_N n)) as -> by (by destruct n).
  destruct (pretty_natural (Z.to_N n)) as (H1 & H2 & _). split; [|lia]. unfold natural in H1.
  destruct (pretty (Z.to_N n)) as [|c [|d t]] eqn:E; [done| |].
  - split; [cbn; by rewrite H1|]. destruct (decide (c = "0"%char)) as [->|]; [by left|]. right. by exists c, "".
  - apply andb_true_iff in H1 as [[Hc Hz]%andb_true_iff Ht]. split; [cbn [forall_str] in *; by rewrite Hc, Ht|].
    right. exists c, (String d t). split; [done|]. by apply negb_true_iff, bool_decide_eq_false in Hz.
Qed.

(** C32.  The comparison of the declared length with the limit, made on the
    digits without converting them, is the comparison of the numbers. *)
Theorem declared_length_exact v limit : digits1 v = true → 0 ≤ limit → too_large v limit = (limit <? int_of_digits v).
Proof.
  intros Hv Hl. unfold too_large. destruct (normalized_spec v Hv) as [H1 <-]. destruct (pretty_no_zeros limit Hl) as [H2 Hp].
  rewrite <-Hp at 2. by apply longer_or_greater_spec.
Qed.

(** ** Keys *)

#[local] Opaque sha256_hex.

(** A key of the configuration, long enough to be kept. *)
Definition configured (cfg : config) (k : string) : Prop := (∃ part, part ∈ split_char "," (API_KEYS cfg) ∧ k = strip part) ∧ 16 ≤ len k.

Definition key_entry (k : string) : string * string := (digest_of k, tenant_of k).

Lemma load_step_entry (P : string → Prop) l : (∀ part, part ∈ l → 16 ≤ len (strip part) → P (strip part)) → ∀ d,
  (∀ p, p ∈ d → ∃ k, P k ∧ p = key_entry k) → ∀ p,
  p ∈ fold_left (λ d k, let k := strip k in if 16 <=? len k then dict_set (digest_of k) (tenant_of k) d else d) l d →
  ∃ k, P k ∧ p = key_entry k.
Proof.
  induction l as [|part l IH]; intros Hl d Hd p; [by apply Hd|]. cbn [fold_left]. apply IH; [intros; apply Hl; [by right|done]|].
  intros q. cbn zeta. destruct (Z.leb_spec 16 (len (strip part))); [|by apply Hd].
  intros [->|Hq]%elem_dict_set; [|by apply Hd]. exists (strip part). split; [|done]. apply Hl; [left|done].
Qed.

Lemma digests_configured cfg p : p ∈ digests cfg → ∃ k, configured cfg k ∧ p = key_entry k.
Proof.
  unfold digests, load_api_key_digests. apply (load_step_entry (configured cfg)).
  - intros part Hin Hl. split; [by exists part|done].
  - by intros q ?%not_elem_of_nil.
Qed.

Lemma load_step_keeps l d k : has_key (digest_of k) d = true →
  has_key (digest_of k) (fold_left (λ d k, let k := strip k in if 16 <=? len k then dict_set (digest_of k) (tenant_of k) d else d) l d) = true.
Proof.
  revert d. induction l as [|part l IH]; intros d Hd; [done|]. cbn [fold_left]. apply IH. cbn zeta. destruct (16 <=? _); [|done].
  unfold has_key in *. destruct (decide (digest_of k = digest_of (strip part))) as [->|Hne]; [by rewrite assoc_set_eq|by rewrite assoc_set_ne].
Qed.

Lemma configured_has_digest cfg k : configured cfg k → has_key (digest_of k) (digests cfg) = true.
Proof.
  intros [(part & Hin & ->) Hl]. unfold digests, load_api_key_digests. generalize (@nil (string * string)). revert Hin.
  induction (split_char "," (API_KEYS cfg)) as [|x l IH]; [by intros ?%not_elem_of_nil|]. intros [->|Hin]%elem_of_cons d; [|by apply IH].
  cbn [fold_left]. apply load_step_keeps. cbn zeta. destruct (Z.leb_spec 16 (len (strip x))); [|lia].
  unfold has_key. by rewrite assoc_set_eq.
Qed.

Lemma authenticate_fold (key : string) (d : list (string * string)) m t :
  fold_left (λ m p, if bool_decide (digest_of key = p.1) then Some p.2 else m) d m = Some t →
  (∃ p, p ∈ d ∧ digest_of key = p.1 ∧ t = p.2) ∨ m = Some t.
Proof.
  revert m. induction d as [|p d IH]; intros m; [by right|]. cbn [fold_left]. intros [(q & Hq & E)|H]%IH.
  - left. exists q. split; [by right|done].
  - revert H. case_bool_decide; [|by right]. intros [= <-]. left. exists p. split; [left|done].
Qed.

Lemma same_digest p k : digest_of p = digest_of k → p = k ∨ collision (utf8 p, utf8 k).
Proof. intros H. unfold digest_of in H. apply sha256_hex_eq in H as [?%(inj _)|?]; [by left|by right]. Qed.

(** The key of an authenticated request is a configured key, up to a collision. *)
Lemma authenticate_sound cfg rq t : authenticate (digests cfg) rq = Some t →
  ∃ p k, presented_key rq = Some p ∧ configured cfg k ∧ t = tenant_of k ∧ (p = k ∨ collision (utf8 p, utf8 k)).
Proof.
  unfold authenticate. destruct (presented_key rq) as [p|]; [|done]. cbn [mbind option_bind]. intros [(q & Hq & E & ->)|]%authenticate_fold; [|done].
  apply digests_configured in Hq as (k & Hk & ->). exists p, k. split_and!; [done..|]. by apply same_digest.
Qed.

Lemma digests_entry cfg k t : assoc (digest_of k) (digests cfg) = Some t → t = tenant_of k.
Proof.
  intros (k' & _ & E)%assoc_Some_elem%digests_configured. pose proof (f_equal fst E) as E1. pose proof (f_equal snd E) as E2.
  cbn [fst snd key_entry] in E1, E2. rewrite E2. unfold tenant_of. by rewrite E1.
Qed.

Lemma authenticate_complete cfg rq k : configured cfg k → presented_key rq = Some k → authenticate (digests cfg) rq = Some (tenant_of k).
Proof.
  intros Hk Hp. unfold authenticate. rewrite Hp. cbn [mbind option_bind].
  assert (∀ d m, (∀ p, p ∈ d → ∃ k', p = key_entry k') → (has_key (digest_of k) d = true ∨ m = Some (tenant_of k)) →
    fold_left (λ m p, if bool_decide (digest_of k = p.1) then Some p.2 else m) d m = Some (tenant_of k)) as H.
  { induction d as [|p d IH]; intros m Hd Hm; [by destruct Hm|]. cbn [fold_left]. apply IH; [intros; apply Hd; by right|].
    destruct (Hd p ltac:(left)) as (k' & ->). cbn [fst snd key_entry]. case_bool_decide as E.
    - right. unfold tenant_of. by rewrite E.
    - destruct Hm as [Hm|Hm]; [left|by right]. unfold has_key in *. cbn [assoc key_entry] in Hm. by rewrite bool_decide_false in Hm. }
  apply H; [|by left; apply configured_has_digest]. intros p (k' & _ & ->)%digests_configured. by exists k'.
Qed.

(** ** What reaches a route *)

Lemma forall_filter_str p s : forall_str p (filter_str p s) = true.
Proof. induction s as [|c s IH]; [done|]. cbn [filter_str]. destruct (p c) eqn:E; [|done]. cbn [forall_str]. by rewrite E. Qed.

Lemma length_filter_str p s : (String.length (filter_str p s) ≤ String.length s)%nat.
Proof. induction s as [|c s IH]; [done|]. cbn [filter_str]. destruct (p c); cbn [String.length]; lia. Qed.

(** Safe in a header and in a log line. *)
Definition safe_id (rid : string) : Prop := rid ≠ "" ∧ forall_str id_char rid = true.

Lemma request_id_safe cfg rq fresh fresh' : safe_id fresh' → safe_id (request_id cfg rq fresh fresh').
Proof.
  intros Hf. unfold request_id, or_str. match goal with |- context [filter_str id_char ?x] => set (rid := x) end.
  case_bool_decide; [done|]. split; [done|apply forall_filter_str].
Qed.

Lemma request_id_length cfg rq fresh fresh' :
  len (request_id cfg rq fresh fresh') ≤ Z.max (REQUEST_ID_MAX_LEN cfg) (Z.max (len fresh) (len fresh')).
Proof.
  unfold request_id, or_str. set (rid := strip _). case_bool_decide; [lia|].
  destruct (negb (truthy rid) || (REQUEST_ID_MAX_LEN cfg <? len rid)) eqn:E.
  - pose proof (length_filter_str id_char fresh). unfold len in *. lia.
  - apply orb_false_iff in E as [_ E%Z.ltb_ge]. pose proof (length_filter_str id_char rid). unfold len in *. lia.
Qed.

(** The rate limit lets a request through, from buckets to buckets: its path is
    exempt or the limit is off, or its client's bucket (after the sweep of the
    stale ones, and the eviction that makes room for a new one) has fewer
    admissions in the window than the client's limit, and this admission is
    added to it. *)
Definition within_rate (cfg : config) (rq : request) (now : f64) (b b' : buckets) : Prop :=
  let lim := rate_limits cfg in let key := client_key cfg rq in
  (rq_path rq ∈ RATE_LIMIT_EXEMPT_PATHS ∨ RATE_LIMIT_PER_MIN lim ≤ 0) ∧ b' = b ∨
  ∃ kept v, evict lim key (sweep lim (cutoff_of now) b) = Ok kept ∧ v = pop_expired (cutoff_of now) (bucket_of key kept) ∧
    Z.of_nat (length v) < limit_of lim key ∧ b' = dict_set key (v ++ [now]) kept.

Lemma rate_gate_within cfg rq now b b' : rate_gate cfg rq now b = (Ok None, b') → within_rate cfg rq now b b'.
Proof.
  unfold rate_gate, rate_limit_response, within_rate.
  destruct (bool_decide_reflect (rq_path rq ∈ RATE_LIMIT_EXEMPT_PATHS)) as [|Hx]; cbn [orb]; [intros [= <-]; left; split; [by left|done]|].
  destruct (Z.leb_spec (RATE_LIMIT_PER_MIN (rate_limits cfg)) 0); [intros [= <-]; left; split; [by right|done]|].
  destruct (evict _ _ _) as [kept|]; [|done]. destruct (Z.leb_spec (limit_of (rate_limits cfg) (client_key cfg rq))
    (Z.of_nat (length (pop_expired (cutoff_of now) (bucket_of (client_key cfg rq) kept))))) as [|Hl].
  - destruct (pop_expired _ _) as [|t v]; [done|]. by destruct (py_int _).
  - intros [= <-]. right. by eexists kept, _.
Qed.

Lemma length_gate_passes cfg rq : length_gate cfg rq = None → ∀ v, header "content-length" rq = Some v →
  digits1 v = true ∧ int_of_digits v ≤ MAX_UPLOAD_BYTES cfg.
Proof.
  unfold length_gate. intros H v Hv. rewrite Hv in H. destruct (digits1 v); [|done]. cbn [negb orb] in H.
  destruct (4300 <? _)%nat; [done|]. destruct (Z.ltb_spec (MAX_UPLOAD_BYTES cfg) (int_of_digits v)); [done|]. by split.
Qed.

Lemma body_limit_single limit rq b : body_limit limit rq = Go b → (length (content_lengths rq) ≤ 1)%nat.
Proof. unfold body_limit. destruct (content_lengths rq) as [|v [|? ?]]; cbn; [lia|lia|done]. Qed.

(** A request that is past every gate, what its route sees, and what the gates
    leave in the server. *)
Record passed (cfg : config) (rq : request) (i : inputs) (w w' : world) (s : seen) : Prop := {
  pa_rate : within_rate cfg rq (in_now i) (w_buckets w) (w_buckets w');
  pa_one_length : (length (content_lengths rq) ≤ 1)%nat;
  pa_length : ∀ v, header "content-length" rq = Some v → digits1 v = true ∧ int_of_digits v ≤ MAX_UPLOAD_BYTES cfg;
  pa_path : sn_path s = rq_path rq;
  pa_body : len (sn_body s) ≤ MAX_UPLOAD_BYTES cfg;
  pa_key : auth_enabled cfg = true → is_auth_exempt (rq_path rq) = false →
    ∃ p k, presented_key rq = Some p ∧ configured cfg k ∧ sn_tenant s = Some (tenant_of k) ∧ (p = k ∨ collision (utf8 p, utf8 k));
  pa_origin : ∀ o, header "origin" rq = Some o → origin_allowed (bracketed_netloc_ok cfg) (CORS_ORIGINS cfg) o = true;
  pa_id : safe_id (in_fresh' i) → safe_id (sn_request_id s);
  pa_id_length : len (sn_request_id s) ≤ Z.max (REQUEST_ID_MAX_LEN cfg) (Z.max (len (in_fresh i)) (len (in_fresh' i))) }.

(** C14.  A route runs only for a request that passed every gate: the rate limit
    let it through (its path is exempt, the limit is off, or its client's
    bucket had fewer admissions in the window than its limit, and now has this
    one); at most one length is declared, and one that the governor sees is
    decimal and within the limit; the body the route sees is within the limit
    whatever was declared; its caller presented a configured key where one is
    needed (up to a collision of SHA-256); its origin is allowed; and its
    identifier is safe to write and of bounded length. *)
Theorem route_guarded cfg route rq i w s r w' : handle cfg route rq i w = (Served s r, w') → passed cfg rq i w w' s.
Proof.
  unfold handle. destruct (body_limit _ rq) as [body|?|] eqn:Eb; [|done..]. destruct (rate_gate cfg rq (in_now i) (w_buckets w)) as [[[?|]|?] b] eqn:Er; [done| |done].
  destruct (api_key_auth_response cfg rq (w_metrics w)) as [[?|tenant] m] eqn:Ea; [done|]. unfold governed.
  destruct (length_gate cfg rq) eqn:El; [done|]. unfold routed, origin_gate.
  assert (auth_enabled cfg = true → is_auth_exempt (rq_path rq) = false →
    ∃ p k, presented_key rq = Some p ∧ configured cfg k ∧ tenant = Some (tenant_of k) ∧ (p = k ∨ collision (utf8 p, utf8 k))) as Hkey.
  { intros He Hx. unfold api_key_auth_response in Ea. rewrite He, Hx in Ea. cbn [negb orb] in Ea. destruct (digests cfg) as [|d0 ds] eqn:Ed; [done|].
    rewrite <-Ed in Ea. destruct (authenticate (digests cfg) rq) as [t|] eqn:Et; [|done]. injection Ea as <- _.
    apply authenticate_sound in Et as (p & k & ? & ? & -> & ?). by exists p, k. }
  destruct (header "origin" rq) as [o|] eqn:Eo; [destruct (origin_allowed _ _ o) eqn:Eal; [|done]|]; intros H; injection H as <- <- <-;
    (split; cbn [sn_path sn_body sn_tenant sn_request_id w_buckets];
      [by apply rate_gate_within|by eapply body_limit_single|by apply length_gate_passes|done|by apply body_limit_length in Eb|exact Hkey
      |intros o' Ho'; by simplify_eq|apply request_id_safe|apply request_id_length]).
Qed.

(** ** A configured key is let in *)

Lemma lstrip_first s : match lstrip s with String c _ => is_space c = false | "" => True end.
Proof. induction s as [|c s IH]; [done|]. cbn [lstrip]. by destruct (is_space c) eqn:E. Qed.

Lemma rstrip_idem s : rstrip (rstrip s) = rstrip s.
Proof.
  induction s as [|c s IH]; [done|]. cbn [rstrip]. destruct (is_space c && bool_decide (rstrip s = "")) eqn:E; [done|].
  cbn [rstrip]. by rewrite IH, E.
Qed.

Lemma strip_stripped s : strip (strip s) = strip s.
Proof.
  unfold strip. pose proof (lstrip_first s) as H. destruct (lstrip s) as [|c t]; [done|].
  assert (∀ u, rstrip (String c u) = String c (rstrip u)) as Hr by (intros u; cbn [rstrip]; by rewrite H).
  rewrite Hr. cbn [lstrip]. by rewrite H, Hr, rstrip_idem.
Qed.

Lemma bearer_presents rq k : header "authorization" rq = Some ("Bearer " +:+ k) → strip k = k → truthy k = true → presented_key rq = Some k.
Proof.
  intros H Hs Ht. unfold presented_key. rewrite H. cbn [mbind option_bind].
  change (partition_char " " ("Bearer " +:+ k)) with (Some ("Bearer", k)). cbn [mbind option_bind]. by rewrite Hs, Ht.
Qed.

(** The bearer of a configured key is let in, as the tenant of that key. *)
Theorem configured_key_admitted cfg rq k m : configured cfg k → header "authorization" rq = Some ("Bearer " +:+ k) →
  is_auth_exempt (rq_path rq) = false → api_key_auth_response cfg rq m = (inr (Some (tenant_of k)), m).
Proof.
  intros Hk Hh Hx. assert (presented_key rq = Some k) as Hp.
  { apply bearer_presents; [done|by destruct Hk as [(part & _ & ->) _]; apply strip_stripped|].
    destruct Hk as [_ Hl]. destruct k; [by vm_compute in Hl|done]. }
  pose proof (authenticate_complete cfg rq k Hk Hp) as Ha. pose proof (configured_has_digest cfg k Hk) as Hd.
  unfold api_key_auth_response, auth_enabled. destruct (digests cfg) as [|d ds] eqn:E; [done|]. rewrite Hx. cbn [negb orb].
  rewrite <-E in *. by rewrite Ha.
Qed.

(** ** Headers of what a route answers *)

Lemma set_header_same k v hs : assoc k (set_header k v hs) = Some v.
Proof.
  induction hs as [|[k' v'] hs IH]; cbn [set_header]; [cbn; by rewrite bool_decide_true|].
  case_bool_decide as E; cbn [assoc]; [by rewrite bool_decide_true|]. by rewrite bool_decide_false.
Qed.

Lemma set_header_other k k' v hs : k' ≠ k → assoc k' (set_header k v hs) = assoc k' hs.
Proof.
  intros Hne. induction hs as [|[k1 v1] hs IH]; cbn [set_header]; [cbn; by rewrite bool_decide_false|].
  case_bool_decide as E; cbn [assoc].
  - subst k1. rewrite !bool_decide_false by done. clear IH. induction hs as [|[k2 v2] hs IH]; [done|]. cbn [assoc].
    destruct (decide (k2 = k)) as [->|Hk].
    + rewrite filter_cons_False by (cbn; tauto). by rewrite (bool_decide_false (k' = k)).
    + rewrite filter_cons_True by done. cbn [assoc]. by case_bool_decide.
  - by case_bool_decide.
Qed.

Definition answers (name value : string) (r : response) : Prop := assoc name (rs_headers r) = Some value.

Lemma security_headers_keep name path r : name ∉ ["x-content-type-options"; "x-frame-options"; "referrer-policy"; "permissions-policy"; "content-security-policy"] →
  assoc name (rs_headers (security_headers path r)) = assoc name (rs_headers r).
Proof.
  intros Hn. rewrite !not_elem_of_cons in Hn. unfold security_headers. destruct (is_page path); cbn [with_header rs_headers];
    rewrite !set_header_other by tauto; done.
Qed.

Lemma security_headers_set path r : answers "x-content-type-options" "nosniff" (security_headers path r) ∧
  answers "x-frame-options" "DENY" (security_headers path r) ∧ answers "referrer-policy" "no-referrer" (security_headers path r) ∧
  (is_page path = true → answers "content-security-policy" CSP (security_headers path r)).
Proof.
  unfold answers, security_headers. destruct (is_page path); cbn [with_header rs_headers]; split_and!;
    first [done|intros _; apply set_header_same|rewrite ?set_header_other by done; apply set_header_same].
Qed.

(** ** The counters *)

Definition total_of (counts : list (string * Z)) : Z := fold_right (λ p n, p.2 + n) 0 counts.

Lemma total_set k v counts : total_of (dict_set k v counts) = total_of counts - default 0 (assoc k counts) + v.
Proof.
  induction counts as [|[k' v'] counts IH]; [cbn; lia|]. cbn [dict_set assoc]. case_bool_decide; cbn [total_of fold_right snd from_option id].
  - lia.
  - change (fold_right _ 0 ?l) with (total_of l). rewrite IH. lia.
Qed.

Record counted (m : metrics) : Prop := {
  co_wf : wf_dict (status_counts m);
  co_total : requests_total m = total_of (status_counts m);
  co_errors : 0 ≤ errors_total m ≤ requests_total m;
  co_rejections : 0 ≤ auth_rejections_total m;
  co_samples : Z.of_nat (length (latency_samples m)) = Z.min (requests_total m) (Z.of_nat SAMPLES) }.

Lemma start_counted : counted start_metrics.
Proof. split; cbn [start_metrics status_counts requests_total errors_total auth_rejections_total latency_samples]; [apply wf_dict_nil|done|lia|lia|]. cbn [length]. lia. Qed.

Lemma record_counted code dt rounded m : counted m → counted (record_completion code dt rounded m).
Proof.
  intros [H1 H2 H3 H4 H5]. split; cbn [record_completion status_counts requests_total errors_total auth_rejections_total latency_samples].
  - by apply wf_dict_set.
  - rewrite total_set, H2. lia.
  - destruct (500 <=? code); lia.
  - done.
  - unfold push_sample. rewrite length_drop, length_app. cbn [length]. revert H5. generalize SAMPLES (length (latency_samples m)). lia.
Qed.

Lemma auth_counted cfg rq m : counted m → counted (api_key_auth_response cfg rq m).2.
Proof.
  intros H. assert (counted (count_rejection m)) as Hr by (destruct H; split; cbn; [done..|lia|done]).
  unfold api_key_auth_response. destruct (_ || _); [done|]. destruct (digests cfg); [done|]. by destruct (authenticate _ rq).
Qed.

Lemma handle_counted cfg route rq i w : counted (w_metrics w) → counted (w_metrics (handle cfg route rq i w).2).
Proof.
  intros H. unfold handle. destruct (body_limit _ rq); [|done..]. destruct (rate_gate _ _ _ _) as [[[?|]|?] b]; [done| |done].
  pose proof (auth_counted cfg rq _ H) as Ha. destruct (api_key_auth_response cfg rq (w_metrics w)) as [[?|tenant] m]; [done|]. cbn [snd] in Ha.
  unfold governed. destruct (length_gate cfg rq); [done|]. destruct (routed _ _ _ _ _ _) as [out code]. by apply record_counted.
Qed.

(** C34.  After any requests the counters agree: the total is the sum of the counts
    by status, the errors are among it, and the latency samples are as many as
    the requests, up to their bound. *)
Theorem metrics_consistent cfg route rqs : counted (w_metrics (handle_all cfg route rqs start_world).2).
Proof.
  assert (∀ w, counted (w_metrics w) → counted (w_metrics (handle_all cfg route rqs w).2)) as H.
  { induction rqs as [|[rq i] rqs IH]; intros w Hw; [done|]. cbn [handle_all]. pose proof (handle_counted cfg route rq i w Hw) as H.
    destruct (handle cfg route rq i w) as [o w']. cbn [snd] in H. apply IH in H. revert H. by destruct (handle_all cfg route rqs w'). }
  apply H, start_counted.
Qed.

(** Everything a route answers carries the security headers and the identifier
    of the request. *)
Theorem route_answers_hardened cfg route rq i w s r w' : handle cfg route rq i w = (Served s r, w') →
  answers "x-content-type-options" "nosniff" r ∧ answers "x-frame-options" "DENY" r ∧ answers "referrer-policy" "no-referrer" r ∧
  answers "x-request-id" (sn_request_id s) r ∧ (is_page (rq_path rq) = true → answers "content-security-policy" CSP r).
Proof.
  unfold handle. destruct (body_limit _ rq) as [body|?|]; [|done..]. destruct (rate_gate cfg rq (in_now i) (w_buckets w)) as [[[?|]|?] b]; [done| |done].
  destruct (api_key_auth_response cfg rq (w_metrics w)) as [[?|tenant] m]; [done|]. unfold governed. destruct (length_gate cfg rq); [done|].
  unfold routed. destruct (origin_gate cfg rq); [done|]. intros H. injection H as <- <- <-. cbn [sn_request_id].
  set (r' := with_header _ _ _). destruct (security_headers_set (rq_path rq) r') as (H1 & H2 & H3 & H4). split_and!; [done..| |done].
  unfold answers. rewrite security_headers_keep by (rewrite !not_elem_of_cons; split_and!; [done..|apply not_elem_of_nil]).
  apply set_header_same.
Qed.

(** ** A concrete server *)

Definition demo_key : string := "0123456789abcdef".
Definition demo_config : config :=
  {| API_KEYS := "short, " +:+ demo_key; REQUIRE_AUTH := true; TRUST_PROXY := true; MAX_UPLOAD_BYTES := 8; REQUEST_ID_MAX_LEN := 64;
     CORS_ORIGINS := []; bracketed_netloc_ok := no_brackets;
     rate_limits := {| RATE_LIMIT_PER_MIN := 0; RATE_LIMIT_PER_MIN_AUTH := 0; BUCKET_HIGH_WATER := 500; BUCKET_HARD_CAP := 5000 |} |}.
Definition demo_inputs : inputs := {| in_now := of_Z 1; in_dt_ms := of_Z 2; in_dt_rounded := of_Z 2; in_fresh := "aa"; in_fresh' := "bb" |}.
Definition demo_request : request :=
  {| rq_path := "/api/extract-document"; rq_client := Some "10.0.0.1";
     rq_headers := [("content-length", "007"); ("authorization", "Bearer " +:+ demo_key); ("origin", "http://localhost:3000"); ("x-request-id", "a b/1")];
     rq_messages := [Part "[1" true; Part "]" false] |}.
Definition ok_route (s : seen) : response := {| status := 200; detail := sn_body s; rs_headers := [] |}.

Lemma demo_configured : configured demo_config demo_key.
Proof. split; [|vm_compute; discriminate]. exists (" " +:+ demo_key). split; [|reflexivity]. apply (bool_decide_unpack _). vm_compute. exact I. Qed.

Definition demo_seen : seen :=
  {| sn_path := "/api/extract-document"; sn_body := "[1]"; sn_tenant := Some (tenant_of demo_key); sn_request_id := "ab1" |}.
Definition demo_answer : response := security_headers "/api/extract-document" (with_header "x-request-id" "ab1" (ok_route demo_seen)).
Definition demo_world : world := {| w_buckets := []; w_metrics := record_completion 200 (of_Z 2) (of_Z 2) start_metrics |}.

Lemma demo_served : handle demo_config ok_route demo_request demo_inputs start_world = (Served demo_seen demo_answer, demo_world).
Proof.
  pose proof (configured_key_admitted demo_config demo_request demo_key start_metrics demo_configured eq_refl eq_refl) as Ha.
  unfold handle. change (body_limit _ _) with (Go (A:=bytes) "[1]"). cbn beta iota.
  change (rate_gate _ _ _ _) with (Ok (A:=option response) None, @nil (string * bucket)). cbn beta iota.
  change (w_metrics start_world) with start_metrics. rewrite Ha. reflexivity.
Qed.

Lemma route_guarded_witness : len (sn_body demo_seen) ≤ 8 ∧ sn_request_id demo_seen ≠ "".
Proof.
  destruct (route_guarded demo_config ok_route demo_request demo_inputs start_world demo_seen demo_answer demo_world demo_served)
    as [_ _ _ _ Hb _ _ Hi _]. split; [exact Hb|]. apply Hi. split; [discriminate|reflexivity].
Defined.

Lemma route_answers_hardened_witness : answers "x-request-id" "ab1" demo_answer.
Proof.
  apply (route_answers_hardened demo_config ok_route demo_request demo_inputs start_world demo_seen demo_answer demo_world demo_served).
Defined.

Lemma declared_length_exact_witness : too_large "0000000012" 9 = true.
Proof. rewrite (declared_length_exact "0000000012" 9); [reflexivity|reflexivity|lia]. Defined.

(** A body longer than it was declared is still refused. *)
Example lying_length : (handle demo_config ok_route
  {| rq_path := "/healthz"; rq_client := None; rq_headers := [("content-length", "1")]; rq_messages := [Part "01234" true; Part "5678" false] |}
  demo_inputs start_world).1 = Rejected (reject 413 "Payload too large").
Proof. reflexivity. Qed.

(** What the outer gates refuse does not carry the security headers. *)
Example refusals_bare : (handle demo_config ok_route
  {| rq_path := "/"; rq_client := None; rq_headers := [("content-length", "99")]; rq_messages := [] |} demo_inputs start_world).1 =
  Rejected {| status := 413; detail := "Payload too large"; rs_headers := [] |}.
Proof. reflexivity. Qed.

(** Behind a trusted proxy, a caller without a key can name the tenant whose
    bucket, and whose limit, its requests count against. *)
Lemma forwarded_tenant cfg rq rq' t : TRUST_PROXY cfg = true → digests cfg ≠ [] → authenticate (digests cfg) rq = Some t →
  authenticate (digests cfg) rq' = None → forwarded_client rq' = Some ("tenant:" +:+ t) → client_key cfg rq' = client_key cfg rq.
Proof. intros Hp Hd H H' Hf. unfold client_key. destruct (digests cfg) as [|d ds]; [done|]. by rewrite H, H', Hp, Hf. Qed.

Example forwarded_example : forwarded_client {| rq_path := "/"; rq_client := Some "10.0.0.1"; rq_messages := [];
  rq_headers := [("x-forwarded-for", "tenant:0123456789ab, 10.0.0.9")] |} = Some "tenant:0123456789ab".
Proof. reflexivity. Qed.
