(* ===== verification/IsolatedIngest.v ===== *)
(** * Isolated parsing: what a child process may hand back

    [kernel/sidecar/isolated_ingest.py].  The parser runs in a child; the
    parent believes nothing of it: the result file is read strictly and every
    field is checked before a chunk, a document or a page is built.  The child
    is an argument: any bytes at all, or none.  Resource limits, process
    groups, file descriptors and the deadline belong to the operating system;
    the deadline is here the verdict [Timed_out] of a run.  The opt-in
    thread mode, which parses in the server itself, is not modelled.  Texts of
    exceptions are simplified. *)

From S2P Require Import Prelude PyStr PyFloat PyDict Json JsonRead Sha256 DataModel Dsse IngestorImpl.

Record ingest_limits := {
  lim_input : Z; lim_output : Z; lim_chunks : Z; lim_pages : Z; lim_text : Z; lim_cpu : Z; lim_as : Z }.

Definition MAX_EMBEDDING_VALUES : Z := 4096.

Definition invalid {A} (msg : string) : result A := raise "ValueError" msg.

(** ** Settings *)

Definition positive_setting (raw : option string) (default_ maximum : Z) : result Z :=
  match raw with
  | None => Ok default_
  | Some s =>
      if digits1 s && (String.length s <=? 4300)%nat && (0 <? int_of_digits s) && (int_of_digits s <=? maximum) then Ok (int_of_digits s)
      else invalid "must be an integer in [1, maximum]"
  end.

(** The environment, as a function of the names. *)
Definition configuration (env : string → option string) : result ingest_limits :=
  input ← positive_setting (env "AXIOM_INGEST_MAX_INPUT_BYTES") 33554432 33554432;
  output ← positive_setting (env "AXIOM_INGEST_MAX_OUTPUT_BYTES") 33554432 33554432;
  chunks ← positive_setting (env "AXIOM_INGEST_MAX_CHUNKS") 20000 20000;
  pages ← positive_setting (env "AXIOM_INGEST_MAX_PAGES") 10000 10000;
  text ← positive_setting (env "AXIOM_MAX_EXTRACTED_CHARS") 4194304 4194304;
  cpu ← positive_setting (env "AXIOM_INGEST_CPU_SECONDS") 120 86400;
  memory ← positive_setting (env "AXIOM_INGEST_RSS_BYTES") 2147483648 17179869184;
  Ok {| lim_input := input; lim_output := output; lim_chunks := chunks; lim_pages := pages; lim_text := text; lim_cpu := cpu; lim_as := memory |}.

Definition isolation_enabled (setting : option string) : result bool :=
  let mode := default "process" setting in
  if bool_decide (mode ∈ ["process"; "thread"]) then Ok (bool_decide (mode = "process")) else invalid "must be process or thread".

(** ** Checks on one value *)

Definition field (k : string) (d : dict) : json := default JNull (assoc k d).

Definition keys_of (v : json) (names : list string) : result dict :=
  match v with
  | JObj l =>
      if forallb (λ k, bool_decide (k ∈ names)) l.*1 && forallb (λ n, bool_decide (n ∈ l.*1)) names then Ok l
      else invalid "Invalid isolated ingest object schema"
  | _ => invalid "Invalid isolated ingest object schema"
  end.

Definition string_of (v : json) (maximum : Z) (nonempty : bool) : result string :=
  match v with
  | JStr s => if (maximum <? len s) || (nonempty && negb (truthy s)) then invalid "Invalid isolated ingest string" else Ok s
  | _ => invalid "Invalid isolated ingest string"
  end.

Definition ident_char (c : ascii) : bool :=
  (code c <? 128)%N && (is_alpha c || is_digit c || bool_decide (c ∈ ["_"; "-"]%char)).
Definition identifier (v : json) : result string :=
  s ← string_of v 256 true;
  if forall_str ident_char s then Ok s else invalid "Invalid isolated ingest route identifier".

Definition integer (v : json) (minimum maximum : Z) : result Z :=
  match v with
  | JInt z => if (minimum <=? z) && (z <=? maximum) then Ok z else invalid "Invalid isolated ingest integer"
  | _ => invalid "Invalid isolated ingest integer"
  end.

(** An integer too large for a float is not finite. *)
Definition number (v : json) : result f64 :=
  match v with
  | JInt z => if is_finite (of_Z z) then Ok (of_Z z) else invalid "Invalid isolated ingest finite number"
  | JFloat f => if is_finite f then Ok f else invalid "Invalid isolated ingest finite number"
  | _ => invalid "Invalid isolated ingest finite number"
  end.

Definition hex_lower (c : ascii) : bool := is_digit c || between 97 102 (code c).
Definition digest_text (s : string) : bool := (len s =? 64) && forall_str hex_lower s.
Definition hash_of (v : json) (empty : bool) : result string :=
  s ← string_of v 64 false;
  if (empty && negb (truthy s)) || digest_text s then Ok s else invalid "Invalid isolated ingest digest".

(** ** The graph *)

Definition same_doc (doc_id : string) (d : dict) : bool := is_str doc_id (assoc "doc_id" d).

Definition validate_page (doc_id : string) (count : Z) (seen : list Z) (p : json) : result Page :=
  p ← keys_of p ["doc_id"; "index"; "width_px"; "height_px"; "image_sha256"];
  _ ← ensure (same_doc doc_id p) "ValueError" "Isolated ingest page document reference mismatch";
  index ← integer (field "index" p) 1 count;
  _ ← ensure (bool_decide (index ∉ seen)) "ValueError" "Duplicate isolated ingest page";
  w ← integer (field "width_px" p) 1 1000000;
  h ← integer (field "height_px" p) 1 1000000;
  image ← hash_of (field "image_sha256" p) true;
  Ok {| p_doc_id := doc_id; p_index := index; p_width_px := w; p_height_px := h; p_image_sha256 := image |}.

Fixpoint validate_pages (doc_id : string) (count : Z) (seen : list Z) (l : list json) : result (list Page) :=
  match l with
  | [] => Ok []
  | p :: l' =>
      p ← validate_page doc_id count seen p; ps ← validate_pages doc_id count (p_index p :: seen) l'; Ok (p :: ps)
  end.

Definition in_page (v : f64) : bool := fle f0 v && fle v f1.

Definition validate_bbox (v : json) : result BBox :=
  b ← keys_of v ["x0"; "y0"; "x1"; "y1"];
  a ← number (field "x0" b);
  b' ← number (field "y0" b);
  c ← number (field "x1" b);
  d ← number (field "y1" b);
  _ ← ensure (in_page a && in_page b' && in_page c && in_page d) "ValueError" "Isolated ingest bbox outside normalized page";
  mk_BBox a b' c d.

Definition validate_embedding (v : json) : result (list f64) :=
  match v with
  | JArr l => if MAX_EMBEDDING_VALUES <? Z.of_nat (length l) then invalid "Invalid isolated ingest embedding" else mapM_result number l
  | _ => invalid "Invalid isolated ingest embedding"
  end.

(** [total]: the characters of the chunks before. *)
Definition validate_chunk (lim : ingest_limits) (doc_id : string) (count : Z) (pages : list Z) (seen : list string) (total : Z) (v : json)
    : result Chunk :=
  c ← keys_of v ["chunk_id"; "doc_id"; "page"; "bbox"; "text"; "source_type"; "embedding"];
  chunk_id ← identifier (field "chunk_id" c);
  _ ← ensure (bool_decide (chunk_id ∉ seen) && same_doc doc_id c) "ValueError" "Duplicate chunk ID or document reference mismatch";
  page ← integer (field "page" c) 1 count;
  _ ← ensure (bool_decide (page ∈ pages)) "ValueError" "Invalid isolated ingest page reference";
  bbox ← validate_bbox (field "bbox" c);
  text ← string_of (field "text" c) (lim_text lim) false;
  _ ← ensure (total + len text <=? lim_text lim) "ValueError" "Isolated ingest total text exceeded";
  embedding ← validate_embedding (field "embedding" c);
  source_type ← string_of (field "source_type" c) 128 true;
  mk_Chunk chunk_id doc_id page (Some bbox) text source_type embedding.

Fixpoint validate_chunks (lim : ingest_limits) (doc_id : string) (count : Z) (pages : list Z) (seen : list string) (total : Z) (l : list json)
    : result (list Chunk) :=
  match l with
  | [] => Ok []
  | v :: l' =>
      c ← validate_chunk lim doc_id count pages seen total v;
      cs ← validate_chunks lim doc_id count pages (c_chunk_id c :: seen) (total + len (c_text c)) l';
      Ok (c :: cs)
  end.

Definition is_version_1 (v : option json) : bool := match v with Some (JInt 1) => true | _ => false end.

Abbreviation graph := (list Chunk * Document * list Page)%type.

Section Isolated.
Context `{FRd : FloatRead}.

(** [datetime.fromisoformat] of an aware time, as its [isoformat]. *)
Variable parse_time : string → option string.

Definition validate (payload : json) (snapshot digest : string) (lim : ingest_limits) : result graph :=
  p ← keys_of payload ["version"; "status"; "document"; "chunks"; "pages"];
  _ ← ensure (is_version_1 (assoc "version" p) && is_str "ok" (assoc "status" p))
        "ValueError" "Invalid isolated ingest protocol";
  d ← keys_of (field "document" p) ["doc_id"; "source_path"; "sha256"; "page_count"; "ingested_at"];
  doc_id ← identifier (field "doc_id" d);
  path ← string_of (field "source_path" d) 4096 false;
  _ ← ensure (bool_decide (path = snapshot)) "ValueError" "Isolated ingest source/digest mismatch";
  sha ← hash_of (field "sha256" d) false;
  _ ← ensure (bool_decide (sha = digest)) "ValueError" "Isolated ingest source/digest mismatch";
  count ← integer (field "page_count" d) 1 (lim_pages lim);
  at_text ← string_of (field "ingested_at" d) 128 true;
  at_ ← match parse_time at_text with Some t => Ok t | None => invalid "Invalid isolated ingest timestamp" end;
  match field "pages" p, field "chunks" p with
  | JArr raw_pages, JArr raw_chunks =>
      if negb (Z.of_nat (length raw_pages) =? count) then invalid "Isolated ingest page count mismatch"
      else if lim_chunks lim <? Z.of_nat (length raw_chunks) then invalid "Isolated ingest chunk count exceeded"
      else
        pages ← validate_pages doc_id count [] raw_pages;
        chunks ← validate_chunks lim doc_id count (map p_index pages) [] 0 raw_chunks;
        Ok (chunks, {| d_doc_id := doc_id; d_source_path := snapshot; d_sha256 := digest; d_page_count := count; d_ingested_at := at_ |}, pages)
  | JArr _, _ => invalid "Isolated ingest chunk count exceeded"
  | _, _ => invalid "Isolated ingest page count mismatch"
  end.

(** ** The result file *)

Definition reject_payload : json := JObj [("version", JInt 1); ("status", JStr "reject")].

(** The hooks reject duplicate keys and what is not a finite number, as those
    of the DSSE reader do. *)
Definition read_result (file : option bytes) (maximum : Z) : result json :=
  match file with
  | None => raise "IsolatedIngestResourceError" "Isolated ingest child produced no result"
  | Some data =>
      if maximum <? len data then invalid "Isolated ingest result byte cap exceeded"
      else
        match s ← utf8_decode data; loads_with strict_hooks s with
        | Raise _ => invalid "Malformed isolated ingest result"
        | Ok payload => if py_eq payload reject_payload then invalid "Document parser rejected input" else Ok payload
        end
  end.

(** ** The child *)

Definition bbox_json (b : BBox) : json := JObj [("x0", JFloat (x0 b)); ("y0", JFloat (y0 b)); ("x1", JFloat (x1 b)); ("y1", JFloat (y1 b))].
Definition chunk_json (c : Chunk) : json :=
  JObj [("chunk_id", JStr (c_chunk_id c)); ("doc_id", JStr (c_doc_id c)); ("page", JInt (c_page c));
        ("bbox", match c_bbox c with Some b => bbox_json b | None => JNull end); ("text", JStr (c_text c));
        ("source_type", JStr (c_source_type c)); ("embedding", JArr (map JFloat (c_embedding c)))].
Definition page_json (p : Page) : json :=
  JObj [("doc_id", JStr (p_doc_id p)); ("index", JInt (p_index p)); ("width_px", JInt (p_width_px p));
        ("height_px", JInt (p_height_px p)); ("image_sha256", JStr (p_image_sha256 p))].
Definition document_json (d : Document) : json :=
  JObj [("doc_id", JStr (d_doc_id d)); ("source_path", JStr (d_source_path d)); ("sha256", JStr (d_sha256 d));
        ("page_count", JInt (d_page_count d)); ("ingested_at", JStr (d_ingested_at d))].
Definition payload_json (g : graph) : json :=
  let '(chunks, doc, pages) := g in
  JObj [("version", JInt 1); ("status", JStr "ok"); ("document", document_json doc); ("chunks", JArr (map chunk_json chunks));
        ("pages", JArr (map page_json pages))].

(** [allow_nan=False]; the cap is on the bytes written. *)
Definition write_result (payload : json) (maximum : Z) : result bytes :=
  let data := utf8 (print true payload) in
  if negb (all_finite payload) then invalid "Out of range float values are not JSON compliant"
  else if maximum <? len data then invalid "Isolated ingest output byte cap exceeded"
  else Ok data.

(** The file an honest child leaves; [None] when not even the rejection fits. *)
Definition child_file (ingested : result graph) (maximum : Z) : option bytes :=
  match g ← ingested; write_result (payload_json g) maximum with
  | Ok b => Some b
  | Raise _ => match write_result reject_payload maximum with Ok b => Some b | Raise _ => None end
  end.

(** ** The parent *)

Inductive child_run := Timed_out | Abnormal_exit | Finished (file : option bytes).

Definition SUFFIXES : list string := [".txt"; ".md"; ".pdf"; ".docx"].

(** [suffix]: of the path, in lower case; [private]: the temporary directory. *)
Definition ingest_document_isolated (env : string → option string) (filepath suffix : string) (content : bytes) (private : string)
    (child : child_run) : result graph :=
  if negb (truthy filepath) || (4096 <? len filepath) || exists_str (λ c, bool_decide (c = "000"%char)) filepath then invalid "Invalid ingest filepath"
  else
    _ ← isolation_enabled (env "AXIOM_EXTRACTION_ISOLATION");
    lim ← configuration env;
    if negb (bool_decide (suffix ∈ SUFFIXES)) then invalid ("Unsupported file type: " +:+ suffix)
    else if lim_input lim <? len content then invalid "Ingest input must be bounded immutable bytes"
    else
      let digest := sha256_hex content in
      let snapshot := private +:+ "/source" +:+ suffix in
      match child with
      | Timed_out => raise "IsolatedIngestDeadline" "Isolated ingest deadline exceeded"
      | Abnormal_exit => raise "IsolatedIngestResourceError" "Isolated ingest child exited abnormally"
      | Finished file =>
          payload ← read_result file (lim_output lim);
          '(chunks, doc, pages) ← validate payload snapshot digest lim;
          Ok (chunks, {| d_doc_id := d_doc_id doc; d_source_path := filepath; d_sha256 := d_sha256 doc;
                         d_page_count := d_page_count doc; d_ingested_at := d_ingested_at doc |}, pages)
      end.
End Isolated.

(** ** What validation promises *)

Definition unit_box (b : BBox) : Prop :=
  is_finite (x0 b) = true ∧ is_finite (y0 b) = true ∧ is_finite (x1 b) = true ∧ is_finite (y1 b) = true ∧
  in_page (x0 b) && in_page (y0 b) && in_page (x1 b) && in_page (y1 b) = true ∧
  flt (x1 b) (x0 b) = false ∧ flt (y1 b) (y0 b) = false.

Definition safe_ident (s : string) : Prop := s ≠ "" ∧ len s ≤ 256 ∧ forall_str ident_char s = true.

Definition page_ok (doc_id : string) (count : Z) (p : Page) : Prop :=
  p_doc_id p = doc_id ∧ 1 ≤ p_index p ≤ count ∧ 1 ≤ p_width_px p ≤ 1000000 ∧ 1 ≤ p_height_px p ≤ 1000000 ∧
  (p_image_sha256 p = "" ∨ digest_text (p_image_sha256 p) = true).

Definition chunk_ok (lim : ingest_limits) (doc_id : string) (count : Z) (c : Chunk) : Prop :=
  safe_ident (c_chunk_id c) ∧ c_doc_id c = doc_id ∧ 1 ≤ c_page c ≤ count ∧ (∃ b, c_bbox c = Some b ∧ unit_box b) ∧
  c_source_type c ≠ "" ∧ len (c_source_type c) ≤ 128 ∧
  Z.of_nat (length (c_embedding c)) ≤ MAX_EMBEDDING_VALUES ∧ Forall (λ f, is_finite f = true) (c_embedding c).

Definition text_of (chunks : list Chunk) : Z := fold_right (λ c n, len (c_text c) + n) 0 chunks.

Record graph_ok (lim : ingest_limits) (doc : Document) (chunks : list Chunk) (pages : list Page) : Prop := {
  gk_id : safe_ident (d_doc_id doc);
  gk_count : 1 ≤ d_page_count doc ≤ lim_pages lim;
  gk_pages : Z.of_nat (length pages) = d_page_count doc ∧ NoDup (map p_index pages) ∧
    ∀ p, p ∈ pages → page_ok (d_doc_id doc) (d_page_count doc) p;
  gk_chunks : Z.of_nat (length chunks) ≤ lim_chunks lim ∧ NoDup (map c_chunk_id chunks) ∧
    ∀ c, c ∈ chunks → chunk_ok lim (d_doc_id doc) (d_page_count doc) c;
  gk_text : text_of chunks ≤ lim_text lim }.

Ltac next_check H := let x := fresh "x" in let E := fresh "E" in apply bind_Ok in H as (x & E & H).

Lemma string_of_Ok v m n s : string_of v m n = Ok s → v = JStr s ∧ len s ≤ m ∧ (n = true → s ≠ "").
Proof.
  destruct v; try done. cbn [string_of]. destruct (_ || _) eqn:E; [done|]. intros [= <-]. apply orb_false_iff in E as [H1 H2].
  split; [done|]. split; [lia|]. intros ->. cbn in H2. apply negb_false_iff in H2. by apply truthy_spec.
Qed.

Lemma identifier_Ok v s : identifier v = Ok s → v = JStr s ∧ safe_ident s.
Proof.
  unfold identifier. intros H. next_check H. apply string_of_Ok in E as (-> & Hl & Hn). destruct (forall_str ident_char x) eqn:E; [|done].
  injection H as <-. split; [done|]. split; [by apply Hn|done].
Qed.

Lemma integer_Ok v lo hi z : integer v lo hi = Ok z → v = JInt z ∧ lo ≤ z ≤ hi.
Proof. destruct v; try done. cbn [integer]. destruct (_ && _) eqn:E; [|done]. intros [= <-]. apply andb_true_iff in E. split; [done|lia]. Qed.

Lemma number_Ok v f : number v = Ok f → is_finite f = true.
Proof. destruct v; try done; cbn [number]; destruct (is_finite _) eqn:E; try done; by intros [= <-]. Qed.

Lemma hash_of_Ok v e s : hash_of v e = Ok s → v = JStr s ∧ (e = true ∧ s = "" ∨ digest_text s = true).
Proof.
  unfold hash_of. intros H. next_check H. apply string_of_Ok in E as (-> & _). destruct (_ || _) eqn:E; [|done]. injection H as <-.
  split; [done|]. apply orb_true_iff in E as [[-> E]%andb_true_iff|E]; [left|by right]. split; [done|]. apply negb_true_iff in E.
  unfold truthy in E. by apply negb_false_iff, bool_decide_eq_true in E.
Qed.

Lemma validate_page_Ok doc_id count seen v p : validate_page doc_id count seen v = Ok p → page_ok doc_id count p ∧ p_index p ∉ seen.
Proof.
  unfold validate_page. intros H. do 7 next_check H. injection H as <-. cbn.
  apply integer_Ok in E1 as (_ & ?). apply ensure_Ok, bool_decide_eq_true in E2. apply integer_Ok in E3 as (_ & ?), E4 as (_ & ?).
  apply hash_of_Ok in E5 as (_ & E5). unfold page_ok. cbn. split_and!; try done; try lia. destruct E5 as [[_ ->]|?]; [by left|by right].
Qed.

Lemma validate_pages_Ok doc_id count l : ∀ seen ps, validate_pages doc_id count seen l = Ok ps →
  length ps = length l ∧ NoDup (map p_index ps) ∧ (∀ p, p ∈ ps → page_ok doc_id count p ∧ p_index p ∉ seen).
Proof.
  induction l as [|v l IH]; intros seen ps H; cbn [validate_pages] in H.
  { injection H as <-. split; [done|]. split; [apply NoDup_nil_2|]. by intros p ?%not_elem_of_nil. }
  next_check H. next_check H. injection H as <-. apply validate_page_Ok in E. apply IH in E0 as (H1 & H2 & H3). split; [cbn; lia|]. split.
  - cbn [map]. apply NoDup_cons. split; [|done]. intros (p & Hp & Hin)%list_elem_of_fmap. destruct (H3 p Hin) as [_ Hn]. apply Hn. rewrite <-Hp. left.
  - intros p [->|Hp]%elem_of_cons; [done|]. destruct (H3 p Hp) as [? Hn]. split; [done|]. intros ?. apply Hn. by right.
Qed.

Lemma validate_bbox_Ok v b : validate_bbox v = Ok b → unit_box b.
Proof.
  unfold validate_bbox. intros H. do 6 next_check H. apply number_Ok in E0, E1, E2, E3. apply ensure_Ok in E4.
  unfold mk_BBox in H. destruct (_ || _) eqn:Eb; [done|]. injection H as <-. apply orb_false_iff in Eb as [? ?]. by unfold unit_box.
Qed.

Lemma validate_chunk_Ok lim doc_id count pages seen total v c : validate_chunk lim doc_id count pages seen total v = Ok c →
  chunk_ok lim doc_id count c ∧ c_chunk_id c ∉ seen ∧ total + len (c_text c) ≤ lim_text lim.
Proof.
  unfold validate_chunk. intros H. do 10 next_check H. unfold mk_Chunk in H. destruct (_ <? 0); [done|]. injection H as <-.
  apply identifier_Ok in E0 as [_ ?]. apply ensure_Ok, andb_true_iff in E1 as [?%bool_decide_eq_true _]. apply integer_Ok in E2 as (_ & ?).
  apply validate_bbox_Ok in E4. apply ensure_Ok, Z.leb_le in E6. apply string_of_Ok in E8 as (_ & ? & Hn).
  split; [|by split]. unfold chunk_ok. cbn. split_and!; try done; try lia; [by exists x4|by apply Hn| |].
  all: unfold validate_embedding in E7; destruct (field "embedding" x); try done; destruct (Z.ltb_spec MAX_EMBEDDING_VALUES (Z.of_nat (length l))); try done.
  - rewrite (mapM_result_length _ _ _ E7). lia.
  - apply Forall_forall. intros f Hf. destruct (mapM_result_elem _ _ _ E7) as [Hm _]. destruct (Hm f Hf) as (y & _ & Hy). by apply number_Ok in Hy.
Qed.

Lemma validate_chunks_Ok lim doc_id count pages l : ∀ seen total cs, 0 ≤ total ≤ lim_text lim →
  validate_chunks lim doc_id count pages seen total l = Ok cs →
  length cs = length l ∧ NoDup (map c_chunk_id cs) ∧ (∀ c, c ∈ cs → chunk_ok lim doc_id count c ∧ c_chunk_id c ∉ seen) ∧
  total + text_of cs ≤ lim_text lim.
Proof.
  induction l as [|v l IH]; intros seen total cs Ht H; cbn [validate_chunks] in H.
  { injection H as <-. split; [done|]. split; [apply NoDup_nil_2|]. split; [by intros c ?%not_elem_of_nil|cbn; lia]. }
  next_check H. next_check H. injection H as <-. apply validate_chunk_Ok in E as (Hok & Hs & Hlen).
  apply IH in E0 as (H1 & H2 & H3 & H4); [|unfold len in *; lia]. split; [cbn; lia|]. split; [|split].
  - cbn [map]. apply NoDup_cons. split; [|done]. intros (c & Hc & Hin)%list_elem_of_fmap. destruct (H3 c Hin) as [_ Hn]. apply Hn. rewrite <-Hc. left.
  - intros c [->|Hc]%elem_of_cons; [done|]. destruct (H3 c Hc) as [? Hn]. split; [done|]. intros ?. apply Hn. by right.
  - cbn [text_of fold_right]. change (fold_right _ 0 ?l) with (text_of l). lia.
Qed.

Section Promises.
Context `{FRd : FloatRead}.
Variable parse_time : string → option string.

Lemma validate_Ok payload snapshot digest lim chunks doc pages : 0 ≤ lim_text lim →
  validate parse_time payload snapshot digest lim = Ok (chunks, doc, pages) →
  graph_ok lim doc chunks pages ∧ d_source_path doc = snapshot ∧ d_sha256 doc = digest ∧ ∃ s, parse_time s = Some (d_ingested_at doc).
Proof.
  intros Ht H. unfold validate in H. do 11 next_check H. apply identifier_Ok in E2 as [_ Hid].
  apply integer_Ok in E7 as [_ Hcount]. destruct (parse_time x8) as [t|] eqn:Et; [|done]. injection E9 as <-.
  destruct (field "pages" x); try done. destruct (field "chunks" x); try done.
  destruct (Z.eqb_spec (Z.of_nat (length l)) x7) as [Hl|]; [|done]. cbn [negb] in H.
  destruct (Z.ltb_spec (lim_chunks lim) (Z.of_nat (length l0))) as [|Hc]; [done|].
  apply bind_Ok in H as (ps & Hps & H). apply bind_Ok in H as (cs & Hcs & H).
  injection H as <- <- <-. apply validate_pages_Ok in Hps as (P1 & P2 & P3). apply validate_chunks_Ok in Hcs as (C1 & C2 & C3 & C4); [|lia].
  split; [|by split; [|split; [|by exists x8]]]. split; cbn [d_doc_id d_page_count]; [done|done| | |lia].
  - split; [by rewrite P1|]. split; [done|]. intros p Hp. apply (P3 p Hp).
  - split; [by rewrite C1|]. split; [done|]. intros c Hc'. apply (C3 c Hc').
Qed.

Lemma positive_setting_pos raw d m z : 0 < d → positive_setting raw d m = Ok z → 0 < z.
Proof. intros Hd. unfold positive_setting. destruct raw; [|by intros [= <-]]. destruct (_ && _) eqn:E; [|done]. intros [= <-]. rewrite !andb_true_iff in E. lia. Qed.

Lemma configuration_text env lim : configuration env = Ok lim → 0 < lim_text lim.
Proof.
  unfold configuration. intros H. do 7 next_check H. injection H as <-. cbn. by apply positive_setting_pos in E3.
Qed.

(** C13.  Whatever bytes the child left, a graph that comes out is well-formed and
    about the bytes that went in: identifiers are safe to route on, every
    chunk lies in a box of a page of the document, pages and chunks are
    distinct, and the texts are within the budget. *)
Theorem child_cannot_lie env filepath suffix content private child chunks doc pages :
  ingest_document_isolated parse_time env filepath suffix content private child = Ok (chunks, doc, pages) →
  ∃ lim, configuration env = Ok lim ∧ graph_ok lim doc chunks pages ∧ d_source_path doc = filepath ∧
    d_sha256 doc = sha256_hex content ∧ len content ≤ lim_input lim ∧ suffix ∈ SUFFIXES.
Proof.
  unfold ingest_document_isolated. destruct (_ || _); [done|]. intros H. next_check H. apply bind_Ok in H as (lim & Hlim & H).
  destruct (bool_decide_reflect (suffix ∈ SUFFIXES)); [|done]. cbn [negb] in H. destruct (Z.ltb_spec (lim_input lim) (len content)); [done|].
  destruct child as [| |file]; [done..|]. apply bind_Ok in H as (payload & _ & H). apply bind_Ok in H as ([[cs d] ps] & Hv & H).
  apply validate_Ok in Hv as ([G1 G2 G3 G4 G5] & _ & Hsha & _); [|pose proof (configuration_text env lim Hlim); lia].
  injection H as <- <- <-. exists lim. split; [done|]. split; [by split|]. by split_and!.
Qed.
End Promises.

(** ** An honest child is transparent *)

Lemma string_of_JStr s m n : len s ≤ m → (n = true → s ≠ "") → string_of (JStr s) m n = Ok s.
Proof.
  intros Hl Hn. cbn [string_of]. destruct (Z.ltb_spec m (len s)); [lia|]. destruct n; [|done]. cbn [orb andb].
  by rewrite (proj2 (truthy_spec s) (Hn eq_refl)).
Qed.

Lemma identifier_JStr s : safe_ident s → identifier (JStr s) = Ok s.
Proof. intros (Hn & Hl & Hc). unfold identifier. rewrite string_of_JStr by done. cbn [mbind result_bind]. by rewrite Hc. Qed.

Lemma integer_JInt z lo hi : lo ≤ z ≤ hi → integer (JInt z) lo hi = Ok z.
Proof. intros H. cbn [integer]. destruct (Z.leb_spec lo z), (Z.leb_spec z hi); (done || lia). Qed.

Lemma number_JFloat f : is_finite f = true → number (JFloat f) = Ok f.
Proof. intros H. cbn [number]. by rewrite H. Qed.

Lemma hash_of_JStr s e : (e = true ∧ s = "" ∨ digest_text s = true) → hash_of (JStr s) e = Ok s.
Proof.
  intros [[-> ->]|H]; [done|]. unfold hash_of.
  assert (len s ≤ 64) by (unfold digest_text in H; apply andb_true_iff in H; lia). rewrite string_of_JStr by done.
  cbn [mbind result_bind]. by rewrite H, orb_true_r.
Qed.

Lemma hex_digit_lower n : (n < 16)%N → hex_lower (hex_digit n) = true.
Proof.
  intros Hn. assert (forallb (λ i, hex_lower (hex_digit (N.of_nat i))) (seq 0 16) = true) as H by (vm_compute; reflexivity).
  rewrite forallb_forall in H. rewrite <-(N2Nat.id n). apply H, in_seq. lia.
Qed.

Lemma hex_lower_hex b : forall_str hex_lower (hex b) = true.
Proof.
  induction b as [|c b IH]; [done|]. cbn [hex forall_str]. rewrite IH, !hex_digit_lower; [done|by apply N.mod_lt|].
  apply N.Div0.div_lt_upper_bound. unfold code. pose proof (N_ascii_bounded c). lia.
Qed.

Lemma digest_text_hex b : digest_text (sha256_hex b) = true.
Proof. unfold digest_text. unfold len. rewrite length_sha256_hex. cbn. apply hex_lower_hex. Qed.

Lemma validate_bbox_json b : unit_box b → validate_bbox (bbox_json b) = Ok b.
Proof.
  intros (H1 & H2 & H3 & H4 & H5 & H6 & H7). unfold validate_bbox.
  change (keys_of (bbox_json b) _) with (Ok [("x0", JFloat (x0 b)); ("y0", JFloat (y0 b)); ("x1", JFloat (x1 b)); ("y1", JFloat (y1 b))]).
  cbn [mbind result_bind]. change (field "x0" _) with (JFloat (x0 b)). change (field "y0" _) with (JFloat (y0 b)).
  change (field "x1" _) with (JFloat (x1 b)). change (field "y1" _) with (JFloat (y1 b)). rewrite !number_JFloat by done.
  cbn [mbind result_bind]. rewrite H5. cbn [ensure mbind result_bind]. unfold mk_BBox. rewrite H6, H7. by destruct b.
Qed.

Lemma validate_page_json doc_id count seen p : page_ok doc_id count p → p_index p ∉ seen → validate_page doc_id count seen (page_json p) = Ok p.
Proof.
  intros (Hd & Hi & Hw & Hh & Hs) Hn. unfold validate_page, page_json.
  change (keys_of (JObj ?l) _) with (Ok l). cbn [mbind result_bind].
  change (same_doc doc_id _) with (bool_decide (doc_id = p_doc_id p)). rewrite bool_decide_true by done. cbn [ensure mbind result_bind].
  change (field "index" _) with (JInt (p_index p)). change (field "width_px" _) with (JInt (p_width_px p)).
  change (field "height_px" _) with (JInt (p_height_px p)). change (field "image_sha256" _) with (JStr (p_image_sha256 p)).
  rewrite (integer_JInt (p_index p)) by done. cbn [mbind result_bind]. rewrite bool_decide_true by done. cbn [ensure mbind result_bind].
  rewrite !integer_JInt by done. cbn [mbind result_bind]. rewrite hash_of_JStr by (destruct Hs; [by left|by right]). destruct p. cbn in *. by subst.
Qed.

Lemma validate_pages_json doc_id count ps : ∀ seen, (∀ p, p ∈ ps → page_ok doc_id count p ∧ p_index p ∉ seen) → NoDup (map p_index ps) →
  validate_pages doc_id count seen (map page_json ps) = Ok ps.
Proof.
  induction ps as [|p ps IH]; intros seen Hp Hn; [done|]. cbn [map] in *. apply NoDup_cons in Hn as [Hn Hnd]. cbn [validate_pages].
  destruct (Hp p ltac:(left)) as [Hok Hs]. rewrite validate_page_json by done. cbn [mbind result_bind]. rewrite IH; [done| |done].
  intros q Hq. destruct (Hp q ltac:(by right)) as [? Hq']. split; [done|]. intros [E|?]%elem_of_cons; [|done].
  apply Hn. rewrite <-E. by apply (list_elem_of_fmap_2 p_index).
Qed.

Lemma validate_embedding_json l : Z.of_nat (length l) ≤ MAX_EMBEDDING_VALUES → Forall (λ f, is_finite f = true) l →
  validate_embedding (JArr (map JFloat l)) = Ok l.
Proof.
  intros Hl Hf. unfold validate_embedding. rewrite length_map. destruct (Z.ltb_spec MAX_EMBEDDING_VALUES (Z.of_nat (length l))); [lia|].
  clear Hl H. induction Hf as [|f l Hx _ IH]; [done|]. cbn [map mapM_result]. rewrite number_JFloat by done. cbn [mbind result_bind]. by rewrite IH.
Qed.

Lemma validate_chunk_json lim doc_id count pages seen total c : chunk_ok lim doc_id count c → c_chunk_id c ∉ seen → c_page c ∈ pages →
  0 ≤ total → total + len (c_text c) ≤ lim_text lim → validate_chunk lim doc_id count pages seen total (chunk_json c) = Ok c.
Proof.
  intros (Hid & Hd & Hp & (b & Hb & Hub) & Hsn & Hsl & Hel & Hef) Hn Hpages H0 Ht. unfold validate_chunk, chunk_json. rewrite Hb.
  change (keys_of (JObj ?l) _) with (Ok l). cbn [mbind result_bind].
  change (field "chunk_id" _) with (JStr (c_chunk_id c)). rewrite identifier_JStr by done. cbn [mbind result_bind].
  change (same_doc doc_id _) with (bool_decide (doc_id = c_doc_id c)). rewrite !bool_decide_true by done. cbn [andb ensure mbind result_bind].
  change (field "page" _) with (JInt (c_page c)). rewrite integer_JInt by done. cbn [mbind result_bind].
  rewrite bool_decide_true by done. cbn [ensure mbind result_bind].
  change (field "bbox" _) with (bbox_json b). rewrite validate_bbox_json by done. cbn [mbind result_bind].
  change (field "text" _) with (JStr (c_text c)). rewrite string_of_JStr by (done || lia). cbn [mbind result_bind].
  rewrite (proj2 (Z.leb_le _ _) Ht). cbn [ensure mbind result_bind].
  change (field "embedding" _) with (JArr (map JFloat (c_embedding c))). rewrite validate_embedding_json by done. cbn [mbind result_bind].
  change (field "source_type" _) with (JStr (c_source_type c)). rewrite string_of_JStr by done. cbn [mbind result_bind].
  unfold mk_Chunk. destruct (Z.ltb_spec (c_page c) 0); [lia|]. destruct c. cbn in *. by subst.
Qed.

Lemma text_of_nonneg cs : 0 ≤ text_of cs.
Proof. induction cs as [|c cs IH]; [done|]. cbn [text_of fold_right]. change (fold_right _ 0 ?l) with (text_of l). unfold len. lia. Qed.

Lemma validate_chunks_json lim doc_id count pages cs : ∀ seen total, 0 ≤ total → total + text_of cs ≤ lim_text lim →
  (∀ c, c ∈ cs → chunk_ok lim doc_id count c ∧ c_chunk_id c ∉ seen ∧ c_page c ∈ pages) → NoDup (map c_chunk_id cs) →
  validate_chunks lim doc_id count pages seen total (map chunk_json cs) = Ok cs.
Proof.
  induction cs as [|c cs IH]; intros seen total H0 Ht Hc Hn; [done|]. cbn [map] in *. apply NoDup_cons in Hn as [Hn Hnd].
  cbn [text_of fold_right] in Ht. change (fold_right _ 0 ?l) with (text_of l) in Ht.
  pose proof (text_of_nonneg cs). assert (0 ≤ len (c_text c)) by (unfold len; lia).
  cbn [validate_chunks]. destruct (Hc c ltac:(left)) as (Hok & Hs & Hp). rewrite validate_chunk_json by (done || lia). cbn [mbind result_bind].
  rewrite IH; [done|lia|lia| |done]. intros d Hd. destruct (Hc d ltac:(by right)) as (? & Hd' & ?). split; [done|]. split; [|done].
  intros [E|?]%elem_of_cons; [|done]. apply Hn. rewrite <-E. by apply (list_elem_of_fmap_2 c_chunk_id).
Qed.

(** The floats of the graph are binary64 values. *)
Definition wf_floats (c : Chunk) : Prop :=
  (∀ b, c_bbox c = Some b → wf_f64 (x0 b) && wf_f64 (y0 b) && wf_f64 (x1 b) && wf_f64 (y1 b) = true) ∧
  Forall (λ f, wf_f64 f = true) (c_embedding c).

(** A value that is printed and read back unchanged by the strict reader. *)
Definition sound_json (v : json) : bool := wf_json v && distinct_keys v && all_finite v.

Lemma sound_parts v : sound_json v = true ↔ wf_json v = true ∧ distinct_keys v = true ∧ all_finite v = true.
Proof. unfold sound_json. rewrite !andb_true_iff. tauto. Qed.

Lemma sound_arr (l : list json) : (∀ v, v ∈ l → sound_json v = true) → sound_json (JArr l) = true.
Proof.
  intros H. apply sound_parts. cbn [wf_json distinct_keys all_finite]. rewrite !forallb_forall.
  split_and!; intros v Hv%list_elem_of_In%H%sound_parts; tauto.
Qed.

Lemma sound_obj (l : dict) : bool_decide (NoDup l.*1) = true → (∀ p, p ∈ l → sound_json p.2 = true) → sound_json (JObj l) = true.
Proof.
  intros Hn H. apply sound_parts. cbn [wf_json distinct_keys all_finite]. rewrite Hn. cbn [andb]. rewrite !forallb_forall.
  split_and!; intros v Hv%list_elem_of_In%H%sound_parts; tauto.
Qed.

Ltac each_item := let p := fresh "p" in let Hp := fresh "Hp" in
  intros p Hp; repeat (apply elem_of_cons in Hp as [->|Hp]; [cbn [snd]; try reflexivity|]); try by apply not_elem_of_nil in Hp.

Lemma sound_float f : wf_f64 f = true → is_finite f = true → sound_json (JFloat f) = true.
Proof. intros H1 H2. unfold sound_json. cbn [wf_json distinct_keys all_finite]. by rewrite H1, H2. Qed.

Lemma sound_bbox b : unit_box b → wf_f64 (x0 b) && wf_f64 (y0 b) && wf_f64 (x1 b) && wf_f64 (y1 b) = true → sound_json (bbox_json b) = true.
Proof. intros (? & ? & ? & ? & _) Hw. rewrite !andb_true_iff in Hw. destruct Hw as [[[? ?] ?] ?]. apply sound_obj; [reflexivity|]. each_item; by apply sound_float. Qed.

Lemma sound_chunk lim doc_id count c : chunk_ok lim doc_id count c → wf_floats c → sound_json (chunk_json c) = true.
Proof.
  intros (_ & _ & _ & (b & Hb & Hu) & _ & _ & _ & Hf) [Hw He]. unfold chunk_json. rewrite Hb. apply sound_obj; [reflexivity|]. each_item.
  - by apply sound_bbox; [|apply Hw].
  - apply sound_arr. intros v (f & -> & Hin)%list_elem_of_fmap. rewrite Forall_forall in Hf, He. by apply sound_float; [apply He|apply Hf].
Qed.

Lemma sound_payload lim chunks doc pages : graph_ok lim doc chunks pages → (∀ c, c ∈ chunks → wf_floats c) →
  sound_json (payload_json (chunks, doc, pages)) = true.
Proof.
  intros [_ _ _ (_ & _ & Hc) _] Hw. unfold payload_json. apply sound_obj; [reflexivity|]. each_item; apply sound_arr; intros v (x & -> & Hx)%list_elem_of_fmap.
  - eapply sound_chunk; [by apply Hc|by apply Hw].
  - reflexivity.
Qed.

Section Honest.
Context `{FRd : FloatRead}.
Variable parse_time : string → option string.

Lemma read_written payload maximum data : sound_json payload = true → py_eq payload reject_payload = false →
  write_result payload maximum = Ok data → read_result (Some data) maximum = Ok payload.
Proof.
  intros (Hw & Hd & Hf)%sound_parts Hr. unfold write_result. rewrite Hf. cbn [negb].
  destruct (maximum <? len (utf8 (print true payload))) eqn:El; [done|]. intros [= <-]. unfold read_result. rewrite El, utf8_decode_utf8.
  cbn [mbind result_bind]. rewrite loads_print by (by apply strict_reads). by rewrite Hr.
Qed.

Lemma validate_payload lim chunks doc pages : graph_ok lim doc chunks pages → len (d_source_path doc) ≤ 4096 →
  digest_text (d_sha256 doc) = true → d_ingested_at doc ≠ "" → len (d_ingested_at doc) ≤ 128 →
  parse_time (d_ingested_at doc) = Some (d_ingested_at doc) →
  validate parse_time (payload_json (chunks, doc, pages)) (d_source_path doc) (d_sha256 doc) lim = Ok (chunks, doc, pages).
Proof.
  intros [Hid Hcount (Hpl & Hpn & Hp) (Hcl & Hcn & Hc) Htext] Hpath Hsha Hat Hatl Hparse. unfold validate, payload_json.
  change (keys_of (JObj ?l) _) with (Ok l). cbn [mbind result_bind].
  change (is_version_1 _ && is_str _ _) with true. cbn [ensure mbind result_bind].
  change (field "document" _) with (document_json doc). unfold document_json. change (keys_of (JObj ?l) _) with (Ok l). cbn [mbind result_bind].
  change (field "doc_id" _) with (JStr (d_doc_id doc)). rewrite identifier_JStr by done. cbn [mbind result_bind].
  change (field "source_path" _) with (JStr (d_source_path doc)). rewrite string_of_JStr by done. cbn [mbind result_bind].
  rewrite bool_decide_true by done. cbn [ensure mbind result_bind].
  change (field "sha256" _) with (JStr (d_sha256 doc)). rewrite hash_of_JStr by (by right). cbn [mbind result_bind].
  rewrite bool_decide_true by done. cbn [ensure mbind result_bind].
  change (field "page_count" _) with (JInt (d_page_count doc)). rewrite integer_JInt by done. cbn [mbind result_bind].
  change (field "ingested_at" _) with (JStr (d_ingested_at doc)). rewrite string_of_JStr by done. cbn [mbind result_bind].
  rewrite Hparse. cbn [mbind result_bind].
  change (field "pages" _) with (JArr (map page_json pages)). change (field "chunks" _) with (JArr (map chunk_json chunks)). cbn iota.
  rewrite !length_map, Hpl, Z.eqb_refl. cbn [negb]. destruct (Z.ltb_spec (lim_chunks lim) (Z.of_nat (length chunks))); [lia|].
  rewrite validate_pages_json; [cbn [mbind result_bind]|intros p Hin; split; [by apply Hp|apply not_elem_of_nil]|done].
  rewrite validate_chunks_json; [cbn [mbind result_bind]; by destruct doc|lia|lia| |done]. intros c Hin. split; [by apply Hc|]. split; [apply not_elem_of_nil|].
  destruct (Hc c Hin) as (_ & _ & Hpage & _).
  assert (∀ i, i ∈ map p_index pages → i ∈ map Z.of_nat (seq 1 (Z.to_nat (d_page_count doc)))) as Hsub.
  { intros i (p & -> & Hin')%list_elem_of_fmap. destruct (Hp p Hin') as (_ & Hi & _). apply list_elem_of_fmap. exists (Z.to_nat (p_index p)).
    split; [lia|]. apply elem_of_seq. lia. }
  assert (map p_index pages ≡ₚ map Z.of_nat (seq 1 (Z.to_nat (d_page_count doc)))) as ->.
  { apply submseteq_length_Permutation; [by apply NoDup_submseteq|]. rewrite !length_map, length_seq. lia. }
  apply list_elem_of_fmap. exists (Z.to_nat (c_page c)). split; [lia|]. apply elem_of_seq. lia.
Qed.

Lemma honest_payload_accepted lim chunks doc pages data : graph_ok lim doc chunks pages → (∀ c, c ∈ chunks → wf_floats c) →
  len (d_source_path doc) ≤ 4096 → digest_text (d_sha256 doc) = true → d_ingested_at doc ≠ "" → len (d_ingested_at doc) ≤ 128 →
  parse_time (d_ingested_at doc) = Some (d_ingested_at doc) → write_result (payload_json (chunks, doc, pages)) (lim_output lim) = Ok data →
  (payload ← read_result (child_file (Ok (chunks, doc, pages)) (lim_output lim)) (lim_output lim);
   validate parse_time payload (d_source_path doc) (d_sha256 doc) lim) = Ok (chunks, doc, pages).
Proof.
  intros G Hw Hpl Hsha Hat Hatl Hparse Hwrite. unfold child_file. cbn [mbind result_bind]. rewrite Hwrite.
  rewrite (read_written (payload_json (chunks, doc, pages)) _ _); [|by apply (sound_payload lim)|reflexivity|done]. cbn [mbind result_bind].
  by apply validate_payload.
Qed.

(** A call the parent accepts up to the child. *)
Definition accepted_call (env : string → option string) (lim : ingest_limits) (filepath suffix : string) (content : bytes) : Prop :=
  configuration env = Ok lim ∧ is_ok (isolation_enabled (env "AXIOM_EXTRACTION_ISOLATION")) = true ∧ suffix ∈ SUFFIXES ∧
  len content ≤ lim_input lim ∧ truthy filepath = true ∧ len filepath ≤ 4096 ∧ exists_str (λ c, bool_decide (c = "000"%char)) filepath = false.

Lemma isolated_after_read env lim filepath suffix content private file chunks doc pages : accepted_call env lim filepath suffix content →
  (payload ← read_result file (lim_output lim); validate parse_time payload (private +:+ "/source" +:+ suffix) (sha256_hex content) lim) =
    Ok (chunks, doc, pages) →
  ingest_document_isolated parse_time env filepath suffix content private (Finished file) =
    Ok (chunks, {| d_doc_id := d_doc_id doc; d_source_path := filepath; d_sha256 := d_sha256 doc;
                   d_page_count := d_page_count doc; d_ingested_at := d_ingested_at doc |}, pages).
Proof.
  intros (Henv & Hiso & Hsuf & Hcl & Hf1 & Hf2 & Hf3) (payload & Hr & Hv)%bind_Ok. unfold ingest_document_isolated.
  rewrite Hf1, Hf3. destruct (Z.ltb_spec 4096 (len filepath)); [lia|]. cbn [negb orb].
  destruct (isolation_enabled _) as [|]; [|done]. cbn [mbind result_bind]. rewrite Henv. cbn [mbind result_bind]. rewrite bool_decide_true by done. cbn [negb].
  destruct (Z.ltb_spec (lim_input lim) (len content)); [lia|]. rewrite Hr. cbn [mbind result_bind]. by rewrite Hv.
Qed.

(** C31.  Parsing in a child that does its work is parsing: the graph it made, when
    it is within the limits, comes out as it went in, but for the path. *)
Theorem honest_child_transparent env lim filepath suffix content private chunks doc pages data :
  accepted_call env lim filepath suffix content → graph_ok lim doc chunks pages → (∀ c, c ∈ chunks → wf_floats c) →
  d_source_path doc = private +:+ "/source" +:+ suffix → d_sha256 doc = sha256_hex content → len (d_source_path doc) ≤ 4096 →
  d_ingested_at doc ≠ "" → len (d_ingested_at doc) ≤ 128 → parse_time (d_ingested_at doc) = Some (d_ingested_at doc) →
  write_result (payload_json (chunks, doc, pages)) (lim_output lim) = Ok data →
  ingest_document_isolated parse_time env filepath suffix content private (Finished (child_file (Ok (chunks, doc, pages)) (lim_output lim))) =
    Ok (chunks, {| d_doc_id := d_doc_id doc; d_source_path := filepath; d_sha256 := d_sha256 doc;
                   d_page_count := d_page_count doc; d_ingested_at := d_ingested_at doc |}, pages).
Proof.
  intros Hcall G Hw Hpath Hsha Hpl Hat Hatl Hparse Hwrite. apply (isolated_after_read env lim); [done|]. rewrite <-Hpath, <-Hsha.
  apply (honest_payload_accepted _ _ _ _ data); try done. rewrite Hsha. apply digest_text_hex.
Qed.
End Honest.

(** ** A concrete run *)

#[local] Existing Instance decimal_float_repr.
#[local] Existing Instance decimal_float_read.

Definition no_settings (name : string) : option string := None.
Definition one_time (s : string) : option string := if bool_decide (s = "2026-01-01T00:00:00+00:00") then Some s else None.
Definition default_ingest_limits : ingest_limits :=
  {| lim_input := 33554432; lim_output := 33554432; lim_chunks := 20000; lim_pages := 10000; lim_text := 4194304; lim_cpu := 120; lim_as := 2147483648 |}.

Definition ship_text : string := join (String "010" "") ["Executive Summary:"; "We ship on Monday."].
Definition ship_chunk : Chunk :=
  {| c_chunk_id := "c-1"; c_doc_id := "d-1"; c_page := 1; c_bbox := Some {| x0 := f0; y0 := lit 1 2; x1 := f1; y1 := lit 3 4 |};
     c_text := ship_text; c_source_type := "text"; c_embedding := [] |}.
Definition ship_page : Page := {| p_doc_id := "d-1"; p_index := 1; p_width_px := 800; p_height_px := 1000; p_image_sha256 := "" |}.
Definition ship_doc (path : string) : Document :=
  {| d_doc_id := "d-1"; d_source_path := path; d_sha256 := sha256_hex ship_text; d_page_count := 1; d_ingested_at := "2026-01-01T00:00:00+00:00" |}.
Definition snapshot_doc : Document := ship_doc "/tmp/axiom-ingest-1/source.txt".
Definition ship_graph : graph := ([ship_chunk], snapshot_doc, [ship_page]).
Definition ship_file : bytes := utf8 (print true (payload_json ship_graph)).

Lemma ship_graph_ok : graph_ok default_ingest_limits snapshot_doc [ship_chunk] [ship_page].
Proof.
  split.
  - split; [discriminate|]. split; [vm_compute; discriminate|reflexivity].
  - split; vm_compute; discriminate.
  - split; [reflexivity|]. split; [apply NoDup_singleton|]. intros p ->%list_elem_of_singleton.
    split; [reflexivity|]. split; [split; vm_compute; discriminate|]. split; [split; vm_compute; discriminate|]. split; [split; vm_compute; discriminate|by left].
  - split; [vm_compute; discriminate|]. split; [apply NoDup_singleton|]. intros c ->%list_elem_of_singleton.
    split; [split; [discriminate|split; [vm_compute; discriminate|reflexivity]]|]. split; [reflexivity|]. split; [split; vm_compute; discriminate|].
    split; [eexists; split; [reflexivity|repeat split; vm_compute; reflexivity]|].
    split; [discriminate|]. split; [vm_compute; discriminate|]. split; [vm_compute; discriminate|apply Forall_nil_2].
  - vm_compute. discriminate.
Qed.

Lemma ship_floats c : c ∈ [ship_chunk] → wf_floats c.
Proof. intros ->%list_elem_of_singleton. split; [|apply Forall_nil_2]. intros b. cbn [c_bbox ship_chunk]. intros [= <-]. vm_compute. reflexivity. Qed.

Lemma ship_written : write_result (payload_json ship_graph) (lim_output default_ingest_limits) = Ok ship_file.
Proof. vm_compute. reflexivity. Qed.

Abbreviation ship_child := (Finished (child_file (Ok ship_graph) (lim_output default_ingest_limits))).

Lemma ship_call : accepted_call no_settings default_ingest_limits "/in/a.txt" ".txt" ship_text.
Proof.
  split; [reflexivity|]. split; [reflexivity|]. split; [apply (bool_decide_unpack _); vm_compute; exact I|]. split; [vm_compute; discriminate|].
  split; [reflexivity|]. split; [vm_compute; discriminate|reflexivity].
Qed.

Lemma honest_child_transparent_witness :
  ingest_document_isolated one_time no_settings "/in/a.txt" ".txt" ship_text "/tmp/axiom-ingest-1" ship_child = Ok ([ship_chunk], ship_doc "/in/a.txt", [ship_page]).
Proof.
  apply (honest_child_transparent one_time no_settings default_ingest_limits "/in/a.txt" ".txt" ship_text "/tmp/axiom-ingest-1"
    [ship_chunk] snapshot_doc [ship_page] ship_file ship_call ship_graph_ok ship_floats eq_refl eq_refl);
    [vm_compute; discriminate|discriminate|vm_compute; discriminate|reflexivity|exact ship_written].
Defined.

Lemma ship_payload : (payload ← read_result (child_file (Ok ship_graph) (lim_output default_ingest_limits)) (lim_output default_ingest_limits);
  validate one_time payload "/tmp/axiom-ingest-1/source.txt" (sha256_hex ship_text) default_ingest_limits) = Ok ship_graph.
Proof.
  exact (honest_payload_accepted one_time default_ingest_limits [ship_chunk] snapshot_doc [ship_page] ship_file ship_graph_ok ship_floats
    ltac:(vm_compute; discriminate) (digest_text_hex ship_text) ltac:(discriminate) ltac:(vm_compute; discriminate) eq_refl ship_written).
Qed.

Lemma ship_isolated :
  ingest_document_isolated one_time no_settings "/in/a.txt" ".txt" ship_text "/tmp/axiom-ingest-1" ship_child =
    Ok ([ship_chunk], ship_doc "/in/a.txt", [ship_page]).
Proof.
  apply (isolated_after_read one_time no_settings default_ingest_limits "/in/a.txt" ".txt" ship_text "/tmp/axiom-ingest-1" _
    [ship_chunk] snapshot_doc [ship_page] ship_call). exact ship_payload.
Qed.

Lemma child_cannot_lie_witness : d_sha256 (ship_doc "/in/a.txt") = sha256_hex ship_text.
Proof.
  destruct (child_cannot_lie one_time no_settings "/in/a.txt" ".txt" ship_text "/tmp/axiom-ingest-1" ship_child _ _ _ ship_isolated)
    as (lim & _ & _ & _ & H & _). exact H.
Defined.

(** A child that claims another digest, or reuses a chunk identifier, is refused. *)
Example forged_digest : validate one_time (payload_json ship_graph) "/tmp/axiom-ingest-1/source.txt" "00" default_ingest_limits =
  invalid "Isolated ingest source/digest mismatch".
Proof. vm_compute. reflexivity. Qed.
Example reused_chunk : validate one_time (payload_json ([ship_chunk; ship_chunk], snapshot_doc, [ship_page])) "/tmp/axiom-ingest-1/source.txt" (sha256_hex ship_text)
  default_ingest_limits = invalid "Duplicate chunk ID or document reference mismatch".
Proof. vm_compute. reflexivity. Qed.
