(* ===== verification/MemoPack.v ===== *)
(** * The classified memo pack

    [packs/memo/pack.py]: header blocks under synonymous labels, dates in
    seven notations, the marking, portion marks, references and entities of a
    memo.  Texts are below U+0100, so the bullet of two patterns is left out;
    a negative lookahead in front of a character is written as the complement
    of its class.  The flag MULTILINE is a transformation of the pattern. *)

From S2P Require Import Prelude PyStr PyText PyFloat PyDict Json DataModel Grounding Orchestrator.
From S2P Require Import Regex InvoicePack PackText.

Definition FIELDS : list string :=
  ["classification_marking"; "control_markings"; "portion_marks"; "originating_org"; "author"; "date_of_information"; "declassify_on";
   "subject"; "entities"; "references"; "handling_instructions"; "pii_spans"].

(** [re.M]: [^] also after, [$] also before a line break. *)
Fixpoint multiline (r : re) : re :=
  match r with
  | At_start => Alt At_start (Behind (CSet false false [Range LF LF]))
  | At_end => Alt (Ahead (Chars (CSet false false [Range LF LF]))) At_end
  | Cat a b => Cat (multiline a) (multiline b)
  | Alt a b => Alt (multiline a) (multiline b)
  | Star g a => Star g (multiline a)
  | Group n a => Group n (multiline a)
  | Ahead a => Ahead (multiline a)
  | _ => r
  end.
Definition compile_M (pattern : string) : re := multiline (compile pattern no_flags).

(** ** Tables *)

Definition MONTH_NAMES : list string :=
  ["january"; "february"; "march"; "april"; "may"; "june"; "july"; "august"; "september"; "october"; "november"; "december"].
Definition MEMO_MONTHS : list (string * Z) := imap (λ i m, (m, Z.of_nat i + 1)) MONTH_NAMES.
Definition MON3 : list (string * Z) := imap (λ i m, (take_str 3 m, Z.of_nat i + 1)) MONTH_NAMES.
Definition COUNTRIES : list string :=
  ["syria"; "cyprus"; "lebanon"; "turkey"; "iraq"; "iran"; "jordan"; "qatar"; "uae"; "united arab emirates"; "saudi arabia"; "egypt"; "libya";
   "yemen"; "oman"; "kuwait"; "bahrain"; "estonia"; "taiwan"; "philippines"; "china"; "russia"; "japan"; "south korea"; "north korea"; "latvia";
   "lithuania"; "greece"; "israel"].
Definition ALIASES : list (string * list string) :=
  [("originating_org", ["FROM"; "ORIGINATOR"; "ORIGINATING OFFICE"; "ORIGINATING ORGANIZATION"; "ORIGINATING ORG"; "OFFICE OF ORIGIN"; "ORIGIN";
                        "ISSUING OFFICE"; "ISSUED BY"]);
   ("author", ["AUTHOR"; "PREPARED BY"; "DRAFTED BY"; "WRITTEN BY"; "ANALYST"; "AUTHORED BY"]);
   ("date_of_information", ["DATE OF INFORMATION"; "DATE OF INFO"; "INFO AS OF"; "INFORMATION AS OF"; "INFO CUTOFF"; "INFORMATION CUTOFF"; "AS OF";
                            "AS OF DATE"; "DTG"; "DATE"]);
   ("declassify_on", ["DECLASSIFY ON"; "DECLASS ON"; "DECLASSIFY"; "DECLASSIFICATION DATE"; "DECLASSIFICATION"; "DECLASSIFY NOT LATER THAN"]);
   ("subject", ["SUBJECT"; "SUBJ"; "TOPIC"; "RE"; "TITLE"]);
   ("handling_instructions", ["HANDLING INSTRUCTIONS"; "HANDLING"; "HANDLING CAVEATS"; "SPECIAL HANDLING"; "HANDLING NOTES"; "DISSEMINATION INSTRUCTIONS"]);
   ("references", ["REFERENCES"; "REFERENCE"; "REFS"; "SOURCES CONSULTED"; "SOURCES"; "SOURCE REFERENCES"; "ENCLOSURES"; "RELATED REPORTING"])].
Definition LABEL_OF : list (string * string) := dict_of (flat_map (λ p, map (λ a, (a, p.1)) p.2) ALIASES).
Definition FUZZY : list (string * string) :=
  [("DECLASS", "declassify_on"); ("DOWNGRAD", "declassify_on"); ("HANDLING", "handling_instructions"); ("DISSEMINATION", "handling_instructions");
   ("CAVEAT", "handling_instructions"); ("ORIGINAT", "originating_org"); ("PREPARED", "author"); ("DRAFTED", "author"); ("SUBJECT", "subject");
   ("TOPIC", "subject"); ("REFERENC", "references"); ("SOURCES", "references"); ("INFO AS OF", "date_of_information");
   ("DATE OF INFO", "date_of_information"); ("AS OF", "date_of_information"); ("DTG", "date_of_information"); ("DATE", "date_of_information")].

(** ** Header blocks *)

Definition LABEL_RE : re := compile "^\s{0,4}([A-Z][A-Z /&\-]{1,40}?)\s*:\s*(.*)$" no_flags.
Definition not_label : re := compile "[^A-Z ]" no_flags.
Definition white : re := compile "\s+" no_flags.
Definition item_start : re := compile "^\s*(?:\d+|[A-Z])[.)]\s" no_flags.
Definition squeeze (s : string) : string := strip (sub white " " s).

Definition norm_label (s : string) : string := replace_all "  " " " (strip (sub not_label " " (map_str upper_char s))).
Definition resolve_label (lbl : string) : option string :=
  let n := norm_label lbl in
  match assoc n LABEL_OF with
  | Some f => Some f
  | None => if starts_with "CLASSIFICATION" n || bool_decide (n = "CLASS") then None else snd <$> find_first (λ p, contains p.1 n) FUZZY
  end.

Record blocks_state := { bl_blocks : list (string * string); bl_cur : option string; bl_buf : list string }.
Definition joined (buf : list string) : string := strip (join " " (map strip buf)).
Definition set_default (k v : string) (d : list (string * string)) : list (string * string) :=
  match assoc k d with Some _ => d | None => dict_set k v d end.
Definition close_block (s : blocks_state) : list (string * string) :=
  match bl_cur s with Some cur => set_default cur (joined (bl_buf s)) (bl_blocks s) | None => bl_blocks s end.

Definition block_line (s : blocks_state) (raw : string) : blocks_state :=
  let m := re_match LABEL_RE raw in
  match m, (y ← m; resolve_label (text_group 1 y)) with
  | Some y, Some label => {| bl_blocks := close_block s; bl_cur := Some label; bl_buf := [text_group 2 y] |}
  | _, _ =>
      if match m with Some y => truthy (norm_label (text_group 1 y)) | None => false end
      then {| bl_blocks := close_block s; bl_cur := None; bl_buf := [] |}
      else match bl_cur s with
           | Some _ =>
               if negb (truthy (strip raw)) || match re_match item_start raw with Some _ => true | None => false end
               then {| bl_blocks := close_block s; bl_cur := None; bl_buf := [] |}
               else {| bl_blocks := bl_blocks s; bl_cur := bl_cur s; bl_buf := bl_buf s ++ [raw] |}
           | None => s
           end
  end.

Definition parse_header_blocks (text : string) : list (string * string) :=
  let blocks := close_block (fold_left block_line (split_char LF text) {| bl_blocks := []; bl_cur := None; bl_buf := [] |}) in
  map (λ p, (p.1, squeeze p.2)) (filter (λ p, truthy (strip p.2) = true) blocks).

(** ** Dates *)

Fixpoint zeros (n : nat) : string := match n with O => "" | S n' => String "0" (zeros n') end.
(** [%02d], [%04d] of a number that is not negative. *)
Definition padded (w : nat) (z : Z) : string := let s := pretty z in zeros (w - String.length s) +:+ s.

Definition month_number (mon : string) : Z :=
  match default 0 (assoc (lower mon) MEMO_MONTHS) with
  | 0 => default 0 (assoc (take_str 3 (lower mon)) MON3)
  | z => z
  end.
Definition century (y : Z) : Z := if y <? 100 then y + (if y <=? 30 then 2000 else 1900) else y.
Definition ymd (y : string) (mo d : Z) : string := y +:+ "-" +:+ padded 2 mo +:+ "-" +:+ padded 2 d.

Definition iso_date : re := compile "(\d{4})-(\d{2})-(\d{2})$" no_flags.
Definition compact_date : re := compile "(\d{4})(\d{2})(\d{2})$" no_flags.
Definition day_month_year : re := compile "(\d{1,2})\s+([A-Za-z]{3,})\.?\s+(\d{2,4})" IGNORECASE.
Definition month_day_year : re := compile "([A-Za-z]{3,})\.?\s+(\d{1,2}),?\s+(\d{4})" IGNORECASE.
Definition slashed_date : re := compile "(\d{1,2})[/-](\d{1,2})[/-](\d{4})$" no_flags.
Definition time_group : re := compile "(\d{6})Z?\s*([A-Z]{3})\s*(\d{2})" no_flags.

(** The first of the patterns that matches. *)
Definition or_try {A} (m : option st) (f : st → A) (rest : A) : A := match m with Some y => f y | None => rest end.

Definition norm_date (s : string) : string :=
  let s := strip_by (λ c, bool_decide (c = "."%char)) (strip s) in
  or_try (re_match iso_date s) (λ _, s) $
  or_try (re_match compact_date s) (λ y, text_group 1 y +:+ "-" +:+ text_group 2 y +:+ "-" +:+ text_group 3 y) $
  or_try (re_match day_month_year s) (λ y, ymd (padded 4 (century (int_group 3 y))) (month_number (text_group 2 y)) (int_group 1 y)) $
  or_try (re_match month_day_year s) (λ y, ymd (text_group 3 y) (month_number (text_group 1 y)) (int_group 2 y)) $
  or_try (re_match slashed_date s) (λ y, ymd (text_group 3 y) (int_group 2 y) (int_group 1 y)) $
  match search time_group s with
  | Some (_, y) => ymd (padded 4 (century (int_group 3 y))) (default 0 (assoc (lower (text_group 2 y)) MON3)) (int_of_digits (take_str 2 (text_group 1 y)))
  | None => s
  end.

(** ** Entities *)

Definition CORP : re := compile
  ("\b(company|corp|corporation|inc|llc|ltd|limited|gmbh|group|solutions|technologies|holdings|industries|shipping|trading|enterprises|" +:+
   "systems|ag|sa|bv|plc)\b\.?$") IGNORECASE.
Definition comma_parts (v : string) : list string := map strip (split_char "," v).
Definition join_commas (l : list string) : string := join ", " l.

(** The last part is dropped while the first argument says so and another is
    left; [fuel]: the number of parts. *)
Fixpoint pop_while (p : list string → string → bool) (fuel : nat) (parts : list string) : list string :=
  match fuel with
  | O => parts
  | S fuel' =>
      match last parts with
      | Some tail => if (1 <? length parts)%nat && p (removelast parts) tail then pop_while p fuel' (removelast parts) else parts
      | None => parts
      end
  end.
Definition pops (p : list string → string → bool) (parts : list string) : list string := pop_while p (length parts) parts.

Definition place_tail (kind : string) (front : list string) (tail : string) : bool :=
  negb (bool_decide (kind = "location")) && (length (split tail) <=? 3)%nat && negb (found CORP tail) &&
  exists_str is_upper (take_str 1 tail) && found CORP (join_commas front).
Definition strip_trailing_place (kind v : string) : string :=
  if negb (bool_decide (kind ∈ ["org"; "facility"; "location"])) then v else join_commas (pops (place_tail kind) (comma_parts v)).

Definition parenthesis_re : re := compile "\(([^)]*)\)\s*$" no_flags.
Definition quantity : re := compile "(qty|approx|est|\d)" IGNORECASE.
Definition degrees : re := compile ("[0-9]+(?:\.[0-9]+)?\s*[" +:+ String "176" "]") no_flags.
Definition whereabouts : re := compile "(suspected|registered|based|located|operating)" IGNORECASE.
Definition apposition : re := compile ",\s+(?:suspected|registered|based|located|operating|a |an )" no_flags.
Definition amount : re := compile ",\s*(?:qty|quantity|approx|approximately|est|x)\.?\s*\d+.*$" IGNORECASE.
(** [c.isdigit()]: also the superscripts of Latin-1. *)
Definition digit_like (c : ascii) : bool := is_digit c || bool_decide (c ∈ ["178"; "179"; "185"]%char).

Definition without_parenthesis (kind v : string) : string :=
  match search parenthesis_re v with
  | Some (x, y) =>
      let inner := text_group 1 y in
      if match re_match quantity inner with Some _ => true | None => false end
      then strip (take_str (String.length v - String.length (rst x)) v)
      else if bool_decide (kind = "equipment") && exists_str digit_like inner then strip inner else v
  | None => v
  end.
Definition country (s : string) : bool := bool_decide (lower s ∈ COUNTRIES).
Definition clean_entity (kind v : string) : string :=
  let v := without_parenthesis kind (strip v) in
  let parts := comma_parts v in
  if bool_decide (kind = "person") then default "" (hd_error parts)
  else
    let parts := pops (λ _ tail, country tail || found degrees tail || match re_match whereabouts tail with Some _ => true | None => false end) parts in
    let parts := match last parts with
      | Some tail => if (1 <? length parts)%nat && country tail then removelast parts else parts
      | None => parts
      end in
    let out := default "" (hd_error (re_split apposition (join_commas parts))) in
    strip_trailing_place kind (strip (sub amount "" out)).

(** ** The fields *)

Definition marking_re : re := compile_M "^\s*(?:CLASSIFICATION|CLASSIFICATION LEVEL|CLASS)\s*:\s*([A-Z ]+?)(?://(.*))?$".
Definition banner_re : re := compile_M "^\s*(TOP SECRET|SECRET|CONFIDENTIAL|UNCLASSIFIED)(?://(.*))?$".
Definition double_slash : re := compile "//" no_flags.
Definition releasable : re := compile "REL TO [A-Z]{2,3}(?:, [A-Z]{2,3})*" no_flags.
Definition date_in : re := compile
  ("(\d{8}|\d{4}-\d{2}-\d{2}|\d{1,2}\s+[A-Za-z]{3,}\.?\s+\d{2,4}|[A-Za-z]{3,}\.?\s+\d{1,2},?\s+\d{4}|\d{1,2}[/-]\d{1,2}[/-]\d{4})") no_flags.
Definition before_parenthesis : re := compile "\s+\(" no_flags.
Definition portion_re : re := compile_M "^\s*(?:\(?(?:\d{1,2}|[A-Z]|[ivxIVX]{1,4})\)?[.)])\s+\(([A-Z][A-Z/ ]{0,20})\)".
Definition reference_re : re := compile_M "^\s*\(([a-z])\)\s+(.+(?:\n\s{2,}.+)*)$".
Definition trailing_parenthesis : re := compile "\s*\([^)]*\)\s*$" no_flags.
Definition entity_re : re := compile_M
  ("^\s*(?:[-*" +:+ String "183" "o]|\d+[.)])?\s*(PERSON|ORG|ORGANIZATION|LOCATION|LOC|EQUIPMENT|EQPT|FACILITY|VESSEL|AIRCRAFT|COMPANY|PROGRAM)\s*:\s*(.+(?:\n\s{4,}(?=[^-*])[^\s].*)*)").

Definition entity_kind (kind : string) : string :=
  default (lower kind) (assoc (lower kind) [("organization", "org"); ("company", "org"); ("loc", "location"); ("eqpt", "equipment")]).

(** [m.group(1)] and the control markings of the line, with the release. *)
Definition marking (text : string) : option (string * list string) :=
  '(_, y) ← (match search marking_re text with Some m => Some m | None => search banner_re text end);
  let marks := stripped_parts (match group 2 y with Some ctrl => re_split double_slash ctrl | None => [] end) in
  let rel := match search releasable text with
    | Some (x, z) => let w := consumed x z in if bool_decide (w ∈ marks) then [] else [w]
    | None => []
    end in
  Some (strip (text_group 1 y), marks ++ rel).

Definition portion_marks (text : string) : list string := map (λ p, text_group 1 p.2) (finditer portion_re text).
Definition reference_of (body : string) : string :=
  let r := strip (default "" (hd_error (split_char "," (sub white " " body)))) in strip (sub trailing_parenthesis "" r).
Definition references (text : string) : list string := map (λ p, reference_of (text_group 2 p.2)) (finditer reference_re text).
Definition entities_of (text : string) : list (string * string) :=
  map (λ p, let k := entity_kind (text_group 1 p.2) in (k, clean_entity k (squeeze (text_group 2 p.2)))) (finditer entity_re text).
Definition unique (l : list (string * string)) : list (string * string) :=
  fold_left (λ acc e, if bool_decide (e ∈ acc) then acc else acc ++ [e]) l [].

Definition entry_json (e : string * string) : json := JObj [("kind", JStr e.1); ("value", JStr e.2)].
Definition name_span (s : string) : json := JObj [("span", JStr s); ("type", JStr "person_name")].
Definition portion_json (i : nat) (mk : string) : json :=
  JObj [("paragraph", JInt (Z.of_nat i + 1)); ("marking", JStr ("(" +:+ strip mk +:+ ")"))].

Definition header_field (k : string) (hdr : list (string * string)) : option string :=
  match assoc k hdr with Some v => if truthy v then Some v else None | None => None end.
Definition field_if (name : string) (v : option json) : list (string * json) := match v with Some v => [(name, v)] | None => [] end.
Definition list_if (name : string) (l : list json) : list (string * json) := match l with [] => [] | _ => [(name, JArr l)] end.

Definition author_of (hdr : list (string * string)) : option string :=
  v ← header_field "author" hdr; Some (strip (default "" (hd_error (split_char "," v)))).
Definition declassify_of (dv : string) : string :=
  match search date_in dv with Some (_, y) => norm_date (text_group 1 y) | None => norm_date dv end.

Definition extract_text (text : string) : list (string * json) :=
  let hdr := parse_header_blocks text in
  let uniq := unique (entities_of text) in
  let people := map snd (filter (λ e, e.1 = "person") uniq) in
  let author := author_of hdr in
  (match marking text with
   | Some (m, marks) => [("classification_marking", JStr m); ("control_markings", JArr (map JStr marks))]
   | None => []
   end) ++
  field_if "originating_org" (v ← header_field "originating_org" hdr; Some (JStr (strip (sub before_parenthesis " (" v)))) ++
  field_if "author" (JStr <$> author) ++
  field_if "date_of_information" (v ← header_field "date_of_information" hdr; Some (JStr (norm_date v))) ++
  field_if "declassify_on" (v ← header_field "declassify_on" hdr; Some (JStr (declassify_of v))) ++
  field_if "subject" (JStr <$> header_field "subject" hdr) ++
  field_if "handling_instructions" (JStr <$> header_field "handling_instructions" hdr) ++
  list_if "portion_marks" (imap portion_json (portion_marks text)) ++
  list_if "references" (map JStr (references text)) ++
  list_if "entities" (map entry_json uniq) ++
  list_if "pii_spans" (map name_span (people ++ match author with Some a => if truthy a then [a] else [] | None => [] end)).

(** ** The pack *)

Section Pack.
Context `{FR : FloatRepr}.
Variable pack_id : string.
Variable gen_id : nat → string.

Definition memo_extraction (chunk_id : string) (p : string * json) : string → Extraction :=
  match p.2 with
  | JStr s => extraction pack_id p.1 s (take_str 100 s) (lit 95 100) chunk_id
  | v => extraction pack_id p.1 (dumps true v) "" (lit 95 100) chunk_id
  end.

Definition memo_extract (chunks : list Chunk) : result (list Extraction) :=
  match chunks with
  | [] => Ok []
  | c :: _ =>
      Ok (imap (λ i p, memo_extraction (c_chunk_id c) p (gen_id i)) (extract_text (join (String LF "") (map c_text chunks))))
  end.

Definition ClassifiedMemoPack : Pack := {| pack_name := "ClassifiedMemoPack"; pack_fields := FIELDS; extract := memo_extract |}.
End Pack.

(** ** The words of a value *)

Definition spaceless (w : string) : Prop := forall_str (λ c, negb (is_space c)) w = true.

(** Every run of characters of [s] without white space occurs in [text]. *)
Definition words_in (s text : string) : Prop := ∀ w, spaceless w → infix_of w s → infix_of w text.

Lemma spaceless_cons c w : spaceless (String c w) ↔ is_space c = false ∧ spaceless w.
Proof. unfold spaceless. cbn [forall_str]. by rewrite andb_true_iff, negb_true_iff. Qed.

Lemma words_in_infix s t : infix_of s t → words_in s t.
Proof. intros H w _ Hw. by eapply infix_trans. Qed.
Lemma words_in_of s t u : infix_of s t → words_in t u → words_in s u.
Proof. intros H Ht w Hs Hw. apply Ht; [done|by eapply infix_trans]. Qed.
Lemma words_in_trans s t u : words_in s t → words_in t u → words_in s u.
Proof. intros H Ht w Hs Hw. auto. Qed.
Lemma words_in_empty t : words_in "" t.
Proof. intros w _ (a & b & E). destruct a; [destruct w|]; [apply infix_nil|discriminate..]. Qed.

(** Such a run in two texts around white space lies in one of them. *)
Lemma spaceless_prefix w a c b t : is_space c = true → spaceless w → a +:+ String c b = w +:+ t → infix_of w a.
Proof.
  intros Hc Hw E. enough (∃ u, a = w +:+ u) as [u ->] by (by exists "", u). revert w Hw E.
  induction a as [|d a IH]; intros [|d' w] Hw E; try (by eexists).
  - rewrite app_nil_l_str, app_cons_str in E. injection E as -> _. apply spaceless_cons in Hw as [? _]. congruence.
  - rewrite !app_cons_str in E. injection E as -> E. apply spaceless_cons in Hw as [_ Hw]. destruct (IH w Hw E) as [u ->]. by exists u.
Qed.
Lemma spaceless_joined w a c b : is_space c = true → spaceless w → infix_of w (a +:+ String c b) → infix_of w a ∨ infix_of w b.
Proof.
  intros Hc Hw (x & y & E). revert x E. induction a as [|d a IH]; intros [|d' x] E.
  - rewrite app_nil_l_str in E. left. by eapply (spaceless_prefix w "" c b y).
  - right. rewrite app_nil_l_str, app_cons_str in E. injection E as _ ->. by exists x, y.
  - left. rewrite app_nil_l_str in E. by eapply spaceless_prefix.
  - rewrite !app_cons_str in E. injection E as _ E. destruct (IH _ E); [left; by apply infix_cons|by right].
Qed.

Lemma words_in_join l text : Forall (λ x, words_in x text) l → words_in (join " " l) text.
Proof.
  induction 1 as [|x l Hx Hl IH]; [apply words_in_empty|]. destruct l as [|y l]; [done|].
  change (join " " (x :: y :: l)) with (x +:+ String " " (join " " (y :: l))).
  intros w Hw [H|H]%spaceless_joined; [by apply Hx|by apply IH|done..].
Qed.

Lemma render_prefix l : ∀ w u, spaceless w → render " " l = w +:+ u → ∃ v, Regex.text_of l = w +:+ v.
Proof.
  induction l as [|[c|v y] l IH]; intros [|d w] u Hw E; try (by eexists).
  - cbn in E. injection E as -> E. apply spaceless_cons in Hw as [_ Hw]. destruct (IH w u Hw E) as [v Hv]. exists v. change (Regex.text_of (Plain d :: l)) with (String d (Regex.text_of l)). by rewrite Hv.
  - cbn in E. injection E as <- _. by apply spaceless_cons in Hw as [? _].
Qed.
Lemma render_words l : words_in (render " " l) (Regex.text_of l).
Proof.
  intros w Hw (a & b & E). revert a E. induction l as [|[c|v y] l IH]; intros a E.
  - apply (words_in_empty _ w Hw). by exists a, b.
  - destruct a as [|d a]. + destruct (render_prefix (Plain c :: l) w b Hw E) as [v Hv]. rewrite Hv. by exists "", v.
    + cbn in E. injection E as _ E. change (Regex.text_of (Plain c :: l)) with (String c (Regex.text_of l)). by apply infix_cons, (IH a).
  - destruct a as [|d a]. + destruct (render_prefix (Found v y :: l) w b Hw E) as [z Hz]. rewrite Hz. by exists "", z.
    + cbn in E. injection E as _ E. apply IH in E as (p & q & E). change (Regex.text_of (Found v y :: l)) with (v +:+ Regex.text_of l). rewrite E. exists (v +:+ p), q. by rewrite app_assoc_str.
Qed.

Lemma squeezed_words s : words_in (sub white " " s) s.
Proof.
  unfold sub. assert (Regex.text_of (segments white s) = s) as Hs.
  { apply (scanned_text white None), segments_scanned. apply (bool_decide_unpack _). vm_compute. exact I. }
  rewrite <-Hs at 2. apply render_words.
Qed.
Lemma words_squeeze s text : words_in s text → words_in (squeeze s) text.
Proof. intros H. apply (words_in_of _ _ _ (infix_strip _)). by apply (words_in_trans _ _ _ (squeezed_words s)). Qed.
Lemma words_strip s text : words_in s text → words_in (strip s) text.
Proof. apply words_in_of, infix_strip. Qed.

Lemma split_char_pieces sep s : ∃ w ws, split_char sep s = w :: ws ∧ (∃ t, s = w +:+ t) ∧ Forall (λ x, infix_of x s) (w :: ws).
Proof.
  induction s as [|c s (w & ws & E & [t Ht] & H)]; cbn [split_char].
  - exists "", []. split; [done|]. split; [by exists ""|]. constructor; [apply infix_refl|constructor].
  - destruct (decide (c = sep)).
    + exists "", (split_char sep s). split; [done|]. split; [by exists (String c s)|]. rewrite E. constructor; [apply infix_nil|].
      eapply Forall_impl; [exact H|]. intros x. apply infix_cons.
    + rewrite E. exists (String c w), ws. split; [done|]. split; [exists t; by rewrite Ht|]. inversion H as [|? ? _ Hws]; subst.
      constructor; [exists "", t; done|]. eapply Forall_impl; [exact Hws|]. intros x. apply infix_cons.
Qed.
Lemma split_char_infix sep s x : x ∈ split_char sep s → infix_of x s.
Proof. destruct (split_char_pieces sep s) as (w & ws & -> & _ & H). rewrite Forall_forall in H. apply H. Qed.

(** ** Header values consist of words of the text *)

Section Header.
Variable text : string.

Definition sound_blocks (s : blocks_state) : Prop :=
  Forall (λ p, words_in p.2 text) (bl_blocks s) ∧ Forall (λ x, words_in x text) (bl_buf s).

Lemma joined_words l : Forall (λ x, words_in x text) l → words_in (joined l) text.
Proof.
  intros H. apply words_strip, words_in_join, Forall_fmap. eapply Forall_impl; [exact H|]. intros x. apply words_strip.
Qed.

Lemma close_words s : sound_blocks s → Forall (λ p, words_in p.2 text) (close_block s).
Proof.
  intros [Hb Hu]. unfold close_block, set_default. destruct (bl_cur s) as [k|]; [|done]. destruct (assoc k (bl_blocks s)); [done|].
  apply Forall_dict_set; [done|]. by apply joined_words.
Qed.

Lemma block_line_sound s raw : infix_of raw text → sound_blocks s → sound_blocks (block_line s raw).
Proof.
  intros Hr Hs. pose proof (close_words s Hs) as Hc. unfold block_line. set (m := re_match LABEL_RE raw) in *.
  assert (∀ buf cur, Forall (λ x, words_in x text) buf → sound_blocks {| bl_blocks := close_block s; bl_cur := cur; bl_buf := buf |}) as Hclose by done.
  assert (sound_blocks
    (if match m with Some y => truthy (norm_label (text_group 1 y)) | None => false end
     then {| bl_blocks := close_block s; bl_cur := None; bl_buf := [] |}
     else match bl_cur s with
          | Some _ =>
              if negb (truthy (strip raw)) || match re_match item_start raw with Some _ => true | None => false end
              then {| bl_blocks := close_block s; bl_cur := None; bl_buf := [] |}
              else {| bl_blocks := bl_blocks s; bl_cur := bl_cur s; bl_buf := bl_buf s ++ [raw] |}
          | None => s
          end)) as Hother.
  { destruct (match m with Some _ => _ | None => _ end); [by apply Hclose|]. destruct (bl_cur s); [|done].
    destruct (_ || _); [by apply Hclose|]. destruct Hs as [Hb Hu]. split; [done|]. apply Forall_app. split; [done|]. constructor; [|constructor].
    by apply words_in_infix. }
  destruct m as [y|] eqn:Em; [|done]. cbn [mbind option_bind]. destruct (resolve_label (text_group 1 y)) as [label|]; [|done].
  apply Hclose. constructor; [|constructor]. apply words_in_infix. eapply infix_trans; [|exact Hr]. by eapply re_match_text.
Qed.

Lemma header_words k v : (k, v) ∈ parse_header_blocks text → words_in v text.
Proof.
  unfold parse_header_blocks. intros ([k' v'] & [= -> ->] & [_ H]%list_elem_of_filter)%list_elem_of_fmap. apply words_squeeze.
  assert (sound_blocks (fold_left block_line (split_char LF text) {| bl_blocks := []; bl_cur := None; bl_buf := [] |})) as Hs.
  { assert (∀ l s, Forall (λ x, infix_of x text) l → sound_blocks s → sound_blocks (fold_left block_line l s)) as Hf.
    { induction l as [|x l IH]; intros s Hl Hs; [done|]. inversion Hl; subst. cbn [fold_left]. apply IH; [done|]. by apply block_line_sound. }
    apply Hf; [|by split; constructor]. apply Forall_forall. intros x. apply split_char_infix. }
  apply close_words in Hs. rewrite Forall_forall in Hs. by apply Hs in H.
Qed.

Lemma header_field_words k v : header_field k (parse_header_blocks text) = Some v → words_in v text ∧ v ≠ "".
Proof.
  unfold header_field. destruct (assoc k _) as [v'|] eqn:E; [|done]. destruct (truthy v') eqn:Et; [|done]. intros [= <-].
  split; [|by apply truthy_spec]. by apply assoc_Some_elem, header_words in E.
Qed.
End Header.

(** ** What each field of a memo is *)

(** The value of a field and the text it was read from. *)
Inductive memo_evidence (text : string) : string → json → Prop :=
| Marking_quoted s : infix_of s text → memo_evidence text "classification_marking" (JStr s)
| Controls_quoted l : Forall (λ s, infix_of s text) l → memo_evidence text "control_markings" (JArr (map JStr l))
| Org_from v : words_in v text → memo_evidence text "originating_org" (JStr (strip (sub before_parenthesis " (" v)))
| Header_words name s : name ∈ ["author"; "subject"; "handling_instructions"] → words_in s text → memo_evidence text name (JStr s)
| Date_of name s : name ∈ ["date_of_information"; "declassify_on"] → words_in s text → memo_evidence text name (JStr (norm_date s))
| Portions l : Forall (λ s, infix_of s text) l → memo_evidence text "portion_marks" (JArr (imap portion_json l))
| References_of l : l = references text → memo_evidence text "references" (JArr (map JStr l))
| Entities_unique l : NoDup l → (∀ e, e ∈ l ↔ e ∈ entities_of text) → memo_evidence text "entities" (JArr (map entry_json l))
| Persons l : Forall (λ s, (∃ k, (k, s) ∈ entities_of text ∧ k = "person") ∨ words_in s text) l → memo_evidence text "pii_spans" (JArr (map name_span l)).

Lemma stripped_parts_in l x : x ∈ stripped_parts l → ∃ y, y ∈ l ∧ infix_of x y.
Proof. unfold stripped_parts. intros [_ (y & -> & Hy)%list_elem_of_fmap]%list_elem_of_filter. exists y. split; [done|apply infix_strip]. Qed.

Lemma marking_quoted text m marks : marking text = Some (m, marks) → infix_of m text ∧ Forall (λ s, infix_of s text) marks.
Proof.
  unfold marking. destruct (match search marking_re text with Some m => Some m | None => search banner_re text end) as [[x y]|] eqn:E; [|done].
  assert (∃ r, search r text = Some (x, y)) as [r Hr].
  { destruct (search marking_re text) as [q|] eqn:E1; [exists marking_re; congruence|by exists banner_re]. }
  cbn [mbind option_bind]. intros [= <- <-]. split; [apply infix_of_strip; by eapply search_text|]. apply Forall_app. split.
  - apply Forall_forall. intros s (w & Hw & Hs)%stripped_parts_in. destruct (group 2 y) as [ctrl|] eqn:Eg; [|by apply not_elem_of_nil in Hw].
    eapply infix_trans; [exact Hs|]. apply re_split_infix in Hw; [|apply (bool_decide_unpack _); vm_compute; exact I].
    eapply infix_trans; [exact Hw|]. by eapply search_group.
  - destruct (search releasable text) as [[p q]|] eqn:Er; [|constructor]. destruct (bool_decide _); constructor; [|constructor].
    apply search_at_Some in Er as (a & -> & Ep & _ & Hm). destruct (matches_window _ _ _ Hm) as (w & Ew & _).
    rewrite (consumed_window p q w Ew), Ew. by eexists _, _.
Qed.

Lemma entries_unique l : NoDup (unique l) ∧ ∀ e, e ∈ unique l ↔ e ∈ l.
Proof.
  unfold unique. assert (∀ (l acc : list (string * string)), NoDup acc → let r := fold_left (λ acc e, if bool_decide (e ∈ acc) then acc else acc ++ [e]) l acc in
    NoDup r ∧ ∀ e, e ∈ r ↔ e ∈ acc ∨ e ∈ l) as H.
  { clear l. induction l as [|x l IH]; intros acc Hn; cbn [fold_left].
    { split; [done|]. intros e. rewrite elem_of_nil. tauto. }
    destruct (bool_decide_reflect (x ∈ acc)) as [Hx|Hx].
    - destruct (IH acc Hn) as [H1 H2]. split; [done|]. intros e. rewrite H2, elem_of_cons. naive_solver.
    - destruct (IH (acc ++ [x])) as [H1 H2].
      { apply NoDup_app. split; [done|]. split; [|apply NoDup_singleton]. intros y Hy ->%list_elem_of_singleton. done. }
      split; [done|]. intros e. rewrite H2, elem_of_app, list_elem_of_singleton, elem_of_cons. tauto. }
  destruct (H l [] (NoDup_nil_2)) as [H1 H2]. split; [done|]. intros e. rewrite H2, elem_of_nil. tauto.
Qed.

(** The order in which fields are put into the result. *)
Definition FIELD_ORDER : list string :=
  ["classification_marking"; "control_markings"; "originating_org"; "author"; "date_of_information"; "declassify_on"; "subject";
   "handling_instructions"; "portion_marks"; "references"; "entities"; "pii_spans"].

Lemma order_fields k : k ∈ FIELD_ORDER → k ∈ FIELDS.
Proof.
  assert (Forall (λ k, k ∈ FIELDS) FIELD_ORDER) as H by (apply (bool_decide_unpack _); vm_compute; exact I).
  rewrite Forall_forall in H. apply H.
Qed.

Lemma field_if_names name v : (field_if name v).*1 `sublist_of` [name].
Proof. destruct v; cbn; [done|]. apply sublist_nil_l. Qed.
Lemma list_if_names name l : (list_if name l).*1 `sublist_of` [name].
Proof. destruct l; cbn; [apply sublist_nil_l|done]. Qed.

Lemma extract_text_names text : (extract_text text).*1 `sublist_of` FIELD_ORDER.
Proof.
  unfold extract_text. cbn zeta. rewrite !fmap_app.
  change FIELD_ORDER with (["classification_marking"; "control_markings"] ++ ["originating_org"] ++ ["author"] ++ ["date_of_information"] ++
    ["declassify_on"] ++ ["subject"] ++ ["handling_instructions"] ++ ["portion_marks"] ++ ["references"] ++ ["entities"] ++ ["pii_spans"]).
  repeat (apply sublist_app; [first [apply field_if_names | apply list_if_names | destruct (marking text) as [[m marks]|]; [done|apply sublist_nil_l]]|]).
  apply list_if_names.
Qed.

Lemma field_if_elem name v p : p ∈ field_if name v → ∃ w, v = Some w ∧ p = (name, w).
Proof. destruct v; cbn; [intros ->%list_elem_of_singleton; by eexists|by intros ?%not_elem_of_nil]. Qed.
Lemma list_if_elem name l p : p ∈ list_if name l → p = (name, JArr l).
Proof. destruct l; cbn; [by intros ?%not_elem_of_nil|by intros ->%list_elem_of_singleton]. Qed.

Lemma author_words text a : author_of (parse_header_blocks text) = Some a → words_in a text.
Proof.
  unfold author_of. intros H. destruct (header_field _ _) as [v|] eqn:E; [|done]. cbn [mbind option_bind] in H. injection H as <-.
  apply header_field_words in E as [E _]. apply words_strip. apply (words_in_of _ v); [|done].
  destruct (split_char "," v) as [|w ws] eqn:Es; cbn; [apply infix_nil|]. apply (split_char_infix "," v). rewrite Es. by left.
Qed.

Lemma declassify_words dv text : words_in dv text → ∃ d, declassify_of dv = norm_date d ∧ words_in d text.
Proof.
  unfold declassify_of. intros H. destruct (search date_in dv) as [[x y]|] eqn:E; [|by exists dv].
  eexists. split; [done|]. eapply words_in_of; [|exact H]. by eapply search_text.
Qed.

Lemma portion_marks_in text : Forall (λ s, infix_of s text) (portion_marks text).
Proof.
  apply Forall_forall. unfold portion_marks. intros s ([w y] & -> & H)%list_elem_of_fmap. cbn [snd]. unfold text_group.
  destruct (group 1 y) as [v|] eqn:E; cbn; [|apply infix_nil]. eapply finditer_groups; [|exact H|exact E].
  apply (bool_decide_unpack _). vm_compute. exact I.
Qed.

Lemma extract_text_evidence text name v : (name, v) ∈ extract_text text → memo_evidence text name v.
Proof.
  unfold extract_text. cbn zeta. rewrite !elem_of_app.
  intros [H|[H|[H|[H|[H|[H|[H|[H|[H|[H|H]]]]]]]]]].
  - destruct (marking text) as [[m marks]|] eqn:E; [|by apply not_elem_of_nil in H]. apply marking_quoted in E as [Hm Hl].
    apply elem_of_cons in H as [[= -> ->]|[= -> ->]%list_elem_of_singleton]; by constructor.
  - apply field_if_elem in H as (w & Hv & [= -> ->]). destruct (header_field _ _) as [x|] eqn:E; [|done]. injection Hv as <-. constructor.
    exact (proj1 (header_field_words _ _ _ E)).
  - apply field_if_elem in H as (w & Hv & [= -> ->]). destruct (author_of _) as [a|] eqn:E; [|done]. injection Hv as <-.
    constructor; [set_solver|by apply author_words].
  - apply field_if_elem in H as (w & Hv & [= -> ->]). destruct (header_field _ _) as [x|] eqn:E; [|done]. injection Hv as <-.
    constructor; [set_solver|exact (proj1 (header_field_words _ _ _ E))].
  - apply field_if_elem in H as (w & Hv & [= -> ->]). destruct (header_field _ _) as [x|] eqn:E; [|done]. injection Hv as <-.
    apply header_field_words in E as [E _]. destruct (declassify_words _ _ E) as (d & -> & Hd). constructor; [set_solver|done].
  - apply field_if_elem in H as (w & Hv & [= -> ->]). destruct (header_field _ _) as [x|] eqn:E; [|done]. injection Hv as <-.
    constructor; [set_solver|exact (proj1 (header_field_words _ _ _ E))].
  - apply field_if_elem in H as (w & Hv & [= -> ->]). destruct (header_field _ _) as [x|] eqn:E; [|done]. injection Hv as <-.
    constructor; [set_solver|exact (proj1 (header_field_words _ _ _ E))].
  - apply list_if_elem in H as [= -> ->]. constructor. apply portion_marks_in.
  - apply list_if_elem in H as [= -> ->]. by constructor.
  - apply list_if_elem in H as [= -> ->]. constructor; apply entries_unique.
  - apply list_if_elem in H as [= -> ->]. constructor. apply Forall_app. split.
    + apply Forall_forall. intros s ([k s'] & -> & [Hk Hs]%list_elem_of_filter)%list_elem_of_fmap. cbn in *. left. exists k.
      split; [|done]. by apply entries_unique.
    + destruct (author_of _) as [a|] eqn:E; [|constructor]. destruct (truthy a); constructor; [|constructor]. right. by apply author_words.
Qed.

Section Promise.
Context `{FR : FloatRepr}.
Variable pack_id : string.
Variable gen_id : nat → string.

Definition value_text (v : json) : string := match v with JStr s => s | _ => dumps true v end.

(** C4.  The pack never fails, gives every field at most once and in a fixed
    order, all of them of the first chunk; and it invents nothing: markings
    are quotations of the memo, every word of the author, the subject, the
    handling instructions and of what a date was read from stands in the memo,
    and the entities are those of its lines, each once. *)
Theorem memo_extractions_quoted chunks : ∃ exts, memo_extract pack_id gen_id chunks = Ok exts ∧
  map e_field_name exts `sublist_of` FIELD_ORDER ∧
  ∀ e, e ∈ exts → e_field_name e ∈ FIELDS ∧ from_option c_chunk_id "" (hd_error chunks) = e_chunk_id e ∧
    ∃ v, memo_evidence (join (String LF "") (map c_text chunks)) (e_field_name e) v ∧ e_value e = value_text v ∧
      (e_source_span e = "" ∨ e_source_span e = take_str 100 (e_value e)).
Proof.
  unfold memo_extract. destruct chunks as [|c chunks].
  { exists []. split; [done|]. split; [apply sublist_nil_l|]. by intros e ?%not_elem_of_nil. }
  set (text := join _ _). eexists. split; [reflexivity|].
  assert (∀ cid p id, e_field_name (memo_extraction pack_id cid p id) = p.1 ∧ e_chunk_id (memo_extraction pack_id cid p id) = cid ∧
    e_value (memo_extraction pack_id cid p id) = value_text p.2 ∧ (e_source_span (memo_extraction pack_id cid p id) = "" ∨
      e_source_span (memo_extraction pack_id cid p id) = take_str 100 (value_text p.2))) as He.
  { intros cid [k v] id. destruct v; cbn; auto. }
  split.
  - assert (map e_field_name (imap (λ i p, memo_extraction pack_id (c_chunk_id c) p (gen_id i)) (extract_text text)) = (extract_text text).*1) as ->.
    { generalize gen_id. generalize (extract_text text). clear gen_id. induction l as [|p l IH]; intros g; [done|]. cbn. f_equal; [apply He|]. apply (IH (λ i, g (S i))). }
    apply extract_text_names.
  - intros e (i & [k v] & -> & Hp)%elem_of_lookup_imap. apply list_elem_of_lookup_2 in Hp.
    destruct (He (c_chunk_id c) (k, v) (gen_id i)) as (-> & -> & -> & Hs). cbn [fst snd] in *. split; [|split; [done|]].
    + assert (k ∈ FIELD_ORDER) as Hk. { eapply elem_of_sublist; [|apply (extract_text_names text)]. by apply (list_elem_of_fmap_2 fst _ (k, v)). }
      by apply order_fields.
    + exists v. split; [by apply extract_text_evidence|done].
Qed.
End Promise.

(** ** A memo *)

(** Every pattern is within the syntax of [Regex]. *)
Definition is_never (r : re) : bool := match r with Chars (CSet false false []) => true | _ => false end.
Example patterns_are_parsed : forallb (λ r, negb (is_never r))
  [LABEL_RE; not_label; white; item_start; iso_date; compact_date; day_month_year; month_day_year; slashed_date; time_group; CORP; parenthesis_re;
   quantity; degrees; whereabouts; apposition; amount; marking_re; banner_re; double_slash; releasable; date_in; before_parenthesis; portion_re;
   reference_re; trailing_parenthesis; entity_re] = true.
Proof. vm_compute. reflexivity. Qed.

Definition nl (l : list string) : string := join (String LF "") l.
Definition sample_memo : string := nl
  ["CLASSIFICATION: SECRET//NOFORN//REL TO USA, GBR"; "ORIGINATOR: Office of  Analysis (OA)"; "PREPARED BY: J. Smith, Analyst"; "DATE OF INFO: 12 March 2024";
   "DECLASS ON: 20490312"; "SUBJ: Movement of"; "  vessels"; ""; "1. (S) The vessel left."; "2. (U) Nothing else."; "VESSEL: MV Star, Syria";
   "PERSON: Ali Hassan, manager"; "ORG: Acme Shipping Ltd, Tartus"; "(a) Report 12, p. 3 (U)"].

Example sample_fields :
  omap (λ p, match p.2 with JStr s => Some (p.1, s) | _ => None end) (extract_text sample_memo) =
    [("classification_marking", "SECRET"); ("originating_org", "Office of Analysis (OA)"); ("author", "J. Smith");
     ("date_of_information", "2024-03-12"); ("declassify_on", "2049-03-12"); ("subject", "Movement of vessels")] ∧
  marking sample_memo = Some ("SECRET", ["NOFORN"; "REL TO USA, GBR"]) ∧ portion_marks sample_memo = ["S"; "U"] ∧ references sample_memo = ["Report 12"] ∧
  unique (entities_of sample_memo) = [("vessel", "MV Star"); ("person", "Ali Hassan"); ("org", "Acme Shipping Ltd")].
Proof. vm_compute. by repeat split. Qed.

Example date_notations : map norm_date ["2024-03-12"; "20240312."; "12 mar. 24"; "March 12, 2024"; "12/3/2024"; "121530Z MAR 24"] =
  repeat "2024-03-12" 6.
Proof. vm_compute. reflexivity. Qed.

(** A word that is no month gives month zero. *)
Example unknown_month_is_zero : norm_date "12 Foo 2026" = "2026-00-12".
Proof. vm_compute. reflexivity. Qed.

(** A label that merely contains a keyword is taken for it. *)
Example keyword_inside_label : resolve_label "CANDIDATE" = Some "date_of_information" ∧
  parse_header_blocks "CANDIDATE: J. Smith" = [("date_of_information", "J. Smith")].
Proof. vm_compute. by repeat split. Qed.
