(* ===== verification/OverlayApi.v ===== *)
(** * The document routes of the overlay server

    [resolve_sandbox_path], [/api/extract-document] and [/api/ask-document] of
    [overlay/server.py], with [kairo/core/classifier.py].  The file system
    and the child that parses ([IsolatedIngest]) are arguments; the packs, the
    filter, the compressor, the orchestrator and its stores are the ones of
    this library.  A value returned by these routes carries
    the evidence of its grounding in the bytes that were captured.  Durations
    are left out. *)

From S2P Require Import Prelude PyStr PyText PyFloat PyDict Json JsonRead Sha256 DataModel QualityGate MemoryStore Provenance Grounding Orchestrator.
From S2P Require Import Regex Masking SecurityFilter Compressor InvoicePack PaperPack GenericPack ContractPack MemoPack InvoiceRun Dsse IsolatedIngest.

(** [HTTPException] *)
Definition http {A} (code : Z) (msg : string) : result A := raise ("HTTPException " +:+ pretty code) msg.
Definition is_http (e : exn) : bool := starts_with "HTTPException " (exn_class e).

(** ** Document types *)

Definition memo_keywords : list string := ["classification:"; "declassify on:"; "date of information:"; "rel to"].
Definition invoice_keywords : list string :=
  ["invoice"; "invoice number"; "amount due"; "total amount"; "bill to"; "payment terms"; "subtotal"; "sub-total"; "tax amount"; "faktura";
   "rechnung"; "receipt"].
Definition contract_keywords : list string :=
  ["agreement"; "party"; "parties"; "whereas"; "governing law"; "termination"; "non-disclosure"; "confidential"; "obligations"; "shall";
   "covenant"; "hereby"; "hereinafter"; "partnership"].
Definition paper_keywords : list string :=
  ["abstract"; "references"; "doi"; "et al"; "methodology"; "experimental results"; "conclusions"; "keywords"; "arxiv"; "figure"; "table"].

Definition score (keywords : list string) (text_lower : string) : Z :=
  Z.of_nat (length (List.filter (λ kw, contains kw text_lower) keywords)).

(** [max(scores, key=scores.get)]: the first of the best. *)
Definition best_type (invoice contract paper : Z) : string * Z :=
  let '(t, n) := if invoice <? contract then ("contract", contract) else ("invoice", invoice) in
  if n <? paper then ("paper", paper) else (t, n).

(** A line that starts with the label. *)
Definition classification_line (text : string) : bool :=
  starts_with "CLASSIFICATION:" text || contains (String "010" "CLASSIFICATION:") text.

Definition classify_document (text : string) (page_count : Z) : string :=
  let t := lower text in
  if (1 <=? score memo_keywords t) || classification_line text then "memo"
  else
    let invoice := score invoice_keywords t in
    let contract := score contract_keywords t in
    let paper := score paper_keywords t in
    let '(best, n) := best_type invoice contract paper in
    if n =? 0 then if 8 <=? page_count then "paper" else if 5 <=? page_count then "contract" else "generic"
    else if bool_decide (best = "contract") && (contract <? 2) then
      if contains "whereas" t || contains "governing law" t || contains "parties" t then "contract"
      else if 0 <? invoice then "invoice" else if 0 <? paper then "paper" else "generic"
    else best.

(** Coordinates as they are written in the link. *)
Definition build_source_link (doc_id : string) (page : Z) (x y w h : string) : string :=
  "kairo://doc/" +:+ doc_id +:+ "?page=" +:+ pretty page +:+ "&x=" +:+ x +:+ "&y=" +:+ y +:+ "&w=" +:+ w +:+ "&h=" +:+ h.

(** ** The sandbox *)

(** [Path.resolve] ([None]: it raised), [is_file], and [os.open] with [fstat]:
    the size declared and the bytes that can be read. *)
Record filesystem := { fs_resolve : string → option string; fs_is_file : string → bool; fs_open : string → result (Z * bytes) }.

Record server := {
  sv_fixtures : string; sv_base : string; sv_cwd : string; sv_allowed_roots : list string; sv_max_upload : Z }.

(** [is_relative_to], on resolved paths: by components. *)
Definition is_relative_to (root path : string) : bool := bool_decide (path = root) || starts_with (root +:+ "/") path.

Definition candidates (sv : server) (p : string) : list string :=
  if starts_with "/" p then [p] else [sv_fixtures sv +:+ "/" +:+ p; sv_base sv +:+ "/" +:+ p; sv_cwd sv +:+ "/" +:+ p; p].

Definition admissible (sv : server) (fs : filesystem) (cand : string) : option string :=
  resolved ← fs_resolve fs cand;
  if fs_is_file fs resolved && existsb (λ root, is_relative_to root resolved) (sv_allowed_roots sv) then Some resolved else None.

Definition resolve_sandbox_path (sv : server) (fs : filesystem) (p : string) : result string :=
  if negb (truthy (strip p)) || exists_str (λ c, bool_decide (c = "000"%char)) p then http 422 "Invalid file path"
  else
    match hd_error (omap (admissible sv fs) (candidates sv p)) with
    | Some resolved => Ok resolved
    | None => http 404 ("File " +:+ p +:+ " not found")
    end.

(** [_capture_extraction_source], on a system with the POSIX protections. *)
Definition capture_extraction_source (sv : server) (fs : filesystem) (filepath : string) : result bytes :=
  '(size, data) ← fs_open fs filepath;
  if sv_max_upload sv <? size then http 413 "Document exceeds byte budget"
  else
    let content := take_str (Z.to_nat (sv_max_upload sv + 1)) data in
    if sv_max_upload sv <? len content then http 413 "Document exceeds byte budget" else Ok content.

(** ** Extraction *)

Record api_field := {
  af_value : string; af_bbox : option (f64 * f64 * f64 * f64); af_page : Z; af_cascade : string; af_confidence : f64; af_link : string }.
Record api_response := {
  ar_doc_id : string; ar_doc_type : string; ar_fields : list (string * api_field); ar_refused : list string }.

Definition upper (s : string) : string := map_str upper_char s.

Section Api.
Context `{FRd : FloatRead} `{NU : Numerics} `{SO : SqlOrder}.
Variable sv : server.
Variable fs : filesystem.
Variable parse_time : string → option string.
Variable read_price : string → result f64.
Variable gen_id : nat → string.
Variable counter : option (string → result Z).

(** [_CapturedIngestor] *)
Definition captured_ingestor (g : graph) : Ingestor := {| ingest path :=
  let '(chunks, doc, pages) := g in
  if negb (bool_decide (path = d_source_path doc)) then raise "ValueError" "Captured ingestion belongs to a different source"
  else Ok (chunks, doc, pages) |}.

Definition pack_class (doc_type : string) : Pack :=
  if bool_decide (doc_type = "invoice") then InvoicePack "invoice-v1" read_price gen_id
  else if bool_decide (doc_type = "contract") then ContractPack "contract-v1" gen_id
  else if bool_decide (doc_type = "paper") then PaperPack "paper-v1" gen_id
  else if bool_decide (doc_type = "memo") then ClassifiedMemoPack "classified-memo-v1" gen_id
  else GenericPack "generic-v1" gen_id.

Definition request_filter : SecurityFilter := local_filter {| injection_threshold := INJECTION_THRESHOLD; enable_pii_scan := false |}.

(** The pipeline of one request, over stores of its own. *)
Definition request_run (g : graph) (doc_type : string) : result Trace * sys :=
  @Orchestrator.run (captured_ingestor g) request_filter (pack_class doc_type) (local_compressor counter None) _ _
    default_gate g.1.2 {| prov := empty_log; mem := empty_store |}.

Definition text_of_graph (g : graph) : string := join (String "010" (String "010" "")) (map c_text g.1.1).

Definition SUPPORTED : list string := [".txt"; ".md"; ".pdf"; ".docx"].

(** [_run_admitted]; [late]: the deadline has passed before parsing. *)
Definition run_admitted (env : string → option string) (suffix : string → string) (private : string) (child : child_run) (late : bool)
    (file : string) : result (Trace * string * Document) :=
  filepath ← resolve_sandbox_path sv fs file;
  content ← match capture_extraction_source sv fs filepath with
            | Raise e => if is_http e then Raise e else http 422 "Unable to read document"
            | Ok content => Ok content
            end;
  if negb (bool_decide (suffix filepath ∈ SUPPORTED)) then http 422 "Document format is unsupported, invalid, or unavailable"
  else if late then http 504 "Isolated parsing exceeded its deadline"
  else
    g ← match ingest_document_isolated parse_time env filepath (suffix filepath) content private child with
        | Ok g => Ok g
        | Raise e => if bool_decide (exn_class e = "IsolatedIngestDeadline") then http 504 "Isolated parsing exceeded its deadline"
                     else http 422 "Document format is unsupported, invalid, or unavailable"
        end;
    let doc_type := classify_document (text_of_graph g) 1 in
    match (request_run g doc_type).1 with
    | Ok trace => Ok (trace, doc_type, g.1.2)
    | Raise _ => http 500 "Extraction pipeline failed"
    end.

(** The box of the first anchor, as corner and size; the page; an anchor
    without a box would be an [AttributeError]. *)
Definition located (e : Extraction) : result (option (f64 * f64 * f64 * f64) * Z) :=
  match e_anchors e with
  | [] => Ok (None, 1)
  | a :: _ =>
      match a_bbox a with
      | Some b => Ok (Some (x0 b, y0 b, (x1 b - x0 b)%f64, (y1 b - y0 b)%f64), a_page a)
      | None => raise "AttributeError" "'NoneType' object has no attribute 'x0'"
      end
  end.

Definition link_of (doc_id : string) (page : Z) (bbox : option (f64 * f64 * f64 * f64)) : string :=
  match bbox with
  | Some (x, y, w, h) => build_source_link doc_id page (float_repr x) (float_repr y) (float_repr w) (float_repr h)
  | None => build_source_link doc_id page "0" "0" "0" "0"
  end.

Definition add_extraction (doc_id : string) (e : Extraction) (acc : list (string * api_field) * list string)
    : result (list (string * api_field) * list string) :=
  '(bbox, page) ← located e;
  if negb (bool_decide (e_method e = BLOCK)) then
    Ok (dict_set (e_field_name e)
          {| af_value := e_value e; af_bbox := bbox; af_page := page; af_cascade := upper (method_value (e_method e));
             af_confidence := e_confidence e; af_link := link_of doc_id page bbox |} acc.1, acc.2)
  else Ok (acc.1, acc.2 ++ [e_field_name e]).

Fixpoint add_extractions (doc_id : string) (l : list Extraction) (acc : list (string * api_field) * list string)
    : result (list (string * api_field) * list string) :=
  match l with
  | [] => Ok acc
  | e :: l' => acc ← add_extraction doc_id e acc; add_extractions doc_id l' acc
  end.

Definition api_response_of (trace : Trace) (doc_type : string) (doc : Document) : result api_response :=
  '(fields, refused) ← add_extractions (d_doc_id doc) (t_extractions trace) ([], []);
  Ok {| ar_doc_id := d_doc_id doc; ar_doc_type := doc_type; ar_fields := fields; ar_refused := refused |}.

Definition extract_document (env : string → option string) (suffix : string → string) (private : string) (child : child_run) (late : bool)
    (file : string) : result api_response :=
  '(trace, doc_type, doc) ← run_admitted env suffix private child late file;
  api_response_of trace doc_type doc.

(** ** Questions *)

Inductive api_answer := Grounded (f : api_field) | Refused.

Definition spaced (name : string) : string := map_str (λ c, if bool_decide (c = "_"%char) then " "%char else c) name.
Definition asks_for (question : string) (name : string) : bool := contains (spaced name) (lower question) || contains name (lower question).

Definition answer_from (question : string) (r : api_response) : api_answer :=
  match find_first (λ p, asks_for question p.1) (ar_fields r) with Some p => Grounded p.2 | None => Refused end.

(** The file is resolved, and the route of extraction is called with the
    resolved path; an exception of it that is not an [HTTPException] is a 500. *)
Definition ask_document (env : string → option string) (suffix : string → string) (private : string) (child : child_run) (late : bool)
    (file question : string) : result api_answer :=
  filepath ← resolve_sandbox_path sv fs file;
  match extract_document env suffix private child late filepath with
  | Ok r => Ok (answer_from question r)
  | Raise e => if is_http e then Raise e else http 500 "ask-document failed"
  end.
End Api.

(** ** Every type has a pack *)

Definition DOC_TYPES : list string := ["memo"; "invoice"; "contract"; "paper"; "generic"].

Lemma best_type_known i c p : (best_type i c p).1 ∈ ["invoice"; "contract"; "paper"].
Proof. unfold best_type. destruct (i <? c); destruct (_ <? p); cbn; set_solver. Qed.

Lemma classify_known text n : classify_document text n ∈ DOC_TYPES.
Proof.
  unfold classify_document. cbn zeta. destruct (_ || _); [by left|]. set (t := lower text).
  pose proof (best_type_known (score invoice_keywords t) (score contract_keywords t) (score paper_keywords t)) as H.
  destruct (best_type _ _ _) as [best m]. cbn [fst] in H. assert (best ∈ DOC_TYPES) by (unfold DOC_TYPES; set_solver).
  repeat (match goal with |- context [if ?b then _ else _] => destruct b end); unfold DOC_TYPES in *; set_solver.
Qed.

(** ** The sandbox *)

(** A regular file under one of the allowed roots. *)
Definition sandboxed (sv : server) (fs : filesystem) (path : string) : Prop :=
  fs_is_file fs path = true ∧ ∃ root, root ∈ sv_allowed_roots sv ∧ is_relative_to root path = true.

Lemma resolve_sandboxed sv fs p path : resolve_sandbox_path sv fs p = Ok path → sandboxed sv fs path.
Proof.
  unfold resolve_sandbox_path. destruct (_ || _); [done|]. destruct (omap _ _) as [|x l] eqn:E; [done|]. cbn [hd_error]. intros [= <-].
  assert (x ∈ omap (admissible sv fs) (candidates sv p)) as Hx by (rewrite E; left). apply list_elem_of_omap in Hx as (cand & _ & Hc).
  unfold admissible in Hc. destruct (fs_resolve fs cand) as [r|]; [|done]. cbn [mbind option_bind] in Hc.
  destruct (fs_is_file fs r) eqn:Ef; [|done]. destruct (existsb _ _) eqn:Er; [|done]. injection Hc as <-. split; [done|].
  apply existsb_exists in Er as (root & Hin%list_elem_of_In & Hr). by exists root.
Qed.

Lemma capture_within sv fs path content : capture_extraction_source sv fs path = Ok content →
  len content ≤ sv_max_upload sv ∧ ∃ size data, fs_open fs path = Ok (size, data) ∧ content = data.
Proof.
  unfold capture_extraction_source. destruct (fs_open fs path) as [[size data]|]; [|done]. cbn [mbind result_bind].
  destruct (_ <? size); [done|]. destruct (Z.ltb_spec (sv_max_upload sv) (len (take_str (Z.to_nat (sv_max_upload sv + 1)) data))) as [|Hl]; [done|].
  intros [= <-]. split; [done|]. exists size, data. split; [done|]. apply take_str_all. unfold len in Hl. rewrite length_take_str in Hl. lia.
Qed.

(** ** What the routes return *)

Section Returned.
Context `{FRd : FloatRead} `{NU : Numerics} `{SO : SqlOrder}.
Variable sv : server.
Variable fs : filesystem.
Variable parse_time : string → option string.
Variable read_price : string → result f64.
Variable gen_id : nat → string.
Variable counter : option (string → result Z).

(** What the pack of a document type returns for a parsed document: it reads
    what the compressor leaves of the chunks. *)
Definition pack_extracts (doc_type : string) (chunks : list Chunk) : result (list Extraction) :=
  @extract (pack_class read_price gen_id doc_type) (@pack_input (local_compressor counter None) chunks).

(** A returned field is an extraction of the pack: its name, its value.  The
    grounding cascade, asked for that value and for the span the pack gave it,
    answered with a stage and one anchor, and the evidence of that stage holds
    of a chunk of the document; the field's page and box are those of the
    chunk, the link leads there, the cascade is the name of the stage. *)
Definition grounded_field (doc_type : string) (doc : Document) (chunks : list Chunk) (name : string) (f : api_field) : Prop :=
  ∃ exts e method a chunk b, pack_extracts doc_type chunks = Ok exts ∧ e ∈ exts ∧
    e_field_name e = name ∧ e_value e = af_value f ∧
    verify get_embedding cosine parse_float default_verifier (af_value f) (e_source_span e) (relabel (d_source_path doc) chunks) = (method, [a]) ∧
    method ≠ BLOCK ∧ chunk ∈ chunks ∧ anchors_chunk a chunk ∧
    stage_evidence get_embedding cosine parse_float default_verifier (target_of (af_value f) (e_source_span e)) (e_source_span e)
      chunk method (a_char_span a) ∧
    af_cascade f = upper (method_value method) ∧ af_page f = c_page chunk ∧ c_bbox chunk = Some b ∧
    af_bbox f = Some (x0 b, y0 b, (x1 b - x0 b)%f64, (y1 b - y0 b)%f64) ∧ af_link f = link_of (d_doc_id doc) (af_page f) (af_bbox f).

Definition field_of (doc_id : string) (e : Extraction) (bbox : option (f64 * f64 * f64 * f64)) (page : Z) : api_field :=
  {| af_value := e_value e; af_bbox := bbox; af_page := page; af_cascade := upper (method_value (e_method e));
     af_confidence := e_confidence e; af_link := link_of doc_id page bbox |}.

(** A field of the response is that of an extraction that was not refused,
    under the extraction's name. *)
Lemma add_extractions_fields doc_id l : ∀ acc acc', add_extractions doc_id l acc = Ok acc' → ∀ p, p ∈ acc'.1 →
  p ∈ acc.1 ∨ ∃ e bbox page, e ∈ l ∧ e_method e ≠ BLOCK ∧ located e = Ok (bbox, page) ∧ p = (e_field_name e, field_of doc_id e bbox page).
Proof.
  induction l as [|e l IH]; intros acc acc' H p Hp; cbn [add_extractions] in H; [injection H as <-; by left|].
  apply bind_Ok in H as (acc1 & H1 & H). destruct (IH _ _ H p Hp) as [Hp1|(e1 & bbox & page & He & Hr)];
    [|right; exists e1, bbox, page; split; [by right|done]].
  unfold add_extraction in H1. apply bind_Ok in H1 as ([bbox page] & Hl & H1).
  destruct (bool_decide_reflect (e_method e = BLOCK)); cbn [negb] in H1; injection H1 as <-; cbn [fst] in Hp1; [by left|].
  apply elem_dict_set in Hp1 as [->|Hp1]; [|by left]. right. exists e, bbox, page. split; [left|done].
Qed.

(** Such an extraction of a run is a field with its evidence. *)
Lemma run_field chunks doc pages doc_type trace s' e bbox page :
  request_run read_price gen_id counter (chunks, doc, pages) doc_type = (Ok trace, s') →
  e ∈ t_extractions trace → e_method e ≠ BLOCK → located e = Ok (bbox, page) →
  grounded_field doc_type doc chunks (e_field_name e) (field_of (d_doc_id doc) e bbox page).
Proof.
  unfold request_run. cbn [fst snd]. intros Hrun He Hm Hl.
  assert (@ingest (captured_ingestor (chunks, doc, pages)) (d_source_path doc) = Ok (chunks, doc, pages)) as Hi
    by (cbn; by rewrite bool_decide_true).
  destruct (@run_extraction (captured_ingestor (chunks, doc, pages)) request_filter _ _ _ _ doc _ _ _ _ _ _ e Hrun Hi He)
    as (exts & e0 & store & Hx & He0 & ->).
  destruct (marked_ground (relabel (d_source_path doc) chunks) store e0) as (Ef & Ev & Es & Hv). set (e := marked _ _ _) in *.
  symmetry in Hv. pose proof Hv as Hev. apply cascade_evidence in Hev as (a & chunk & Ha & Hc & Hac & Hev); [|done].
  unfold located in Hl. rewrite Ha in Hl, Hv. destruct (a_bbox a) as [b|] eqn:Eb; [|done]. injection Hl as <- <-.
  destruct (Hac) as (_ & Hpage & Hbox). exists exts, e0, (e_method e), a, chunk, b. unfold field_of. cbn [af_value af_cascade af_page af_bbox af_link].
  rewrite Ev. split_and!; try done. by rewrite <-Hbox.
Qed.

Lemma run_fields chunks doc pages doc_type trace s' r :
  request_run read_price gen_id counter (chunks, doc, pages) doc_type = (Ok trace, s') →
  api_response_of trace doc_type doc = Ok r → ar_doc_id r = d_doc_id doc ∧ ar_doc_type r = doc_type ∧
  ∀ p, p ∈ ar_fields r → grounded_field doc_type doc chunks p.1 p.2.
Proof.
  unfold api_response_of. intros Hrun H. apply bind_Ok in H as ([fields refused] & H & Hr). injection Hr as <-.
  cbn [ar_doc_id ar_doc_type ar_fields]. split; [done|]. split; [done|]. intros p Hp.
  destruct (add_extractions_fields _ _ _ _ H p Hp) as [Hn|(e & bbox & page & He & Hm & Hl & ->)]; [by apply not_elem_of_nil in Hn|].
  by eapply run_field.
Qed.

Lemma run_admitted_Ok env suffix private child late file trace doc_type doc :
  run_admitted sv fs parse_time read_price gen_id counter env suffix private child late file = Ok (trace, doc_type, doc) →
  ∃ filepath size content chunks pages s', sandboxed sv fs filepath ∧ fs_open fs filepath = Ok (size, content) ∧ len content ≤ sv_max_upload sv ∧
    ingest_document_isolated parse_time env filepath (suffix filepath) content private child = Ok (chunks, doc, pages) ∧
    request_run read_price gen_id counter (chunks, doc, pages) doc_type = (Ok trace, s') ∧
    doc_type = classify_document (text_of_graph (chunks, doc, pages)) 1.
Proof.
  unfold run_admitted. intros (filepath & Hp%resolve_sandboxed & H)%bind_Ok. apply bind_Ok in H as (content & Hc & H).
  destruct (capture_extraction_source sv fs filepath) as [content'|x] eqn:Ec; [|by destruct (is_http x)]. injection Hc as ->.
  apply capture_within in Ec as (Hl & size & data & Ho & ->). destruct (negb _); [done|]. destruct late; [done|].
  apply bind_Ok in H as ([[chunks d] pages] & Hg & H). destruct (ingest_document_isolated _ _ _ _ _ _ _) as [g|x] eqn:Ei; [|by destruct (bool_decide _)].
  assert (g = (chunks, d, pages)) as -> by congruence. cbn [fst snd] in H.
  destruct (request_run _ _ _ (chunks, d, pages) _) as [[t|x] s'] eqn:Er; [|done]. cbn [fst] in H.
  assert (t = trace ∧ classify_document (text_of_graph (chunks, d, pages)) 1 = doc_type ∧ d = doc) as (-> & <- & ->) by (by injection H).
  by exists filepath, size, data, chunks, pages, s'.
Qed.

(** What a response rests on: a file inside the sandbox, within the upload
    limit, its bytes parsed in isolation, its text classified, and the evidence
    of each field. *)
Definition rests_on (env : string → option string) (suffix : string → string) (private : string) (child : child_run)
    (r : api_response) : Prop :=
  ∃ filepath size content chunks doc pages, sandboxed sv fs filepath ∧ fs_open fs filepath = Ok (size, content) ∧ len content ≤ sv_max_upload sv ∧
    ingest_document_isolated parse_time env filepath (suffix filepath) content private child = Ok (chunks, doc, pages) ∧
    ar_doc_id r = d_doc_id doc ∧ ar_doc_type r = classify_document (text_of_graph (chunks, doc, pages)) 1 ∧
    ∀ name f, (name, f) ∈ ar_fields r → grounded_field (ar_doc_type r) doc chunks name f.

Lemma response_rests env suffix private child late file r :
  extract_document sv fs parse_time read_price gen_id counter env suffix private child late file = Ok r →
  rests_on env suffix private child r.
Proof.
  unfold extract_document. intros ([[trace doc_type] doc] & H & Hr)%bind_Ok.
  apply run_admitted_Ok in H as (filepath & size & content & chunks & pages & s' & Hs & Ho & Hl & Hi & Hrun & Ht).
  destruct (run_fields _ _ _ _ _ _ _ Hrun Hr) as (Hid & Hty & Hf). exists filepath, size, content, chunks, doc, pages. rewrite Hty.
  split_and!; try done. intros name f. apply (Hf (name, f)).
Qed.

(** C2.  No field is returned without its citation, whatever the document and the
    child that parsed it.  A response rests on a file inside the sandbox,
    within the upload limit, parsed in isolation and classified; each of its
    fields has the name and the value of an extraction that the pack of that
    class returned for the parsed document, the grounding cascade found that
    extraction (its span, or its value when the span is empty) by the stage
    the field names, and the page, the box and the link of the field are
    those of the chunk it found it in. *)
Theorem returned_fields_grounded env suffix private child late file r :
  extract_document sv fs parse_time read_price gen_id counter env suffix private child late file = Ok r →
  ar_doc_type r ∈ DOC_TYPES ∧ rests_on env suffix private child r.
Proof.
  intros H. apply response_rests in H. split; [|done]. destruct H as (? & ? & ? & ? & ? & ? & _ & _ & _ & _ & _ & -> & _). apply classify_known.
Qed.

(** What the question is answered with: the first field of the response whose
    name it mentions. *)
Definition first_asked (question : string) (r : api_response) (f : api_field) : Prop :=
  ∃ before name after, ar_fields r = before ++ (name, f) :: after ∧ asks_for question name = true ∧
    Forall (λ p, asks_for question p.1 = false) before.

(** C3.  A question is answered from the extraction of the same document or not at
    all: the file is resolved inside the sandbox, the response of the
    extraction rests on its evidence (as for the fields it returns), and the
    answer is the first field of that response whose name the question
    mentions; the question is refused exactly when it mentions none of the
    fields. *)
Theorem answers_are_grounded env suffix private child late file question answer :
  ask_document sv fs parse_time read_price gen_id counter env suffix private child late file question = Ok answer →
  ∃ filepath r, resolve_sandbox_path sv fs file = Ok filepath ∧
    extract_document sv fs parse_time read_price gen_id counter env suffix private child late filepath = Ok r ∧
    rests_on env suffix private child r ∧
    match answer with
    | Grounded f => first_asked question r f
    | Refused => ∀ name f, (name, f) ∈ ar_fields r → asks_for question name = false
    end.
Proof.
  unfold ask_document. intros (filepath & Hp & H)%bind_Ok.
  destruct (extract_document sv fs parse_time read_price gen_id counter env suffix private child late filepath) as [r|x] eqn:E;
    [|by destruct (is_http x)].
  assert (answer_from question r = answer) as <- by congruence. exists filepath, r. split; [done|]. split; [done|].
  split; [by eapply response_rests|]. unfold answer_from. destruct (find_first _ _) as [[name f]|] eqn:Ef.
  - apply find_first_split in Ef as (before & after & E' & Hq & Hb). by exists before, name, after.
  - intros name f Hin. apply find_first_None in Ef. rewrite Forall_forall in Ef. by apply (Ef (name, f)).
Qed.
End Returned.

(** ** A concrete server *)

#[local] Existing Instance decimal_float_repr.
#[local] Existing Instance decimal_float_read.

#[local] Existing Instance sort_order.

Definition demo_server : server :=
  {| sv_fixtures := "/srv/fixtures"; sv_base := "/srv"; sv_cwd := "/srv"; sv_allowed_roots := ["/srv"; "/tmp"]; sv_max_upload := 64 |}.
Definition demo_fs : filesystem :=
  {| fs_resolve p := if bool_decide (p = "/srv/fixtures/../etc/passwd") then Some "/etc/passwd" else Some p;
     fs_is_file p := bool_decide (p ∈ ["/srv/a.txt"; "/etc/passwd"; "/srv-old/a.txt"]);
     fs_open p := Ok (len ship_text, ship_text) |}.
Definition name_at (i : nat) : string := pretty (Z.of_nat i).
Definition txt (path : string) : string := ".txt".

#[local] Instance exact_numerics : Numerics := {| get_embedding _ := []; cosine _ _ := f0; parse_float _ := raise "ValueError" "" |}.

Definition ship_result : graph := ([ship_chunk], ship_doc "/srv/a.txt", [ship_page]).
Lemma ship_served : ingest_document_isolated one_time no_settings "/srv/a.txt" ".txt" ship_text "/tmp/axiom-ingest-1"
  (Finished (child_file (Ok ship_graph) (lim_output default_ingest_limits))) = Ok ship_result.
Proof.
  apply (isolated_after_read one_time no_settings default_ingest_limits "/srv/a.txt" ".txt" ship_text "/tmp/axiom-ingest-1" _ [ship_chunk] snapshot_doc [ship_page]).
  - split; [reflexivity|]. split; [reflexivity|]. split; [apply (bool_decide_unpack _); vm_compute; exact I|]. split; [vm_compute; discriminate|].
    split; [reflexivity|]. split; [vm_compute; discriminate|reflexivity].
  - exact ship_payload.
Qed.

Abbreviation demo_extract := (extract_document demo_server demo_fs one_time no_float name_at None no_settings txt "/tmp/axiom-ingest-1"
  (Finished (child_file (Ok ship_graph) (lim_output default_ingest_limits))) false).
Definition demo_response : api_response :=
  match api_response_of (match (request_run no_float name_at None ship_result "generic").1 with Ok t => t | Raise _ => halted_trace [] no_reason [] end)
    "generic" (ship_doc "/srv/a.txt") with Ok r => r | Raise _ => {| ar_doc_id := ""; ar_doc_type := ""; ar_fields := []; ar_refused := [] |} end.

Lemma demo_fields : map (λ p, (p.1, af_value p.2, af_page p.2, af_cascade p.2)) (ar_fields demo_response) = [("summary", "We ship on Monday.", 1, "EXACT")].
Proof. vm_compute. reflexivity. Qed.

Lemma demo_run : ∃ trace s', request_run no_float name_at None ship_result "generic" = (Ok trace, s') ∧
  api_response_of trace "generic" (ship_doc "/srv/a.txt") = Ok demo_response.
Proof. eexists _, _. split; vm_compute; reflexivity. Qed.

Lemma demo_extracts : demo_extract "a.txt" = Ok demo_response.
Proof.
  destruct demo_run as (trace & s' & Hr & Hresp).
  unfold extract_document, run_admitted. change (resolve_sandbox_path _ _ _) with (Ok (A:=string) "/srv/a.txt").
  cbn [mbind result_bind]. change (capture_extraction_source _ _ _) with (Ok (A:=bytes) ship_text). cbn [mbind result_bind].
  change (txt "/srv/a.txt") with ".txt". change (bool_decide (".txt" ∈ SUPPORTED)) with true. cbn [negb].
  rewrite ship_served. cbn [mbind result_bind]. change (classify_document (text_of_graph ship_result) 1) with "generic".
  rewrite Hr. cbn [fst mbind result_bind]. exact Hresp.
Qed.

Definition demo_field : api_field :=
  {| af_value := "We ship on Monday."; af_bbox := Some (f0, lit 1 2, f1, lit 1 4); af_page := 1; af_cascade := "EXACT"; af_confidence := lit 9 10;
     af_link := link_of "d-1" 1 (Some (f0, lit 1 2, f1, lit 1 4)) |}.

Lemma demo_has_field : ("summary", demo_field) ∈ ar_fields demo_response.
Proof. apply (list_elem_of_lookup_2 _ 0). vm_compute. reflexivity. Qed.

Lemma returned_fields_grounded_witness : ar_doc_type demo_response ∈ DOC_TYPES ∧
  ∃ doc chunks, grounded_field no_float name_at None "generic" doc chunks "summary" demo_field.
Proof.
  destruct (returned_fields_grounded _ _ _ _ _ _ _ _ _ _ _ _ _ demo_extracts) as [Ht (? & ? & ? & chunks & doc & ? & _ & _ & _ & _ & _ & _ & Hf)].
  split; [exact Ht|]. exists doc, chunks. exact (Hf _ _ demo_has_field).
Defined.

Abbreviation demo_ask := (ask_document demo_server demo_fs one_time no_float name_at None no_settings txt "/tmp/axiom-ingest-1"
  (Finished (child_file (Ok ship_graph) (lim_output default_ingest_limits))) false "a.txt").

Lemma demo_asks : demo_ask "What is the summary?" = Ok (Grounded demo_field).
Proof.
  unfold ask_document. change (resolve_sandbox_path _ _ "a.txt") with (Ok (A:=string) "/srv/a.txt"). cbn [mbind result_bind].
  change (demo_extract "/srv/a.txt") with (demo_extract "a.txt"). rewrite demo_extracts. vm_compute. reflexivity.
Qed.

Lemma answers_are_grounded_witness : ∃ r, first_asked "What is the summary?" r demo_field.
Proof.
  destruct (answers_are_grounded _ _ _ _ _ _ _ _ _ _ _ _ _ _ demo_asks) as (_ & r & _ & _ & _ & H). exists r. exact H.
Defined.

(** Relative references that leave the sandbox are not found. *)
Example traversal_refused : resolve_sandbox_path demo_server demo_fs "../etc/passwd" = http 404 "File ../etc/passwd not found" ∧
  resolve_sandbox_path demo_server demo_fs "/etc/passwd" = http 404 "File /etc/passwd not found" ∧
  resolve_sandbox_path demo_server demo_fs "/srv-old/a.txt" = http 404 "File /srv-old/a.txt not found".
Proof. vm_compute. by repeat split. Qed.
