(* ===== verification/OverlayDemo.v ===== *)
(** * The suggestion routes of the overlay server

    [/demo], [/apply], [/correct] and [/source/{id}] of [overlay/server.py],
    over the provenance log, the store and the orchestrator that live as long
    as the server.  The ingestor, the filter, the pack and the compressor are
    class instances, the file system is that of [OverlayApi]; identifiers are
    arguments.  An exception inside a route's [try] becomes an answer that is
    not a success. *)

From S2P Require Import Prelude PyStr PyFloat PyDict Json Sha256 DataModel QualityGate MemoryStore Provenance Grounding Orchestrator ActionExecutor OverlayApi.

Record suggestion := {
  sg_ext_id : string; sg_field : string; sg_value : string; sg_confidence : f64; sg_page : Z; sg_chunk_id : string; sg_bbox : BBox }.

Definition whole_page : BBox := {| x0 := f0; y0 := f0; x1 := f1; y1 := f1 |}.

Definition suggestion_of (e : Extraction) (chain : Chain) : suggestion :=
  {| sg_ext_id := e_ext_id e; sg_field := e_field_name e; sg_value := e_value e; sg_confidence := e_confidence e;
     sg_page := from_option c_page 1 (ch_chunk chain); sg_chunk_id := from_option c_chunk_id "" (ch_chunk chain);
     sg_bbox := default whole_page (c ← ch_chunk chain; c_bbox c) |}.

Definition proposed (action_id : string) (e : Extraction) : Action :=
  {| ac_action_id := action_id; ac_ext_id := e_ext_id e; ac_kind := SUGGEST; ac_target_app := "notepad";
     ac_payload := [("value", JStr (e_value e))]; ac_confidence := e_confidence e; ac_status := A_PENDING |}.

Section Suggest.
Variable action_ids : nat → string.

(** Step 4: the suggestions, and an action for each. *)
Fixpoint suggest_all (n : nat) (l : list Extraction) (log : ProvenanceLog) : list suggestion * ProvenanceLog :=
  match l with
  | [] => ([], log)
  | e :: l' =>
      if bool_decide (e_status e = BLOCKED) then suggest_all n l' log
      else
        let chain := get_provenance (e_ext_id e) log in
        if negb (is_complete chain) then suggest_all n l' log
        else
          let '(sgs, log') := suggest_all (S n) l' (register_action (proposed (action_ids n) e) log) in
          (suggestion_of e chain :: sgs, log')
  end.
End Suggest.

(** [sorted(chunks, key=lambda c: (c.page, c.bbox.y0 if c.bbox else 0))] *)
Definition top_of (c : Chunk) : f64 := from_option y0 f0 (c_bbox c).
Definition before (c d : Chunk) : bool := (c_page c <? c_page d) || ((c_page c =? c_page d) && flt (top_of c) (top_of d)).
Fixpoint insert_chunk (c : Chunk) (l : list Chunk) : list Chunk :=
  match l with
  | [] => [c]
  | d :: l' => if before d c then d :: insert_chunk c l' else c :: l
  end.
Definition in_reading_order (l : list Chunk) : list Chunk := foldr insert_chunk [] l.

Definition chunks_shown (doc_id : string) (log : ProvenanceLog) : list Chunk :=
  match chunks_for_doc doc_id log with [] => all_chunks log | cs => cs end.
Definition document_text (doc_id : string) (log : ProvenanceLog) : string :=
  join (String "010" (String "010" "")) (map c_text (in_reading_order (chunks_shown doc_id log))).

Record demo_answer := {
  da_success : bool; da_error : string; da_text : string; da_suggestions : list suggestion;
  da_halted : bool; da_halt_reason : message; da_stages : list TraceStage }.
Definition demo_error (msg : string) : demo_answer :=
  {| da_success := false; da_error := msg; da_text := ""; da_suggestions := []; da_halted := false; da_halt_reason := no_reason; da_stages := [] |}.

Section Demo.
Context `{Ingestor, SecurityFilter, Pack, Compressor, Numerics, SqlOrder}.
Variable sv : server.
Variable fs : filesystem.
(** The decoded text of a file ([errors="replace"]), and its lowered suffix. *)
Variable decoded : bytes → string.
Variable suffix : string → string.

Definition demo_body (doc : Document) (content : bytes) (action_ids : nat → string) : M demo_answer := λ s,
  match Orchestrator.run default_gate doc s with
  | (Raise e, s') => (Raise e, s')
  | (Ok trace, s') =>
      let text := if bool_decide (suffix (d_source_path doc) ∈ [".txt"; ".md"]) then decoded content else document_text (d_doc_id doc) (prov s') in
      let '(sgs, log) := suggest_all action_ids 0 (t_extractions trace) (prov s') in
      (Ok {| da_success := true; da_error := ""; da_text := text; da_suggestions := sgs; da_halted := t_halted trace;
             da_halt_reason := t_halt_reason trace; da_stages := t_stages trace |}, {| prov := log; mem := mem s' |})
  end.

(** [doc_id], [now]: the defaults of the [Document] the route makes. *)
Definition run_demo (file doc_id now : string) (action_ids : nat → string) : M demo_answer := λ s,
  match resolve_sandbox_path sv fs file with
  | Raise e => (Raise e, s)
  | Ok path =>
      match fs_open fs path with
      | Raise e => (Ok (demo_error ("422: Unable to read " +:+ file)), s)
      | Ok (_, content) =>
          let doc := {| d_doc_id := doc_id; d_source_path := path; d_sha256 := sha256_hex content; d_page_count := 0; d_ingested_at := now |} in
          match demo_body doc content action_ids s with
          | (Raise e, s') => (Ok (demo_error (exn_msg e)), s')
          | r => r
          end
      end
  end.
End Demo.

(** ** The other routes *)

(** The first action of the extraction, in the order of registration. *)
Definition action_for (ext_id : string) (log : ProvenanceLog) : option (string * Action) :=
  find_first (λ p, bool_decide (ac_ext_id p.2 = ext_id)) (actions log).

Definition apply_cua (log : ProvenanceLog) (now ext_id : string) (accept : bool) : ApplyResult :=
  match action_for ext_id log with
  | None => failure ("No pending action found for this extraction", [])
  | Some (action_id, _) =>
      if negb (truthy action_id) then failure ("No pending action found for this extraction", [])
      else match assoc action_id (actions log) with
      | Some action => ActionExecutor.apply DEFAULT_ALLOWLIST log now action accept
      | None => failure ("KeyError", [JStr action_id])
      end
  end.

Definition record_flywheel_correction (corr_id now ext_id original corrected reason : string) (st : MemoryStore) : (bool * string) * MemoryStore :=
  match record_correction {| co_corr_id := corr_id; co_ext_id := ext_id; co_original := original; co_corrected := corrected;
                             co_reason := reason; co_by := "overlay-user"; co_at := now |} st with
  | Ok st' => ((true, ""), st')
  | Raise e => ((false, exn_msg e), st)
  end.

Record source_answer := { so_page : Z; so_bbox : BBox; so_image : string }.

Definition image_ref (pages : list Page) (page : Z) : string :=
  match find_first (λ p, p_index p =? page) pages with
  | Some p => if truthy (p_image_sha256 p) then "/static/page_images/" +:+ p_image_sha256 p +:+ ".png" else ""
  | None => ""
  end.

Definition get_source_provenance (extraction_id : string) (s : sys) : result source_answer :=
  stored ← get_extraction extraction_id (mem s);
  match (match stored with Some e => Some e | None => ch_extraction (get_provenance extraction_id (prov s)) end) with
  | None => http 404 "Extraction not found"
  | Some ext =>
      let chain := get_provenance (e_ext_id ext) (prov s) in
      '(page, bbox, doc_id) ←
        match (if is_complete chain then ch_chunk chain else None) with
        | Some chunk => Ok (c_page chunk, default whole_page (c_bbox chunk), from_option d_doc_id "" (ch_document chain))
        | None =>
            match e_anchors ext with
            | a :: _ => Ok (a_page a, default whole_page (a_bbox a), e_pack_id ext)
            | [] => http 404 "Provenance chain is incomplete"
            end
        end;
      Ok {| so_page := page; so_bbox := bbox; so_image := image_ref (get_pages doc_id (mem s)) page |}
  end.

(** ** Lemmas *)

Section Suggested.
Variable action_ids : nat → string.

Abbreviation suggest_from := (suggest_all action_ids).

(** The log after the loop: the nodes are those before, with more actions. *)
Lemma suggest_all_nodes l : ∀ n log, let log' := (suggest_from n l log).2 in
  chunks log' = chunks log ∧ documents log' = documents log ∧ extractions log' = extractions log.
Proof.
  induction l as [|e l IH]; intros n log; cbn [suggest_all]; [done|].
  destruct (bool_decide _); [apply IH|]. destruct (negb _); [apply IH|].
  specialize (IH (S n) (register_action (proposed (action_ids n) e) log)). by destruct (suggest_all _ _ _ _).
Qed.

Lemma get_provenance_nodes id log log' : chunks log' = chunks log → documents log' = documents log → extractions log' = extractions log →
  assoc id (actions log') = assoc id (actions log) → get_provenance id log' = get_provenance id log.
Proof. unfold get_provenance. by intros -> -> -> ->. Qed.

Lemma provenance_chunk id log chunk : ch_chunk (get_provenance id log) = Some chunk → chunk ∈ all_chunks log.
Proof.
  unfold get_provenance. intros H. assert (∃ k, assoc k (chunks log) = Some chunk) as [k Hk].
  { destruct (assoc id (actions log)) as [a|]; [|destruct (assoc id (extractions log)) as [x|]; [|done]]; cbn [ch_chunk] in H.
    - destruct (assoc (ac_ext_id a) (extractions log)); [by eexists|done].
    - by eexists. }
  apply assoc_Some_elem in Hk. by apply (list_elem_of_fmap_2 snd _ (k, chunk)).
Qed.

Lemma provenance_document id log doc : ch_document (get_provenance id log) = Some doc → doc ∈ (documents log).*2.
Proof.
  unfold get_provenance. intros H. assert (∃ k, assoc k (documents log) = Some doc) as [k Hk].
  { destruct (assoc id (actions log)) as [a|]; [|destruct (assoc id (extractions log)) as [x|]; [|done]]; cbn [ch_document] in H.
    - destruct (x ← assoc (ac_ext_id a) (extractions log); assoc (e_chunk_id x) (chunks log)); [by eexists|done].
    - destruct (x ← Some x; assoc (e_chunk_id x) (chunks log)); [by eexists|done]. }
  apply assoc_Some_elem in Hk. by apply (list_elem_of_fmap_2 snd _ (k, doc)).
Qed.

(** What a suggestion cites: the chunk filed under the identifier that the
    extraction names, of a document that is filed, with its page and box. *)
Definition cites_chunk (log : ProvenanceLog) (e : Extraction) (sg : suggestion) : Prop :=
  ∃ chunk doc, assoc (e_chunk_id e) (chunks log) = Some chunk ∧ c_chunk_id chunk = e_chunk_id e ∧
    assoc (c_doc_id chunk) (documents log) = Some doc ∧ d_doc_id doc = c_doc_id chunk ∧
    sg_chunk_id sg = e_chunk_id e ∧ sg_page sg = c_page chunk ∧ c_bbox chunk = Some (sg_bbox sg).

Lemma suggestion_cites e x log : assoc (e_ext_id e) (actions log) = None → assoc (e_ext_id e) (extractions log) = Some x →
  e_chunk_id x = e_chunk_id e → is_complete (get_provenance (e_ext_id e) log) = true →
  cites_chunk log e (suggestion_of e (get_provenance (e_ext_id e) log)).
Proof.
  unfold get_provenance. intros -> -> Ex Hc. rewrite is_complete_spec in Hc. destruct Hc as (doc & chunk & x' & b & Hd & Hc & Hx & Hdoc & Hid & Hb).
  cbn [ch_document ch_chunk ch_extraction mbind option_bind] in *. injection Hx as <-. rewrite Hc in Hd. cbn [mbind option_bind] in Hd.
  exists chunk, doc. unfold suggestion_of. cbn [sg_chunk_id sg_page sg_bbox ch_chunk mbind option_bind]. rewrite Hc. cbn [from_option mbind option_bind]. rewrite Hb.
  rewrite Ex in *. by split_and!.
Qed.

(** The extractions that are suggested. *)
Definition shown (log : ProvenanceLog) (e : Extraction) : Prop :=
  e_status e ≠ BLOCKED ∧ is_complete (get_provenance (e_ext_id e) log) = true.
#[global] Instance shown_dec log e : Decision (shown log e).
Proof. unfold shown. apply _. Defined.

(** Registering actions under identifiers that no extraction has does not
    change what the chains of the extractions are. *)
Lemma suggest_all_fresh l : ∀ n log, (∀ i e, e ∈ l → action_ids i ≠ e_ext_id e) →
  (suggest_from n l log).1 = map (λ e, suggestion_of e (get_provenance (e_ext_id e) log)) (filter (shown log) l).
Proof.
  induction l as [|e l IH]; intros n log Hf; cbn [suggest_all]; [done|]. rewrite filter_cons.
  destruct (decide (shown log e)) as [[Hb Hc]|Hno].
  2: { assert (∀ i x, x ∈ l → action_ids i ≠ e_ext_id x) by (intros i x Hx; apply Hf; by right).
       destruct (bool_decide_reflect (e_status e = BLOCKED)) as [|Hb]; [by apply IH|].
       destruct (is_complete (get_provenance (e_ext_id e) log)) eqn:Hc; [by destruct Hno|by apply IH]. }
  rewrite bool_decide_false, Hc by done. cbn [negb].
  set (log1 := register_action (proposed (action_ids n) e) log).
  assert (∀ x, x ∈ l → get_provenance (e_ext_id x) log1 = get_provenance (e_ext_id x) log) as Hsame.
  { intros x Hx. apply get_provenance_nodes; try done. cbn [log1 register_action actions proposed ac_action_id].
    apply assoc_set_ne, Hf. by right. }
  specialize (IH (S n) log1). destruct (suggest_from (S n) l log1) as [sgs log2]. cbn [fst map] in *. f_equal.
  rewrite IH; [|intros i x Hx; apply Hf; by right]. clear -Hsame. induction l as [|x l IHl]; [done|]. rewrite !filter_cons.
  assert (get_provenance (e_ext_id x) log1 = get_provenance (e_ext_id x) log) as Ex by (apply Hsame; left).
  assert (shown log1 x ↔ shown log x) as Hiff by (unfold shown; by rewrite Ex).
  rewrite (decide_ext _ _ _ _ Hiff). destruct (decide (shown log x)); cbn [map]; rewrite ?Ex, IHl; (try done); intros y Hy; apply Hsame; by right.
Qed.

Lemma suggest_all_old id l : ∀ n log, (∀ k, (n ≤ k)%nat → action_ids k ≠ id) →
  assoc id (actions (suggest_from n l log).2) = assoc id (actions log).
Proof.
  induction l as [|e l IH]; intros n log Hid; cbn [suggest_all]; [done|].
  destruct (bool_decide _); [by apply IH|]. destruct (negb _); [by apply IH|].
  specialize (IH (S n) (register_action (proposed (action_ids n) e) log)). destruct (suggest_all _ _ _ _) as [sgs log']. cbn [snd] in *.
  rewrite IH; [|intros k Hk; apply Hid; lia]. cbn [register_action actions proposed ac_action_id]. apply assoc_set_ne, Hid. lia.
Qed.

(** Each suggestion comes from an extraction of the list that was not
    blocked, with the chain at its turn, and its action stays registered. *)
Lemma suggest_all_elem (Hinj : ∀ i j, action_ids i = action_ids j → i = j) sg l : ∀ n log, sg ∈ (suggest_from n l log).1 →
  ∃ e k log', e ∈ l ∧ (n ≤ k)%nat ∧ e_status e ≠ BLOCKED ∧ sg = suggestion_of e (get_provenance (e_ext_id e) log') ∧
    is_complete (get_provenance (e_ext_id e) log') = true ∧
    (chunks log' = chunks log ∧ documents log' = documents log ∧ extractions log' = extractions log) ∧
    (∀ id, (∀ i, (n ≤ i)%nat → action_ids i ≠ id) → assoc id (actions log') = assoc id (actions log)) ∧
    assoc (action_ids k) (actions (suggest_from n l log).2) = Some (proposed (action_ids k) e).
Proof.
  induction l as [|e l IH]; intros n log; cbn [suggest_all]; [by intros ?%not_elem_of_nil|].
  destruct (bool_decide_reflect (e_status e = BLOCKED)) as [|Hs].
  { intros (e' & k & log' & He & H)%IH. exists e', k, log'. split; [by right|done]. }
  destruct (is_complete (get_provenance (e_ext_id e) log)) eqn:Hc; cbn [negb].
  2: { intros (e' & k & log' & He & H)%IH. exists e', k, log'. split; [by right|done]. }
  set (log1 := register_action (proposed (action_ids n) e) log).
  pose proof (suggest_all_old (action_ids n) l (S n) log1) as Hold. specialize (IH (S n) log1).
  destruct (suggest_from (S n) l log1) as [sgs log2]. cbn [fst snd] in *. intros [->|Hsg]%elem_of_cons.
  - exists e, n, log. do 6 (split; [try done; by left|]). split; [done|]. rewrite Hold; [cbn; apply assoc_set_eq|]. intros k Hk ?%Hinj. lia.
  - apply IH in Hsg as (e' & k & log' & He & Hk & Hst & -> & Hcc & Hn & Ha & Hreg). exists e', k, log'. split; [by right|]. split; [lia|]. do 3 (split; [done|]).
    split; [by destruct Hn as (-> & -> & ->)|]. split; [|done]. intros id Hid. rewrite Ha; [|intros i Hi; apply Hid; lia]. cbn [log1 register_action actions proposed ac_action_id].
      apply assoc_set_ne, Hid. lia.
Qed.
End Suggested.

(** ** What a user of the overlay sees and applies *)

Section Demo_suggestions.
Context `{Ingestor, SecurityFilter, Pack, Compressor, Numerics, SqlOrder}.
Variable sv : server.
Variable fs : filesystem.
Variable decoded : bytes → string.
Variable suffix : string → string.

Lemma run_demo_success file doc_id now action_ids s a s' :
  run_demo sv fs decoded suffix file doc_id now action_ids s = (Ok a, s') → da_success a = true →
  ∃ path size content trace s1, resolve_sandbox_path sv fs file = Ok path ∧ sandboxed sv fs path ∧ fs_open fs path = Ok (size, content) ∧
    Orchestrator.run default_gate {| d_doc_id := doc_id; d_source_path := path; d_sha256 := sha256_hex content; d_page_count := 0; d_ingested_at := now |} s
      = (Ok trace, s1) ∧ da_halted a = t_halted trace ∧
    da_suggestions a = (suggest_all action_ids 0 (t_extractions trace) (prov s1)).1 ∧
    prov s' = (suggest_all action_ids 0 (t_extractions trace) (prov s1)).2.
Proof.
  unfold run_demo. destruct (resolve_sandbox_path sv fs file) as [path|] eqn:Ep; [|done]. pose proof (resolve_sandboxed _ _ _ _ Ep) as Hp.
  destruct (fs_open fs path) as [[size content]|] eqn:Eo; [|intros Ha; injection Ha as <- <-; done]. unfold demo_body.
  destruct (Orchestrator.run default_gate _ s) as [[trace|x] s1] eqn:Er; [|intros Ha; injection Ha as <- <-; done].
  destruct (suggest_all _ _ _ _) as [sgs log] eqn:Es. intros Ha Hs. exists path, size, content, trace, s1. rewrite Es.
  assert (∃ text, {| da_success := true; da_error := ""; da_text := text; da_suggestions := sgs; da_halted := t_halted trace;
    da_halt_reason := t_halt_reason trace; da_stages := t_stages trace |} = a ∧ {| prov := log; mem := mem s1 |} = s') as (text & <- & <-).
  { injection Ha as <- <-. eexists. split; [reflexivity|done]. }
  by split_and!.
Qed.

(** The identifiers of the extractions are their own: distinct, not those of
    the actions registered or to be registered, which are distinct too. *)
Record fresh_identifiers (action_ids : nat → string) (l : list Extraction) (log : ProvenanceLog) : Prop := {
  fresh_actions : ∀ i j, action_ids i = action_ids j → i = j;
  fresh_extractions : NoDup (map e_ext_id l);
  fresh_apart : ∀ i e, e ∈ l → action_ids i ≠ e_ext_id e;
  fresh_unused : ∀ e, e ∈ l → assoc (e_ext_id e) (actions log) = None }.

(** A suggestion of the extraction: it names it, says what it says, cites its
    chunk, and an action waits for it. *)
Definition suggests (log : ProvenanceLog) (e : Extraction) (sg : suggestion) : Prop :=
  sg_ext_id sg = e_ext_id e ∧ sg_field sg = e_field_name e ∧ sg_value sg = e_value e ∧ sg_confidence sg = e_confidence e ∧
  cites_chunk log e sg ∧ ∃ id, assoc id (actions log) = Some (proposed id e).

(** C16.  What the route of demonstration suggests comes from one run of the
    pipeline on the bytes of a file inside the sandbox.  When the identifiers
    drawn are fresh, the suggestions are those of the extractions of that run
    that are not blocked and have a complete chain in the log the run left,
    in their order, and no others; each suggestion names its extraction, has
    its field, value and confidence, cites the chunk that extraction names
    with the page and the box the server holds for it, and an action is
    registered that carries the value of the extraction. *)
Theorem demo_suggestions_cited file doc_id now action_ids s a s' :
  run_demo sv fs decoded suffix file doc_id now action_ids s = (Ok a, s') → da_success a = true →
  ∃ path size content trace s1, resolve_sandbox_path sv fs file = Ok path ∧ sandboxed sv fs path ∧ fs_open fs path = Ok (size, content) ∧
    Orchestrator.run default_gate {| d_doc_id := doc_id; d_source_path := path; d_sha256 := sha256_hex content; d_page_count := 0; d_ingested_at := now |} s
      = (Ok trace, s1) ∧
    (fresh_identifiers action_ids (t_extractions trace) (prov s) →
      da_suggestions a = map (λ e, suggestion_of e (get_provenance (e_ext_id e) (prov s1))) (filter (shown (prov s1)) (t_extractions trace)) ∧
      ∀ sg, sg ∈ da_suggestions a → ∃ e, e ∈ t_extractions trace ∧ e_status e ≠ BLOCKED ∧ suggests (prov s') e sg).
Proof.
  intros Hr Hs. apply run_demo_success in Hr as (path & size & content & trace & s1 & Hp & Hsb & Ho & Hrun & _ & Hsg & Hlog); [|done].
  exists path, size, content, trace, s1. do 4 (split; [done|]). intros [Hinj Hdist Hapart Hun].
  destruct (run_records _ _ _ _ Hrun) as [Hacts Hrec]. split; [rewrite Hsg; by apply suggest_all_fresh|].
  pose proof (suggest_all_nodes action_ids (t_extractions trace) 0 (prov s1)) as (Nc & Nd & _). rewrite <-Hlog in Nc, Nd.
  intros sg Hin. rewrite Hsg in Hin. pose proof Hin as Hreg. rewrite suggest_all_fresh in Hin by done.
  apply list_elem_of_fmap in Hin as (e & -> & [[Hb Hc] He]%list_elem_of_filter). exists e. split; [done|]. split; [done|].
  do 4 (split; [done|]). split.
  - destruct (Hrec e He Hdist) as (store & x & Ee & Hx). assert (e_chunk_id x = e_chunk_id e) as Ex by (by rewrite Ee).
    assert (cites_chunk (prov s1) e (suggestion_of e (get_provenance (e_ext_id e) (prov s1)))) as Hcites
      by (eapply suggestion_cites; [rewrite Hacts; by apply Hun|done..]).
    unfold cites_chunk in *. by rewrite Nc, Nd.
  - apply suggest_all_elem in Hreg as (e' & k & log' & He' & _ & _ & Esg & _ & _ & _ & Hreg); [|done].
    assert (e' = e) as ->; [|exists (action_ids k); by rewrite Hlog].
    apply (f_equal sg_ext_id) in Esg. cbn [suggestion_of sg_ext_id] in Esg.
    destruct (proj1 (list_elem_of_lookup _ _) He) as [i Hi], (proj1 (list_elem_of_lookup _ _) He') as [j Hj].
    assert (i = j) as ->; [|congruence]. eapply (NoDup_lookup _ i j (e_ext_id e) Hdist); rewrite list_lookup_fmap; [by rewrite Hi|by rewrite Hj, Esg].
Qed.
End Demo_suggestions.

(** Applying: of the actions registered for an extraction the first is taken. *)
Lemma action_for_app e_id (l k : list (string * Action)) :
  find_first (λ p, bool_decide (ac_ext_id p.2 = e_id)) l = None →
  find_first (λ p, bool_decide (ac_ext_id p.2 = e_id)) (l ++ k) = find_first (λ p, bool_decide (ac_ext_id p.2 = e_id)) k.
Proof. induction l as [|p l IH]; [done|]. cbn. by case_bool_decide. Qed.

Lemma action_for_Some id log p : action_for id log = Some p → p ∈ actions log ∧ ac_ext_id p.2 = id.
Proof. intros (Hp & Hb%bool_decide_eq_true)%find_first_Some. done. Qed.

Lemma action_for_registered id log k a : assoc k (actions log) = Some a → ac_ext_id a = id → is_Some (action_for id log).
Proof.
  intros Ha%assoc_Some_elem Hid. unfold action_for. destruct (find_first _ _) eqn:E; [by eexists|].
  apply find_first_None in E. rewrite Forall_forall in E. apply E in Ha. by rewrite bool_decide_true in Ha.
Qed.

Section Applied.
Variable action_ids : nat → string.

Lemma suggest_all_actions l : ∀ n log p, p ∈ actions (suggest_all action_ids n l log).2 →
  p ∈ actions log ∨ ∃ k e, e ∈ l ∧ p = (action_ids k, proposed (action_ids k) e).
Proof.
  induction l as [|e l IH]; intros n log p; cbn [suggest_all]; [by left|].
  destruct (bool_decide _). { intros [?|(k & e' & ? & ?)]%IH; [by left|right; exists k, e'; split; [by right|done]]. }
  destruct (negb _). { intros [?|(k & e' & ? & ?)]%IH; [by left|right; exists k, e'; split; [by right|done]]. }
  specialize (IH (S n) (register_action (proposed (action_ids n) e) log) p). destruct (suggest_all _ _ _ _) as [sgs log']. cbn [snd] in *.
  intros [[->|?]%elem_dict_set|(k & e' & ? & ?)]%IH; [right; exists n, e; split; [by left|done]|by left|right; exists k, e'; split; [by right|done]].
Qed.

Lemma suggest_all_wf l : ∀ n log, wf_dict (actions log) → wf_dict (actions (suggest_all action_ids n l log).2).
Proof.
  induction l as [|e l IH]; intros n log Hw; cbn [suggest_all]; [done|].
  destruct (bool_decide _); [by apply IH|]. destruct (negb _); [by apply IH|].
  specialize (IH (S n) (register_action (proposed (action_ids n) e) log)). destruct (suggest_all _ _ _ _) as [sgs log'].
  apply IH, wf_dict_set, Hw.
Qed.

(** Identifiers drawn for actions are distinct, not empty, and not those of
    the extractions, which are registered with the value they carry and have
    no action yet. *)
Record drawn (l : list Extraction) (log : ProvenanceLog) : Prop := {
  drawn_inj : ∀ i j, action_ids i = action_ids j → i = j;
  drawn_truthy : ∀ i, action_ids i ≠ "";
  drawn_fresh : ∀ i e, e ∈ l → action_ids i ≠ e_ext_id e;
  drawn_wf : wf_dict (actions log);
  drawn_unused : ∀ e, e ∈ l → assoc (e_ext_id e) (actions log) = None ∧ ∀ p, p ∈ actions log → ac_ext_id p.2 ≠ e_ext_id e;
  drawn_stored : ∀ e, e ∈ l → ∃ x, assoc (e_ext_id e) (extractions log) = Some x ∧ e_value x = e_value e }.

(** C17.  The human's word decides: a suggestion the route has just returned is
    applied when the user accepts it, and it is not when the user does not. *)
Theorem suggestion_applied_iff_accepted n l log now accept sg : drawn l log → sg ∈ (suggest_all action_ids n l log).1 →
  ar_success (apply_cua (suggest_all action_ids n l log).2 now (sg_ext_id sg) accept) = accept.
Proof.
  intros [Hinj Ht Hf Hw Hu Hst] Hsg. apply suggest_all_elem in Hsg as (e & k & log' & He & _ & _ & -> & Hcc & Hn & Ha & Hreg); [|done].
  cbn [suggestion_of sg_ext_id]. destruct (suggest_all_nodes action_ids l n log) as (Nc & Nd & Ne).
  pose proof (suggest_all_old action_ids (e_ext_id e) l n log (λ i _, Hf i e He)) as Hold.
  pose proof (suggest_all_actions l n log) as Hacts. pose proof (suggest_all_wf l n log Hw) as Hwf.
  set (final := (suggest_all action_ids n l log).2) in *.
  assert (get_provenance (e_ext_id e) final = get_provenance (e_ext_id e) log') as Hp.
  { destruct Hn as (? & ? & ?). apply get_provenance_nodes; try congruence. rewrite Hold, Ha; [done|]. intros i _. by apply Hf. }
  destruct (Hu e He) as [Hna Hnp]. destruct (Hst e He) as (x & Hx & Hv).
  destruct (action_for_registered (e_ext_id e) final (action_ids k) _ Hreg eq_refl) as [[id a] Hact].
  pose proof Hact as [Hin Hid]%action_for_Some. cbn [snd] in Hid. unfold apply_cua. rewrite Hact.
  assert (∃ j e', e' ∈ l ∧ id = action_ids j ∧ a = proposed (action_ids j) e') as (j & e' & He' & -> & ->).
  { destruct (Hacts _ Hin) as [Hold'|(j & e' & ? & [= -> ->])]; [by destruct (Hnp _ Hold')|]. by exists j, e'. }
  destruct (truthy (action_ids j)) eqn:Et; cbn [negb]; [|by apply not_true_iff_false in Et; destruct Et; apply truthy_spec].
  rewrite (elem_assoc _ _ _ Hwf Hin). cbn [proposed ac_ext_id] in Hid.
  destruct (Hst e' He') as (x' & Hx' & Hv'). rewrite Hid, Hx in Hx'. injection Hx' as <-.
  destruct accept; [|done]. apply apply_succeeds_iff. cbn [proposed ac_ext_id ac_target_app ac_payload]. rewrite Hid, Hp.
  split; [done|]. split; [apply (bool_decide_unpack _); vm_compute; exact I|]. split; [done|].
  exists x. assert (ch_extraction (get_provenance (e_ext_id e) log') = Some x) as Hch.
  { rewrite <-Hp. unfold get_provenance. by rewrite Hold, Hna, Ne, Hx. }
  split; [exact Hch|]. right. exists (JStr (e_value x)). split; [by rewrite Hv'|]. by right.
Qed.
End Applied.

(** ** A session *)

#[local] Existing Instance sort_order.
#[local] Existing Instances demo_ingestor no_compressor no_numerics.
#[local] Opaque sha256_hex.

Definition action_at (i : nat) : string := "act-" +:+ pretty (N.of_nat i).
Lemma action_at_inj i j : action_at i = action_at j → i = j.
Proof. unfold action_at. intros H. injection H as H. change (pretty (N.of_nat i) = pretty (N.of_nat j)) in H. apply (inj pretty) in H. by apply Nat2N.inj in H. Qed.

Abbreviation shown_as suffix pack s :=
  (@run_demo demo_ingestor open_filter pack no_compressor no_numerics sort_order demo_server demo_fs (λ b, b) (λ _, suffix)
    "a.txt" "d-route" "" action_at s).

Abbreviation first_session := (shown_as ".txt" (demo_pack "acme") Orchestrator.start).

Definition answer_of (r : result demo_answer * sys) : demo_answer := match r.1 with Ok a => a | Raise _ => demo_error "" end.

Lemma first_session_shows : first_session = (Ok (answer_of first_session), first_session.2) ∧ da_success (answer_of first_session) = true ∧
  map sg_value (da_suggestions (answer_of first_session)) = ["acme"].
Proof. vm_compute. by repeat split. Qed.

Lemma action_at_apart i : action_at i ≠ "e1".
Proof. unfold action_at. discriminate. Qed.

Abbreviation first_run := (@Orchestrator.run demo_ingestor open_filter (demo_pack "acme") no_compressor no_numerics sort_order default_gate
  {| d_doc_id := "d-route"; d_source_path := "/srv/a.txt"; d_sha256 := sha256_hex IsolatedIngest.ship_text; d_page_count := 0; d_ingested_at := "" |}
  Orchestrator.start).

Lemma first_run_ids : match first_run.1 with Ok t => map e_ext_id (t_extractions t) = ["e1"] | Raise _ => True end.
Proof. vm_compute. reflexivity. Qed.

Lemma value_shown (l : list suggestion) v : v ∈ map sg_value l → ∃ sg, sg ∈ l ∧ sg_value sg = v.
Proof. intros (sg & -> & Hsg)%list_elem_of_fmap. by exists sg. Qed.

Lemma demo_suggestions_cited_witness : ∃ sg e, sg ∈ da_suggestions (answer_of first_session) ∧ sg_value sg = "acme" ∧
  suggests (prov first_session.2) e sg.
Proof.
  destruct first_session_shows as (Hr & Hs & Hv).
  destruct (demo_suggestions_cited _ _ _ _ _ _ _ _ _ _ _ Hr Hs) as (path & size & content & trace & s1 & Hp & _ & Ho & Hrun & H).
  assert (path = "/srv/a.txt" ∧ content = IsolatedIngest.ship_text) as [-> ->].
  { split; [injection Hp as <-; reflexivity|injection Ho as _ <-; reflexivity]. }
  assert (map e_ext_id (t_extractions trace) = ["e1"]) as Hids.
  { pose proof first_run_ids as Hf. rewrite Hrun in Hf. exact Hf. }
  assert (∀ e, e ∈ t_extractions trace → e_ext_id e = "e1") as Hid.
  { intros e He. apply list_elem_of_singleton. rewrite <-Hids. apply (list_elem_of_fmap_2 e_ext_id), He. }
  destruct (value_shown (da_suggestions (answer_of first_session)) "acme") as (sg & Hsg & Hval); [rewrite Hv; left|].
  destruct H as [_ H].
  { split; [exact action_at_inj|rewrite Hids; apply NoDup_singleton|intros i e He; rewrite (Hid e He); apply action_at_apart|done]. }
  destruct (H sg Hsg) as (e & _ & _ & He). exists sg, e. split; [exact Hsg|]. split; [exact Hval|exact He].
Defined.

(** The extraction of the session, as it was registered. *)
Definition session_extraction : Extraction := ground [demo_chunk] (pack_extraction "acme" (lit 9 10)).
Definition session_log : ProvenanceLog :=
  {| documents := [("d1", demo_document)]; chunks := [(c_chunk_id demo_chunk, demo_chunk)]; extractions := [("e1", session_extraction)]; actions := [] |}.

Lemma session_drawn : drawn action_at [session_extraction] session_log.
Proof.
  split.
  - apply action_at_inj.
  - intros i. unfold action_at. discriminate.
  - intros i e ->%list_elem_of_singleton. unfold action_at. vm_compute. discriminate.
  - apply wf_dict_nil.
  - intros e _. split; [done|]. intros p []%not_elem_of_nil.
  - intros e ->%list_elem_of_singleton. exists session_extraction. split; vm_compute; reflexivity.
Qed.

Definition session_suggestion : suggestion := suggestion_of session_extraction (get_provenance "e1" session_log).
Lemma session_suggests : session_suggestion ∈ (suggest_all action_at 0 [session_extraction] session_log).1.
Proof. apply (list_elem_of_lookup_2 _ 0). vm_compute. reflexivity. Qed.

Lemma suggestion_applied_iff_accepted_witness :
  ar_success (apply_cua (suggest_all action_at 0 [session_extraction] session_log).2 "now" "e1" true) = true ∧
  ar_success (apply_cua (suggest_all action_at 0 [session_extraction] session_log).2 "now" "e1" false) = false.
Proof.
  split.
  - exact (suggestion_applied_iff_accepted action_at 0 _ _ "now" true session_suggestion session_drawn session_suggests).
  - exact (suggestion_applied_iff_accepted action_at 0 _ _ "now" false session_suggestion session_drawn session_suggests).
Defined.

(** The text of a file that is not a text file is taken from the chunks of
    the [Document] the route made, whose identifier no chunk has, and so from
    the chunks of every document the server has read. *)
Definition secret_chunk : Chunk :=
  {| c_chunk_id := "other"; c_doc_id := "d0"; c_page := 0; c_bbox := Some whole_page; c_text := "Payroll of the board"; c_source_type := "text"; c_embedding := [] |}.
Definition used_server : sys :=
  {| prov := {| documents := []; chunks := [("other", secret_chunk)]; extractions := []; actions := [] |}; mem := empty_store |}.

Example other_documents_shown : 
  contains "Payroll of the board" (da_text (answer_of (shown_as ".pdf" (demo_pack "acme") used_server))) = true.
Proof. vm_compute. reflexivity. Qed.

(** A value that no stage of the cascade found is suggested when the pack
    named a chunk for it: the run halts for review, but no status is
    [BLOCKED]. *)
Definition naming_pack : Pack :=
  {| pack_name := "p"; pack_fields := []; extract _ := Ok [
       {| e_ext_id := "e1"; e_pack_id := "p"; e_field_name := "vendor"; e_value := "not in the text"; e_source_span := ""; e_confidence := lit 9 10;
          e_model_version := "m"; e_status := SUGGESTED; e_chunk_id := c_chunk_id demo_chunk; e_method := BLOCK; e_anchors := [] |}] |}.

Example refused_value_suggested : let a := answer_of (shown_as ".txt" naming_pack Orchestrator.start) in
  da_halted a = true ∧ map sg_value (da_suggestions a) = ["not in the text"] ∧
  ar_success (apply_cua (prov (shown_as ".txt" naming_pack Orchestrator.start).2) "now" "e1" true) = true.
Proof. vm_compute. by repeat split. Qed.

(** The 422 of a file that cannot be read is caught by the route's own
    handler and becomes an answer with status 200. *)
Example unreadable_is_200 :
  answer_of (@run_demo demo_ingestor open_filter (demo_pack "acme") no_compressor no_numerics sort_order demo_server
    {| fs_resolve p := Some p; fs_is_file _ := true; fs_open _ := raise "OSError" "" |} (λ b, b) (λ _, ".txt") "a.txt" "d" "" action_at Orchestrator.start)
  = demo_error "422: Unable to read a.txt".
Proof. vm_compute. reflexivity. Qed.

(** The page image of an extraction whose chain is incomplete is looked up
    under the name of its pack, not of its document. *)
Definition loose_extraction : Extraction :=
  {| e_ext_id := "e9"; e_pack_id := "InvoicePack"; e_field_name := "vendor"; e_value := "acme"; e_source_span := ""; e_confidence := f1;
     e_model_version := "m"; e_status := SUGGESTED; e_chunk_id := "gone"; e_method := EXACT;
     e_anchors := [{| a_chunk_id := "gone"; a_char_span := (0, 4); a_page := 1; a_bbox := Some whole_page |}] |}.
Definition loose_state (page_of : string) : sys :=
  {| prov := register_extraction loose_extraction empty_log;
     mem := match upsert_page {| p_doc_id := page_of; p_index := 1; p_width_px := 10; p_height_px := 10; p_image_sha256 := "ab" |} empty_store with
            | Ok m => m | Raise _ => empty_store end |}.

Example image_by_pack_name :
  so_image <$> get_source_provenance "e9" (loose_state "d1") = Ok "" ∧
  so_image <$> get_source_provenance "e9" (loose_state "InvoicePack") = Ok "/static/page_images/ab.png".
Proof. vm_compute. by repeat split. Qed.
