(* ===== verification/InferenceGateway.v ===== *)
(** * The inference gateway

    [kernel/sidecar/inference_gateway.py]: a call goes to the local proxy, to
    the cloud model when the third tier is enabled, or, in test mode, nowhere;
    the file [calls.jsonl] gets a line for it.  The proxy is a function of the
    request; the requests that were sent and the text of the file are the
    state.  The identifier of a call, its time stamp, the environment variable
    of test mode and whether the file can be written are arguments. *)

From S2P Require Import Prelude PyStr PyFloat PyDict Json JsonRead.

(** [InferenceTier] *)
Inductive InferenceTier := TIER1_LOCAL | TIER3_CLOUD.
#[export] Instance InferenceTier_eq_dec : EqDecision InferenceTier.
Proof. solve_decision. Defined.
Definition tier_name (t : InferenceTier) : string := match t with TIER1_LOCAL => "TIER1_LOCAL" | TIER3_CLOUD => "TIER3_CLOUD" end.

(** The content of the message is used as the text without a check. *)
Record InferenceResult := { ir_text : json; ir_call_id : string }.

Record TieredInferenceGateway := {
  gw_tier3_enabled : bool; gw_litellm_base_url : string; gw_tier1_model : string; gw_tier3_model : string }.

(** [__init__] *)
Definition gateway (tier3_enabled : bool) (litellm_base_url tier1_model tier3_model : string) : TieredInferenceGateway :=
  {| gw_tier3_enabled := tier3_enabled; gw_litellm_base_url := rstrip_by (λ c, bool_decide (c = "/"%char)) litellm_base_url;
     gw_tier1_model := tier1_model; gw_tier3_model := tier3_model |}.

Definition VALID_ROLES : list string := ["router"; "extractor"; "reasoner"].

Definition test_mode_on (env : string) : bool := bool_decide (lower env ∈ ["1"; "true"; "yes"]).

Record http_request := { hr_url : string; hr_model : string; hr_data : bytes }.

(** An error of the connection, which is caught; another exception of the
    client; or the bytes of the answer. *)
Inductive reply := Unavailable (why : string) | Broken (e : exn) | Answered (data : bytes).

Record state := { calls_file : string; sent : list http_request }.

(** One call, with the readings made for it. *)
Record call := {
  cl_role : string; cl_prompt : string; cl_tier : InferenceTier;
  cl_id : string; cl_now : string; cl_env : string; cl_writable : bool }.

(** [len(v)] and [v[:n]] for the text of an answer. *)
Definition len_of (v : json) : result Z :=
  match v with
  | JStr s => Ok (len s) | JArr l => Ok (Z.of_nat (length l)) | JObj l => Ok (Z.of_nat (length l))
  | _ => raise "TypeError" "object has no len()"
  end.
Definition slice_of (n : nat) (v : json) : result json :=
  match v with
  | JStr s => Ok (JStr (take_str n s)) | JArr l => Ok (JArr (take n l))
  | _ => raise "TypeError" "not sliceable"
  end.

Section Gateway.
Context `{FRd : FloatRead}.
Variable gw : TieredInferenceGateway.
Variable transport : http_request → reply.

Definition log_entry (c : call) (response_text : json) (error : json) (test_mode : bool) : result json :=
  response_length ← (if truthy_json response_text then len_of response_text else Ok 0);
  response_preview ← (if truthy_json response_text then slice_of 200 response_text else Ok JNull);
  Ok (JObj [("call_id", JStr (cl_id c)); ("timestamp", JStr (cl_now c)); ("role", JStr (cl_role c)); ("tier", JStr (tier_name (cl_tier c)));
            ("prompt_length", JInt (len (cl_prompt c))); ("prompt_preview", JStr (take_str 200 (cl_prompt c)));
            ("response_length", JInt response_length); ("response_preview", response_preview); ("error", error); ("test_mode", JBool test_mode)]).

Definition log_line (entry : json) : string := dumps true entry +:+ String "010" "".

(** [_log_call]: a file that cannot be written is only a warning. *)
Definition log_call (c : call) (response_text error : json) (test_mode : bool) (st : state) : result () * state :=
  match log_entry c response_text error test_mode with
  | Raise e => (Raise e, st)
  | Ok entry =>
      (Ok (), if cl_writable c then {| calls_file := calls_file st +:+ log_line entry; sent := sent st |} else st)
  end.

Definition then_ {A} (r : result () * state) (a : result A) : result A * state :=
  match r with (Ok _, st) => (a, st) | (Raise e, st) => (Raise e, st) end.

Definition model_for (t : InferenceTier) : string := if bool_decide (t = TIER1_LOCAL) then gw_tier1_model gw else gw_tier3_model gw.

Definition message_json (role content : string) : json := JObj [("role", JStr role); ("content", JStr content)].
Definition request_for (c : call) : http_request :=
  let model := model_for (cl_tier c) in
  {| hr_url := gw_litellm_base_url gw +:+ "/v1/chat/completions"; hr_model := model;
     hr_data := utf8 (dumps true (JObj [("model", JStr model);
       ("messages", JArr [message_json "system" ("You are a Kairo Phantom " +:+ cl_role c +:+ "."); message_json "user" (cl_prompt c)]);
       ("temperature", JFloat f0)])) |}.

(** [v[k]] and [v[0]] *)
Definition item (k : string) (v : json) : result json :=
  match v with
  | JObj l => match assoc k l with Some x => Ok x | None => raise "KeyError" k end
  | _ => raise "TypeError" "indices must be integers"
  end.
Definition first (v : json) : result json :=
  match v with
  | JArr (x :: _) => Ok x
  | JArr [] => raise "IndexError" "list index out of range"
  | JStr (String c _) => Ok (JStr (String c ""))
  | JStr "" => raise "IndexError" "string index out of range"
  | JObj _ => raise "KeyError" "0"
  | _ => raise "TypeError" "object is not subscriptable"
  end.
Definition answer_text (data : json) : result json :=
  choices ← item "choices" data; choice ← first choices; message ← item "message" choice; item "content" message.

Definition litellm_complete (c : call) (st : state) : result InferenceResult * state :=
  let rq := request_for c in
  let st := {| calls_file := calls_file st; sent := sent st ++ [rq] |} in
  match transport rq with
  | Broken e => (Raise e, st)
  | Unavailable why => then_ (log_call c JNull (JStr why) false st) (raise "InferenceGatewayError" ("LiteLLM/Ollama unavailable: " +:+ why))
  | Answered bytes =>
      match s ← utf8_decode bytes; data ← loads s; answer_text data with
      | Raise e => (Raise e, st)
      | Ok text => then_ (log_call c text JNull false st) (Ok {| ir_text := text; ir_call_id := cl_id c |})
      end
  end.

Definition test_text (c : call) : string :=
  "[TEST_MODE] role=" +:+ cl_role c +:+ " tier=" +:+ tier_name (cl_tier c) +:+ " prompt_len=" +:+ pretty (len (cl_prompt c)) +:+
  " echo=" +:+ take_str 80 (cl_prompt c).
Definition test_mode_complete (c : call) (st : state) : result InferenceResult * state :=
  then_ (log_call c (JStr (test_text c)) JNull true st) (Ok {| ir_text := JStr (test_text c); ir_call_id := cl_id c |}).

Definition complete (c : call) (st : state) : result InferenceResult * state :=
  if negb (bool_decide (cl_role c ∈ VALID_ROLES)) then (raise "ValueError" ("Invalid role '" +:+ cl_role c +:+ "'"), st)
  else if negb (truthy (strip (cl_prompt c))) then (raise "ValueError" "Prompt must be non-empty.", st)
  else if bool_decide (cl_tier c = TIER3_CLOUD) && negb (gw_tier3_enabled gw) then
    then_ (log_call c JNull (JStr "AIR_GAP_BLOCKED") false st) (raise "AirGapViolationError" ("Tier3 (cloud) is disabled. call_id=" +:+ cl_id c))
  else if test_mode_on (cl_env c) then test_mode_complete c st
  else litellm_complete c st.

Fixpoint session (cs : list call) (st : state) : list (result InferenceResult) * state :=
  match cs with
  | [] => ([], st)
  | c :: cs' => let '(r, st) := complete c st in let '(rs, st) := session cs' st in (r :: rs, st)
  end.
End Gateway.

(** ** The air gap *)

Section Promises.
Context `{FRd : FloatRead}.
Variable gw : TieredInferenceGateway.
Variable transport : http_request → reply.

(** The two checks of the arguments. *)
Definition accepted_call (c : call) : Prop := cl_role c ∈ VALID_ROLES ∧ strip (cl_prompt c) ≠ "".

Lemma log_call_sent c t e m st : sent (log_call c t e m st).2 = sent st.
Proof. unfold log_call. destruct (log_entry _ _ _ _); [|done]. by destruct (cl_writable c). Qed.

Lemma then_state {A} r (a : result A) : (then_ r a).2 = r.2.
Proof. by destruct r as [[|] ?]. Qed.

Lemma log_text_entry c s error m : ∃ entry, log_entry c (JStr s) error m = Ok entry.
Proof. unfold log_entry. cbn [truthy_json]. by destruct (truthy s); eexists. Qed.
Lemma log_null_entry c error m : ∃ entry, log_entry c JNull error m = Ok entry.
Proof. by eexists. Qed.

Lemma complete_sent c st : let '(_, st') := complete gw transport c st in
  sent st' = sent st ∨
  (accepted_call c ∧ test_mode_on (cl_env c) = false ∧ (cl_tier c = TIER3_CLOUD → gw_tier3_enabled gw = true) ∧
   sent st' = sent st ++ [request_for gw c]).
Proof.
  destruct (complete gw transport c st) as [r st'] eqn:E. revert E. unfold complete.
  destruct (bool_decide_reflect (cl_role c ∈ VALID_ROLES)) as [Hr|]; cbn [negb]; [|intros [= _ <-]; by left].
  destruct (truthy (strip (cl_prompt c))) eqn:Ht; cbn [negb]; [|intros [= _ <-]; by left]. apply truthy_spec in Ht.
  destruct (bool_decide (cl_tier c = TIER3_CLOUD) && negb (gw_tier3_enabled gw)) eqn:Ec.
  { intros E. left. apply (f_equal snd) in E. rewrite then_state in E. cbn [snd] in E. subst. apply log_call_sent. }
  destruct (test_mode_on (cl_env c)) eqn:Em.
  { intros E. left. apply (f_equal snd) in E. unfold test_mode_complete in E. rewrite then_state in E. cbn [snd] in E. subst. apply log_call_sent. }
  intros E. right. split; [done|]. split; [done|]. split.
  { intros Hc. rewrite bool_decide_true in Ec by done. cbn in Ec. by apply negb_false_iff in Ec. }
  apply (f_equal snd) in E. cbn [snd] in E. subst st'. unfold litellm_complete. destruct (transport _).
  - by rewrite then_state, log_call_sent.
  - done.
  - destruct (mbind _ _); [|done]. by rewrite then_state, log_call_sent.
Qed.

(** C18.  With the third tier disabled, nothing a session of calls sends is meant
    for the cloud: each request is that of an accepted local call outside of
    test mode, to the proxy and for the local model, and every accepted call
    for the cloud is refused as a violation of the air gap. *)
Theorem air_gap_sealed cs st : gw_tier3_enabled gw = false →
  let '(rs, st') := session gw transport cs st in
  (∃ new, sent st' = sent st ++ new ∧ ∀ rq, rq ∈ new → ∃ c, c ∈ cs ∧ accepted_call c ∧ cl_tier c = TIER1_LOCAL ∧
     test_mode_on (cl_env c) = false ∧ rq = request_for gw c ∧ hr_model rq = gw_tier1_model gw) ∧
  Forall2 (λ c r, accepted_call c → cl_tier c = TIER3_CLOUD → ∃ msg, r = raise "AirGapViolationError" msg) cs rs.
Proof.
  intros Hoff. revert st. induction cs as [|c cs IH]; intros st; cbn [session].
  { split; [|constructor]. exists []. rewrite app_nil_r. split; [done|]. by intros rq ?%not_elem_of_nil. }
  pose proof (complete_sent c st) as Hs. destruct (complete gw transport c st) as [r st1] eqn:E. specialize (IH st1).
  destruct (session gw transport cs st1) as [rs st2]. destruct IH as ((new & Hn & Hnew) & Hrs). split.
  - assert (∀ rq, rq ∈ new → ∃ c', c' ∈ c :: cs ∧ accepted_call c' ∧ cl_tier c' = TIER1_LOCAL ∧
      test_mode_on (cl_env c') = false ∧ rq = request_for gw c' ∧ hr_model rq = gw_tier1_model gw) as Hnew'.
    { intros rq (c' & Hc' & H)%Hnew. exists c'. split; [by right|done]. }
    destruct Hs as [Hs|(Ha & Hm & Ht & Hs)]; rewrite Hn, Hs; [by exists new|].
    exists (request_for gw c :: new). rewrite <-app_assoc. split; [done|]. intros rq [->|Hrq]%elem_of_cons; [|by apply Hnew'].
    assert (cl_tier c = TIER1_LOCAL) as Hl by (destruct (cl_tier c); [done|]; by rewrite Hoff in Ht; specialize (Ht eq_refl)).
    exists c. split; [by left|]. do 4 (split; [done|]). unfold request_for. cbn [hr_model]. by rewrite Hl.
  - constructor; [|done]. intros [Hr Hp] Hc. unfold complete in E. rewrite bool_decide_true in E by done. cbn [negb] in E.
    assert (truthy (strip (cl_prompt c)) = true) as Ht by by apply truthy_spec. rewrite Ht in E. cbn [negb] in E.
    rewrite Hc, Hoff in E. cbn [negb andb] in E. change (bool_decide (TIER3_CLOUD = TIER3_CLOUD)) with true in E. cbn [andb] in E.
    unfold log_call, log_entry in E. cbn [truthy_json mbind result_bind then_] in E. eexists. by injection E as <- _.
Qed.
End Promises.

(** ** The log *)

Definition not_lf (c : ascii) : bool := negb (bool_decide (c = "010"%char)).

Lemma escape_char_not_lf ea c : forall_str not_lf (escape_char ea c) = true.
Proof. destruct ea; destruct c as [[] [] [] [] [] [] [] []]; reflexivity. Qed.
Lemma escape_not_lf ea s : forall_str not_lf (escape ea s) = true.
Proof. induction s as [|c s IH]; [done|]. cbn [escape]. by rewrite forall_str_app, escape_char_not_lf, IH. Qed.
Lemma quote_not_lf ea s : forall_str not_lf (quote ea s) = true.
Proof. unfold quote. cbn [forall_str]. rewrite forall_str_app, escape_not_lf. reflexivity. Qed.

Lemma join_not_lf sep l : forall_str not_lf sep = true → Forall (λ s, forall_str not_lf s = true) l → forall_str not_lf (join sep l) = true.
Proof.
  intros Hs. induction 1 as [|x l Hx Hl IH]; [done|]. destruct l as [|y l]; [done|].
  change (join sep (x :: y :: l)) with (x +:+ sep +:+ join sep (y :: l)). by rewrite !forall_str_app, Hx, Hs, IH.
Qed.

Section Log.
Context `{FRd : FloatRead}.

(** A dumped value is on one line. *)
Lemma dumps_one_line ea v : forall_str not_lf (dumps ea v) = true.
Proof.
  induction v as [|b|z|f|s|l IH|l IH] using json_ind'; cbn [dumps].
  - done.
  - by destruct b.
  - eapply forall_str_impl; [|apply pretty_Z_chars]. intros c. destruct c as [[] [] [] [] [] [] [] []]; done.
  - eapply forall_str_impl; [|apply float_token_atom]. intros c. destruct c as [[] [] [] [] [] [] [] []]; done.
  - apply quote_not_lf.
  - rewrite !forall_str_app, join_not_lf; [done..|]. by apply Forall_fmap.
  - rewrite !forall_str_app, join_not_lf; [done..|]. apply Forall_fmap. eapply Forall_impl; [exact IH|]. intros [k x] Hx. cbn in *.
    by rewrite forall_str_app, quote_not_lf, forall_str_app, Hx.
Qed.

Definition log_text (entries : list json) : string := foldr (λ e s, log_line e +:+ s) "" entries.

(** The lines of a file whose last line is ended. *)
Definition file_lines (s : string) : list string := removelast (split_char "010" s).

Lemma split_line a b : forall_str not_lf a = true → split_char "010" (a +:+ String "010" b) = a :: split_char "010" b.
Proof.
  induction a as [|c a IH]; [done|]. cbn [forall_str]. intros [Hc Ha]%andb_true_iff. rewrite app_cons_str. cbn [split_char].
  unfold not_lf in Hc. apply negb_true_iff in Hc. bool_prop. rewrite decide_False by done. by rewrite IH.
Qed.

Lemma log_text_lines es : file_lines (log_text es) = map (dumps true) es.
Proof.
  unfold file_lines. induction es as [|e es IH]; [done|]. cbn [log_text foldr]. fold (log_text es). unfold log_line.
  rewrite <-app_assoc_str. change (String "010" "" +:+ log_text es) with (String "010" (log_text es)).
  rewrite split_line by apply dumps_one_line. cbn [removelast map]. rewrite IH.
  destruct (split_char "010" (log_text es)) eqn:E; [|done].
  assert (∀ s, split_char "010" s ≠ []) as Hne. { intros s. induction s as [|c s IHs]; [done|]. cbn. destruct (decide _); [done|]. by destruct (split_char _ s). }
  by apply Hne in E.
Qed.

(** What was logged is read back, one value per line. *)
Lemma log_text_loads es : Forall (λ e, wf_json e = true ∧ distinct_keys e = true) es → mapM_result loads (file_lines (log_text es)) = Ok es.
Proof.
  rewrite log_text_lines. induction 1 as [|e es [Hw Hd] _ IH]; [done|]. cbn [map mapM_result].
  assert (loads (dumps true e) = Ok e) as ->.
  { rewrite <-(app_nil_r_str (dumps true e)). apply (loads_writes default_hooks e (dumps true e) "" "" (dumps_writes true e)); [done..|]. by apply default_reads. }
  cbn [mbind result_bind]. by rewrite IH.
Qed.

Lemma log_text_app es es' : log_text (es ++ es') = log_text es +:+ log_text es'.
Proof. induction es as [|e es IH]; [done|]. cbn. fold (log_text (es ++ es')) (log_text es). by rewrite IH, app_assoc_str. Qed.
End Log.

Section Recorded.
Context `{FRd : FloatRead}.
Variable gw : TieredInferenceGateway.
Variable transport : http_request → reply.

(** A refusal by the air gap, and a proxy that cannot be reached. *)
Definition must_log (c : call) : Prop :=
  accepted_call c ∧ ((cl_tier c = TIER3_CLOUD ∧ gw_tier3_enabled gw = false) ∨
    (test_mode_on (cl_env c) = false ∧ ∃ why, transport (request_for gw c) = Unavailable why)).

(** The lines a call leaves: at most one, under its identifier and tier; it
    has an error exactly when no text was returned; there is one when the file
    can be written and the call returned a text or was one of the above. *)
Definition is_json_null (v : option json) : bool := match v with Some JNull => true | _ => false end.
Definition recorded (c : call) (r : result InferenceResult) (es : list json) : Prop :=
  (es = [] ∨ ∃ e, es = [e] ∧ accepted_call c ∧ get e "call_id" = Some (JStr (cl_id c)) ∧ get e "tier" = Some (JStr (tier_name (cl_tier c))) ∧
     (is_json_null (get e "error") = true ↔ ∃ res, r = Ok res)) ∧
  (cl_writable c = true → (∃ res, r = Ok res) ∨ must_log c → length es = 1%nat) ∧
  (∀ res, r = Ok res → ir_call_id res = cl_id c).

(** The effect of [_log_call] on the file. *)
Lemma log_call_file c text error m st : let '(r, st') := log_call c text error m st in
  (∃ e, log_entry c text error m = Ok e ∧ r = Ok () ∧ calls_file st' = calls_file st +:+ log_text (if cl_writable c then [e] else [])) ∨
  ∃ x, log_entry c text error m = Raise x ∧ r = Raise x ∧ st' = st.
Proof.
  unfold log_call. destruct (log_entry c text error m) as [e|x]; [left|right; by exists x].
  exists e. split; [done|]. split; [done|]. destruct (cl_writable c); cbn [calls_file log_text foldr]; by rewrite ?app_nil_r_str.
Qed.

Lemma log_entry_fields c text error m e : log_entry c text error m = Ok e →
  get e "call_id" = Some (JStr (cl_id c)) ∧ get e "tier" = Some (JStr (tier_name (cl_tier c))) ∧ get e "error" = Some error.
Proof.
  unfold log_entry. intros H. apply bind_Ok in H as (n & _ & H). apply bind_Ok in H as (p & _ & H). injection H as <-. done.
Qed.

(** An attempt to log, followed by the outcome [a]. *)
Lemma then_recorded c text error m st (a : result InferenceResult) : accepted_call c →
  (is_json_null (Some error) = true ↔ ∃ res, a = Ok res) → (∀ res, a = Ok res → ir_call_id res = cl_id c) →
  (must_log c → ∃ e, log_entry c text error m = Ok e) →
  let '(r, st') := then_ (log_call c text error m st) a in
  ∃ es, calls_file st' = calls_file st +:+ log_text es ∧ recorded c r es.
Proof.
  intros Hacc Herr Hid Hx. pose proof (log_call_file c text error m st) as Hf. destruct (log_call c text error m st) as [r st'].
  destruct Hf as [(e & He & -> & Hf)|(x & He & -> & ->)]; cbn [then_].
  - apply log_entry_fields in He as (Hi & Ht & Hr). eexists. split; [exact Hf|]. split; [|split; [|done]].
    + destruct (cl_writable c); [right|by left]. exists e. by rewrite Hr.
    + by intros ->.
  - exists []. cbn [log_text foldr]. rewrite app_nil_r_str. split; [done|]. split; [by left|]. split; [|done].
    intros _ [(res & [=])|Hm]. apply Hx in Hm as [e Hm]. by rewrite He in Hm.
Qed.

(** An exception that reaches the caller before anything is logged. *)
Lemma raised_recorded c x st : ¬ must_log c →
  ∃ es, calls_file st = calls_file st +:+ log_text es ∧ recorded c (Raise x) es.
Proof.
  intros Hm. exists []. cbn [log_text foldr]. rewrite app_nil_r_str. split; [done|]. split; [by left|]. split; [|done]. by intros _ [(res & [=])|?].
Qed.

Lemma litellm_recorded c st : accepted_call c → (cl_tier c = TIER3_CLOUD → gw_tier3_enabled gw = true) → 
  let '(r, st') := litellm_complete gw transport c st in ∃ es, calls_file st' = calls_file st +:+ log_text es ∧ recorded c r es.
Proof.
  intros Hacc Hc. unfold litellm_complete. set (st1 := {| calls_file := calls_file st; sent := _ |}).
  change (calls_file st) with (calls_file st1). clearbody st1.
  assert ((∀ why, transport (request_for gw c) ≠ Unavailable why) → ¬ must_log c) as Hno.
  { intros Hn (_ & [[Ht Hd]|(_ & why & Hw)]); [apply Hc in Ht; congruence|by destruct (Hn why)]. }
  destruct (transport (request_for gw c)) as [why|x|data] eqn:Et.
  - apply then_recorded; try done. + split; [done|by intros [? [=]]]. + intros _. apply log_null_entry.
  - apply raised_recorded, Hno. by intros why [=].
  - destruct (s ← utf8_decode data; d ← loads s; answer_text d) as [text|x]; [|apply raised_recorded, Hno; by intros why [=]].
    apply then_recorded; try done. + split; [by eexists|done]. + by intros res [= <-]. + intros Hm. destruct Hno; [by intros why [=]|done].
Qed.

Lemma complete_recorded c st :
  let '(r, st') := complete gw transport c st in ∃ es, calls_file st' = calls_file st +:+ log_text es ∧ recorded c r es.
Proof.
  unfold complete. destruct (bool_decide_reflect (cl_role c ∈ VALID_ROLES)) as [Hr|Hr]; cbn [negb].
  2: { apply raised_recorded. by intros ([? _] & _). }
  destruct (truthy (strip (cl_prompt c))) eqn:Ht; cbn [negb].
  2: { apply raised_recorded. intros ([_ Hp] & _). apply truthy_spec in Hp. congruence. }
  apply truthy_spec in Ht. assert (accepted_call c) as Hacc by done.
  destruct (bool_decide (cl_tier c = TIER3_CLOUD) && negb (gw_tier3_enabled gw)) eqn:Ec.
  { apply then_recorded; try done. - split; [done|by intros [? [=]]]. - intros _. apply log_null_entry. }
  destruct (test_mode_on (cl_env c)).
  { apply then_recorded; try done. - split; [by eexists|done]. - by intros res [= <-]. - intros _. apply log_text_entry. }
  apply litellm_recorded; [done|]. intros Hc. rewrite bool_decide_true in Ec by done. by apply negb_false_iff in Ec.
Qed.

(** C19.  The log of a session is the concatenation of the lines of its calls, and
    each call leaves the line it should: one per returned text, refusal of the
    cloud and unreachable proxy.  The file, split at its line breaks and
    parsed, gives the logged values back. *)
Theorem calls_are_recorded cs st :
  let '(rs, st') := session gw transport cs st in
  ∃ ess, length ess = length cs ∧ length rs = length cs ∧
    calls_file st' = calls_file st +:+ log_text (concat ess) ∧
    (∀ i c r es, cs !! i = Some c → rs !! i = Some r → ess !! i = Some es → recorded c r es) ∧
    (calls_file st = "" → Forall (λ e, wf_json e = true ∧ distinct_keys e = true) (concat ess) →
       mapM_result loads (file_lines (calls_file st')) = Ok (concat ess)).
Proof.
  assert (let '(rs, st') := session gw transport cs st in
    ∃ ess, length ess = length cs ∧ length rs = length cs ∧ calls_file st' = calls_file st +:+ log_text (concat ess) ∧
      (∀ i c r es, cs !! i = Some c → rs !! i = Some r → ess !! i = Some es → recorded c r es)) as H.
  { revert st. induction cs as [|c cs IH]; intros st; cbn [session].
    { exists []. cbn. rewrite app_nil_r_str. by split_and!. }
    pose proof (complete_recorded c st) as Hc. destruct (complete gw transport c st) as [r st1]. destruct Hc as (es & Hf & Hrec).
    specialize (IH st1). destruct (session gw transport cs st1) as [rs st2]. destruct IH as (ess & Hl & Hl' & Hf' & Hrecs).
    exists (es :: ess). cbn [length concat]. split; [by rewrite Hl|]. split; [by rewrite Hl'|].
    split; [by rewrite Hf', Hf, log_text_app, app_assoc_str|]. intros [|i] c' r' es'; cbn; [by intros [= <-] [= <-] [= <-]|apply Hrecs]. }
  destruct (session gw transport cs st) as [rs st']. destruct H as (ess & Hl & Hl' & Hf & Hrec). exists ess. split_and!; try done.
  intros Hst Hs. rewrite Hf, Hst, app_nil_l_str. by apply log_text_loads.
Qed.
End Recorded.

(** ** A session *)

#[local] Existing Instance decimal_float_repr.
#[local] Existing Instance decimal_float_read.

Definition local_gateway : TieredInferenceGateway := gateway false "http://127.0.0.1:4000/" "ollama/llama3.2" "gpt-4o-mini".
Definition ask (tier : InferenceTier) (prompt : string) : call :=
  {| cl_role := "extractor"; cl_prompt := prompt; cl_tier := tier; cl_id := "id-" +:+ prompt; cl_now := "2026-01-01T00:00:00+00:00"; cl_env := "false"; cl_writable := true |}.
Definition chat_answer (content : json) : bytes :=
  utf8 (dumps true (JObj [("choices", JArr [JObj [("message", JObj [("content", content)])]])])).
Definition proxy (rq : http_request) : reply := Answered (chat_answer (JStr "Acme")).
Definition fresh_state : state := {| calls_file := ""; sent := [] |}.
Definition two_calls : list call := [ask TIER1_LOCAL "who"; ask TIER3_CLOUD "whom"].

Lemma air_gap_sealed_witness : gw_tier3_enabled local_gateway = false ∧
  Forall2 (λ c r, accepted_call c → cl_tier c = TIER3_CLOUD → ∃ msg, r = raise "AirGapViolationError" msg) two_calls
    (session local_gateway proxy two_calls fresh_state).1.
Proof.
  split; [reflexivity|]. pose proof (air_gap_sealed local_gateway proxy two_calls fresh_state eq_refl) as H.
  destruct (session local_gateway proxy two_calls fresh_state) as [rs st']. exact (proj2 H).
Defined.

Lemma two_calls_served : (session local_gateway proxy two_calls fresh_state).1 =
    [Ok {| ir_text := JStr "Acme"; ir_call_id := "id-who" |}; raise "AirGapViolationError" "Tier3 (cloud) is disabled. call_id=id-whom"] ∧
  length (sent (session local_gateway proxy two_calls fresh_state).2) = 1%nat ∧
  length (file_lines (calls_file (session local_gateway proxy two_calls fresh_state).2)) = 2%nat.
Proof. vm_compute. by repeat split. Qed.

Lemma calls_are_recorded_witness :
  ∃ ess, calls_file (session local_gateway proxy two_calls fresh_state).2 = "" +:+ log_text (concat ess) ∧ length ess = 2%nat.
Proof.
  pose proof (calls_are_recorded local_gateway proxy two_calls fresh_state) as H.
  destruct (session local_gateway proxy two_calls fresh_state) as [rs st']. destruct H as (ess & Hl & _ & Hf & _).
  exists ess. split; [exact Hf|exact Hl].
Defined.

(** A call that was sent and whose answer has not the expected form raises
    and leaves no line. *)
Example malformed_answer_unlogged :
  let '(r, st) := complete local_gateway (λ _, Answered (utf8 "{}")) (ask TIER1_LOCAL "who") fresh_state in
  r = raise "KeyError" "choices" ∧ length (sent st) = 1%nat ∧ calls_file st = "".
Proof. vm_compute. by repeat split. Qed.

(** An answer whose content is [null] is returned as a text. *)
Example null_text_returned :
  (complete local_gateway (λ _, Answered (chat_answer JNull)) (ask TIER1_LOCAL "who") fresh_state).1 = Ok {| ir_text := JNull; ir_call_id := "id-who" |}.
Proof. vm_compute. reflexivity. Qed.
